(** * Grove: synchronisation and reconciliation pipeline

    A shallow embedding of the sync/reconciliation core of the Grove
    backend (content hashing, ingestion, account classification,
    duplicate detection, account merge, initial-sync walk-back) and the
    properties established about it.

    Source files embedded here:
    - [app/utils/hash.py]            ([compute_transaction_hash])
    - [app/crud/transaction.py]      ([_validate_splits], [create_transaction],
                                      [update_transaction], [delete_transaction])
    - [app/crud/account.py]          ([find_duplicate_accounts], [merge_accounts],
                                      [update_account], [create_account],
                                      [get_accounts], [delete_account],
                                      [_get_latest_balance])
    - [app/sync/simplefin.py]        ([classify_account], [process_accounts],
                                      [process_transactions], [process_initial_sync],
                                      [_suggest_category_for_loan_transaction],
                                      [process_account_balance])
    - [app/sync/manager.py]          (the cache of raw responses)
    - [app/models.py]                (tables and their foreign keys)
    - [app/db.py]                    (the session factory)

    Python built-ins the code relies on ([hashlib.sha256], [float],
    [repr] of a float, [datetime.isoformat]) are written out so that every
    definition evaluates on concrete inputs. *)

From stdpp Require Import base option list gmap strings sorting.
From Stdlib Require Import ZArith QArith Ascii String Lia.

Open Scope list_scope.
Open Scope string_scope.
Open Scope Z_scope.

(** ** SHA-256 (FIPS 180-4), as [hashlib.sha256(...).hexdigest()] *)

Module Sha256.

Definition w32 (x : Z) : Z := x mod 2 ^ 32.

Definition rotr (n x : Z) : Z :=
  Z.lor (Z.shiftr x n) (w32 (Z.shiftl x (32 - n))).

Definition ch (x y z : Z) : Z :=
  Z.lxor (Z.land x y) (Z.land (Z.lxor x (2 ^ 32 - 1)) z).

Definition maj (x y z : Z) : Z :=
  Z.lxor (Z.lxor (Z.land x y) (Z.land x z)) (Z.land y z).

Definition bsig0 (x : Z) : Z := Z.lxor (Z.lxor (rotr 2 x) (rotr 13 x)) (rotr 22 x).
Definition bsig1 (x : Z) : Z := Z.lxor (Z.lxor (rotr 6 x) (rotr 11 x)) (rotr 25 x).
Definition ssig0 (x : Z) : Z := Z.lxor (Z.lxor (rotr 7 x) (rotr 18 x)) (Z.shiftr x 3).
Definition ssig1 (x : Z) : Z := Z.lxor (Z.lxor (rotr 17 x) (rotr 19 x)) (Z.shiftr x 10).

(** The constants of FIPS 180-4, from their definition: the first 32 bits
    of the fractional parts of the cube roots (round constants) and of the
    square roots (initial hash value) of the first primes. *)
Definition is_prime (n : nat) : bool :=
  (2 <=? n)%nat && forallb (λ d, negb (n mod d =? 0)%nat) (seq 2 (n - 2)).

Definition first_primes (count : nat) : list Z :=
  List.map Z.of_nat (take count (List.filter is_prime (seq 2 310))).

(** [floor (n ^ (1/3))], one bit at a time from bit [bits - 1] down. *)
Fixpoint icbrt (bits : nat) (n r : Z) : Z :=
  match bits with
  | O => r
  | S b =>
      let c := r + 2 ^ Z.of_nat b in
      icbrt b n (if c * c * c <=? n then c else r)
  end.

Definition K : list Z :=
  Eval vm_compute in
    List.map (λ p, w32 (icbrt 40 (p * 2 ^ 96) 0)) (first_primes 64).

(** The eight working variables / the chaining value. *)
Record regs := Regs { ra : Z; rb : Z; rc : Z; rd : Z; re : Z; rf : Z; rg : Z; rh : Z }.

Definition H0_words : list Z :=
  Eval vm_compute in
    List.map (λ p, w32 (Z.sqrt (p * 2 ^ 64))) (first_primes 8).

Definition H0 : regs :=
  let h i := List.nth i H0_words 0 in
  Regs (h 0%nat) (h 1%nat) (h 2%nat) (h 3%nat) (h 4%nat) (h 5%nat) (h 6%nat) (h 7%nat).

(** Padding: a 1 bit, zeros up to 56 mod 64, the bit length on 8 bytes. *)
Definition be_bytes (n : nat) (x : Z) : list Z :=
  List.map (fun i => Z.shiftr x (8 * Z.of_nat i) mod 256) (List.rev (seq 0 n)).

Definition pad (msg : list Z) : list Z :=
  let len := Z.of_nat (List.length msg) in
  let zeros := Z.to_nat ((55 - len) mod 64) in
  (msg ++ [0x80] ++ List.repeat 0 zeros ++ be_bytes 8 (8 * len))%list.

Fixpoint words_of_bytes (bs : list Z) : list Z :=
  match bs with
  | b0 :: b1 :: b2 :: b3 :: rest =>
      (b0 * 2 ^ 24 + b1 * 2 ^ 16 + b2 * 2 ^ 8 + b3) :: words_of_bytes rest
  | _ => []
  end.

Fixpoint chunks (fuel : nat) (ws : list Z) : list (list Z) :=
  match fuel with
  | O => []
  | S fuel' =>
      match ws with
      | [] => []
      | _ => List.firstn 16 ws :: chunks fuel' (List.skipn 16 ws)
      end
  end.

(** Message schedule, kept most-recent-first while it is extended. *)
Fixpoint extend (n : nat) (rev_w : list Z) : list Z :=
  match n with
  | O => rev_w
  | S n' =>
      let w i := List.nth i rev_w 0 in
      extend n' (w32 (ssig1 (w 1%nat) + w 6%nat + ssig0 (w 14%nat) + w 15%nat) :: rev_w)
  end.

Definition schedule (block : list Z) : list Z :=
  List.rev (extend 48 (List.rev block)).

Definition round (r : regs) (kw : Z * Z) : regs :=
  let '(k, w) := kw in
  let t1 := rh r + bsig1 (re r) + ch (re r) (rf r) (rg r) + k + w in
  let t2 := bsig0 (ra r) + maj (ra r) (rb r) (rc r) in
  Regs (w32 (t1 + t2)) (ra r) (rb r) (rc r) (w32 (rd r + t1)) (re r) (rf r) (rg r).

Definition compress (h : regs) (block : list Z) : regs :=
  let r := List.fold_left round (List.combine K (schedule block)) h in
  Regs (w32 (ra h + ra r)) (w32 (rb h + rb r)) (w32 (rc h + rc r)) (w32 (rd h + rd r))
       (w32 (re h + re r)) (w32 (rf h + rf r)) (w32 (rg h + rg r)) (w32 (rh h + rh r)).

Definition digest (msg : list Z) : regs :=
  let ws := words_of_bytes (pad msg) in
  List.fold_left compress (chunks (List.length ws) ws) H0.

Definition hexdigit (n : Z) : ascii :=
  match n mod 16 with
  | 0 => "0" | 1 => "1" | 2 => "2" | 3 => "3" | 4 => "4" | 5 => "5" | 6 => "6" | 7 => "7"
  | 8 => "8" | 9 => "9" | 10 => "a" | 11 => "b" | 12 => "c" | 13 => "d" | 14 => "e"
  | _ => "f"
  end%char.

Definition hex8 (w : Z) : string :=
  String (hexdigit (Z.shiftr w 28)) (String (hexdigit (Z.shiftr w 24))
 (String (hexdigit (Z.shiftr w 20)) (String (hexdigit (Z.shiftr w 16))
 (String (hexdigit (Z.shiftr w 12)) (String (hexdigit (Z.shiftr w 8))
 (String (hexdigit (Z.shiftr w 4)) (String (hexdigit w) EmptyString))))))).

Definition hex_of_regs (r : regs) : string :=
  hex8 (ra r) ++ hex8 (rb r) ++ hex8 (rc r) ++ hex8 (rd r) ++
  hex8 (re r) ++ hex8 (rf r) ++ hex8 (rg r) ++ hex8 (rh r).

(** A character of a hexadecimal digest: [0-9a-f]. *)
Definition is_hex_digit (c : ascii) : bool :=
  let n := N_of_ascii c in
  ((48 <=? n)%N && (n <=? 57)%N) || ((97 <=? n)%N && (n <=? 102)%N).

(** [str.encode()]: strings are held as their UTF-8 bytes. *)
Definition encode (s : string) : list Z :=
  List.map (fun c => Z.of_N (N_of_ascii c)) (list_ascii_of_string s).

(** [hashlib.sha256(s.encode()).hexdigest()] *)
Definition hexdigest (s : string) : string := hex_of_regs (digest (encode s)).

End Sha256.

(** ** Python numbers: [decimal.Decimal] and [float] *)

Module Py.

(** Decimal digits of a natural number, as [str(int)]. *)
Fixpoint digits_fuel (fuel : nat) (n : Z) (acc : string) : string :=
  match fuel with
  | O => acc
  | S fuel' =>
      let acc' := String (ascii_of_N (Z.to_N (48 + n mod 10))) acc in
      if n / 10 =? 0 then acc' else digits_fuel fuel' (n / 10) acc'
  end.

Definition str_nat (n : Z) : string :=
  digits_fuel (S (Z.to_nat (Z.log2 n))) n "".

Definition str_int (n : Z) : string :=
  if n <? 0 then "-" ++ str_nat (- n) else str_nat n.

(** [str(n).zfill(w)] for a natural number. *)
Definition zfill (w : nat) (n : Z) : string :=
  let s := str_nat n in
  string_of_list_ascii (List.repeat "0"%char (w - String.length s)) ++ s.

Definition zeros (n : Z) : string :=
  string_of_list_ascii (List.repeat "0"%char (Z.to_nat n)).

(** A finite [Decimal]: sign, coefficient and exponent, so that
    [Decimal("12.50")] is [Dec false 1250 (-2)] and [Decimal("12.5")] is
    [Dec false 125 (-1)]. *)
Record Decimal := Dec { d_neg : bool; d_coeff : Z; d_exp : Z }.

Definition Decimal_0 : Decimal := Dec false 0 0.

(** The coefficient rescaled to exponent [e] (for [e <= d_exp d]), signed. *)
Definition scaled (d : Decimal) (e : Z) : Z :=
  (if d_neg d then -1 else 1) * (d_coeff d * 10 ^ (d_exp d - e)).

(** [a == b] on Decimals compares values. *)
Definition dec_eqb (a b : Decimal) : bool :=
  let e := Z.min (d_exp a) (d_exp b) in scaled a e =? scaled b e.

(** [a + b] on Decimals (exact below the context precision of 28 digits). *)
Definition dec_add (a b : Decimal) : Decimal :=
  let e := Z.min (d_exp a) (d_exp b) in
  let s := scaled a e + scaled b e in
  Dec (s <? 0) (Z.abs s) e.

(** [sum(xs)]: the fold starts from the integer 0. *)
Definition dec_sum (xs : list Decimal) : Decimal :=
  List.fold_left dec_add xs Decimal_0.

(** An IEEE-754 binary64 value: [PyFloat neg m e] is [(-1)^neg * m * 2^e]
    with [2^52 <= m < 2^53], or [m < 2^52] and [e = -1074], or [m = 0]. *)
Inductive float :=
| PyFloat (neg : bool) (m : Z) (e : Z)
| PyInf (neg : bool)
| PyNaN.

(** Round [num / den] to the nearest integer, ties to even. *)
Definition round_half_even (num den : Z) : Z :=
  let q := num / den in
  let r := num mod den in
  if (den <? 2 * r) || ((den =? 2 * r) && Z.odd q) then q + 1 else q.

(** [n / d >= 2^g] *)
Definition ge_pow2 (n d g : Z) : bool :=
  if 0 <=? g then d * 2 ^ g <=? n else d <=? n * 2 ^ (- g).

(** The binary64 nearest to the positive fraction [n / d] (in lowest terms). *)
Definition float_of_fraction (neg : bool) (n d : Z) : float :=
  let g := Z.log2 n - Z.log2 d in
  let e0 := if ge_pow2 n d g then g - 52 else g - 53 in
  let e := Z.max e0 (-1074) in
  let m := round_half_even (n * 2 ^ Z.max 0 (- e)) (d * 2 ^ Z.max 0 e) in
  let '(m, e) := if m =? 2 ^ 53 then (2 ^ 52, e + 1) else (m, e) in
  if 971 <? e then PyInf neg
  else if m =? 0 then PyFloat neg 0 0
  else PyFloat neg m e.

(** The binary64 nearest to a positive rational. *)
Definition float_of_Q (neg : bool) (q : Q) : float :=
  let q := Qred q in
  float_of_fraction neg (Qnum q) (Zpos (Qden q)).

(** The value of a decimal with a non-zero coefficient, sign apart. *)
Definition Q_of_decimal (d : Decimal) : Q :=
  Qmake (d_coeff d * 10 ^ Z.max 0 (d_exp d)) (Z.to_pos (10 ^ Z.max 0 (- d_exp d))).

(** [float(d)]: the correctly rounded value of the decimal. *)
Definition float_of_decimal (d : Decimal) : float :=
  if d_coeff d =? 0 then PyFloat (d_neg d) 0 0
  else float_of_Q (d_neg d) (Q_of_decimal d).

(** [a / b] on integers ([a >= 0], [b > 0]): true division, correctly rounded. *)
Definition float_div_int (a b : Z) : float :=
  if a =? 0 then PyFloat false 0 0
  else float_of_Q false (Qmake a (Z.to_pos b)).

(** Comparison of floats by value. *)
Definition float_leb (x y : float) : bool :=
  match x, y with
  | PyNaN, _ | _, PyNaN => false
  | PyInf true, _ => true
  | _, PyInf false => true
  | PyInf false, _ => false
  | _, PyInf true => false
  | PyFloat nx mx ex, PyFloat ny my ey =>
      let sx := if nx then - mx else mx in
      let sy := if ny then - my else my in
      let e := Z.min ex ey in
      sx * 2 ^ (ex - e) <=? sy * 2 ^ (ey - e)
  end.

Definition float_0 : float := PyFloat false 0 0.

#[global] Instance float_eq_dec : EqDecision float.
Proof. solve_decision. Defined.

Definition float_to_sum (x : float) : (bool * Z * Z) + (bool + ()) :=
  match x with
  | PyFloat neg m e => inl (neg, m, e)
  | PyInf neg => inr (inl neg)
  | PyNaN => inr (inr ())
  end.

Definition float_of_sum (x : (bool * Z * Z) + (bool + ())) : float :=
  match x with
  | inl (neg, m, e) => PyFloat neg m e
  | inr (inl neg) => PyInf neg
  | inr (inr _) => PyNaN
  end.

#[global] Instance float_countable : Countable float.
Proof. refine (inj_countable' float_to_sum float_of_sum _). by intros []. Defined.

(** What a float is as a dict key: [0.0 == -0.0] and both hash alike. *)
Definition float_key (x : float) : float :=
  match x with
  | PyFloat _ 0 _ => float_0
  | _ => x
  end.

(** *** [repr(float)]: the shortest digit string that reads back as the
    same float *)

(** [10^x <= n / d] *)
Definition pow10_le (x n d : Z) : bool :=
  if 0 <=? x then 10 ^ x * d <=? n else d <=? n * 10 ^ (- x).

Fixpoint ilog10_down (fuel : nat) (x n d : Z) : Z :=
  match fuel with
  | O => x
  | S fuel' => if pow10_le x n d then x else ilog10_down fuel' (x - 1) n d
  end.

(** [floor (log10 (n / d))] *)
Definition ilog10 (n d : Z) : Z :=
  ilog10_down 4 ((Z.log2 n - Z.log2 d) * 1233 / 4096 + 1) n d.

(** Compare [c * 10^s] with [n / d]. *)
Definition cmp_scaled (c s n d : Z) : comparison :=
  if 0 <=? s then (c * 10 ^ s * d) ?= n else (c * d) ?= (n * 10 ^ (- s)).

(** Is [c * 10^s] inside the rounding interval [lo/den, hi/den]? *)
Definition in_interval (incl : bool) (lo hi den c s : Z) : bool :=
  match cmp_scaled c s lo den, cmp_scaled c s hi den with
  | Gt, Lt => true
  | Eq, _ | _, Eq => incl
  | _, _ => false
  end.

(** Is [cl * 10^s] at least as close to [n/d] as [(cl+1) * 10^s]?  *)
Definition lower_is_closer (cl s n d : Z) : bool :=
  match cmp_scaled (2 * cl + 1) s (2 * n) d with
  | Lt => false
  | _ => true
  end.

Fixpoint shortest (fuel : nat) (k : Z) (incl : bool) (lo v hi den x : Z) : Z * Z :=
  let s := x - k + 1 in
  let cl := if 0 <=? s then v / (den * 10 ^ s) else (v * 10 ^ (- s)) / den in
  let okl := in_interval incl lo hi den cl s in
  let okh := in_interval incl lo hi den (cl + 1) s in
  match fuel with
  | O => (cl, s)
  | S fuel' =>
      if okl && okh then (if lower_is_closer cl s v den then (cl, s) else (cl + 1, s))
      else if okl then (cl, s)
      else if okh then (cl + 1, s)
      else shortest fuel' (k + 1) incl lo v hi den x
  end.

Fixpoint strip_zeros (fuel : nat) (c s : Z) : Z * Z :=
  match fuel with
  | O => (c, s)
  | S fuel' => if (c mod 10 =? 0) && negb (c =? 0) then strip_zeros fuel' (c / 10) (s + 1) else (c, s)
  end.

(** The shortest digits [c] and the position [decpt] of the decimal point:
    the float is read back from [0.c * 10^decpt]. *)
Definition shortest_digits (m e : Z) : string * Z :=
  let lo4 := if (m =? 2 ^ 52) && (-1074 <? e) then 4 * m - 1 else 4 * m - 2 in
  let p := 2 ^ Z.max 0 (e - 2) in
  let den := 2 ^ Z.max 0 (2 - e) in
  let x := ilog10 (4 * m * p) den in
  let '(c, s) := shortest 17 1 (Z.even m) (lo4 * p) (4 * m * p) ((4 * m + 2) * p) den x in
  let '(c, s) := strip_zeros 20 c s in
  let ds := str_nat c in
  (ds, s + Z.of_nat (String.length ds)).

Definition substring_from (n : nat) (s : string) : string :=
  String.substring n (String.length s - n) s.

(** [repr(x)] / [str(x)] / [f"{x}"] *)
Definition float_repr (x : float) : string :=
  match x with
  | PyNaN => "nan"
  | PyInf neg => if neg then "-inf" else "inf"
  | PyFloat neg 0 _ => if neg then "-0.0" else "0.0"
  | PyFloat neg m e =>
      let '(ds, decpt) := shortest_digits m e in
      let nd := Z.of_nat (String.length ds) in
      let body :=
        if (decpt <=? -4) || (16 <? decpt) then
          let ex := decpt - 1 in
          String.substring 0 1 ds
          ++ (if 1 <? nd then "." ++ substring_from 1 ds else "")
          ++ "e" ++ (if ex <? 0 then "-" else "+") ++ zfill 2 (Z.abs ex)
        else if decpt <=? 0 then "0." ++ zeros (- decpt) ++ ds
        else if nd <=? decpt then ds ++ zeros (decpt - nd) ++ ".0"
        else String.substring 0 (Z.to_nat decpt) ds ++ "." ++ substring_from (Z.to_nat decpt) ds
      in (if neg then "-" else "") ++ body
  end.

(** *** Aware UTC [datetime] values: microseconds since the epoch *)

Definition datetime := Z.

Definition us_per_second : Z := 1000000.
Definition us_per_day : Z := 86400 * us_per_second.

(** [datetime.fromtimestamp(ts, tz=UTC)] for an integer [ts] *)
Definition fromtimestamp (ts : Z) : datetime := ts * us_per_second.

(** [timedelta(days=n)] *)
Definition timedelta_days (n : Z) : Z := n * us_per_day.

(** Proleptic Gregorian date of a day number counted from 1970-01-01. *)
Definition civil_from_days (days : Z) : Z * Z * Z :=
  let z := days + 719468 in
  let era := z / 146097 in
  let doe := z - era * 146097 in
  let yoe := (doe - doe / 1460 + doe / 36524 - doe / 146096) / 365 in
  let doy := doe - (365 * yoe + yoe / 4 - yoe / 100) in
  let mp := (5 * doy + 2) / 153 in
  let d := doy - (153 * mp + 2) / 5 + 1 in
  let m := if mp <? 10 then mp + 3 else mp - 9 in
  let y := yoe + era * 400 + (if m <=? 2 then 1 else 0) in
  (y, m, d).

(** [dt.isoformat()] of an aware UTC datetime (years 1 to 9999) *)
Definition isoformat (dt : datetime) : string :=
  let '(y, m, d) := civil_from_days (dt / us_per_day) in
  let us_of_day := dt mod us_per_day in
  let secs := us_of_day / us_per_second in
  let us := us_of_day mod us_per_second in
  zfill 4 y ++ "-" ++ zfill 2 m ++ "-" ++ zfill 2 d ++ "T"
  ++ zfill 2 (secs / 3600) ++ ":" ++ zfill 2 (secs / 60 mod 60) ++ ":" ++ zfill 2 (secs mod 60)
  ++ (if us =? 0 then "" else "." ++ zfill 6 us)
  ++ "+00:00".

(** [s or ""] for an optional string *)
Definition or_empty (s : option string) : string :=
  match s with
  | Some s => s
  | None => ""
  end.

End Py.

(** ** ContentHasher ([app/utils/hash.py]) *)

Definition compute_transaction_hash
    (account_id : string) (posted : option Py.datetime)
    (amount : Py.Decimal) (description : option string) : string :=
  let posted_str :=
    match posted with
    | Some p => Py.isoformat p
    | None => "none"
    end in
  let sig :=
    account_id ++ ":" ++ posted_str ++ ":"
    ++ Py.float_repr (Py.float_of_decimal amount) ++ ":" ++ Py.or_empty description in
  Sha256.hexdigest sig.

(** ** Data model ([app/models.py]) *)

Inductive AccountType := bank | credit_card | investment | loan.

#[global] Instance AccountType_eq_dec : EqDecision AccountType.
Proof. solve_decision. Defined.

Module Account.
Record t := mk {
  id : string;
  name : string;
  alt_name : option string;
  currency : string;
  org_id : string;
  is_hidden : option bool;
  account_type : option AccountType;
  created_at : option Py.datetime
}.

Definition set_account_type (v : option AccountType) (a : t) : t :=
  mk (id a) (name a) (alt_name a) (currency a) (org_id a) (is_hidden a) v (created_at a).
End Account.

Module AccountBalance.
Record t := mk {
  account_id : string;
  balance : Py.Decimal;
  available_balance : option Py.Decimal;
  balance_date : Py.datetime
}.
End AccountBalance.

Module Transaction.
Record t := mk {
  id : string;
  account_id : string;
  amount : Py.Decimal;
  posted : Py.datetime;
  transacted_at : option Py.datetime;
  payee_id : option Z;
  is_pending : option bool;
  description : option string;
  memo : option string;
  content_hash : option string
}.

Definition set_account_id (v : string) (x : t) : t :=
  mk (id x) v (amount x) (posted x) (transacted_at x) (payee_id x)
     (is_pending x) (description x) (memo x) (content_hash x).

Definition set_payee_id (v : option Z) (x : t) : t :=
  mk (id x) (account_id x) (amount x) (posted x) (transacted_at x) v
     (is_pending x) (description x) (memo x) (content_hash x).
End Transaction.

Module TransactionSplit.
Record t := mk {
  transaction_id : string;
  category_id : Z;
  amount : Py.Decimal
}.
End TransactionSplit.

Module Holding.
Record t := mk {
  id : string;
  account_id : string;
  symbol : option string;
  shares : option Py.Decimal;
  market_value : option Py.Decimal
}.

Definition set_account_id (v : string) (x : t) : t :=
  mk (id x) v (symbol x) (shares x) (market_value x).
End Holding.

Module Payee.
Record t := mk {
  name : string;
  category_id : Z
}.
End Payee.

Module Category.
Record t := mk {
  name : string;
  group_id : option Z
}.
End Category.

(** The persisted state.  Tables are keyed by their primary key; the
    tables with an autoincrement key carry their sequence.  A query without
    [ORDER BY] returns the rows in the order of [map_to_list].  The table
    [orgs] is not part of the state: an [org_id] that a call is given is
    taken to be the id of a stored organisation ([process_sync_range] runs
    [process_org] on the organisation before [process_accounts]), so that
    the foreign key of [accounts.org_id] holds. *)
Record DB := mkDB {
  accounts : gmap string Account.t;
  account_balance : gmap Z AccountBalance.t;
  transactions : gmap string Transaction.t;
  transaction_splits : gmap Z TransactionSplit.t;
  holdings : gmap string Holding.t;
  payees : gmap Z Payee.t;
  categories : gmap Z Category.t;
  balance_seq : Z;
  split_seq : Z;
  payee_seq : Z
}.

Definition set_accounts (v : gmap string Account.t) (db : DB) : DB :=
  mkDB v (account_balance db) (transactions db) (transaction_splits db) (holdings db)
       (payees db) (categories db) (balance_seq db) (split_seq db) (payee_seq db).

Definition set_transactions (v : gmap string Transaction.t) (db : DB) : DB :=
  mkDB (accounts db) (account_balance db) v (transaction_splits db) (holdings db)
       (payees db) (categories db) (balance_seq db) (split_seq db) (payee_seq db).

Definition set_transaction_splits (v : gmap Z TransactionSplit.t) (db : DB) : DB :=
  mkDB (accounts db) (account_balance db) (transactions db) v (holdings db)
       (payees db) (categories db) (balance_seq db) (split_seq db) (payee_seq db).

Definition set_holdings (v : gmap string Holding.t) (db : DB) : DB :=
  mkDB (accounts db) (account_balance db) (transactions db) (transaction_splits db) v
       (payees db) (categories db) (balance_seq db) (split_seq db) (payee_seq db).

Definition empty_db : DB := mkDB ∅ ∅ ∅ ∅ ∅ ∅ ∅ 1 1 1.

(** [query.all()]: the rows of a table. *)
Definition rows {K : Type} `{Countable K} {V : Type} (m : gmap K V) : list V :=
  (map_to_list m).*2.

(** [db.add(TransactionSplit(...))]: the row gets the next key of the sequence. *)
Definition add_split (sp : TransactionSplit.t) (db : DB) : DB :=
  mkDB (accounts db) (account_balance db) (transactions db)
       (<[split_seq db := sp]> (transaction_splits db)) (holdings db)
       (payees db) (categories db) (balance_seq db) (split_seq db + 1) (payee_seq db).

(** [db.add(Payee(...)); db.flush()]: returns the new key. *)
Definition add_payee (p : Payee.t) (db : DB) : DB * Z :=
  (mkDB (accounts db) (account_balance db) (transactions db) (transaction_splits db)
        (holdings db) (<[payee_seq db := p]> (payees db)) (categories db)
        (balance_seq db) (split_seq db) (payee_seq db + 1),
   payee_seq db).

(** [txn.splits]: the split rows of a transaction, by key. *)
Definition splits_of (db : DB) (transaction_id : string) : list TransactionSplit.t :=
  rows (filter (λ kv, TransactionSplit.transaction_id kv.2 = transaction_id)
               (transaction_splits db)).

(** [db.query(TransactionSplit).filter(transaction_id == i).delete()] *)
Definition delete_splits_of (transaction_id : string) (db : DB) : DB :=
  set_transaction_splits
    (filter (λ kv, TransactionSplit.transaction_id kv.2 ≠ transaction_id)
            (transaction_splits db)) db.

(** [db.delete(txn)]: the splits relationship is [cascade="all, delete-orphan"]. *)
Definition delete_transaction_row (transaction_id : string) (db : DB) : DB :=
  set_transactions (delete transaction_id (transactions db))
                   (delete_splits_of transaction_id db).

(** [db.delete(account)] as the database carries it out: the foreign keys
    of [account_balance], [transactions] (and, through them,
    [transaction_splits]) and [holdings] are [ON DELETE CASCADE]. *)
Definition delete_account_row (account_id : string) (db : DB) : DB :=
  mkDB (delete account_id (accounts db))
       (filter (λ kv, AccountBalance.account_id kv.2 ≠ account_id) (account_balance db))
       (filter (λ kv, Transaction.account_id kv.2 ≠ account_id) (transactions db))
       (filter (λ kv,
                  Transaction.account_id
                    <$> transactions db !! TransactionSplit.transaction_id kv.2
                  ≠ Some account_id) (transaction_splits db))
       (filter (λ kv, Holding.account_id kv.2 ≠ account_id) (holdings db))
       (payees db) (categories db) (balance_seq db) (split_seq db) (payee_seq db).

(** ** Exceptions and the unit of work *)

Inductive error :=
| ValueError (msg : string)
| TypeError
| KeyError (key : string)
| OverflowError
| AttributeError
| IntegrityError
| DataError
| PydanticValidationError
| SplitMismatchError (transaction_id : string)
                     (expected : option Py.Decimal) (actual : Py.Decimal).

(** The result of a call on a session whose pending work is committed:
    [Ok db a] returns [a] with [db] committed; [Raise db e] leaves with the
    exception [e], and [db] is what is persisted then (work that was not
    committed is discarded with the session). *)
Inductive outcome (A : Type) :=
| Ok (db : DB) (a : A)
| Raise (db : DB) (e : error).
Arguments Ok {A} db a.
Arguments Raise {A} db e.

Definition persisted {A : Type} (o : outcome A) : DB :=
  match o with
  | Ok db _ => db
  | Raise db _ => db
  end.

Definition returned {A : Type} (o : outcome A) : option A :=
  match o with
  | Ok _ a => Some a
  | Raise _ _ => None
  end.

Definition raised {A : Type} (o : outcome A) : option error :=
  match o with
  | Ok _ _ => None
  | Raise _ e => Some e
  end.

(** ** Strings: [str.lower()] and [sub in s] *)

Module Str.

(** Case folding of an ASCII letter. *)
Definition lower_ascii (c : ascii) : ascii :=
  let n := N_of_ascii c in
  if (65 <=? n)%N && (n <=? 90)%N then ascii_of_N (n + 32) else c.

(** The string with its ASCII letters folded, byte by byte. *)
Fixpoint ascii_lower (s : string) : string :=
  match s with
  | EmptyString => EmptyString
  | String c s' => String (lower_ascii c) (ascii_lower s')
  end.

Definition is_byte (n : N) (c : ascii) : bool := (N_of_ascii c =? n)%N.

(** [str.lower()], on the UTF-8 bytes that hold the string.  ASCII letters
    are folded.  Two other characters have an ASCII letter in their lower
    case and are mapped as Python maps them: U+0130 (bytes C4 B0) to [i]
    followed by U+0307 (bytes CC 87), and U+212A, the Kelvin sign (bytes
    E2 84 AA), to [k].  Every other character is left as it is: its lower
    case has no ASCII byte, so that no test [kw in s.lower()] for an ASCII
    keyword can tell the difference. *)
Fixpoint lower (s : string) : string :=
  match s with
  | EmptyString => EmptyString
  | String c s1 =>
      match s1 with
      | EmptyString => String (lower_ascii c) EmptyString
      | String c2 s2 =>
          if is_byte 196 c && is_byte 176 c2
          then String "i" (String (ascii_of_N 204) (String (ascii_of_N 135) (lower s2)))
          else
            match s2 with
            | EmptyString => String (lower_ascii c) (lower s1)
            | String c3 s3 =>
                if is_byte 226 c && is_byte 132 c2 && is_byte 170 c3
                then String "k" (lower s3)
                else String (lower_ascii c) (lower s1)
            end
      end
  end.

(** [sub in s] *)
Fixpoint contains (sub s : string) : bool :=
  String.prefix sub s ||
  match s with
  | EmptyString => false
  | String _ s' => contains sub s'
  end.

(** [any(kw in s for kw in kws)] *)
Definition contains_any (kws : list string) (s : string) : bool :=
  List.existsb (λ kw, contains kw s) kws.

(** Truthiness of a string. *)
Definition truthy (s : string) : bool := negb (String.eqb s "").

End Str.

(** ** Transactions ([app/crud/transaction.py]) *)

(** A timestamp as it reaches [create_transaction]: epoch seconds from the
    remote payload, or a datetime from the API schema. *)
Inductive timeval :=
| Epoch (seconds : Z)
| Datetime (dt : Py.datetime).

Definition _convert_epoch (value : option timeval) : option Py.datetime :=
  match value with
  | None => None
  | Some (Epoch seconds) => Some (Py.fromtimestamp seconds)
  | Some (Datetime dt) => Some dt
  end.

(** [schemas.TransactionSplitBase] / an entry of [splits_data] *)
Module SplitIn.
Record t := mk {
  category_id : Z;
  amount : Py.Decimal
}.
End SplitIn.

(** The [data] dict of [create_transaction]: the fields of
    [schemas.TransactionCreate], plus the keys [payee] and [content_hash]
    that the sync puts in its dicts.  [None] is an absent (or null) key. *)
Module TransactionData.
Record t := mk {
  id : string;
  account_id : string;
  amount : option Py.Decimal;
  posted : option timeval;
  transacted_at : option timeval;
  payee : option string;
  payee_id : option Z;
  is_pending : option bool;
  description : option string;
  memo : option string;
  content_hash : option string;
  splits : option (list SplitIn.t)
}.
End TransactionData.

(** [_validate_splits(transaction)], on the attributes it reads: the id,
    the amount and the [splits] relationship of the object. *)
Definition _validate_splits
    (transaction_id : string) (amount : option Py.Decimal)
    (splits : list TransactionSplit.t) : option error :=
  match splits with
  | [] => None
  | _ :: _ =>
      let split_total := Py.dec_sum (List.map TransactionSplit.amount splits) in
      let differs :=
        match amount with
        | Some a => negb (Py.dec_eqb split_total a)
        | None => true
        end in
      if differs then Some (SplitMismatchError transaction_id amount split_total)
      else None
  end.

(** [Numeric(12, 2)]: the value PostgreSQL stores, and returns, for a
    decimal written to such a column.  It is rounded to two decimal places,
    ties away from zero, and zero has no sign; a value that reaches [10^10]
    in absolute value once rounded is refused ([None], a [DataError]). *)
Definition Numeric_12_2 (d : Py.Decimal) : option Py.Decimal :=
  let shift := Py.d_exp d + 2 in
  let hundredths :=
    if 0 <=? shift then Py.d_coeff d * 10 ^ shift
    else (2 * Py.d_coeff d + 10 ^ (- shift)) / (2 * 10 ^ (- shift)) in
  if 10 ^ 12 <=? hundredths then None
  else Some (Py.Dec (Py.d_neg d && negb (hundredths =? 0)) hundredths (-2)).

(** The INSERT of the split rows of a transaction, which the session
    sends as one statement: each amount is stored as [Numeric(12, 2)], and
    [category_id] is a foreign key to [categories.id]. *)
Definition stored_split (transaction_id : string) (split_in : SplitIn.t)
  : option TransactionSplit.t :=
  amount ← Numeric_12_2 (SplitIn.amount split_in);
  Some (TransactionSplit.mk transaction_id (SplitIn.category_id split_in) amount).

Definition insert_splits (db : DB) (transaction_id : string) (splits_data : list SplitIn.t)
  : error + DB :=
  match mapM (stored_split transaction_id) splits_data with
  | None => inl DataError
  | Some split_rows =>
      if forallb (λ split_in,
                    bool_decide (is_Some (categories db !! SplitIn.category_id split_in)))
                 splits_data
      then inr (foldl (λ d split, add_split split d) db split_rows)
      else inl IntegrityError
  end.

(** [schemas.TransactionUpdate] after [dict(exclude_unset=True)]: [None] is
    a field that is not set, [Some None] a field set to null. *)
Module TransactionUpdate.
Record t := mk {
  amount : option (option Py.Decimal);
  posted : option (option Py.datetime);
  transacted_at : option (option Py.datetime);
  payee_id : option (option Z);
  is_pending : option (option bool);
  description : option (option string);
  memo : option (option string);
  splits : option (list SplitIn.t)
}.
End TransactionUpdate.

(** The value an UPDATE leaves in a [Numeric(12, 2)] column that is NOT
    NULL, [current] being the value stored before. *)
Definition updated_amount (current : Py.Decimal) (value : option (option Py.Decimal))
  : error + Py.Decimal :=
  match value with
  | None => inr current
  | Some None => inl IntegrityError
  | Some (Some amount) =>
      match Numeric_12_2 amount with
      | Some stored => inr stored
      | None => inl DataError
      end
  end.

(** The UPDATE of the row of [db_obj] with the fields that are set:
    [amount] and [posted] are NOT NULL, [payee_id] is a foreign key to
    [payees.id]. *)
Definition update_transaction_row (db : DB) (db_obj : Transaction.t)
    (update_data : TransactionUpdate.t) : error + Transaction.t :=
  match updated_amount (Transaction.amount db_obj) (TransactionUpdate.amount update_data) with
  | inl e => inl e
  | inr amount =>
      match default (Some (Transaction.posted db_obj)) (TransactionUpdate.posted update_data) with
      | None => inl IntegrityError
      | Some posted =>
          let payee_known :=
            match TransactionUpdate.payee_id update_data with
            | Some (Some payee_id) => bool_decide (is_Some (payees db !! payee_id))
            | _ => true
            end in
          if payee_known then
            inr (Transaction.mk (Transaction.id db_obj) (Transaction.account_id db_obj)
                   amount posted
                   (default (Transaction.transacted_at db_obj)
                            (TransactionUpdate.transacted_at update_data))
                   (default (Transaction.payee_id db_obj)
                            (TransactionUpdate.payee_id update_data))
                   (default (Transaction.is_pending db_obj)
                            (TransactionUpdate.is_pending update_data))
                   (default (Transaction.description db_obj)
                            (TransactionUpdate.description update_data))
                   (default (Transaction.memo db_obj) (TransactionUpdate.memo update_data))
                   (Transaction.content_hash db_obj))
          else inl IntegrityError
      end
  end.

(** [update_transaction]: the splits are replaced wholesale; the flush
    writes the row and the new splits, and the object is validated as the
    database returns it, before the commit.  An exception leaves with
    nothing committed. *)
Definition update_transaction
    (db : DB) (transaction_id : string) (transaction_in : TransactionUpdate.t)
  : outcome (option Transaction.t) :=
  match transactions db !! transaction_id with
  | None => Ok db None
  | Some db_obj =>
      match update_transaction_row db db_obj transaction_in with
      | inl e => Raise db e
      | inr db_obj =>
          let db1 := set_transactions (<[transaction_id := db_obj]> (transactions db)) db in
          match TransactionUpdate.splits transaction_in with
          | Some splits_data =>
              (* Replace splits wholesale (simplest strategy) *)
              let db2 := delete_splits_of transaction_id db1 in
              match insert_splits db2 transaction_id splits_data with
              | inl e => Raise db e
              | inr db3 =>
                  (* Validate splits sum to transaction amount *)
                  match _validate_splits transaction_id (Some (Transaction.amount db_obj))
                          (splits_of db3 transaction_id) with
                  | Some e => Raise db e
                  | None => Ok db3 (Some db_obj)
                  end
              end
          | None => Ok db1 (Some db_obj)
          end
      end
  end.

(** [db.query(Payee).filter(Payee.name == n).first()] *)
Definition payee_by_name (db : DB) (n : string) : option (Z * Payee.t) :=
  head (filter (λ kv, Payee.name kv.2 = n) (map_to_list (payees db))).

(** The INSERT of a transaction row: the amount is stored as
    [Numeric(12, 2)], [posted] is NOT NULL, [id] is the primary key,
    [account_id] and [payee_id] are foreign keys to [accounts.id] and
    [payees.id]; an [is_pending] that is [None] is left out of the INSERT,
    and the column takes its default.  The row is returned as stored. *)
Definition insert_transaction (db : DB) (id account_id : string)
    (amount : Py.Decimal) (posted transacted_at : option Py.datetime)
    (payee_id : option Z) (is_pending : option bool)
    (description memo content_hash : option string) : error + DB * Transaction.t :=
  match Numeric_12_2 amount with
  | None => inl DataError
  | Some stored_amount =>
      match posted with
      | None => inl IntegrityError
      | Some posted =>
          let payee_known :=
            match payee_id with
            | Some i => bool_decide (is_Some (payees db !! i))
            | None => true
            end in
          match transactions db !! id with
          | Some _ => inl IntegrityError
          | None =>
              if bool_decide (is_Some (accounts db !! account_id)) && payee_known then
                let txn :=
                  Transaction.mk id account_id stored_amount posted transacted_at payee_id
                    (Some (default false is_pending)) description memo content_hash in
                inr (set_transactions (<[id := txn]> (transactions db)) db, txn)
              else inl IntegrityError
          end
      end
  end.

Section Ingestion.

(** [app.utils.payee_normalizer.normalize_check_payee]: a regular-expression
    rewrite of check-number payee names; it only chooses the payee name and
    stays a parameter here. *)
Variable normalize_check_payee : string → option string → string.

(** [create_transaction].  An exception leaves with nothing committed:
    the payee it may have flushed goes with the session. *)
Definition create_transaction
    (db : DB) (data : TransactionData.t)
    (suggested_payee_category_id : option Z) : outcome Transaction.t :=
  (* Convert epoch -> datetime *)
  let posted := _convert_epoch (TransactionData.posted data) in
  let transacted_at := _convert_epoch (TransactionData.transacted_at data) in
  (* Handle payee string -> Payee object *)
  let with_payee : error + DB * option Z :=
    match TransactionData.payee data with
    | Some payee_name =>
        if Str.truthy payee_name then
          let payee_name :=
            normalize_check_payee payee_name (TransactionData.description data) in
          match payee_by_name db payee_name with
          | Some (i, _) => inr (db, Some i)
          | None =>
              let category_id := default 0 suggested_payee_category_id in
              (* db.add(payee); db.flush(): [payees.category_id] is a
                 foreign key to [categories.id] *)
              if bool_decide (is_Some (categories db !! category_id)) then
                let '(db', i) := add_payee (Payee.mk payee_name category_id) db in
                inr (db', Some i)
              else inl IntegrityError
          end
        else inr (db, TransactionData.payee_id data)
    | None => inr (db, TransactionData.payee_id data)
    end in
  match with_payee with
  | inl e => Raise db e
  | inr (db1, payee_id) =>
      (* [splits] is popped from [data] before [models.Transaction] is built
         from it: the relationship [txn.splits] of the new object is empty *)
      let splits_data := TransactionData.splits data in
      let txn_splits : list TransactionSplit.t := [] in
      match _validate_splits (TransactionData.id data) (TransactionData.amount data)
              txn_splits with
      | Some e => Raise db e
      | None =>
          (* db.add(txn); db.flush() *)
          match TransactionData.amount data with
          | None => Raise db IntegrityError
          | Some amount =>
              match insert_transaction db1 (TransactionData.id data)
                      (TransactionData.account_id data) amount posted transacted_at
                      payee_id (TransactionData.is_pending data)
                      (TransactionData.description data) (TransactionData.memo data)
                      (TransactionData.content_hash data) with
              | inl e => Raise db e
              | inr (db2, txn) =>
                  (* Handle splits *)
                  let splits :=
                    match splits_data with
                    | Some ((_ :: _) as l) => l
                    | _ =>
                        (* Default split (whole amount, uncategorized) *)
                        [SplitIn.mk 0 amount]
                    end in
                  (* db.commit(); db.refresh(txn) *)
                  match insert_splits db2 (Transaction.id txn) splits with
                  | inl e => Raise db e
                  | inr db3 => Ok db3 txn
                  end
              end
          end
      end
  end.

(** *** Ingestion of transactions ([app/sync/simplefin.py]) *)

(** [str(account_type)] of the [str]-mixin enum member *)
Definition str_AccountType (t : AccountType) : string :=
  match t with
  | bank => "AccountType.bank"
  | credit_card => "AccountType.credit_card"
  | investment => "AccountType.investment"
  | loan => "AccountType.loan"
  end.

(** [account_type in ["loan", "mortgage"]] on an optional enum member,
    which compares by its value *)
Definition is_loan_type (t : option AccountType) : bool :=
  match t with
  | Some loan => true
  | _ => false
  end.

(** Truthiness of an integer result ([if category_id:]) *)
Definition truthy_id (i : option Z) : option Z :=
  match i with
  | Some c => if c =? 0 then None else Some c
  | None => None
  end.

Fixpoint _find_category_by_name (db : DB) (category_names : list string) : option Z :=
  match category_names with
  | [] => None
  | name :: rest =>
      match head (filter (λ kv, Category.name kv.2 = name) (map_to_list (categories db))) with
      | Some (i, _) => Some i
      | None => _find_category_by_name db rest
      end
  end.

Definition _suggest_category_for_loan_transaction
    (db : DB) (description : option string) (account_type : string) : option Z :=
  match description with
  | None => None
  | Some description =>
      if negb (Str.truthy description) then None
      else
        let desc_lower := Str.lower description in
        let rule (kws names : list string) : option Z :=
          if Str.contains_any kws desc_lower
          then truthy_id (_find_category_by_name db names) else None in
        match rule ["property tax"; "tax disbursement"; "county tax"; "real estate tax"]
                   ["Property Tax"; "Taxes"] with
        | Some c => Some c
        | None =>
        match rule ["insurance"; "homeowner"; "hazard"; "home insurance"]
                   ["Home Insurance"; "Insurance"] with
        | Some c => Some c
        | None =>
        match rule ["pmi"; "mortgage insurance"] ["Insurance"] with
        | Some c => Some c
        | None =>
            if bool_decide (account_type ∈ ["loan"; "mortgage"])
            then truthy_id (_find_category_by_name db ["Transfer"])
            else None
        end end end
  end.

(** A transaction record of the remote payload, by the keys the code
    reads: [id], [posted] (epoch seconds), [amount] (the decimal that
    [Decimal(str(amount))] yields), [description], [payee], [memo],
    [transacted_at].  [None] is an absent or null key. *)
Record RemoteTransaction := mkRemoteTransaction {
  r_id : string;
  r_posted : option Z;
  r_amount : option Py.Decimal;
  r_description : option string;
  r_payee : option string;
  r_memo : option string;
  r_transacted_at : option Z
}.

(** The hash the sync computes for a record under an account:
    a missing or zero [posted] hashes as ["none"], a missing amount
    as [Decimal(0)]. *)
Definition remote_hash (account_id : string) (txn : RemoteTransaction) : string :=
  let posted :=
    match r_posted txn with
    | Some ts => if ts =? 0 then None else Some (Py.fromtimestamp ts)
    | None => None
    end in
  compute_transaction_hash account_id posted
    (default Py.Decimal_0 (r_amount txn)) (r_description txn).

(** [db.query(Transaction).filter(account_id == a, content_hash == h).first()] *)
Definition existing_by_hash (db : DB) (account_id : string) (h : string)
  : option Transaction.t :=
  head (filter (λ x, Transaction.account_id x = account_id
                     ∧ Transaction.content_hash x = Some h)
               (rows (transactions db))).

(** The body of the loop of [process_transactions], for the records that
    remain; [cnt] counts the transactions created so far. *)
Fixpoint process_transactions_loop
    (account_type : option AccountType) (account_id : string)
    (txns : list RemoteTransaction) (db : DB) (cnt : Z) : outcome Z :=
  match txns with
  | [] => Ok db cnt
  | txn :: rest =>
      (* Fast path: Check if transaction ID already exists *)
      match transactions db !! r_id txn with
      | Some _ => process_transactions_loop account_type account_id rest db cnt
      | None =>
          let txn_hash := remote_hash account_id txn in
          match existing_by_hash db account_id txn_hash with
          | Some _ =>
              (* Duplicate by content hash - skip *)
              process_transactions_loop account_type account_id rest db cnt
          | None =>
              let suggested_category_id :=
                if is_loan_type account_type then
                  _suggest_category_for_loan_transaction db (r_description txn)
                    (from_option str_AccountType "" account_type)
                else None in
              let data :=
                TransactionData.mk (r_id txn) account_id (r_amount txn)
                  (Epoch <$> r_posted txn) (Epoch <$> r_transacted_at txn)
                  (r_payee txn) None None (r_description txn) (r_memo txn)
                  (Some txn_hash) None in
              match create_transaction db data suggested_category_id with
              | Ok db' _ =>
                  process_transactions_loop account_type account_id rest db' (cnt + 1)
              | Raise db' e => Raise db' e
              end
          end
      end
  end.

Definition process_transactions
    (db : DB) (transactions : list RemoteTransaction) (account_id : string)
  : outcome Z :=
  let account := accounts db !! account_id in
  let account_type := account ≫= Account.account_type in
  process_transactions_loop account_type account_id transactions db 0.

End Ingestion.

(** Vocabulary of the ingestion properties. *)

(** The account stores a transaction with the content hash of the record. *)
Definition hash_covered (db : DB) (account_id : string) (r : RemoteTransaction) : Prop :=
  ∃ k x, transactions db !! k = Some x
         ∧ Transaction.account_id x = account_id
         ∧ Transaction.content_hash x = Some (remote_hash account_id r).

(** A record is settled when the loop skips it: its id is stored, or its
    content hash is stored under the account. *)
Definition settled (db : DB) (a : string) (r : RemoteTransaction) : Prop :=
  is_Some (transactions db !! r_id r) ∨ hash_covered db a r.

(** Two records that differ at most in their provider id (and in the
    fields the hash does not read). *)
Definition same_content (r r' : RemoteTransaction) : Prop :=
  r_posted r = r_posted r' ∧ r_amount r = r_amount r' ∧ r_description r = r_description r'.

(** ** AccountClassifier ([app/sync/simplefin.py]) *)

(** A value of the decoded remote JSON. *)
#[warnings="-register-all"]
Inductive json :=
| JNull
| JBool (b : bool)
| JInt (n : Z)
| JFloat (x : Py.float)
| JStr (s : string)
| JArr (items : list json)
| JObj (fields : list (string * json)).

Module FloatParse.

Definition is_digit (c : ascii) : bool :=
  let n := N_of_ascii c in (48 <=? n)%N && (n <=? 57)%N.

Definition digit_val (c : ascii) : Z := Z.of_N (N_of_ascii c) - 48.

Definition is_space (c : ascii) : bool :=
  let n := N_of_ascii c in ((9 <=? n)%N && (n <=? 13)%N) || (n =? 32)%N.

Fixpoint lstrip (l : list ascii) : list ascii :=
  match l with
  | c :: l' => if is_space c then lstrip l' else l
  | [] => []
  end.

Definition strip (l : list ascii) : list ascii :=
  List.rev (lstrip (List.rev (lstrip l))).

(** A run of digits, single underscores allowed between two digits:
    the value read, the number of digits, and what follows. *)
Fixpoint read_digits (l : list ascii) (acc n : Z) : Z * Z * list ascii :=
  match l with
  | c :: l' =>
      if is_digit c then read_digits l' (acc * 10 + digit_val c) (n + 1)
      else if Ascii.eqb c "_" && (0 <? n) then
        match l' with
        | d :: _ => if is_digit d then read_digits l' acc n else (acc, n, l)
        | [] => (acc, n, l)
        end
      else (acc, n, l)
  | [] => (acc, n, l)
  end.

Definition read_sign (l : list ascii) : bool * list ascii :=
  match l with
  | "-"%char :: l' => (true, l')
  | "+"%char :: l' => (false, l')
  | _ => (false, l)
  end.

Definition read_exponent (l : list ascii) : option Z :=
  match l with
  | [] => Some 0
  | c :: l' =>
      if Ascii.eqb c "e" || Ascii.eqb c "E" then
        let '(neg, l'') := read_sign l' in
        match read_digits l'' 0 0 with
        | (v, n, []) => if 0 <? n then Some (if neg then - v else v) else None
        | _ => None
        end
      else None
  end.

(** [float(s)] on a string: [None] is [ValueError].  ASCII literals:
    optional sign, digits with an optional fraction and exponent, or
    [inf], [infinity], [nan] in any case, between optional whitespace.
    (Python also reads the decimal digits and the spaces of other scripts;
    a string that holds one is read as [ValueError] here.) *)
Definition float_of_string (s : string) : option Py.float :=
  let '(neg, l) := read_sign (strip (list_ascii_of_string s)) in
  let word := Str.ascii_lower (string_of_list_ascii l) in
  if String.eqb word "inf" || String.eqb word "infinity" then Some (Py.PyInf neg)
  else if String.eqb word "nan" then Some Py.PyNaN
  else
    let '(ip, ni, l1) := read_digits l 0 0 in
    let '(fp, nf, l2) :=
      match l1 with
      | "."%char :: l1' => read_digits l1' 0 0
      | _ => (0, 0, l1)
      end in
    let dot_ok :=
      match l1 with
      | "."%char :: "_"%char :: _ => false
      | _ => true
      end in
    if (0 <? ni + nf) && dot_ok then
      match read_exponent l2 with
      | Some ex => Some (Py.float_of_decimal (Py.Dec neg (ip * 10 ^ nf + fp) (ex - nf)))
      | None => None
      end
    else None.

End FloatParse.

(** The least integer that [float] refuses to convert: halfway between
    the largest binary64 value, [2^1024 - 2^971], and [2^1024]. *)
Definition float_int_limit : Z := 2 ^ 1024 - 2 ^ 970.

(** [float(v)] under [try ... except (ValueError, TypeError): pass]: the
    [ValueError] of a string that is no number and the [TypeError] of a
    list or a dict leave [None]; the [OverflowError] of an integer too
    large to convert is not caught. *)
Definition try_float (v : json) : error + option Py.float :=
  match v with
  | JNull => inr None
  | JBool b => inr (Some (if b then Py.float_of_decimal (Py.Dec false 1 0) else Py.float_0))
  | JInt n =>
      if float_int_limit <=? Z.abs n then inl OverflowError
      else inr (Some (Py.float_of_decimal (Py.Dec (n <? 0) (Z.abs n) 0)))
  | JFloat x => inr (Some x)
  | JStr s => inr (FloatParse.float_of_string s)
  | JArr _ | JObj _ => inr None
  end.

(** [isinstance(v, collections.abc.Collection) and len(v) > 0] *)
Definition nonempty_collection (v : option json) : bool :=
  match v with
  | Some (JArr (_ :: _)) => true
  | Some (JObj (_ :: _)) => true
  | Some (JStr s) => Str.truthy s
  | _ => false
  end.

Definition investment_keywords : list string :=
  [ "brokerage"; "investment"; "401k"; "403b"; "roth"; "ira"; "retirement";
    "portfolio"; "trading"; "stock plan"; "etrade"; "robinhood"; "schwab";
    "fidelity"; "vanguard"; "merrill"; "td ameritrade"; "fund"; "mutual";
    "equity"; "securities" ].

Definition credit_keywords : list string :=
  [ "card"; "credit"; "visa"; "mastercard"; "amex"; "discover" ].

Definition bank_keywords : list string :=
  [ "checking"; "savings"; "spending"; "deposit"; "dda"; "mma"; "money market" ].

Definition classify_account (acct : gmap string json) : error + option string :=
  (* Check if "holdings" exists and is a non-empty collection *)
  let holdings := acct !! "holdings" in
  if nonempty_collection holdings then inr (Some "investment")
  else
    match default (JStr "") (acct !! "name") with
    | JStr raw_name =>
        let name := Str.lower raw_name in
        if Str.contains_any investment_keywords name then inr (Some "investment")
        else if Str.contains_any credit_keywords name then inr (Some "credit_card")
        else if Str.contains_any bank_keywords name then inr (Some "bank")
        else
          (* Fallback to balance-based heuristics *)
          let balance_str := acct !! "balance" in
          let avail_str := acct !! "available_balance" in
          match from_option try_float (inr None) balance_str with
          | inl e => inl e
          | inr balance =>
          match from_option try_float (inr None) avail_str with
          | inl e => inl e
          | inr avail =>
              let negative_without_avail :=
                match balance, avail with
                | Some b, None => Py.float_leb b Py.float_0
                | _, _ => false
                end in
              let positive :=
                match balance with
                | Some b =>
                    Py.float_leb Py.float_0 b
                    && match avail with
                       | None => true
                       | Some a => Py.float_leb Py.float_0 a
                       end
                | None => false
                end in
              if negative_without_avail then inr (Some "credit_card")
              else if positive then inr (Some "bank")
              else inr None
          end end
    | _ => inl AttributeError
    end.

(** ** Accounts ([app/crud/account.py], [app/sync/simplefin.py]) *)

(** [AccountType(s)] *)
Definition AccountType_of_string (s : string) : option AccountType :=
  if String.eqb s "bank" then Some bank
  else if String.eqb s "credit_card" then Some credit_card
  else if String.eqb s "investment" then Some investment
  else if String.eqb s "loan" then Some loan
  else None.

(** Pydantic field validation of the optional keys of a remote dict:
    [None] is a validation error, [Some None] an absent key. *)
Definition field_str (v : option json) : option (option (option string)) :=
  match v with
  | None => Some None
  | Some JNull => Some (Some None)
  | Some (JStr s) => Some (Some (Some s))
  | Some _ => None
  end.

(** A [bool] field as pydantic validates it outside strict mode: a
    boolean; the integers 0 and 1; the floats 0.0 and 1.0; or one of the
    strings below, in any case of its ASCII letters. *)
Definition bool_of_json (v : json) : option bool :=
  match v with
  | JBool b => Some b
  | JInt n => if n =? 0 then Some false else if n =? 1 then Some true else None
  | JFloat x =>
      let same y := Py.float_leb x y && Py.float_leb y x in
      if same Py.float_0 then Some false
      else if same (Py.float_of_decimal (Py.Dec false 1 0)) then Some true
      else None
  | JStr s =>
      let word := Str.ascii_lower s in
      if String.eqb s "0" || bool_decide (word ∈ ["f"; "n"; "no"; "off"; "false"])
      then Some false
      else if String.eqb s "1" || bool_decide (word ∈ ["t"; "y"; "on"; "yes"; "true"])
      then Some true
      else None
  | JNull | JArr _ | JObj _ => None
  end.

Definition field_bool (v : option json) : option (option (option bool)) :=
  match v with
  | None => Some None
  | Some JNull => Some (Some None)
  | Some v => (λ b, Some (Some b)) <$> bool_of_json v
  end.

Definition field_account_type (v : option json) : option (option (option AccountType)) :=
  match v with
  | None => Some None
  | Some JNull => Some (Some None)
  | Some (JStr s) =>
      match AccountType_of_string s with
      | Some t => Some (Some (Some t))
      | None => None
      end
  | Some _ => None
  end.

Definition required_str (v : option json) : option string :=
  match v with
  | Some (JStr s) => Some s
  | _ => None
  end.

(** [schemas.AccountCreate] built from the keys of a dict: extra keys are
    ignored. *)
Module AccountCreate.
Record t := mk {
  id : string;
  name : string;
  alt_name : option string;
  currency : string;
  org_id : string;
  account_type : option AccountType;
  is_hidden : option bool
}.

Definition set_account_type (v : option AccountType) (d : t) : t :=
  mk (id d) (name d) (alt_name d) (currency d) (org_id d) v (is_hidden d).

Definition of_dict (acct : gmap string json) : option t :=
  i ← required_str (acct !! "id");
  n ← required_str (acct !! "name");
  c ← required_str (acct !! "currency");
  o ← required_str (acct !! "org_id");
  an ← field_str (acct !! "alt_name");
  ty ← field_account_type (acct !! "account_type");
  h ← field_bool (acct !! "is_hidden");
  Some (mk i n (default None an) c o (default None ty) (default (Some false) h)).
End AccountCreate.

(** [schemas.AccountUpdate] built from the keys of a dict: a field is [None]
    when it is unset (left out by [dict(exclude_unset=True)]). *)
Module AccountUpdate.
Record t := mk {
  name : option (option string);
  alt_name : option (option string);
  currency : option (option string);
  org_id : option (option string);
  account_type : option (option AccountType);
  is_hidden : option (option bool)
}.

Definition of_dict (acct : gmap string json) : option t :=
  n ← field_str (acct !! "name");
  an ← field_str (acct !! "alt_name");
  c ← field_str (acct !! "currency");
  o ← field_str (acct !! "org_id");
  ty ← field_account_type (acct !! "account_type");
  h ← field_bool (acct !! "is_hidden");
  Some (mk n an c o ty h).
End AccountUpdate.

Definition set_payees (v : gmap Z Payee.t) (db : DB) : DB :=
  mkDB (accounts db) (account_balance db) (transactions db) (transaction_splits db)
       (holdings db) v (categories db) (balance_seq db) (split_seq db) (payee_seq db).

(** [create_account]: the row is built from the fields of [data]; an
    [is_hidden] that is [None] is left out of the INSERT, and the column
    takes its default. *)
Definition create_account (now : Py.datetime) (db : DB) (data : AccountCreate.t)
  : outcome Account.t :=
  match accounts db !! AccountCreate.id data with
  | Some _ => Raise db IntegrityError
  | None =>
      let account :=
        Account.mk (AccountCreate.id data) (AccountCreate.name data)
          (AccountCreate.alt_name data) (AccountCreate.currency data)
          (AccountCreate.org_id data)
          (Some (default false (AccountCreate.is_hidden data)))
          (AccountCreate.account_type data) (Some now) in
      Ok (set_accounts (<[Account.id account := account]> (accounts db)) db) account
  end.

(** [db.query(Transaction).filter(Transaction.account_id == a).all()] *)
Definition transactions_of (db : DB) (account_id : string) : list Transaction.t :=
  filter (λ x, Transaction.account_id x = account_id) (rows (transactions db)).

(** The loop of [_recategorize_payees_for_loan_account]: the payees seen
    so far, the number of payees updated, the payee table. *)
Definition recategorize_step (db0 : DB) (account : Account.t)
    (st : list Z * Z * gmap Z Payee.t) (txn : Transaction.t)
  : list Z * Z * gmap Z Payee.t :=
  let '(processed_payee_ids, updated_count, ps) := st in
  match Transaction.payee_id txn with
  | None => st
  | Some pid =>
      if (pid =? 0) || bool_decide (pid ∈ processed_payee_ids) then st
      else
        match ps !! pid with
        | None => (pid :: processed_payee_ids, updated_count, ps)
        | Some payee =>
            if negb (Payee.category_id payee =? 0)
            then (pid :: processed_payee_ids, updated_count, ps)
            else
              match _suggest_category_for_loan_transaction db0
                      (Some (Py.or_empty (Transaction.description txn)))
                      (from_option str_AccountType "" (Account.account_type account)) with
              | Some c =>
                  (pid :: processed_payee_ids, updated_count + 1,
                   <[pid := Payee.mk (Payee.name payee) c]> ps)
              | None => (pid :: processed_payee_ids, updated_count, ps)
              end
        end
  end.

Definition _recategorize_payees_for_loan_account (db : DB) (account : Account.t) : DB :=
  let '(_, _, ps) :=
    foldl (recategorize_step db account) ([], 0, payees db)
          (transactions_of db (Account.id account)) in
  set_payees ps db.

(** [update_account]: the fields set in [data] are written to the row. *)
Definition update_account (db : DB) (id : string) (data : AccountUpdate.t)
  : outcome (option Account.t) :=
  match accounts db !! id with
  | None => Ok db None
  | Some account =>
      let old_account_type := Account.account_type account in
      let account_type_changed_to_loan :=
        match AccountUpdate.account_type data with
        | Some (Some loan) => negb (bool_decide (old_account_type = Some loan))
        | _ => false
        end in
      (* the columns [name], [currency] are NOT NULL *)
      match AccountUpdate.name data, AccountUpdate.currency data with
      | Some None, _ | _, Some None => Raise db IntegrityError
      | name, currency =>
          let account' :=
            Account.mk (Account.id account)
              (default (Account.name account) (name ≫= λ x, x))
              (default (Account.alt_name account) (AccountUpdate.alt_name data))
              (default (Account.currency account) (currency ≫= λ x, x))
              (default (Account.org_id account)
                       (AccountUpdate.org_id data ≫= λ x, x))
              (default (Account.is_hidden account) (AccountUpdate.is_hidden data))
              (default (Account.account_type account) (AccountUpdate.account_type data))
              (Account.created_at account) in
          let db1 := set_accounts (<[id := account']> (accounts db)) db in
          let db2 :=
            if account_type_changed_to_loan
            then _recategorize_payees_for_loan_account db1 account' else db1 in
          Ok db2 (Some account')
      end
  end.

(** [get_accounts(db=db, account_id=account_id, is_hidden=True)] *)
Definition get_accounts_by_id (db : DB) (account_id : string) : list Account.t :=
  filter (λ a, Account.id a = account_id) (rows (accounts db)).

(** The body of the loop of [process_accounts] for one remote record. *)
Definition process_account (now : Py.datetime) (db : DB)
    (acct : gmap string json) (org_id : string) : outcome unit :=
  let acct := <["org_id" := JStr org_id]> acct in
  match acct !! "id" with
  | None => Raise db (KeyError "id")
  | Some id_value =>
      match AccountCreate.of_dict acct with
      | None => Raise db PydanticValidationError
      | Some data =>
          let account_id := AccountCreate.id data in
          let existing := get_accounts_by_id db account_id in
          (* Classify only if account_type is missing *)
          let classified : error + AccountCreate.t :=
            match existing with
            | e0 :: _ =>
                match Account.account_type e0 with
                | Some _ => inr data
                | None =>
                    match classify_account acct with
                    | inl e => inl e
                    | inr (Some acct_type_str) =>
                        inr (AccountCreate.set_account_type
                               (AccountType_of_string acct_type_str) data)
                    | inr None => inr data
                    end
                end
            | [] =>
                match classify_account acct with
                | inl e => inl e
                | inr (Some acct_type_str) =>
                    inr (AccountCreate.set_account_type
                           (AccountType_of_string acct_type_str) data)
                | inr None => inr data
                end
            end in
          match classified with
          | inl e => Raise db e
          | inr data =>
              match existing with
              | _ :: _ =>
                  (* the update is built from the remote dict, not from [data] *)
                  match AccountUpdate.of_dict acct with
                  | None => Raise db PydanticValidationError
                  | Some upd =>
                      match update_account db account_id upd with
                      | Ok db' _ => Ok db' tt
                      | Raise db' e => Raise db' e
                      end
                  end
              | [] =>
                  (* [data] is rebuilt from the remote dict before the insert *)
                  let acct := <["created_at" := JInt now]> acct in
                  match AccountCreate.of_dict acct with
                  | None => Raise db PydanticValidationError
                  | Some data =>
                      match create_account now db data with
                      | Ok db' _ => Ok db' tt
                      | Raise db' e => Raise db' e
                      end
                  end
              end
          end
      end
  end.

Fixpoint process_accounts (now : Py.datetime) (db : DB)
    (accounts : list (gmap string json)) (org_id : string) : outcome unit :=
  match accounts with
  | [] => Ok db tt
  | acct :: rest =>
      match process_account now db acct org_id with
      | Ok db' _ => process_accounts now db' rest org_id
      | Raise db' e => Raise db' e
      end
  end.

(** ** AccountMerger ([app/crud/account.py]) *)

(** The natural key [(txn.posted, float(txn.amount), txn.description or "")]
    as a dict key. *)
Definition txn_key (txn : Transaction.t) : Py.datetime * Py.float * string :=
  (Transaction.posted txn,
   Py.float_key (Py.float_of_decimal (Transaction.amount txn)),
   Py.or_empty (Transaction.description txn)).

Record MergeStats := mkMergeStats {
  transactions_reassigned : Z;
  transactions_removed : Z;
  transactions_matched : Z;
  holdings_reassigned : Z;
  source_account_deleted : bool
}.

(** The lookup of target transactions by natural key: a later row with
    the same key replaces an earlier one. *)
Definition build_txn_map (txns : list Transaction.t)
  : gmap (Py.datetime * Py.float * string) Transaction.t :=
  foldl (λ m txn, <[txn_key txn := txn]> m) ∅ txns.

(** Truthiness of an optional integer ([if source_txn.payee_id:]) *)
Definition truthy_opt (i : option Z) : bool :=
  match i with
  | Some n => negb (n =? 0)
  | None => false
  end.

(** The unit of work of [merge_accounts].  The session factory is
    [sessionmaker(autoflush=False)] ([app/db.py]): the rows handed to
    [db.add] and [db.delete] are written by the commit, inserts before
    deletes and transactions before accounts, while a bulk
    [query(...).delete()] is a statement of its own and removes the stored
    rows at once.  Attribute updates are applied to the stored rows as they
    are made: no query of the merge reads a column the merge has written. *)
Record Work := mkWork {
  stored : DB;
  added_splits : list TransactionSplit.t;
  deleted_transactions : list string;
  deleted_accounts : list string
}.

Definition set_stored (db : DB) (w : Work) : Work :=
  mkWork db (added_splits w) (deleted_transactions w) (deleted_accounts w).

(** [db.commit()] *)
Definition commit (w : Work) : DB :=
  let db1 := foldl (λ d split, add_split split d) (stored w) (added_splits w) in
  let db2 := foldl (λ d i, delete_transaction_row i d) db1 (deleted_transactions w) in
  foldl (λ d a, delete_account_row a d) db2 (deleted_accounts w).

(** The categorization copy of a match: the stored splits of the target
    are deleted, copies of the splits of the source are added, the payee
    is taken over when the source has one. *)
Definition copy_categorization (source_txn target_txn : Transaction.t) (w : Work) : Work :=
  let target_id := Transaction.id target_txn in
  (* Delete existing splits on target *)
  let db1 := delete_splits_of target_id (stored w) in
  (* Copy splits from source to target *)
  let new_splits :=
    List.map (λ split, TransactionSplit.mk target_id
                         (TransactionSplit.category_id split)
                         (TransactionSplit.amount split))
             (splits_of db1 (Transaction.id source_txn)) in
  (* Copy payee if exists *)
  let db2 :=
    if truthy_opt (Transaction.payee_id source_txn)
    then set_transactions
           (alter (Transaction.set_payee_id (Transaction.payee_id source_txn))
                  target_id (transactions db1)) db1
    else db1 in
  mkWork db2 (added_splits w ++ new_splits)%list (deleted_transactions w)
         (deleted_accounts w).

(** One turn of the loop over the source transactions. *)
Definition merge_step
    (cutoff_date : Py.datetime) (target_account_id : string)
    (preserve_categorization : bool)
    (target_txn_map : gmap (Py.datetime * Py.float * string) Transaction.t)
    (st : Work * MergeStats) (source_txn : Transaction.t) : Work * MergeStats :=
  let '(w, stats) := st in
  if cutoff_date <=? Transaction.posted source_txn then
    (* Recent transaction - try to match with target *)
    let key := txn_key source_txn in
    let '(w1, matched) :=
      match target_txn_map !! key with
      | Some target_txn =>
          if preserve_categorization
          then (copy_categorization source_txn target_txn w,
                transactions_matched stats + 1)
          else (w, transactions_matched stats)
      | None => (w, transactions_matched stats)
      end in
    (* Delete source transaction (whether matched or not) *)
    (mkWork (stored w1) (added_splits w1)
            (deleted_transactions w1 ++ [Transaction.id source_txn])%list
            (deleted_accounts w1),
     mkMergeStats (transactions_reassigned stats) (transactions_removed stats + 1)
                  matched (holdings_reassigned stats) (source_account_deleted stats))
  else
    (* Old transaction - beyond SimpleFIN's reach, just reassign *)
    (set_stored
       (set_transactions
          (alter (Transaction.set_account_id target_account_id)
                 (Transaction.id source_txn) (transactions (stored w))) (stored w)) w,
     mkMergeStats (transactions_reassigned stats + 1) (transactions_removed stats)
                  (transactions_matched stats) (holdings_reassigned stats)
                  (source_account_deleted stats)).

(** The counters of one turn of that loop, which do not depend on the
    database. *)
Definition stats_step
    (cutoff_date : Py.datetime) (preserve_categorization : bool)
    (target_txn_map : gmap (Py.datetime * Py.float * string) Transaction.t)
    (st : MergeStats) (x : Transaction.t) : MergeStats :=
  if cutoff_date <=? Transaction.posted x then
    mkMergeStats (transactions_reassigned st) (transactions_removed st + 1)
      (if preserve_categorization && bool_decide (is_Some (target_txn_map !! txn_key x))
       then transactions_matched st + 1 else transactions_matched st)
      (holdings_reassigned st) (source_account_deleted st)
  else
    mkMergeStats (transactions_reassigned st + 1) (transactions_removed st)
      (transactions_matched st) (holdings_reassigned st) (source_account_deleted st).

(** One turn of the loop over the holdings of the source. *)
Definition holding_step (target_account_id : string)
    (st : Work * MergeStats) (holding : Holding.t) : Work * MergeStats :=
  let '(w, stats) := st in
  (set_stored
     (set_holdings
        (alter (Holding.set_account_id target_account_id) (Holding.id holding)
               (holdings (stored w)))
        (stored w)) w,
   mkMergeStats (transactions_reassigned stats) (transactions_removed stats)
                (transactions_matched stats) (holdings_reassigned stats + 1)
                (source_account_deleted stats)).

Definition merge_accounts
    (now : Py.datetime) (db : DB)
    (source_account_id target_account_id : string)
    (preserve_categorization : bool) (simplefin_lookback_months : Z)
  : outcome MergeStats :=
  match accounts db !! source_account_id, accounts db !! target_account_id with
  | Some source_account, Some target_account =>
      if bool_decide (Account.org_id source_account ≠ Account.org_id target_account)
         || bool_decide (Account.name source_account ≠ Account.name target_account)
      then Raise db (ValueError "Can only merge accounts with matching org_id and name")
      else
        let stats := mkMergeStats 0 0 0 0 false in
        (* Calculate cutoff date for SimpleFIN lookback *)
        let cutoff_date := now - Py.timedelta_days (simplefin_lookback_months * 30) in
        (* Get all transactions from both accounts *)
        let source_transactions := transactions_of db source_account_id in
        let target_transactions := transactions_of db target_account_id in
        (* Build lookup for target transactions by (posted, amount, description) *)
        let target_txn_map := build_txn_map target_transactions in
        (* Process source transactions *)
        let st1 :=
          foldl (merge_step cutoff_date target_account_id preserve_categorization
                            target_txn_map)
                (mkWork db [] [] [], stats) source_transactions in
        (* Reassign holdings to target account *)
        let holdings :=
          filter (λ h, Holding.account_id h = source_account_id)
                 (rows (holdings (stored st1.1))) in
        let '(w2, stats2) := foldl (holding_step target_account_id) st1 holdings in
        (* Delete source account (cascades balances) *)
        let w3 :=
          mkWork (stored w2) (added_splits w2) (deleted_transactions w2)
                 (deleted_accounts w2 ++ [source_account_id])%list in
        Ok (commit w3)
           (mkMergeStats (transactions_reassigned stats2) (transactions_removed stats2)
                         (transactions_matched stats2) (holdings_reassigned stats2) true)
  | _, _ => Raise db (ValueError "Source or target account not found")
  end.

(** Vocabulary of the merge properties. *)

(** The cutoff of a merge started at [now]. *)
Definition merge_cutoff (now : Py.datetime) (simplefin_lookback_months : Z) : Py.datetime :=
  now - Py.timedelta_days (simplefin_lookback_months * 30).

(** The natural key of [s] is the key of a transaction of account [target]. *)
Definition key_matches_target (db : DB) (target_account_id : string) (s : Transaction.t) : Prop :=
  Exists (λ x, txn_key x = txn_key s) (transactions_of db target_account_id).

#[global] Instance key_matches_target_dec db target_account_id s :
  Decision (key_matches_target db target_account_id s).
Proof. unfold key_matches_target. apply _. Defined.

(** The rows of [transactions] are stored under their [id]. *)
Definition transactions_keyed (db : DB) : Prop :=
  ∀ k x, transactions db !! k = Some x → Transaction.id x = k.

(** The rows of [accounts] are stored under their [id]. *)
Definition accounts_keyed (db : DB) : Prop :=
  ∀ k a, accounts db !! k = Some a → Account.id a = k.

(** ** DuplicateAccountDetector ([app/crud/account.py]) *)

(** Insertion into a list sorted by [le]; equal elements keep their order. *)
Fixpoint insert_sorted {A : Type} (le : A → A → bool) (x : A) (l : list A) : list A :=
  match l with
  | [] => [x]
  | y :: l' => if le x y then x :: l else y :: insert_sorted le x l'
  end.

Definition sort_by {A : Type} (le : A → A → bool) (l : list A) : list A :=
  foldr (insert_sorted le) [] l.

(** [ORDER BY created_at ASC NULLS LAST, id] *)
Definition account_le (a b : Account.t) : bool :=
  match Account.created_at a, Account.created_at b with
  | Some x, Some y => (x <? y) || ((x =? y) && String.leb (Account.id a) (Account.id b))
  | Some _, None => true
  | None, Some _ => false
  | None, None => String.leb (Account.id a) (Account.id b)
  end.

(** [ORDER BY posted DESC] *)
Definition posted_desc (a b : Transaction.t) : bool :=
  Transaction.posted b <=? Transaction.posted a.

(** The [transaction_sample_size] most recent transactions of an account. *)
Definition recent_transactions (db : DB) (account_id : string) (sample_size : Z)
  : list Transaction.t :=
  take (Z.to_nat sample_size) (sort_by posted_desc (transactions_of db account_id)).

(** The number of sampled transactions whose key is in the lookup. *)
Definition count_matches
    (older_txns : list Transaction.t)
    (newer_map : gmap (Py.datetime * Py.float * string) Transaction.t) : Z :=
  Z.of_nat (List.length (filter (λ old, is_Some (newer_map !! txn_key old)) older_txns)).

(** [matches / len(older_transactions) >= min_match_ratio] *)
Definition ratio_reached (matches : Z) (sample_len : nat) (min_match_ratio : Py.float) : bool :=
  Py.float_leb min_match_ratio (Py.float_div_int matches (Z.of_nat sample_len)).

(** The test of a group of exactly two accounts (older first). *)
Definition pair_is_duplicate
    (db : DB) (older_account newer_account : Account.t)
    (transaction_sample_size : Z) (min_match_ratio : Py.float) : bool :=
  let older_transactions :=
    recent_transactions db (Account.id older_account) transaction_sample_size in
  match older_transactions with
  | [] => false   (* No transactions in old account, skip this group *)
  | _ :: _ =>
      let newer_transactions := transactions_of db (Account.id newer_account) in
      let newer_txn_map := build_txn_map newer_transactions in
      let matches := count_matches older_transactions newer_txn_map in
      ratio_reached matches (List.length older_transactions) min_match_ratio
  end.

(** The test of a pair inside a group of three or more accounts. *)
Definition pair_is_duplicate_in_group
    (db : DB) (older newer : Account.t)
    (transaction_sample_size : Z) (min_match_ratio : Py.float) : bool :=
  let older_txns := recent_transactions db (Account.id older) transaction_sample_size in
  match older_txns with
  | [] => false
  | _ :: _ =>
      let newer_txns := transactions_of db (Account.id newer) in
      match newer_txns with
      | [] => false
      | _ :: _ =>
          let newer_map := build_txn_map newer_txns in
          let matches := count_matches older_txns newer_map in
          ratio_reached matches (List.length older_txns) min_match_ratio
      end
  end.

Record DuplicateGroup := mkDuplicateGroup {
  group_org_id : string;
  group_name : string;
  group_accounts : list Account.t
}.

(** Sets of accounts, held as lists without repetition of an id. *)
Definition in_set (a : Account.t) (s : list Account.t) : bool :=
  existsb (λ b, String.eqb (Account.id a) (Account.id b)) s.

Definition set_add (a : Account.t) (s : list Account.t) : list Account.t :=
  if in_set a s then s else s ++ [a].

Definition set_union (s r : list Account.t) : list Account.t :=
  foldl (λ acc a, set_add a acc) s r.

Definition sets_overlap (s r : list Account.t) : bool :=
  existsb (λ a, in_set a r) s.

(** The first loop over the duplicate pairs: a pair joins the first set
    that holds one of its accounts, or starts a new set. *)
Fixpoint add_pair (older newer : Account.t) (account_sets : list (list Account.t))
  : list (list Account.t) :=
  match account_sets with
  | [] => [set_add newer [older]]
  | acc_set :: rest =>
      if in_set older acc_set || in_set newer acc_set
      then set_add newer (set_add older acc_set) :: rest
      else acc_set :: add_pair older newer rest
  end.

(** The inner loop of the merge of overlapping sets: [s] takes over every
    later set it overlaps with at the time that set is looked at. *)
Fixpoint absorb (s : list Account.t) (rest : list (list Account.t))
  : list Account.t * list (list Account.t) :=
  match rest with
  | [] => (s, [])
  | r :: rest' =>
      if sets_overlap s r then absorb (set_union s r) rest'
      else let '(s', kept) := absorb s rest' in (s', r :: kept)
  end.

Fixpoint merge_overlapping (fuel : nat) (account_sets : list (list Account.t))
  : list (list Account.t) :=
  match fuel, account_sets with
  | S fuel', s :: rest =>
      let '(s', rest') := absorb s rest in
      s' :: merge_overlapping fuel' rest'
  | _, _ => []
  end.

(** All pairs [(accounts[i], accounts[j])], [i < j], in loop order. *)
Fixpoint pairs_in_order (accounts : list Account.t) : list (Account.t * Account.t) :=
  match accounts with
  | [] => []
  | a :: rest => List.map (λ b, (a, b)) rest ++ pairs_in_order rest
  end.

(** What the detector reports for one [(org_id, name)] group. *)
Definition duplicate_groups_of
    (db : DB) (org_id name : string)
    (transaction_sample_size : Z) (min_match_ratio : Py.float) : list DuplicateGroup :=
  let accounts :=
    sort_by account_le
      (filter (λ a, Account.org_id a = org_id ∧ Account.name a = name) (rows (accounts db))) in
  match accounts with
  | [older_account; newer_account] =>
      if pair_is_duplicate db older_account newer_account
           transaction_sample_size min_match_ratio
      then [mkDuplicateGroup org_id name accounts]
      else []
  | _ =>
      let duplicate_pairs :=
        filter (λ p, pair_is_duplicate_in_group db p.1 p.2
                       transaction_sample_size min_match_ratio = true)
               (pairs_in_order accounts) in
      let account_sets := foldl (λ sets p, add_pair p.1 p.2 sets) [] duplicate_pairs in
      let account_sets := merge_overlapping (List.length account_sets) account_sets in
      List.map (λ acc_set, mkDuplicateGroup org_id name (sort_by account_le acc_set))
               account_sets
  end.

(** The [(org_id, name)] values carried by more than one account. *)
Definition duplicate_candidates (db : DB) : list (string * string) :=
  let keys := List.map (λ a, (Account.org_id a, Account.name a)) (rows (accounts db)) in
  filter (λ k, (1 < List.length (filter (λ k', k' = k) keys))%nat) (remove_dups keys).

Definition find_duplicate_accounts
    (db : DB) (transaction_sample_size : Z) (min_match_ratio : Py.float)
  : list DuplicateGroup :=
  flat_map (λ k, duplicate_groups_of db k.1 k.2 transaction_sample_size min_match_ratio)
           (duplicate_candidates db).

(** The defaults: [DUPLICATE_DETECTION_SAMPLE_SIZE] = 5 and
    [float("0.8")] for [DUPLICATE_DETECTION_MIN_MATCH_RATIO]. *)
Definition default_sample_size : Z := 5.
Definition default_min_match_ratio : Py.float :=
  default Py.PyNaN (FloatParse.float_of_string "0.8").

(** ** SyncOrchestrator: the initial walk-back ([app/sync/simplefin.py]) *)

(** The first day of a month (the time of day of the first [end] is carried
    along unchanged and left out). *)
Record Month := mkMonth { year : Z; month : Z }.

(** Months since 0001-01, the first month a [datetime] can hold. *)
Definition months_since_floor (e : Month) : Z := 12 * (year e - 1) + (month e - 1).

(** [start = (end - timedelta(days=1)).replace(day=1)]: [None] is the
    [OverflowError] of a date before year 1. *)
Definition prev_month (e : Month) : option Month :=
  if months_since_floor e <=? 0 then None
  else if month e =? 1 then Some (mkMonth (year e - 1) 12)
  else Some (mkMonth (year e) (month e - 1)).

Section InitialSync.

(** What a monthly step acts on: the database, the sync configuration,
    the statistics and the remote service. *)
Variable World : Type.

(** [process_sync_range(cfg, db, config, start, end, stats)]: fetches and
    ingests the window and returns the number of transactions processed,
    or raises. *)
Variable process_sync_range : World → Month → Month → World * (error + Z).

(** [INITIAL_SYNC_MAX_MONTHS], [None] when the variable is unset *)
Variable INITIAL_SYNC_MAX_MONTHS : option Z.

(** [INITIAL_SYNC_MAX_MONTHS and months_synced >= INITIAL_SYNC_MAX_MONTHS] *)
Definition max_reached (months_synced : Z) : bool :=
  match INITIAL_SYNC_MAX_MONTHS with
  | Some limit => negb (limit =? 0) && (limit <=? months_synced)
  | None => false
  end.

(** The state of the walk when it ends. *)
Record WalkEnd := mkWalkEnd {
  end_world : World;
  end_empty_months : Z;
  end_months_synced : Z;
  end_raised : option error
}.

(** The [while empty_months < 2] loop; [None] when [fuel] turns do not
    finish it. *)
Fixpoint walk_back (fuel : nat) (w : World) (end_ : Month)
    (empty_months months_synced : Z) : option WalkEnd :=
  match fuel with
  | O => None
  | S fuel' =>
      if empty_months <? 2 then
        (* Check if we've hit the optional limit *)
        if max_reached months_synced
        then Some (mkWalkEnd w empty_months months_synced None)
        else
          match prev_month end_ with
          | None => Some (mkWalkEnd w empty_months months_synced (Some OverflowError))
          | Some start =>
              match process_sync_range w start end_ with
              | (w', inl e) => Some (mkWalkEnd w' empty_months months_synced (Some e))
              | (w', inr processed) =>
                  walk_back fuel' w' start
                    (if processed =? 0 then empty_months + 1 else 0)
                    (months_synced + 1)
              end
          end
      else Some (mkWalkEnd w empty_months months_synced None)
  end.

(** [process_initial_sync]: the walk from the current month; the months a
    [datetime] can reach bound the number of turns. *)
Definition process_initial_sync (w : World) (now : Month) : WalkEnd :=
  default (mkWalkEnd w 0 0 (Some OverflowError))
          (walk_back (Z.to_nat (months_since_floor now) + 2) w now 0 0).

(** The walk as a sequence: the [k]-th window, the world before the
    [k]-th step and the count that step returns. *)
Fixpoint month_back (k : nat) (now : Month) : Month :=
  match k with
  | O => now
  | S k' => default (month_back k' now) (prev_month (month_back k' now))
  end.

Fixpoint world_at (k : nat) (w : World) (now : Month) : World :=
  match k with
  | O => w
  | S k' =>
      (process_sync_range (world_at k' w now) (month_back (S k') now) (month_back k' now)).1
  end.

Definition outcome_at (k : nat) (w : World) (now : Month) : error + Z :=
  (process_sync_range (world_at k w now) (month_back (S k) now) (month_back k now)).2.

(** Steps [k-2] and [k-1] both processed zero transactions. *)
Definition two_empty_before (k : nat) (w : World) (now : Month) : Prop :=
  ∃ j, k = S (S j) ∧ outcome_at j w now = inr 0 ∧ outcome_at (S j) w now = inr 0.

(** No step before [k] met a reason to stop: the limit was not reached,
    the two steps before it were not both empty, and it did not raise. *)
Definition stop_free_before (k : nat) (w : World) (now : Month) : Prop :=
  ∀ j, (j < k)%nat →
       max_reached (Z.of_nat j) = false
       ∧ ¬ two_empty_before j w now
       ∧ ∃ n, outcome_at j w now = inr n.

(** The walk ends after [k] steps: on two consecutive empty steps, on the
    month limit, or on an exception of the [k]-th step. *)
Definition ends_at (r : WalkEnd) (k : nat) (w : World) (now : Month) : Prop :=
  end_months_synced r = Z.of_nat k
  ∧ ((end_raised r = None ∧ end_empty_months r = 2 ∧ end_world r = world_at k w now
      ∧ two_empty_before k w now)
     ∨ (end_raised r = None ∧ end_empty_months r < 2 ∧ end_world r = world_at k w now
        ∧ ¬ two_empty_before k w now ∧ max_reached (Z.of_nat k) = true)
     ∨ (∃ e, end_raised r = Some e
             ∧ ¬ two_empty_before k w now ∧ max_reached (Z.of_nat k) = false
             ∧ match prev_month (month_back k now) with
               | None => e = OverflowError ∧ end_world r = world_at k w now
               | Some _ => outcome_at k w now = inl e ∧ end_world r = world_at (S k) w now
               end)).

(** What [empty_months] counts before step [k]. *)
Definition empty_months_at (k : nat) (w : World) (now : Month) (empty_months : Z) : Prop :=
  (empty_months = 0
   ∧ (k = O ∨ ∃ j n, k = S j ∧ outcome_at j w now = inr n ∧ n ≠ 0))
  ∨ (empty_months = 1
     ∧ (∃ j, k = S j ∧ outcome_at j w now = inr 0) ∧ ¬ two_empty_before k w now)
  ∨ (empty_months = 2 ∧ two_empty_before k w now).

End InitialSync.

Arguments max_reached INITIAL_SYNC_MAX_MONTHS months_synced : assert.
Arguments walk_back {World} process_sync_range INITIAL_SYNC_MAX_MONTHS fuel w end_
  empty_months months_synced : assert.
Arguments process_initial_sync {World} process_sync_range INITIAL_SYNC_MAX_MONTHS w now : assert.
Arguments world_at {World} process_sync_range k w now : assert.
Arguments outcome_at {World} process_sync_range k w now : assert.
Arguments two_empty_before {World} process_sync_range k w now : assert.
Arguments stop_free_before {World} process_sync_range INITIAL_SYNC_MAX_MONTHS k w now : assert.
Arguments ends_at {World} process_sync_range INITIAL_SYNC_MAX_MONTHS r k w now : assert.
Arguments empty_months_at {World} process_sync_range k w now empty_months : assert.
Arguments mkWalkEnd {World} end_world end_empty_months end_months_synced end_raised : assert.
Arguments end_world {World} w : assert.
Arguments end_empty_months {World} w : assert.
Arguments end_months_synced {World} w : assert.
Arguments end_raised {World} w : assert.

(** ** Example data *)

Module Ex.

(** A payee normaliser that changes nothing (what [normalize_check_payee]
    does to a name that is not a check number). *)
Definition keep_payee (payee_name : string) (description : option string) : string :=
  payee_name.

Definition acct (id name : string) (created_at : option Py.datetime) : Account.t :=
  Account.mk id name None "USD" "org-1" (Some false) None created_at.

Definition txn (id account_id : string) (amount : Py.Decimal) (posted : Py.datetime)
    (description : string) (content_hash : option string) : Transaction.t :=
  Transaction.mk id account_id amount posted None None None (Some description) None
                 content_hash.

Definition cents (n : Z) : Py.Decimal := Py.Dec (n <? 0) (Z.abs n) (-2).

(** One account ["A"] and the categories 0 (the one the seed data creates
    for what is not categorized), 1 and 2. *)
Definition three_categories : gmap Z Category.t :=
  <[0 := Category.mk "Uncategorized" None]>
  (<[1 := Category.mk "Groceries" None]> (<[2 := Category.mk "Household" None]> ∅)).

Definition db_one_account : DB :=
  mkDB (<["A" := acct "A" "Checking" (Some 1600000000000000)]> ∅) ∅ ∅ ∅ ∅ ∅
       three_categories 1 1 1.

(** A create request for 10.00 whose two splits add up to 9.00. *)
Definition mismatched_create : TransactionData.t :=
  TransactionData.mk "t1" "A" (Some (cents 1000)) (Some (Epoch 1700000000))
    (Some (Epoch 1700000000)) None None None (Some "Groceries") None None
    (Some [SplitIn.mk 1 (cents 600); SplitIn.mk 2 (cents 300)]).

(** The same splits sent as an update of a stored transaction of 10.00. *)
Definition db_one_transaction : DB :=
  add_split (TransactionSplit.mk "t1" 0 (cents 1000))
    (set_transactions (<["t1" := txn "t1" "A" (cents 1000) 1700000000000000 "Groceries" None]> ∅)
                      db_one_account).

Definition mismatched_update : TransactionUpdate.t :=
  TransactionUpdate.mk None None None None None None None
    (Some [SplitIn.mk 1 (cents 600); SplitIn.mk 2 (cents 300)]).

(** A delivery of two transactions, and the same two re-issued under new
    provider ids. *)
Definition coffee (id : string) : RemoteTransaction :=
  mkRemoteTransaction id (Some 1700000000) (Some (cents (-1250))) (Some "Coffee")
    (Some "Cafe") None None.

Definition grocer (id : string) : RemoteTransaction :=
  mkRemoteTransaction id (Some 1700086400) (Some (cents (-4200))) (Some "Grocer")
    (Some "Grocer") None None.

Definition delivery : list RemoteTransaction := [coffee "t1"; grocer "t2"].

Definition redelivery : list RemoteTransaction := [coffee "n1"; grocer "n2"].

(** The database after the first run on [delivery]. *)
Definition db_after_delivery : DB :=
  persisted (process_transactions keep_payee db_one_account delivery "A").

(** Account ["A"] already stores transaction ["t1"], entered without a
    content hash (as [create_transaction] does for a request of the API). *)
Definition db_without_hash : DB :=
  add_split (TransactionSplit.mk "t1" 0 (cents (-1250)))
    (set_transactions
       (<["t1" := txn "t1" "A" (cents (-1250)) (Py.fromtimestamp 1700000000) "Coffee" None]> ∅)
       db_one_account).

(** Remote account records, with the keys of the aggregator's payload. *)
Definition remote_account (id name : string) (balance : string)
    (available_balance : option string) (holdings : list json) : gmap string json :=
  let base : gmap string json :=
    <["id" := JStr id]> (<["name" := JStr name]> (<["currency" := JStr "USD"]>
    (<["balance" := JStr balance]> (<["balance-date" := JInt 1700000000]>
    (<["holdings" := JArr holdings]> (<["transactions" := JArr []]> ∅)))))) in
  match available_balance with
  | Some v => <["available-balance" := JStr v]> base
  | None => base
  end.

(** Balance -50.00 with an available balance of 100.00, no keyword in the name. *)
Definition overdrawn_with_available : gmap string json :=
  remote_account "ACT-7" "Primary" "-50.00" (Some "100.00") [].

(** Balance 100.00 with an available balance of -5.00. *)
Definition positive_with_negative_available : gmap string json :=
  remote_account "ACT-8" "Primary" "100.00" (Some "-5.00") [].

(** A brokerage position list on an account named after a checking account. *)
Definition checking_with_holdings : gmap string json :=
  remote_account "ACT-9" "Premier Checking" "2500.00" None
    [JObj [("id", JStr "H1"); ("symbol", JStr "VTI")]].

(** A plain checking account, which the classifier calls a bank account. *)
Definition remote_checking : gmap string json :=
  remote_account "ACT-1" "Everyday Checking" "100.00" (Some "100.00") [].

(** A database that already holds that account, its type still unset. *)
Definition db_unclassified : DB :=
  set_accounts (<["ACT-1" := Account.mk "ACT-1" "Everyday Checking" None "USD" "org-1"
                               (Some false) None (Some 1600000000000000)]> ∅) empty_db.

(** The same account once a user has set its type to loan. *)
Definition db_classified : DB :=
  set_accounts (<["ACT-1" := Account.mk "ACT-1" "Everyday Checking" None "USD" "org-1"
                               (Some false) (Some loan) (Some 1600000000000000)]> ∅) empty_db.

(** Two accounts of one institution with the same name: ["A"] the older,
    ["B"] the newer; ["C"] has another name. *)
Definition now : Py.datetime := Py.fromtimestamp 1700000000.
Definition days_ago (n : Z) : Py.datetime := now - Py.timedelta_days n.

Definition merge_accounts_table : gmap string Account.t :=
  <["A" := acct "A" "Checking" (Some (days_ago 800))]>
  (<["B" := acct "B" "Checking" (Some (days_ago 3))]>
  (<["C" := acct "C" "Savings" (Some (days_ago 800))]> ∅)).

(** ["A"] holds a transaction from two years ago, one from last week that
    ["B"] holds too, and one from yesterday that ["B"] does not hold. *)
Definition db_merge : DB :=
  add_split (TransactionSplit.mk "b1" 0 (cents (-4200)))
  (add_split (TransactionSplit.mk "a3" 0 (cents (-999)))
  (add_split (TransactionSplit.mk "a2" 7 (cents (-4200)))
  (add_split (TransactionSplit.mk "a1" 5 (cents (-1500)))
  (set_transactions
     (<["a1" := txn "a1" "A" (cents (-1500)) (days_ago 730) "Gym" None]>
     (<["a2" := txn "a2" "A" (cents (-4200)) (days_ago 7) "Grocer" None]>
     (<["a3" := txn "a3" "A" (cents (-999)) (days_ago 1) "Coffee" None]>
     (<["b1" := txn "b1" "B" (cents (-4200)) (days_ago 7) "Grocer" None]> ∅))))
     (set_accounts merge_accounts_table empty_db))))).

(** One account with one transaction from two years ago. *)
Definition db_self : DB :=
  add_split (TransactionSplit.mk "a1" 5 (cents (-1500)))
  (set_transactions
     (<["a1" := txn "a1" "A" (cents (-1500)) (days_ago 730) "Gym" None]> ∅)
     (set_accounts (<["A" := acct "A" "Checking" (Some (days_ago 800))]> ∅) empty_db)).

(** Databases for the duplicate detector: ["A"] (older) and ["B"] (newer)
    share institution and name; ["A"] holds six transactions, one a day,
    and ["B"] holds copies (under new ids) of the [n] most recent of them
    but the very last, which it lacks. *)
Definition table_of (l : list Transaction.t) : gmap string Transaction.t :=
  foldr (λ x m, <[Transaction.id x := x]> m) ∅ l.

Definition older_txns : list Transaction.t :=
  [ txn "a1" "A" (cents (-1100)) (days_ago 1) "Coffee" None;
    txn "a2" "A" (cents (-1200)) (days_ago 2) "Grocer" None;
    txn "a3" "A" (cents (-1300)) (days_ago 3) "Fuel" None;
    txn "a4" "A" (cents (-1400)) (days_ago 4) "Books" None;
    txn "a5" "A" (cents (-1500)) (days_ago 5) "Gym" None;
    txn "a6" "A" (cents (-1600)) (days_ago 6) "Rent" None ].

Definition newer_copies : list Transaction.t :=
  [ txn "b2" "B" (cents (-1200)) (days_ago 2) "Grocer" None;
    txn "b3" "B" (cents (-1300)) (days_ago 3) "Fuel" None;
    txn "b4" "B" (cents (-1400)) (days_ago 4) "Books" None;
    txn "b5" "B" (cents (-1500)) (days_ago 5) "Gym" None ].

Definition db_duplicates (n : nat) : DB :=
  set_transactions (table_of (older_txns ++ take n newer_copies))
                   (set_accounts merge_accounts_table empty_db).

(** A remote source with transactions in the three most recent months
    only: the world counts the monthly fetches made so far, and each of the
    first three fetches brings five transactions. *)
Definition recent_three_months (fetches : nat) (start end_ : Month) : nat * (error + Z) :=
  (S fetches, inr (if (fetches <? 3)%nat then 5 else 0)).

Definition june_2024 : Month := mkMonth 2024 6.

End Ex.

(** ** Further well-formedness of a stored database *)

(** The rows of [holdings] are stored under their [id]. *)
Definition holdings_keyed (db : DB) : Prop :=
  ∀ k h, holdings db !! k = Some h → Holding.id h = k.

(** The sequence of [transaction_splits] is ahead of every stored key. *)
Definition splits_fresh (db : DB) : Prop :=
  ∀ k, is_Some (transaction_splits db !! k) → k < split_seq db.


(** The sequence of [payees] is ahead of every stored key. *)
Definition payees_fresh (db : DB) : Prop :=
  ∀ k, is_Some (payees db !! k) → k < payee_seq db.

(** Referential integrity of the splits: every split belongs to a stored
    transaction (the foreign key of [transaction_splits.transaction_id]). *)
Definition splits_refer (db : DB) : Prop :=
  ∀ k sp, transaction_splits db !! k = Some sp →
          is_Some (transactions db !! TransactionSplit.transaction_id sp).

(** The splits a create request is stored with: its own, or the default
    split of the whole amount in category 0. *)
Definition splits_to_store (data : TransactionData.t) (amount : Py.Decimal) : list SplitIn.t :=
  match TransactionData.splits data with
  | Some ((_ :: _) as l) => l
  | _ => [SplitIn.mk 0 amount]
  end.

(** ** Deleting a transaction ([app/crud/transaction.py]) *)

(** [fastapi.HTTPException(status_code=..., detail=...)] *)
Record HTTPException := mkHTTPException { status_code : Z; detail : string }.

(** [delete_transaction]: the row is deleted with its splits (the
    relationship is [cascade="all, delete-orphan"]) and the deletion is
    committed; an unknown id raises the 404 exception. *)
Definition delete_transaction (db : DB) (transaction_id : string) : HTTPException + DB :=
  match transactions db !! transaction_id with
  | None => inl (mkHTTPException 404 "Transaction not found")
  | Some _ => inr (delete_transaction_row transaction_id db)
  end.

(** ** Accounts: lookup, deletion, latest balance ([app/crud/account.py]) *)

(** Referential integrity of the foreign keys to [accounts.id]: every
    transaction, holding and balance row belongs to a stored account. *)
Definition accounts_referred (db : DB) : Prop :=
  (∀ k x, transactions db !! k = Some x → is_Some (accounts db !! Transaction.account_id x))
  ∧ (∀ k h, holdings db !! k = Some h → is_Some (accounts db !! Holding.account_id h))
  ∧ (∀ k b, account_balance db !! k = Some b →
            is_Some (accounts db !! AccountBalance.account_id b)).

Section GetAccounts.

(** The order of the database's collation on [accounts.name]. *)
Variable name_le : string → string → bool.

(** [ORDER BY accounts.name] *)
Definition by_name (a b : Account.t) : bool := name_le (Account.name a) (Account.name b).

(** [get_accounts]: [is_hidden] is [None], [Some false] or [Some true];
    [org_id] and [account_id] filter only when they are truthy. *)
Definition get_accounts (db : DB) (is_hidden : option bool)
    (org_id account_id : option string) : list Account.t :=
  let query := rows (accounts db) in
  let query :=
    if negb (default false is_hidden)
    then filter (λ a, Account.is_hidden a = Some false) query else query in
  let query :=
    match org_id with
    | Some o => if Str.truthy o then filter (λ a, Account.org_id a = o) query else query
    | None => query
    end in
  let query :=
    match account_id with
    | Some i => if Str.truthy i then filter (λ a, Account.id a = i) query else query
    | None => query
    end in
  sort_by by_name query.

End GetAccounts.

(** [delete_account]: an unknown id returns [None]; the deletion of the
    row is committed, and the database cascades it. *)
Definition delete_account (db : DB) (id : string) : outcome (option Account.t) :=
  match accounts db !! id with
  | None => Ok db None
  | Some account => Ok (delete_account_row id db) (Some account)
  end.

(** [ORDER BY balance_date DESC] *)
Definition balance_date_desc (a b : AccountBalance.t) : bool :=
  AccountBalance.balance_date b <=? AccountBalance.balance_date a.

(** [_get_latest_balance]: the dict it returns, as the pair of the values
    under ["balance"] and ["balance_date"]. *)
Definition _get_latest_balance (db : DB) (account_id : string)
  : option Py.Decimal * option Py.datetime :=
  let latest :=
    head (sort_by balance_date_desc
            (filter (λ b, AccountBalance.account_id b = account_id)
                    (rows (account_balance db)))) in
  match latest with
  | Some latest =>
      (Some (AccountBalance.balance latest), Some (AccountBalance.balance_date latest))
  | None => (None, None)
  end.

(** ** The cache of raw responses ([app/sync/manager.py]) *)

Module CacheEntry.
Record t := mk {
  data : string;
  timestamp : Py.datetime
}.
End CacheEntry.

(** [_raw_response_cache] is a dict keyed by [sync_run_id]: a
    [gmap Z CacheEntry.t]. *)

Definition _cache_expiry_minutes : Z := 5.

(** [timedelta(minutes=n)] in microseconds *)
Definition timedelta_minutes (n : Z) : Z := n * 60 * Py.us_per_second.

(** [_cleanup_expired_cache], [now] being what its [datetime.now(UTC)] reads *)
Definition _cleanup_expired_cache (now : Py.datetime) (cache : gmap Z CacheEntry.t)
  : gmap Z CacheEntry.t :=
  let cutoff := now - timedelta_minutes _cache_expiry_minutes in
  let expired :=
    List.map fst (filter (λ kv : Z * CacheEntry.t, CacheEntry.timestamp kv.2 < cutoff)
                         (map_to_list cache)) in
  foldl (λ c run_id, delete run_id c) cache expired.

(** [store_raw_response]: the clock is read twice, for the timestamp of
    the entry ([now]) and then by the cleanup ([now_cleanup]). *)
Definition store_raw_response (now now_cleanup : Py.datetime) (cache : gmap Z CacheEntry.t)
    (sync_run_id : Z) (raw_json : string) : gmap Z CacheEntry.t :=
  let cache := <[sync_run_id := CacheEntry.mk raw_json now]> cache in
  _cleanup_expired_cache now_cleanup cache.

(** [get_raw_response]: [pop(sync_run_id, None)] *)
Definition get_raw_response (cache : gmap Z CacheEntry.t) (sync_run_id : Z)
  : gmap Z CacheEntry.t * option string :=
  match cache !! sync_run_id with
  | Some entry => (delete sync_run_id cache, Some (CacheEntry.data entry))
  | None => (cache, None)
  end.

(** ** Ingestion of balances ([app/sync/simplefin.py]) *)

(** [db.add(AccountBalance(...))]: the row gets the next key of the sequence. *)
Definition add_balance (b : AccountBalance.t) (db : DB) : DB :=
  mkDB (accounts db) (<[balance_seq db := b]> (account_balance db)) (transactions db)
       (transaction_splits db) (holdings db) (payees db) (categories db)
       (balance_seq db + 1) (split_seq db) (payee_seq db).

(** The balance fields of a remote account record, by the keys the code
    reads: ["id"] ([None] is an absent key); ["balance-date"] as the
    datetime [datetime.fromtimestamp(int(balance_date), tz=UTC)] yields
    ([None] when the key is absent or its value is falsy, and when the
    conversion raises); ["balance"] and ["available-balance"] as the
    [Decimal] values the schema [AccountBalanceCreate] validates them to
    ([None] is a value that fails the validation; the balance is required,
    the available balance may be absent or null). *)
Record RemoteBalance := mkRemoteBalance {
  rb_id : option string;
  rb_balance_date : option Py.datetime;
  rb_balance : option Py.Decimal;
  rb_available_balance : option (option Py.Decimal)
}.

(** [balance_crud.create_account_balance]: the amounts are stored as
    [Numeric(12, 2)], and the account is a stored one (foreign key). *)
Definition create_account_balance (db : DB) (account_id : string) (balance : Py.Decimal)
    (available_balance : option Py.Decimal) (balance_date : Py.datetime) : outcome unit :=
  match Numeric_12_2 balance,
        match available_balance with
        | None => Some None
        | Some available => Some <$> Numeric_12_2 available
        end with
  | Some balance, Some available_balance =>
      if bool_decide (is_Some (accounts db !! account_id))
      then Ok (add_balance (AccountBalance.mk account_id balance available_balance
                                              balance_date) db) tt
      else Raise db IntegrityError
  | _, _ => Raise db DataError
  end.

(** [process_account_balance] *)
Definition process_account_balance (db : DB) (account_data : RemoteBalance) : outcome unit :=
  match rb_balance_date account_data with
  | None => Ok db tt
  | Some balance_dt =>
      match rb_id account_data with
      | None => Raise db (KeyError "id")
      | Some account_id =>
          let exists_ :=
            head (filter (λ b, AccountBalance.account_id b = account_id
                               ∧ AccountBalance.balance_date b = balance_dt)
                         (rows (account_balance db))) in
          match exists_ with
          | Some _ => Ok db tt
          | None =>
              match rb_balance account_data, rb_available_balance account_data with
              | Some balance, Some available_balance =>
                  create_account_balance db account_id balance available_balance balance_dt
              | _, _ => Raise db PydanticValidationError
              end
          end
      end
  end.

(** The sequence of [account_balance] is ahead of every stored key. *)
Definition balances_fresh (db : DB) : Prop :=
  ∀ k, is_Some (account_balance db !! k) → k < balance_seq db.

(** No account has two balance rows for the same balance date. *)
Definition balances_unique (db : DB) : Prop :=
  ∀ k1 k2 b1 b2,
    account_balance db !! k1 = Some b1 → account_balance db !! k2 = Some b2 →
    AccountBalance.account_id b1 = AccountBalance.account_id b2 →
    AccountBalance.balance_date b1 = AccountBalance.balance_date b2 →
    k1 = k2.

(** ** Further example data *)

Module ExM.

(** The merge example with a holding and a balance row for each of the
    accounts ["A"] and ["B"]. *)
Definition db_merge_full : DB :=
  mkDB (accounts Ex.db_merge)
       (<[1 := AccountBalance.mk "A" (Ex.cents 120000) None (Ex.days_ago 2)]>
        (<[2 := AccountBalance.mk "B" (Ex.cents 120000) None (Ex.days_ago 1)]> ∅))
       (transactions Ex.db_merge) (transaction_splits Ex.db_merge)
       (<["h1" := Holding.mk "h1" "A" (Some "VTI") (Some (Ex.cents 1000)) (Some (Ex.cents 250000))]>
        (<["h2" := Holding.mk "h2" "B" (Some "BND") (Some (Ex.cents 500)) (Some (Ex.cents 40000))]> ∅))
       (payees Ex.db_merge) (categories Ex.db_merge)
       3 (split_seq Ex.db_merge) (payee_seq Ex.db_merge).

(** A create request without splits, for a payee that is not stored yet. *)
Definition plain_create : TransactionData.t :=
  TransactionData.mk "t9" "A" (Some (Ex.cents 1000)) (Some (Epoch 1700000000))
    (Some (Epoch 1700000000)) (Some "Cafe") None None (Some "Coffee") None None None.

(** An update of the amount of ["t1"] to 9.00 with splits of 6.00 and 3.00. *)
Definition matching_update : TransactionUpdate.t :=
  TransactionUpdate.mk (Some (Some (Ex.cents 900))) None None None None None None
    (Some [SplitIn.mk 1 (Ex.cents 600); SplitIn.mk 2 (Ex.cents 300)]).

(** An update of the splits of ["t1"], whose amount is 10.00, to 3.335,
    3.335 and 3.33: the three add up to 10.00 as they are sent and to
    10.01 as they are stored. *)
Definition rounding_update : TransactionUpdate.t :=
  TransactionUpdate.mk None None None None None None None
    (Some [SplitIn.mk 1 (Py.Dec false 3335 (-3)); SplitIn.mk 2 (Py.Dec false 3335 (-3));
           SplitIn.mk 1 (Py.Dec false 333 (-2))]).

(** The database and the row that [plain_create] leaves on the database
    that holds account ["A"] only. *)
Definition plain_row : Transaction.t :=
  Transaction.mk "t9" "A" (Ex.cents 1000) (Py.fromtimestamp 1700000000)
    (Some (Py.fromtimestamp 1700000000)) (Some 1) (Some false) (Some "Coffee") None None.

Definition db_plain_created : DB :=
  persisted (create_transaction Ex.keep_payee Ex.db_one_account plain_create None).

(** A mortgage account ["M"] whose type is not set, with an escrow payment
    to a payee that has no category, and a category named Insurance. *)
Definition mortgage (account_type : option AccountType) : Account.t :=
  Account.mk "M" "Home Loan" None "USD" "org-1" (Some false) account_type
             (Some (Ex.days_ago 800)).

Definition db_escrow : DB :=
  mkDB (<["M" := mortgage None]> ∅) ∅
       (<["e1" := Transaction.mk "e1" "M" (Ex.cents (-30000)) (Ex.days_ago 7) None (Some 1)
                    None (Some "HAZARD INSURANCE PREMIUM") None None]> ∅)
       (<[1 := TransactionSplit.mk "e1" 0 (Ex.cents (-30000))]> ∅)
       ∅
       (<[1 := Payee.mk "Escrow" 0]> ∅)
       (<[7 := Category.mk "Insurance" None]> ∅)
       1 2 2.

(** The update that sets the type of an account to loan, and the database
    it leaves. *)
Definition to_loan : AccountUpdate.t :=
  AccountUpdate.mk None None None None (Some (Some loan)) None.

Definition db_escrow_loan : DB :=
  set_payees (<[1 := Payee.mk "Escrow" 7]> ∅)
             (set_accounts (<["M" := mortgage (Some loan)]> ∅) db_escrow).

(** Three accounts of one institution with the same name: ["A"], the
    oldest, with six transactions, and ["B"] and ["D"], each with copies
    of four of the five most recent of them. *)
Definition third_copies : list Transaction.t :=
  [ Ex.txn "d2" "D" (Ex.cents (-1200)) (Ex.days_ago 2) "Grocer" None;
    Ex.txn "d3" "D" (Ex.cents (-1300)) (Ex.days_ago 3) "Fuel" None;
    Ex.txn "d4" "D" (Ex.cents (-1400)) (Ex.days_ago 4) "Books" None;
    Ex.txn "d5" "D" (Ex.cents (-1500)) (Ex.days_ago 5) "Gym" None ].

Definition db_three_accounts : DB :=
  set_transactions (Ex.table_of (Ex.older_txns ++ Ex.newer_copies ++ third_copies))
    (set_accounts (<["D" := Ex.acct "D" "Checking" (Some (Ex.days_ago 1))]>
                     Ex.merge_accounts_table) empty_db).

Definition group_of_three : DuplicateGroup :=
  mkDuplicateGroup "org-1" "Checking"
    [ Ex.acct "A" "Checking" (Some (Ex.days_ago 800));
      Ex.acct "B" "Checking" (Some (Ex.days_ago 3));
      Ex.acct "D" "Checking" (Some (Ex.days_ago 1)) ].

(** Three accounts of one institution with the same name again: ["B"]
    holds copies of the transactions of ["A"] of two to five days ago,
    ["D"] copies of those of one, three, four and five days ago. *)
Definition chain_copies : list Transaction.t :=
  [ Ex.txn "d1" "D" (Ex.cents (-1100)) (Ex.days_ago 1) "Coffee" None;
    Ex.txn "d3" "D" (Ex.cents (-1300)) (Ex.days_ago 3) "Fuel" None;
    Ex.txn "d4" "D" (Ex.cents (-1400)) (Ex.days_ago 4) "Books" None;
    Ex.txn "d5" "D" (Ex.cents (-1500)) (Ex.days_ago 5) "Gym" None ].

Definition db_chain : DB :=
  set_transactions (Ex.table_of (Ex.older_txns ++ Ex.newer_copies ++ chain_copies))
    (set_accounts (<["D" := Ex.acct "D" "Checking" (Some (Ex.days_ago 1))]>
                     Ex.merge_accounts_table) empty_db).

(** The balance of account ["A"] as a delivery reports it. *)
Definition remote_balance : RemoteBalance :=
  mkRemoteBalance (Some "A") (Some (Py.fromtimestamp 1700000000))
                  (Some (Ex.cents 120000)) (Some None).

(** A remote source that holds transactions from March 2024 on: a fetch
    of a month from then on brings five transactions, a fetch of an earlier
    month none.  The world counts the fetches. *)
Definition since_march_2024 (fetches : nat) (start end_ : Month) : nat * (error + Z) :=
  (S fetches,
   inr (if months_since_floor start <? months_since_floor (mkMonth 2024 3) then 0 else 5)).

End ExM.
(** * Properties *)

(** ** ContentHasher *)

Lemma hexdigit_is_hex (n : Z) : Sha256.is_hex_digit (Sha256.hexdigit n) = true.
Proof.
  unfold Sha256.hexdigit.
  assert (H : 0 <= n mod 16 < 16) by (apply Z.mod_pos_bound; lia).
  assert (E : n mod 16 = 0 ∨ n mod 16 = 1 ∨ n mod 16 = 2 ∨ n mod 16 = 3
            ∨ n mod 16 = 4 ∨ n mod 16 = 5 ∨ n mod 16 = 6 ∨ n mod 16 = 7
            ∨ n mod 16 = 8 ∨ n mod 16 = 9 ∨ n mod 16 = 10 ∨ n mod 16 = 11
            ∨ n mod 16 = 12 ∨ n mod 16 = 13 ∨ n mod 16 = 14 ∨ n mod 16 = 15) by lia.
  repeat (destruct E as [E | E]; [rewrite E; reflexivity |]).
  rewrite E; reflexivity.
Qed.

Lemma hex8_length (w : Z) : String.length (Sha256.hex8 w) = 8%nat.
Proof. reflexivity. Qed.

Lemma hex8_is_hex (w : Z) :
  forallb Sha256.is_hex_digit (list_ascii_of_string (Sha256.hex8 w)) = true.
Proof.
  unfold Sha256.hex8; cbn [list_ascii_of_string forallb].
  rewrite !hexdigit_is_hex. reflexivity.
Qed.

Lemma string_length_app (s t : string) :
  String.length (s ++ t) = (String.length s + String.length t)%nat.
Proof. induction s as [| c s IH]; simpl; [reflexivity | now f_equal]. Qed.

Lemma list_ascii_app (s t : string) :
  list_ascii_of_string (s ++ t) = (list_ascii_of_string s ++ list_ascii_of_string t)%list.
Proof. induction s as [| c s IH]; simpl; [reflexivity | now f_equal]. Qed.

Lemma hexdigest_length (s : string) : String.length (Sha256.hexdigest s) = 64%nat.
Proof.
  unfold Sha256.hexdigest, Sha256.hex_of_regs.
  rewrite !string_length_app, !hex8_length. reflexivity.
Qed.

Lemma hexdigest_is_hex (s : string) :
  forallb Sha256.is_hex_digit (list_ascii_of_string (Sha256.hexdigest s)) = true.
Proof.
  unfold Sha256.hexdigest, Sha256.hex_of_regs.
  rewrite !list_ascii_app, !forallb_app, !hex8_is_hex. reflexivity.
Qed.

(** [float(d)] depends on the value of [d] only: rationals that are equal
    round to the same float. *)
Lemma float_of_Q_proper (neg : bool) (p q : Q) :
  Qeq p q → Py.float_of_Q neg p = Py.float_of_Q neg q.
Proof. intros H. unfold Py.float_of_Q. now rewrite (Qred_complete _ _ H). Qed.

Lemma pow10_pos (k : Z) : 0 <= k → 0 < 10 ^ k.
Proof. intros; apply Z.pow_pos_nonneg; lia. Qed.

Lemma float_of_decimal_trailing_zeros (neg : bool) (c e k : Z) :
  0 <= k →
  Py.float_of_decimal (Py.Dec neg (c * 10 ^ k) (e - k))
  = Py.float_of_decimal (Py.Dec neg c e).
Proof.
  intros Hk. unfold Py.float_of_decimal; cbn [Py.d_coeff Py.d_exp Py.d_neg].
  pose proof (pow10_pos k Hk) as Hp.
  destruct (Z.eqb_spec c 0) as [-> | Hc].
  - now rewrite Z.mul_0_l.
  - destruct (Z.eqb_spec (c * 10 ^ k) 0) as [E | _]; [nia |].
    apply float_of_Q_proper.
    unfold Py.Q_of_decimal, Qeq; cbn [Qnum Qden Py.d_coeff Py.d_exp].
    rewrite !Z2Pos.id by (apply pow10_pos; lia).
    rewrite <- !Z.mul_assoc, <- !Z.pow_add_r by lia.
    f_equal. f_equal. lia.
Qed.

(** C10. Hash stability: [compute_transaction_hash] is a function of its
    four arguments (equal arguments give the same digest on every call), its
    result is a string of 64 hexadecimal characters, and an amount written
    with trailing zeros ([c * 10^k] at exponent [e - k], such as 12.50 for
    12.5) gives the digest of the amount written without them, the amount
    being turned into a float before the signature string is composed. *)
Theorem C10_hash_stability :
  (∀ account_id posted amount description,
      String.length (compute_transaction_hash account_id posted amount description) = 64%nat
      ∧ forallb Sha256.is_hex_digit
          (list_ascii_of_string
             (compute_transaction_hash account_id posted amount description)) = true)
  ∧ (∀ a1 p1 m1 d1 a2 p2 m2 d2,
      a1 = a2 → p1 = p2 → m1 = m2 → d1 = d2 →
      compute_transaction_hash a1 p1 m1 d1 = compute_transaction_hash a2 p2 m2 d2)
  ∧ (∀ account_id posted description neg c e k,
      0 <= k →
      compute_transaction_hash account_id posted (Py.Dec neg (c * 10 ^ k) (e - k)) description
      = compute_transaction_hash account_id posted (Py.Dec neg c e) description)
  ∧ compute_transaction_hash "ACT-1" (Some (Py.fromtimestamp 1700000000))
      (Py.Dec false 1250 (-2)) (Some "Coffee")
    = compute_transaction_hash "ACT-1" (Some (Py.fromtimestamp 1700000000))
      (Py.Dec false 125 (-1)) (Some "Coffee").
Proof.
  split; [| split; [| split]].
  - intros. split; [apply hexdigest_length | apply hexdigest_is_hex].
  - intros; congruence.
  - intros * Hk. unfold compute_transaction_hash.
    now rewrite float_of_decimal_trailing_zeros.
  - vm_compute. reflexivity.
Qed.
(** ** What the database stores *)

(** A value is stored in whole hundredths, below [10^10]. *)
Lemma Numeric_12_2_Some (d stored : Py.Decimal) :
  0 <= Py.d_coeff d →
  Numeric_12_2 d = Some stored →
  Py.d_exp stored = -2 ∧ 0 <= Py.d_coeff stored < 10 ^ 12.
Proof.
  intros Hc. unfold Numeric_12_2.
  set (h := if 0 <=? Py.d_exp d + 2 then _ else _).
  destruct (Z.leb_spec (10 ^ 12) h) as [| Hlt]; [discriminate |].
  intros [= <-]. cbn. split; [reflexivity |]. split; [| exact Hlt].
  unfold h. destruct (Z.leb_spec 0 (Py.d_exp d + 2)).
  - apply Z.mul_nonneg_nonneg; [exact Hc | apply Z.pow_nonneg; lia].
  - assert (0 < 10 ^ (- (Py.d_exp d + 2))) by (apply Z.pow_pos_nonneg; lia).
    apply Z.div_pos; lia.
Qed.

(** A value in whole hundredths below [10^10] is stored as it is. *)
Lemma Numeric_12_2_exact (neg : bool) (c : Z) :
  0 <= c < 10 ^ 12 → (c = 0 → neg = false) →
  Numeric_12_2 (Py.Dec neg c (-2)) = Some (Py.Dec neg c (-2)).
Proof.
  intros Hc Hz. unfold Numeric_12_2. cbn [Py.d_exp Py.d_coeff Py.d_neg].
  change (-2 + 2) with 0. cbn [Z.leb Z.compare]. rewrite Z.pow_0_r, Z.mul_1_r.
  destruct (Z.leb_spec (10 ^ 12) c); [lia |].
  destruct (Z.eqb_spec c 0) as [E | _]; [rewrite (Hz E) | rewrite andb_true_r]; reflexivity.
Qed.

(** What is stored is stored unchanged when it is written again. *)
Lemma Numeric_12_2_idempotent (d stored : Py.Decimal) :
  0 <= Py.d_coeff d →
  Numeric_12_2 d = Some stored → Numeric_12_2 stored = Some stored.
Proof.
  intros Hc H. destruct (Numeric_12_2_Some d stored Hc H) as [He Hs].
  revert H. unfold Numeric_12_2 at 1.
  set (h := if 0 <=? Py.d_exp d + 2 then _ else _).
  destruct (Z.leb_spec (10 ^ 12) h); [discriminate |]. intros [= <-].
  apply Numeric_12_2_exact; [cbn in Hs; exact Hs |].
  intros ->. cbn. apply andb_false_r.
Qed.

Lemma stored_split_Some tid s sp :
  stored_split tid s = Some sp →
  TransactionSplit.transaction_id sp = tid
  ∧ TransactionSplit.category_id sp = SplitIn.category_id s
  ∧ Numeric_12_2 (SplitIn.amount s) = Some (TransactionSplit.amount sp).
Proof.
  unfold stored_split. destruct (Numeric_12_2 (SplitIn.amount s)) as [a |]; [| discriminate].
  cbn. intros [= <-]. done.
Qed.

(** The rows that a list of splits is stored as. *)
Lemma stored_splits_rows tid (l : list SplitIn.t) (split_rows : list TransactionSplit.t) :
  mapM (stored_split tid) l = Some split_rows →
  Forall2 (λ s sp, TransactionSplit.transaction_id sp = tid
                   ∧ TransactionSplit.category_id sp = SplitIn.category_id s
                   ∧ Numeric_12_2 (SplitIn.amount s) = Some (TransactionSplit.amount sp))
          l split_rows.
Proof.
  intros H. apply mapM_Some_1 in H.
  eapply Forall2_impl; [exact H |]. intros s sp. apply stored_split_Some.
Qed.

Lemma stored_splits_rows_categories (db : DB) tid (l : list SplitIn.t) split_rows :
  mapM (stored_split tid) l = Some split_rows →
  Forall (λ s, is_Some (categories db !! SplitIn.category_id s)) l →
  Forall2 (λ s sp, TransactionSplit.transaction_id sp = tid
                   ∧ TransactionSplit.category_id sp = SplitIn.category_id s
                   ∧ is_Some (categories db !! SplitIn.category_id s)
                   ∧ Numeric_12_2 (SplitIn.amount s) = Some (TransactionSplit.amount sp))
          l split_rows.
Proof.
  intros H. apply stored_splits_rows in H.
  induction H as [| s sp l l' (H1 & H3 & H4) _ IH]; intros Hfk; [constructor |].
  apply Forall_cons in Hfk as [Hs Hfk].
  constructor; [| now apply IH].
  split; [exact H1 |]. split; [exact H3 |]. split; [exact Hs | exact H4].
Qed.

Lemma stored_splits_transaction_id tid (l : list SplitIn.t) split_rows :
  mapM (stored_split tid) l = Some split_rows →
  Forall (λ sp, TransactionSplit.transaction_id sp = tid) split_rows.
Proof.
  intros H. apply stored_splits_rows in H.
  induction H as [| s sp l l' (H1 & _) _ IH]; constructor; assumption.
Qed.

Lemma insert_splits_inr db tid l db' :
  insert_splits db tid l = inr db' →
  ∃ split_rows,
    mapM (stored_split tid) l = Some split_rows
    ∧ Forall (λ s, is_Some (categories db !! SplitIn.category_id s)) l
    ∧ db' = foldl (λ d split, add_split split d) db split_rows.
Proof.
  unfold insert_splits. destruct (mapM _ l) as [split_rows |]; [| discriminate].
  destruct (forallb _ l) eqn:Hfk; [| discriminate].
  intros [= <-]. exists split_rows. split; [reflexivity |]. split; [| reflexivity].
  apply Forall_forall. intros s Hs.
  rewrite forallb_forall in Hfk. apply list_elem_of_In in Hs.
  exact (bool_decide_eq_true_1 _ (Hfk s Hs)).
Qed.

(** The splits are inserted when each amount fits its column and each
    category is stored. *)
Lemma insert_splits_stored db tid l split_rows :
  mapM (stored_split tid) l = Some split_rows →
  Forall (λ s, is_Some (categories db !! SplitIn.category_id s)) l →
  insert_splits db tid l = inr (foldl (λ d split, add_split split d) db split_rows).
Proof.
  intros Hrows Hfk. unfold insert_splits. rewrite Hrows.
  assert (E : forallb (λ split_in,
                         bool_decide (is_Some (categories db !! SplitIn.category_id split_in)))
                      l = true).
  { apply forallb_forall. intros s Hs. apply bool_decide_eq_true_2.
    rewrite Forall_forall in Hfk. apply Hfk. now apply list_elem_of_In. }
  now rewrite E.
Qed.

Lemma insert_splits_inl db tid l e :
  insert_splits db tid l = inl e → e = DataError ∨ e = IntegrityError.
Proof.
  unfold insert_splits. destruct (mapM _ l); [| intros [= <-]; now left].
  destruct (forallb _ l); [discriminate | intros [= <-]; now right].
Qed.

Lemma insert_transaction_inr db id account_id amount posted transacted_at payee_id
    is_pending description memo content_hash db' txn :
  insert_transaction db id account_id amount posted transacted_at payee_id is_pending
    description memo content_hash = inr (db', txn) →
  ∃ stored posted',
    Numeric_12_2 amount = Some stored ∧ posted = Some posted'
    ∧ transactions db !! id = None
    ∧ is_Some (accounts db !! account_id)
    ∧ (∀ i, payee_id = Some i → is_Some (payees db !! i))
    ∧ txn = Transaction.mk id account_id stored posted' transacted_at payee_id
              (Some (default false is_pending)) description memo content_hash
    ∧ db' = set_transactions (<[id := txn]> (transactions db)) db.
Proof.
  unfold insert_transaction.
  destruct (Numeric_12_2 amount) as [stored |]; [| discriminate].
  destruct posted as [posted' |]; [| discriminate].
  destruct (transactions db !! id) eqn:Hid; [discriminate |].
  destruct (bool_decide (is_Some (accounts db !! account_id))) eqn:Ha; [| discriminate].
  cbn [andb].
  match goal with
  | |- (if ?b then _ else _) = _ → _ => destruct b eqn:Hp; [| discriminate]
  end.
  intros [= <- <-]. exists stored, posted'.
  split; [reflexivity |]. split; [reflexivity |]. split; [reflexivity |].
  split; [exact (bool_decide_eq_true_1 _ Ha) |].
  split; [| split; reflexivity].
  intros i ->. exact (bool_decide_eq_true_1 _ Hp).
Qed.

Lemma insert_transaction_inl db id account_id amount posted transacted_at payee_id
    is_pending description memo content_hash e :
  insert_transaction db id account_id amount posted transacted_at payee_id is_pending
    description memo content_hash = inl e →
  e = DataError ∨ e = IntegrityError.
Proof.
  unfold insert_transaction.
  destruct (Numeric_12_2 amount); [| intros [= <-]; now left].
  destruct posted; [| intros [= <-]; now right].
  destruct (transactions db !! id); [intros [= <-]; now right |].
  match goal with
  | |- (if ?b then _ else _) = _ → _ => destruct b; [discriminate | intros [= <-]; now right]
  end.
Qed.

Section CreateTransaction.

Variable normalize_check_payee : string → option string → string.

(** What a successful [create_transaction] has done. *)
Lemma create_transaction_inv db data cat db' txn :
  create_transaction normalize_check_payee db data cat = Ok db' txn →
  ∃ db1 amount stored posted split_rows,
    (transactions db1 = transactions db ∧ accounts db1 = accounts db
     ∧ transaction_splits db1 = transaction_splits db ∧ split_seq db1 = split_seq db
     ∧ categories db1 = categories db ∧ holdings db1 = holdings db
     ∧ account_balance db1 = account_balance db)
    ∧ TransactionData.amount data = Some amount
    ∧ Numeric_12_2 amount = Some stored
    ∧ _convert_epoch (TransactionData.posted data) = Some posted
    ∧ transactions db !! TransactionData.id data = None
    ∧ is_Some (accounts db !! TransactionData.account_id data)
    ∧ txn = Transaction.mk (TransactionData.id data) (TransactionData.account_id data)
              stored posted (_convert_epoch (TransactionData.transacted_at data))
              (Transaction.payee_id txn)
              (Some (default false (TransactionData.is_pending data)))
              (TransactionData.description data) (TransactionData.memo data)
              (TransactionData.content_hash data)
    ∧ mapM (stored_split (TransactionData.id data)) (splits_to_store data amount)
      = Some split_rows
    ∧ Forall (λ s, is_Some (categories db !! SplitIn.category_id s))
             (splits_to_store data amount)
    ∧ db' = foldl (λ d split, add_split split d)
              (set_transactions (<[TransactionData.id data := txn]> (transactions db1)) db1)
              split_rows.
Proof.
  unfold create_transaction.
  match goal with
  | |- match ?x with inl _ => _ | inr _ => _ end = _ → _ =>
      destruct x as [e | [db1 payee_id]] eqn:Hp; [discriminate |]
  end.
  assert (Ht : transactions db1 = transactions db ∧ accounts db1 = accounts db
               ∧ transaction_splits db1 = transaction_splits db ∧ split_seq db1 = split_seq db
               ∧ categories db1 = categories db ∧ holdings db1 = holdings db
               ∧ account_balance db1 = account_balance db).
  { destruct (TransactionData.payee data) as [pn |]; [| now injection Hp as <- _].
    destruct (Str.truthy pn); [| now injection Hp as <- _].
    destruct (payee_by_name db _) as [[i p] |]; [now injection Hp as <- _ |].
    destruct (bool_decide _); [| discriminate].
    unfold add_payee in Hp. now injection Hp as <- _. }
  cbn [_validate_splits].
  destruct (TransactionData.amount data) as [amount |]; [| discriminate].
  destruct (insert_transaction _ _ _ _ _ _ _ _ _ _ _) as [e | [db2 row]] eqn:Hins;
    [discriminate |].
  apply insert_transaction_inr in Hins
    as (stored & posted & Hnum & Hposted & Hfree & Hacc & _ & -> & ->).
  cbn [Transaction.id].
  fold (splits_to_store data amount).
  destruct (insert_splits _ _ _) as [e | db3] eqn:Hsp; [discriminate |].
  apply insert_splits_inr in Hsp as (split_rows & Hrows & Hfk & ->).
  intros [= <- <-].
  destruct Ht as (Ht & Ha & Hs & Hq & Hc & Hh & Hb).
  exists db1, amount, stored, posted, split_rows.
  split; [done |]. split; [done |]. split; [done |]. split; [done |].
  split; [now rewrite <- Ht |]. split; [now rewrite <- Ha |].
  split; [done |]. split; [done |]. split; [| done].
  cbn [categories set_transactions] in Hfk. now rewrite Hc in Hfk.
Qed.

(** [create_transaction] fails with an error of the database only. *)
Lemma create_transaction_Raise db data cat db' e :
  create_transaction normalize_check_payee db data cat = Raise db' e →
  db' = db ∧ (e = DataError ∨ e = IntegrityError).
Proof.
  unfold create_transaction.
  match goal with
  | |- match ?x with inl _ => _ | inr _ => _ end = _ → _ =>
      destruct x as [e0 | [db1 payee_id]] eqn:Hp
  end.
  { intros [= <- <-]. split; [done |]. right.
    destruct (TransactionData.payee data) as [pn |]; [| discriminate].
    destruct (Str.truthy pn); [| discriminate].
    destruct (payee_by_name db _) as [[i p] |]; [discriminate |].
    destruct (bool_decide _); [| now injection Hp as <-].
    unfold add_payee in Hp. discriminate. }
  cbn [_validate_splits].
  destruct (TransactionData.amount data) as [amount |];
    [| intros [= <- <-]; split; [done | now right]].
  destruct (insert_transaction _ _ _ _ _ _ _ _ _ _ _) as [e1 | [db2 row]] eqn:Hins.
  { intros [= <- <-]. split; [done |]. now apply insert_transaction_inl in Hins. }
  destruct (insert_splits _ _ _) as [e2 | db3] eqn:Hsp; [| discriminate].
  intros [= <- <-]. split; [done |]. now apply insert_splits_inl in Hsp.
Qed.

End CreateTransaction.

(** ** Split validation at creation *)

Section SplitValidation.

Variable normalize_check_payee : string → option string → string.

(** [create_transaction] validates an object that carries no splits:
    the validation cannot fail, whatever the request. *)
Lemma create_transaction_never_split_mismatch db data cat tid expected actual :
  raised (create_transaction normalize_check_payee db data cat)
  ≠ Some (SplitMismatchError tid expected actual).
Proof.
  destruct (create_transaction normalize_check_payee db data cat) as [db' txn | db' e] eqn:H;
    cbn [raised]; [discriminate |].
  apply create_transaction_Raise in H as [_ [-> | ->]]; discriminate.
Qed.

(** C3 (the code at the failing input). A create request for 10.00 with
    splits of 6.00 and 3.00 is accepted: nothing is raised, the transaction
    is persisted and so are the two splits, whose sum is not its amount. *)
Theorem C3_create_transaction_accepts_mismatched_splits :
  let out := create_transaction normalize_check_payee Ex.db_one_account
               Ex.mismatched_create None in
  Py.dec_eqb (Py.dec_sum [Ex.cents 600; Ex.cents 300]) (Ex.cents 1000) = false
  ∧ raised out = None
  ∧ Transaction.amount <$> transactions (persisted out) !! "t1" = Some (Ex.cents 1000)
  ∧ transaction_splits (persisted out) !! 1 = Some (TransactionSplit.mk "t1" 1 (Ex.cents 600))
  ∧ transaction_splits (persisted out) !! 2 = Some (TransactionSplit.mk "t1" 2 (Ex.cents 300))
  ∧ List.length (splits_of (persisted out) "t1") = 2%nat.
Proof. vm_compute. repeat split; reflexivity. Qed.

End SplitValidation.

(** The sibling path validates the object once the splits are attached:
    the same splits sent as an update are refused and nothing is persisted. *)
Lemma update_transaction_rejects_mismatched_splits :
  update_transaction Ex.db_one_transaction "t1" Ex.mismatched_update
  = Raise Ex.db_one_transaction
      (SplitMismatchError "t1" (Some (Ex.cents 1000)) (Py.Dec false 900 (-2))).
Proof. vm_compute. reflexivity. Qed.

(** ** AccountClassifier *)

(** Rule 1 comes first: a non-empty holdings collection decides, whatever
    the name and the balances are. *)
Lemma classify_account_holdings_first (acct : gmap string json) :
  nonempty_collection (acct !! "holdings") = true →
  classify_account acct = inr (Some "investment").
Proof. intros H. unfold classify_account. now rewrite H. Qed.

Lemma classify_account_checking_with_holdings :
  classify_account Ex.checking_with_holdings = inr (Some "investment").
Proof. vm_compute. reflexivity. Qed.

(** The key the payload carries, ["available-balance"], is never read:
    the classifier looks up ["available_balance"]. *)
Lemma classify_account_ignores_available_balance (acct : gmap string json) (v : json) :
  classify_account (<["available-balance" := v]> acct) = classify_account acct.
Proof.
  unfold classify_account.
  rewrite !lookup_insert_ne by discriminate. reflexivity.
Qed.

(** C4 (the code at the failing inputs). A record with balance -50.00 and
    available-balance 100.00 is classified [credit_card], and a record with
    balance 100.00 and available-balance -5.00 is classified [bank]: the
    available balance of the payload plays no part, where the cascade asks
    for it to be absent (rule 5) or non-negative (rule 6) and otherwise
    leaves the account unclassified. *)
Theorem C4_classifier_reads_wrong_available_balance_key :
  Ex.overdrawn_with_available !! "available-balance" = Some (JStr "100.00")
  ∧ classify_account Ex.overdrawn_with_available = inr (Some "credit_card")
  ∧ Ex.positive_with_negative_available !! "available-balance" = Some (JStr "-5.00")
  ∧ classify_account Ex.positive_with_negative_available = inr (Some "bank").
Proof. vm_compute. repeat split; reflexivity. Qed.

(** ** Classification on account upsert *)

(** C9 (the code at the failing input). The classifier calls the record a
    bank account, yet after [process_accounts] the stored [account_type] is
    still unset, both when the account is new and when it existed with an
    unset type: the classification is written to a local [AccountCreate]
    that is not the one persisted.  An account whose type was set keeps it. *)
Theorem C9_classification_result_is_not_stored :
  let acct := <["org_id" := JStr "org-1"]> Ex.remote_checking in
  classify_account acct = inr (Some "bank")
  ∧ (let out := process_accounts 1700000000000000 empty_db [Ex.remote_checking] "org-1" in
     raised out = None
     ∧ Account.account_type <$> accounts (persisted out) !! "ACT-1" = Some None)
  ∧ (let out := process_accounts 1700000000000000 Ex.db_unclassified
                  [Ex.remote_checking] "org-1" in
     raised out = None
     ∧ Account.account_type <$> accounts (persisted out) !! "ACT-1" = Some None)
  ∧ (let out := process_accounts 1700000000000000 Ex.db_classified
                  [Ex.remote_checking] "org-1" in
     raised out = None
     ∧ Account.account_type <$> accounts (persisted out) !! "ACT-1" = Some (Some loan)).
Proof. vm_compute. repeat split; reflexivity. Qed.

(** The lookup of an account by [get_accounts] and by primary key agree. *)
Lemma get_accounts_by_id_lookup db i :
  accounts_keyed db →
  match get_accounts_by_id db i with
  | e0 :: _ => accounts db !! i = Some e0
  | [] => accounts db !! i = None
  end.
Proof.
  intros Hkeyed. unfold get_accounts_by_id.
  destruct (filter _ _) as [| e0 l] eqn:E.
  - destruct (accounts db !! i) as [a |] eqn:Ha; [| done].
    assert (Hin : a ∈ filter (λ a, Account.id a = i) (rows (accounts db))).
    { apply list_elem_of_filter. split; [eauto |].
      unfold rows. apply list_elem_of_fmap. exists (i, a).
      split; [done |]. now apply elem_of_map_to_list. }
    rewrite E in Hin. inversion Hin.
  - assert (Hin : e0 ∈ filter (λ a, Account.id a = i) (rows (accounts db)))
      by (rewrite E; left).
    apply list_elem_of_filter in Hin as [Hid Hin].
    unfold rows in Hin. apply list_elem_of_fmap in Hin as ([k a] & -> & Hin).
    apply elem_of_map_to_list in Hin. cbn in Hid.
    now rewrite <- Hid, (Hkeyed _ _ Hin).
Qed.

Lemma recategorize_accounts db account :
  accounts (_recategorize_payees_for_loan_account db account) = accounts db.
Proof.
  unfold _recategorize_payees_for_loan_account.
  now destruct (foldl _ _ _) as [[? ?] ?].
Qed.

Ltac simpl_lookups :=
  repeat (rewrite lookup_insert_eq || (rewrite lookup_insert_ne by discriminate)).

(** The half of the invariant that holds: a remote record (which carries
    no ["account_type"] key) never changes a stored type.  After the record
    is processed, the stored type of its account is the one stored before,
    and unset for an account that is new. *)
Lemma process_account_keeps_stored_type now db acct org_id i db' :
  accounts_keyed db →
  acct !! "account_type" = None → acct !! "id" = Some (JStr i) →
  process_account now db acct org_id = Ok db' tt →
  Account.account_type <$> accounts db' !! i
  = Some (accounts db !! i ≫= Account.account_type).
Proof.
  intros Hkeyed Hty Hid. unfold process_account.
  unfold AccountCreate.of_dict, AccountUpdate.of_dict.
  simpl_lookups. rewrite Hid, Hty. cbn [required_str field_account_type].
  destruct (required_str (acct !! "name")) as [n |]; [| discriminate].
  destruct (required_str (acct !! "currency")) as [c |]; [| discriminate].
  cbn [mbind option_bind].
  destruct (field_str (acct !! "alt_name")) as [an |]; [| discriminate].
  destruct (field_bool (acct !! "is_hidden")) as [h |]; [| discriminate].
  cbn [mbind option_bind AccountCreate.id].
  pose proof (get_accounts_by_id_lookup db i Hkeyed) as Hget.
  destruct (get_accounts_by_id db i) as [| e0 rest].
  - (* a new account *)
    destruct (classify_account _) as [e | [s |]]; [discriminate | |];
      unfold create_account; cbn [AccountCreate.id]; rewrite Hget; cbn;
      intros [= <-]; cbn; now rewrite lookup_insert_eq.
  - (* an existing account *)
    rewrite Hget. cbn [mbind option_bind field_str].
    match goal with
    | |- match _ with inl e => _ | inr _ => ?u end = _ → _ => set (updated := u)
    end.
    assert (Hupd : updated = Ok db' tt →
              Account.account_type <$> accounts db' !! i
              = Some (Account.account_type e0)).
    { subst updated.
      destruct (field_str (acct !! "name")) as [n' |]; [| discriminate].
      destruct (field_str (acct !! "currency")) as [c' |]; [| discriminate].
      cbn [mbind option_bind]. unfold update_account. rewrite Hget.
      destruct n' as [[n' |] |], c' as [[c' |] |]; cbn; try discriminate;
        intros [= <-]; cbn; now rewrite lookup_insert_eq. }
    destruct (Account.account_type e0) as [t |];
      [| destruct (classify_account _) as [e | [s |]]; [discriminate | |]];
      exact Hupd.
Qed.

(** ** AccountMerger *)

Section MergeLoop.

Variables (cutoff_date : Py.datetime) (target_account_id : string)
          (preserve_categorization : bool)
          (target_txn_map : gmap (Py.datetime * Py.float * string) Transaction.t).

Let step := merge_step cutoff_date target_account_id preserve_categorization target_txn_map.

Let stats_step' := stats_step cutoff_date preserve_categorization target_txn_map.

Lemma merge_step_stats db st x : (step (db, st) x).2 = stats_step' st x.
Proof.
  unfold step, merge_step, stats_step', stats_step.
  destruct (cutoff_date <=? Transaction.posted x); [| reflexivity].
  destruct (target_txn_map !! txn_key x) as [tgt |]; cbn.
  - destruct preserve_categorization; reflexivity.
  - rewrite andb_false_r. reflexivity.
Qed.

Lemma merge_loop_stats_fold (l : list Transaction.t) : ∀ db st,
  (foldl step (db, st) l).2 = foldl stats_step' st l.
Proof.
  induction l as [| x l IH]; intros db st; cbn [foldl]; [reflexivity |].
  destruct (step (db, st) x) as [db' st'] eqn:E.
  rewrite IH. f_equal. now rewrite <- (merge_step_stats db st x), E.
Qed.

(** The counters after the loop over the source transactions. *)
Lemma merge_loop_stats (l : list Transaction.t) (db : Work) (st : MergeStats) :
  let r := (foldl step (db, st) l).2 in
  transactions_reassigned r
  = transactions_reassigned st
    + Z.of_nat (List.length (filter (λ x, Transaction.posted x < cutoff_date) l))
  ∧ transactions_removed r
    = transactions_removed st
      + Z.of_nat (List.length (filter (λ x, cutoff_date <= Transaction.posted x) l))
  ∧ transactions_matched r
    = transactions_matched st
      + (if preserve_categorization
         then Z.of_nat (List.length
                (filter (λ x, cutoff_date <= Transaction.posted x
                              ∧ is_Some (target_txn_map !! txn_key x)) l))
         else 0)
  ∧ holdings_reassigned r = holdings_reassigned st
  ∧ source_account_deleted r = source_account_deleted st.
Proof.
  cbn zeta. rewrite merge_loop_stats_fold. clear db.
  revert st. induction l as [| x l IH]; intros st; cbn [foldl].
  - cbn. repeat split; try lia. destruct preserve_categorization; lia.
  - destruct (IH (stats_step' st x)) as (H1 & H2 & H3 & H4 & H5); clear IH.
    rewrite H1, H2, H3, H4, H5. clear H1 H2 H3 H4 H5.
    rewrite !filter_cons. unfold stats_step', stats_step.
    destruct (Z.leb_spec cutoff_date (Transaction.posted x)) as [Hle | Hlt];
      cbn [transactions_reassigned transactions_removed transactions_matched
           holdings_reassigned source_account_deleted].
    + destruct preserve_categorization; cbn [andb];
        repeat case_bool_decide; repeat case_decide;
        try (exfalso; tauto); try lia;
        cbn [List.length]; repeat split; lia.
    + destruct preserve_categorization;
        repeat case_decide; try (exfalso; lia); try (exfalso; tauto);
        cbn [List.length]; repeat split; lia.
Qed.

End MergeLoop.

(** The loop over the holdings leaves the transaction counters alone. *)
Lemma holding_loop_stats target_account_id (l : list Holding.t) : ∀ db st,
  let r := (foldl (holding_step target_account_id) (db, st) l).2 in
  transactions_reassigned r = transactions_reassigned st
  ∧ transactions_removed r = transactions_removed st
  ∧ transactions_matched r = transactions_matched st
  ∧ holdings_reassigned r = holdings_reassigned st + Z.of_nat (List.length l).
Proof.
  induction l as [| h l IH]; intros db st; cbn [foldl].
  - cbn. repeat split; lia.
  - destruct (holding_step target_account_id (db, st) h) as [d s] eqn:E.
    unfold holding_step in E. injection E as _ <-.
    destruct (IH d (mkMergeStats (transactions_reassigned st) (transactions_removed st)
                      (transactions_matched st) (holdings_reassigned st + 1)
                      (source_account_deleted st))) as (H1 & H2 & H3 & H4).
    cbn zeta. rewrite H1, H2, H3, H4. cbn. repeat split; lia.
Qed.

(** A lookup built from a list of transactions holds exactly their keys. *)
Lemma build_txn_map_is_Some (l : list Transaction.t) (k : Py.datetime * Py.float * string) :
  is_Some (build_txn_map l !! k) ↔ ∃ x, x ∈ l ∧ txn_key x = k.
Proof.
  unfold build_txn_map.
  assert (G : ∀ m : gmap (Py.datetime * Py.float * string) Transaction.t,
             is_Some (foldl (λ m txn, <[txn_key txn := txn]> m) m l !! k)
                   ↔ is_Some (m !! k) ∨ ∃ x, x ∈ l ∧ txn_key x = k).
  { induction l as [| y l IH]; intros m; cbn [foldl].
    - split; [intros H; now left | intros [H | (x & Hx & _)]; [done | inversion Hx]].
    - rewrite IH. destruct (decide (txn_key y = k)) as [E | NE].
      + subst k. rewrite lookup_insert_eq. split.
        * intros _. right. exists y. split; [left | reflexivity].
        * intros _. left. eauto.
      + rewrite lookup_insert_ne by done. split.
        * intros [H | (x & Hx & Hk)]; [now left | right; exists x; split; [now right | done]].
        * intros [H | (x & Hx & Hk)]; [now left |].
          apply elem_of_cons in Hx as [-> | Hx]; [done | right; eauto]. }
  rewrite G, lookup_empty. split.
  - intros [[? H] | H]; [discriminate | done].
  - intros H; now right.
Qed.

(** What a merge that passes its preconditions returns. *)
Lemma merge_accounts_stats now db source target preserve months sa ta :
  accounts db !! source = Some sa → accounts db !! target = Some ta →
  Account.org_id sa = Account.org_id ta → Account.name sa = Account.name ta →
  ∃ db' stats,
    merge_accounts now db source target preserve months = Ok db' stats
    ∧ transactions_reassigned stats
      = Z.of_nat (List.length (filter (λ x, Transaction.posted x < merge_cutoff now months)
                                      (transactions_of db source)))
    ∧ transactions_removed stats
      = Z.of_nat (List.length (filter (λ x, merge_cutoff now months <= Transaction.posted x)
                                      (transactions_of db source)))
    ∧ transactions_matched stats
      = (if preserve
         then Z.of_nat (List.length
                (filter (λ x, merge_cutoff now months <= Transaction.posted x
                              ∧ key_matches_target db target x)
                        (transactions_of db source)))
         else 0)
    ∧ source_account_deleted stats = true.
Proof.
  intros Hs Ht Ho Hn. unfold merge_accounts. rewrite Hs, Ht.
  rewrite bool_decide_eq_false_2 by (intros H; now apply H).
  rewrite bool_decide_eq_false_2 by (intros H; now apply H).
  cbn [orb]. fold (merge_cutoff now months).
  set (st1 := foldl _ _ (transactions_of db source)).
  pose proof (merge_loop_stats (merge_cutoff now months) target preserve
                (build_txn_map (transactions_of db target))
                (transactions_of db source) (mkWork db [] [] [])
                (mkMergeStats 0 0 0 0 false)) as Hst.
  cbn zeta in Hst. fold st1 in Hst. destruct Hst as (H1 & H2 & H3 & _ & _).
  set (hs := filter _ (rows (holdings (stored st1.1)))).
  pose proof (holding_loop_stats target hs st1.1 st1.2) as Hh. cbn zeta in Hh.
  rewrite <- surjective_pairing in Hh.
  destruct (foldl (holding_step target) st1 hs) as [db2 stats2].
  destruct Hh as (G1 & G2 & G3 & _). cbn [snd] in *.
  eexists _, _. split; [reflexivity |].
  cbn [transactions_reassigned transactions_removed transactions_matched
       source_account_deleted].
  rewrite G1, G2, G3, H1, H2, H3. cbn [transactions_reassigned transactions_removed
       transactions_matched].
  repeat split; try lia.
  destruct preserve; [| reflexivity].
  rewrite Z.add_0_l. do 2 f_equal.
  apply list_filter_iff. intros x. unfold key_matches_target.
  now rewrite build_txn_map_is_Some, Exists_exists.
Qed.

(** C8. Merge preconditions: when the source or the target account does
    not exist the merge raises the not-found error ([ValueError("Source or
    target account not found")]), and when both exist but differ in
    [org_id] or in [name] it raises the validation error ([ValueError("Can
    only merge accounts with matching org_id and name")]); in both cases
    what is persisted is the database the call started from: accounts,
    transactions, splits and holdings are unchanged. *)
Theorem C8_merge_preconditions
    (now : Py.datetime) (db : DB) (source target : string)
    (preserve : bool) (months : Z) :
  (accounts db !! source = None ∨ accounts db !! target = None →
   merge_accounts now db source target preserve months
   = Raise db (ValueError "Source or target account not found"))
  ∧ (∀ sa ta,
       accounts db !! source = Some sa → accounts db !! target = Some ta →
       Account.org_id sa ≠ Account.org_id ta ∨ Account.name sa ≠ Account.name ta →
       merge_accounts now db source target preserve months
       = Raise db (ValueError "Can only merge accounts with matching org_id and name"))
  ∧ (raised (merge_accounts now db source target preserve months) ≠ None →
     persisted (merge_accounts now db source target preserve months) = db).
Proof.
  split; [| split].
  - intros [H | H]; unfold merge_accounts; rewrite H; [reflexivity |].
    now destruct (accounts db !! source).
  - intros sa ta Hs Ht Hd. unfold merge_accounts. rewrite Hs, Ht.
    destruct Hd as [Hd | Hd].
    + now rewrite (bool_decide_eq_true_2 _ Hd).
    + rewrite (bool_decide_eq_true_2 _ Hd). now rewrite orb_true_r.
  - unfold merge_accounts.
    destruct (accounts db !! source) as [sa |], (accounts db !! target) as [ta |];
      try reflexivity.
    destruct (_ || _); [reflexivity |].
    destruct (foldl (holding_step target) _ _). cbn. congruence.
Qed.

(** The two failures on the example database: ["ghost"] does not exist,
    and ["C"] exists under another name. *)
Lemma C8_merge_preconditions_witness :
  merge_accounts Ex.now Ex.db_merge "A" "ghost" true 12
  = Raise Ex.db_merge (ValueError "Source or target account not found")
  ∧ merge_accounts Ex.now Ex.db_merge "A" "C" true 12
    = Raise Ex.db_merge (ValueError "Can only merge accounts with matching org_id and name").
Proof.
  split.
  - apply (proj1 (C8_merge_preconditions Ex.now Ex.db_merge "A" "ghost" true 12)).
    right. reflexivity.
  - eapply (proj1 (proj2 (C8_merge_preconditions Ex.now Ex.db_merge "A" "C" true 12)));
      [reflexivity | reflexivity | right; discriminate].
Defined.

(** C5 (amended). For every merge that passes its preconditions, the
    returned [transactions_matched] is the number of source transactions
    with [posted >= cutoff] whose natural key is the key of a target
    transaction when [preserve_categorization] is true, and 0 when it is
    false: a match is counted where its categorization is copied. *)
Theorem C5_matched_count
    (now : Py.datetime) (db : DB) (source target : string)
    (preserve : bool) (months : Z) (sa ta : Account.t) :
  accounts db !! source = Some sa → accounts db !! target = Some ta →
  Account.org_id sa = Account.org_id ta → Account.name sa = Account.name ta →
  ∃ db' stats,
    merge_accounts now db source target preserve months = Ok db' stats
    ∧ transactions_matched stats
      = if preserve
        then Z.of_nat (List.length
               (filter (λ x, merge_cutoff now months <= Transaction.posted x
                             ∧ key_matches_target db target x)
                       (transactions_of db source)))
        else 0.
Proof.
  intros Hs Ht Ho Hn.
  destruct (merge_accounts_stats now db source target preserve months sa ta Hs Ht Ho Hn)
    as (db' & stats & E & _ & _ & Hm & _).
  eauto.
Qed.

Lemma C5_matched_count_witness :
  ∃ db' stats,
    merge_accounts Ex.now Ex.db_merge "A" "B" true 12 = Ok db' stats
    ∧ transactions_matched stats
      = Z.of_nat (List.length
               (filter (λ x, merge_cutoff Ex.now 12 <= Transaction.posted x
                             ∧ key_matches_target Ex.db_merge "B" x)
                       (transactions_of Ex.db_merge "A"))).
Proof.
  exact (C5_matched_count Ex.now Ex.db_merge "A" "B" true 12
           (Ex.acct "A" "Checking" (Some (Ex.days_ago 800)))
           (Ex.acct "B" "Checking" (Some (Ex.days_ago 3)))
           eq_refl eq_refl eq_refl eq_refl).
Defined.

(** C5 as stated fails when [preserve_categorization] is false: one recent
    source transaction has the key of a target transaction, and the merge
    returns [transactions_matched = 0]. *)
Lemma C5_matched_not_counted_without_preserve :
  List.length (filter (λ x, merge_cutoff Ex.now 12 <= Transaction.posted x
                            ∧ key_matches_target Ex.db_merge "B" x)
                      (transactions_of Ex.db_merge "A")) = 1%nat
  ∧ transactions_matched <$> returned (merge_accounts Ex.now Ex.db_merge "A" "B" false 12)
    = Some 0
  ∧ transactions_removed <$> returned (merge_accounts Ex.now Ex.db_merge "A" "B" false 12)
    = Some 2.
Proof. vm_compute. repeat split; reflexivity. Qed.

(** C1 (the code at the failing input). Merging account ["A"] into itself
    passes the preconditions and reports one transaction reassigned; the
    account, which is the target too, is deleted, and the reassigned
    transaction goes with it: nothing is left under the target. *)
Theorem C1_self_merge_loses_reassigned_transactions :
  let out := merge_accounts Ex.now Ex.db_self "A" "A" true 12 in
  Transaction.posted <$> transactions Ex.db_self !! "a1" = Some (Ex.days_ago 730)
  ∧ Ex.days_ago 730 < merge_cutoff Ex.now 12
  ∧ raised out = None
  ∧ transactions_reassigned <$> returned out = Some 1
  ∧ transactions_removed <$> returned out = Some 0
  ∧ accounts (persisted out) !! "A" = None
  ∧ transactions (persisted out) !! "a1" = None
  ∧ transactions (persisted out) = ∅.
Proof. vm_compute. repeat split; reflexivity. Qed.

(** *** What a merge of two distinct accounts does to the transactions *)

Lemma add_splits_tables (l : list TransactionSplit.t) : ∀ db,
  transactions (foldl (λ d split, add_split split d) db l) = transactions db
  ∧ accounts (foldl (λ d split, add_split split d) db l) = accounts db.
Proof.
  induction l as [| x l IH]; intros db; cbn [foldl]; [done |].
  destruct (IH (add_split x db)) as (-> & ->). done.
Qed.

Lemma delete_transactions_tables (l : list string) : ∀ db,
  accounts (foldl (λ d i, delete_transaction_row i d) db l) = accounts db
  ∧ ∀ k, transactions (foldl (λ d i, delete_transaction_row i d) db l) !! k
         = if decide (k ∈ l) then None else transactions db !! k.
Proof.
  induction l as [| i l IH]; intros db; cbn [foldl].
  - split; [done |]. intros k. now rewrite decide_False by apply not_elem_of_nil.
  - destruct (IH (delete_transaction_row i db)) as [-> Hk]. split; [done |].
    intros k. rewrite Hk. cbn.
    destruct (decide (k ∈ l)) as [Hin | Hnin].
    + rewrite decide_True by now right. done.
    + destruct (decide (k = i)) as [-> | Hne].
      * rewrite decide_True by left. apply lookup_delete_eq.
      * rewrite decide_False by (intros H; apply elem_of_cons in H as [? | ?]; done).
        now apply lookup_delete_ne.
Qed.

(** The tables the commit of a merge leaves, when one account is deleted. *)
Lemma commit_tables (w : Work) (a : string) :
  deleted_accounts w = [a] →
  accounts (commit w) = delete a (accounts (stored w))
  ∧ ∀ k, transactions (commit w) !! k
         = if decide (k ∈ deleted_transactions w) then None
           else match transactions (stored w) !! k with
                | Some x => if decide (Transaction.account_id x = a) then None else Some x
                | None => None
                end.
Proof.
  intros Ha. unfold commit. rewrite Ha. cbn [foldl].
  destruct (add_splits_tables (added_splits w) (stored w)) as [Ht1 Ha1].
  destruct (delete_transactions_tables (deleted_transactions w)
              (foldl (λ d split, add_split split d) (stored w) (added_splits w)))
    as [Ha2 Ht2].
  unfold delete_account_row at 1 2; cbn [accounts transactions].
  rewrite Ha2, Ha1. split; [done |]. intros k.
  rewrite map_lookup_filter, Ht2, Ht1.
  destruct (decide (k ∈ deleted_transactions w)); [done |].
  destruct (transactions (stored w) !! k) as [x |]; [| done]. cbn.
  destruct (decide (Transaction.account_id x = a)) as [E | NE].
  - now rewrite option_guard_False by (intros H; now apply H).
  - now rewrite option_guard_True.
Qed.

Section MergeTables.

Variables (cutoff_date : Py.datetime) (target_account_id : string)
          (preserve_categorization : bool)
          (target_txn_map : gmap (Py.datetime * Py.float * string) Transaction.t).

Let step := merge_step cutoff_date target_account_id preserve_categorization target_txn_map.

(** No transaction of the lookup is stored under the key [k]. *)
Let off_targets (k : string) : Prop :=
  ∀ key tgt, target_txn_map !! key = Some tgt → Transaction.id tgt ≠ k.

Lemma merge_step_tables w st x :
  accounts (stored (step (w, st) x).1) = accounts (stored w)
  ∧ deleted_accounts (step (w, st) x).1 = deleted_accounts w
  ∧ deleted_transactions (step (w, st) x).1
    = (deleted_transactions w
       ++ if cutoff_date <=? Transaction.posted x then [Transaction.id x] else [])%list
  ∧ (∀ k, k ≠ Transaction.id x →
          Transaction.account_id <$> transactions (stored (step (w, st) x).1) !! k
          = Transaction.account_id <$> transactions (stored w) !! k)
  ∧ (∀ k, k ≠ Transaction.id x → off_targets k →
          transactions (stored (step (w, st) x).1) !! k = transactions (stored w) !! k)
  ∧ (off_targets (Transaction.id x) →
     transactions (stored (step (w, st) x).1) !! Transaction.id x
     = if cutoff_date <=? Transaction.posted x
       then transactions (stored w) !! Transaction.id x
       else Transaction.set_account_id target_account_id
              <$> transactions (stored w) !! Transaction.id x).
Proof.
  unfold step, merge_step.
  destruct (cutoff_date <=? Transaction.posted x).
  - destruct (target_txn_map !! txn_key x) as [tgt |] eqn:Hk;
      [destruct preserve_categorization |]; cbn [fst];
      try (cbn; rewrite ?app_nil_r; repeat split; done).
    unfold copy_categorization; cbn.
    split; [now destruct (truthy_opt _) |]. split; [done |]. split; [done |].
    destruct (truthy_opt (Transaction.payee_id x)); cbn; [| repeat split; done].
    split; [| split].
    + intros k Hne. rewrite lookup_alter. case_decide; [subst k | done].
      now destruct (transactions (stored w) !! Transaction.id tgt).
    + intros k Hne Hoff. rewrite lookup_alter_ne; [done |]. eapply Hoff; eauto.
    + intros Hoff. rewrite lookup_alter_ne; [done |]. eapply Hoff; eauto.
  - cbn. rewrite app_nil_r.
    repeat split; intros; rewrite ?lookup_alter_ne, ?lookup_alter_eq by done; done.
Qed.

Lemma merge_loop_tables (l : list Transaction.t) : ∀ w st,
  accounts (stored (foldl step (w, st) l).1) = accounts (stored w)
  ∧ deleted_accounts (foldl step (w, st) l).1 = deleted_accounts w
  ∧ deleted_transactions (foldl step (w, st) l).1
    = (deleted_transactions w
       ++ List.map Transaction.id
            (filter (λ x, cutoff_date <= Transaction.posted x) l))%list
  ∧ (∀ k, k ∉ List.map Transaction.id l →
          Transaction.account_id <$> transactions (stored (foldl step (w, st) l).1) !! k
          = Transaction.account_id <$> transactions (stored w) !! k)
  ∧ (∀ k, k ∉ List.map Transaction.id l → off_targets k →
          transactions (stored (foldl step (w, st) l).1) !! k
          = transactions (stored w) !! k).
Proof.
  induction l as [| x l IH]; intros w st; cbn [foldl].
  { cbn. rewrite app_nil_r. done. }
  destruct (step (w, st) x) as [w' st'] eqn:E.
  destruct (merge_step_tables w st x) as (Ha & Hda & Hdt & Hacc & Hsame & _).
  rewrite E in Ha, Hda, Hdt, Hacc, Hsame. cbn [fst] in *.
  destruct (IH w' st') as (Ha' & Hda' & Hdt' & Hacc' & Hsame').
  split; [congruence |]. split; [congruence |]. split; [| split].
  - rewrite Hdt', Hdt, <- app_assoc. f_equal. rewrite filter_cons.
    destruct (Z.leb_spec cutoff_date (Transaction.posted x));
      [rewrite decide_True by done | rewrite decide_False by lia]; done.
  - intros k Hk. cbn in Hk. apply not_elem_of_cons in Hk as [Hne Hk].
    rewrite Hacc' by done. now apply Hacc.
  - intros k Hk Hoff. cbn in Hk. apply not_elem_of_cons in Hk as [Hne Hk].
    rewrite Hsame' by done. now apply Hsame.
Qed.

(** The stored row of a source transaction after the loop: as it was
    when recent (its removal awaits the commit), under the target account
    when old. *)
Lemma merge_loop_source_row (l : list Transaction.t) : ∀ w st x,
  NoDup (List.map Transaction.id l) →
  (∀ y, y ∈ l → off_targets (Transaction.id y)) →
  x ∈ l → transactions (stored w) !! Transaction.id x = Some x →
  transactions (stored (foldl step (w, st) l).1) !! Transaction.id x
  = if cutoff_date <=? Transaction.posted x then Some x
    else Some (Transaction.set_account_id target_account_id x).
Proof.
  induction l as [| y l IH]; intros w st x Hnd Hoff Hx Hrow; [inversion Hx |].
  cbn [foldl]. cbn in Hnd. apply NoDup_cons in Hnd as [Hy Hnd].
  destruct (step (w, st) y) as [w' st'] eqn:E.
  destruct (merge_step_tables w st y) as (_ & _ & _ & _ & Hsame & Hself).
  rewrite E in Hsame, Hself. cbn [fst] in *.
  destruct (decide (Transaction.id x = Transaction.id y)) as [Heq | Hne].
  - (* the turn of [x] itself *)
    destruct (merge_loop_tables l w' st') as (_ & _ & _ & _ & Hrest).
    assert (y = x) as ->.
    { apply elem_of_cons in Hx as [-> | Hx]; [done |].
      exfalso. apply Hy. rewrite <- Heq.
      apply list_elem_of_fmap. eauto. }
    rewrite Hrest; [| done | apply Hoff; left].
    rewrite Hself by (apply Hoff; left). rewrite Hrow.
    now destruct (cutoff_date <=? Transaction.posted x).
  - apply elem_of_cons in Hx as [-> | Hx]; [done |].
    apply IH; try done.
    + intros z Hz. apply Hoff. now right.
    + rewrite Hsame; [done | done | apply Hoff; now right].
Qed.

End MergeTables.

Lemma holding_loop_tables target (l : list Holding.t) : ∀ w st,
  transactions (stored (foldl (holding_step target) (w, st) l).1) = transactions (stored w)
  ∧ accounts (stored (foldl (holding_step target) (w, st) l).1) = accounts (stored w)
  ∧ deleted_transactions (foldl (holding_step target) (w, st) l).1 = deleted_transactions w
  ∧ deleted_accounts (foldl (holding_step target) (w, st) l).1 = deleted_accounts w.
Proof.
  induction l as [| h l IH]; intros w st; cbn [foldl]; [done |].
  destruct (holding_step target (w, st) h) as [w' st'] eqn:E.
  unfold holding_step in E. injection E as <- _.
  destruct (IH (set_stored
                  (set_holdings
                     (alter (Holding.set_account_id target) (Holding.id h)
                            (holdings (stored w))) (stored w)) w) st')
    as (-> & -> & -> & ->).
  done.
Qed.

(** The values of the lookup are transactions of the list it is built from. *)
Lemma build_txn_map_lookup (l : list Transaction.t) key tgt :
  build_txn_map l !! key = Some tgt → tgt ∈ l.
Proof.
  unfold build_txn_map.
  assert (G : ∀ m : gmap (Py.datetime * Py.float * string) Transaction.t,
             foldl (λ m txn, <[txn_key txn := txn]> m) m l !! key = Some tgt →
             m !! key = Some tgt ∨ tgt ∈ l).
  { induction l as [| y l IH]; intros m; cbn [foldl]; [now left |].
    intros H. apply IH in H as [H | H]; [| right; now right].
    destruct (decide (txn_key y = key)) as [<- | Hne].
    - rewrite lookup_insert_eq in H. injection H as ->. right; now left.
    - rewrite lookup_insert_ne in H by done. now left. }
  intros H. apply G in H as [H | H]; [| done]. now rewrite lookup_empty in H.
Qed.

Lemma rows_elem_of {K V : Type} `{Countable K} (m : gmap K V) (x : V) :
  x ∈ rows m ↔ ∃ k, m !! k = Some x.
Proof.
  unfold rows. rewrite list_elem_of_fmap. split.
  - intros ([k y] & -> & Hin). apply elem_of_map_to_list in Hin. eauto.
  - intros (k & Hk). exists (k, x). split; [done |]. now apply elem_of_map_to_list.
Qed.

Lemma transactions_of_elem_of db a x :
  x ∈ transactions_of db a
  ↔ (∃ k, transactions db !! k = Some x) ∧ Transaction.account_id x = a.
Proof.
  unfold transactions_of. rewrite list_elem_of_filter, rows_elem_of. tauto.
Qed.

Lemma transactions_of_NoDup db a :
  transactions_keyed db → NoDup (List.map Transaction.id (transactions_of db a)).
Proof.
  intros Hkeyed. unfold transactions_of, rows.
  pose proof (NoDup_fst_map_to_list (transactions db)) as Hnd.
  assert (Hall : Forall (λ kv : string * Transaction.t, Transaction.id kv.2 = kv.1)
                        (map_to_list (transactions db))).
  { apply Forall_forall. intros [k x] Hin. apply elem_of_map_to_list in Hin.
    cbn. eauto. }
  revert Hnd Hall. generalize (map_to_list (transactions db)).
  intros l; induction l as [| [k x] l IH]; intros Hnd Hall; [constructor |].
  change (NoDup (k :: l.*1)) in Hnd.
  change (NoDup (List.map Transaction.id
            (filter (λ t, Transaction.account_id t = a) (x :: l.*2)))).
  apply Forall_cons in Hall as [Hk Hall]. apply NoDup_cons in Hnd as [Hnin Hnd].
  cbn [snd fst] in Hk. rewrite filter_cons. case_decide; [| now apply IH].
  change (NoDup (Transaction.id x :: List.map Transaction.id
            (filter (λ t, Transaction.account_id t = a) l.*2))).
  apply NoDup_cons. split; [| now apply IH].
  rewrite Hk. intros Hin. apply Hnin.
  apply list_elem_of_fmap in Hin as (y & -> & Hy).
  apply list_elem_of_filter in Hy as [_ Hy].
  apply list_elem_of_fmap in Hy as ([k' y'] & -> & Hy').
  rewrite Forall_forall in Hall. rewrite (Hall _ Hy').
  apply list_elem_of_fmap. exists (k', y'). done.
Qed.

(** For two distinct accounts that pass the preconditions, the merge
    conserves the source transactions: the old ones are stored under the
    target account, unchanged otherwise; the recent ones are gone; the
    transactions of the target are still its own; the source account is
    deleted and the target account is kept. *)
Lemma merge_accounts_conservation now db source target preserve months sa ta :
  transactions_keyed db → source ≠ target →
  accounts db !! source = Some sa → accounts db !! target = Some ta →
  Account.org_id sa = Account.org_id ta → Account.name sa = Account.name ta →
  ∃ db' stats,
    merge_accounts now db source target preserve months = Ok db' stats
    ∧ (∀ x, x ∈ transactions_of db source →
            Transaction.posted x < merge_cutoff now months →
            transactions db' !! Transaction.id x
            = Some (Transaction.set_account_id target x))
    ∧ (∀ x, x ∈ transactions_of db source →
            merge_cutoff now months <= Transaction.posted x →
            transactions db' !! Transaction.id x = None)
    ∧ (∀ x, x ∈ transactions_of db target →
            Transaction.account_id <$> transactions db' !! Transaction.id x = Some target)
    ∧ accounts db' !! source = None
    ∧ accounts db' !! target = Some ta.
Proof.
  intros Hkeyed Hdiff Hs Ht Ho Hn. unfold merge_accounts. rewrite Hs, Ht.
  rewrite bool_decide_eq_false_2 by (intros H; now apply H).
  rewrite bool_decide_eq_false_2 by (intros H; now apply H).
  cbn [orb]. fold (merge_cutoff now months).
  set (tmap := build_txn_map (transactions_of db target)).
  set (L := transactions_of db source).
  (* the lookup holds rows of the target account only *)
  assert (Hoff : ∀ y, y ∈ L →
            ∀ key tgt, tmap !! key = Some tgt → Transaction.id tgt ≠ Transaction.id y).
  { intros y Hy key tgt Hk Heq.
    apply build_txn_map_lookup, transactions_of_elem_of in Hk as [[k Hk] Ha].
    apply transactions_of_elem_of in Hy as [[k' Hk'] Ha'].
    pose proof (Hkeyed _ _ Hk) as E1. pose proof (Hkeyed _ _ Hk') as E2.
    assert (tgt = y) by congruence. subst tgt. congruence. }
  assert (Hrow : ∀ y, y ∈ L → transactions db !! Transaction.id y = Some y).
  { intros y Hy. apply transactions_of_elem_of in Hy as [[k Hk] _].
    now rewrite (Hkeyed _ _ Hk). }
  assert (Hsame_id : ∀ x y, x ∈ L → y ∈ L → Transaction.id y = Transaction.id x → y = x).
  { intros x y Hx Hy Hid. pose proof (Hrow x Hx). pose proof (Hrow y Hy). congruence. }
  pose proof (transactions_of_NoDup db source Hkeyed) as Hnd. fold L in Hnd.
  set (w0 := mkWork db [] [] []). set (st0 := mkMergeStats 0 0 0 0 false).
  set (st1 := foldl _ (w0, st0) L).
  destruct (merge_loop_tables (merge_cutoff now months) target preserve tmap L w0 st0)
    as (Hacc1 & Hda1 & Hdt1 & Hkeep & _). fold st1 in Hacc1, Hda1, Hdt1, Hkeep.
  pose proof (λ x, merge_loop_source_row (merge_cutoff now months) target preserve tmap
                     L w0 st0 x Hnd Hoff) as Hsrc. fold st1 in Hsrc.
  cbn [w0 stored deleted_accounts deleted_transactions app] in Hacc1, Hda1, Hdt1, Hkeep, Hsrc.
  set (hs := filter _ (rows (holdings (stored st1.1)))).
  destruct (holding_loop_tables target hs st1.1 st1.2) as (Ht2 & Ha2 & Hdt2 & Hda2).
  rewrite <- surjective_pairing in Ht2, Ha2, Hdt2, Hda2.
  destruct (foldl (holding_step target) st1 hs) as [w2 stats2].
  cbn [fst] in Ht2, Ha2, Hdt2, Hda2.
  eexists _, _. split; [reflexivity |].
  match goal with |- context [commit ?w] => destruct (commit_tables w source) as [Hca Hct] end.
  { cbn. now rewrite Hda2, Hda1. }
  set (db' := commit _) in *.
  cbn [stored deleted_transactions] in Hca, Hct.
  rewrite Hca, Ha2, Hacc1. rewrite Ht2, Hdt2, Hdt1 in Hct.
  split; [| split; [| split; [| split]]].
  - intros x Hx Hold. rewrite Hct. rewrite decide_False.
    + rewrite (Hsrc x Hx (Hrow x Hx)).
      destruct (Z.leb_spec (merge_cutoff now months) (Transaction.posted x)); [lia |].
      cbn. now rewrite decide_False by congruence.
    + intros Hin. apply list_elem_of_fmap in Hin as (y & Hid & Hy).
      apply list_elem_of_filter in Hy as [Hrecent Hy].
      rewrite (Hsame_id x y Hx Hy (eq_sym Hid)) in Hrecent. lia.
  - intros x Hx Hrecent. rewrite Hct. rewrite decide_True; [done |].
    apply list_elem_of_fmap. exists x. split; [done |].
    apply list_elem_of_filter. done.
  - intros x Hx. apply transactions_of_elem_of in Hx as [[k Hk] Ha].
    pose proof (Hkeyed _ _ Hk) as E. subst k.
    assert (Hnin : Transaction.id x ∉ List.map Transaction.id L).
    { intros Hin. apply list_elem_of_fmap in Hin as (y & Hid & Hy).
      pose proof (Hrow y Hy) as Hy'. rewrite <- Hid in Hy'.
      assert (x = y) by congruence. subst y.
      apply transactions_of_elem_of in Hy as [_ Ha']. congruence. }
    specialize (Hkeep _ Hnin). rewrite Hk in Hkeep. cbn in Hkeep.
    rewrite Hct. rewrite decide_False.
    + destruct (transactions (stored st1.1) !! Transaction.id x) as [x' |];
        [| discriminate].
      cbn in Hkeep. injection Hkeep as Hkeep.
      rewrite decide_False by congruence. cbn. congruence.
    + intros Hin. apply Hnin.
      apply list_elem_of_fmap in Hin as (y & Hid & Hy).
      apply list_elem_of_filter in Hy as [_ Hy].
      apply list_elem_of_fmap. eauto.
  - apply lookup_delete_eq.
  - rewrite lookup_delete_ne by done. exact Ht.
Qed.

(** The example merge of ["A"] into ["B"]: the transaction of two years
    ago is moved, the two recent ones are removed. *)
Lemma merge_accounts_example :
  let out := merge_accounts Ex.now Ex.db_merge "A" "B" true 12 in
  returned out = Some (mkMergeStats 1 2 1 0 true)
  ∧ Transaction.account_id <$> transactions (persisted out) !! "a1" = Some "B"
  ∧ transactions (persisted out) !! "a2" = None
  ∧ transactions (persisted out) !! "a3" = None
  ∧ TransactionSplit.category_id <$> splits_of (persisted out) "b1" = [7]
  ∧ accounts (persisted out) !! "A" = None.
Proof. vm_compute. repeat split; reflexivity. Qed.

(** ** Initial sync: the walk-back *)

Lemma prev_month_floor (e start : Month) :
  prev_month e = Some start →
  0 < months_since_floor e ∧ months_since_floor start = months_since_floor e - 1.
Proof.
  unfold prev_month, months_since_floor.
  destruct (Z.leb_spec (12 * (year e - 1) + (month e - 1)) 0); [discriminate |].
  destruct (Z.eqb_spec (month e) 1); intros [= <-]; cbn [year month]; lia.
Qed.

Lemma prev_month_None (e : Month) :
  prev_month e = None → months_since_floor e <= 0.
Proof.
  unfold prev_month.
  destruct (Z.leb_spec (months_since_floor e) 0); [lia |].
  destruct (month e =? 1); discriminate.
Qed.

Lemma month_back_floor (now : Month) (k : nat) :
  Z.of_nat k <= months_since_floor now →
  months_since_floor (month_back k now) = months_since_floor now - Z.of_nat k.
Proof.
  induction k as [| k IH]; intros Hk; cbn [month_back]; [lia |].
  destruct (prev_month (month_back k now)) as [start |] eqn:E; cbn [default from_option id].
  - apply prev_month_floor in E as [_ E]. rewrite E, IH; lia.
  - apply prev_month_None in E. rewrite IH in E; lia.
Qed.

Lemma month_back_floor_max (now : Month) (k : nat) :
  0 <= months_since_floor now →
  months_since_floor (month_back k now) = Z.max 0 (months_since_floor now - Z.of_nat k).
Proof.
  intros Hnow. induction k as [| k IH]; cbn [month_back]; [lia |].
  destruct (prev_month (month_back k now)) as [start |] eqn:E; cbn [default from_option id].
  - apply prev_month_floor in E as [Hpos E]. rewrite E. lia.
  - apply prev_month_None in E. lia.
Qed.

(** The months of the walk are months of the calendar. *)
Lemma month_back_valid (now : Month) (k : nat) :
  1 <= month now <= 12 → 1 <= month (month_back k now) <= 12.
Proof.
  intros Hnow. induction k as [| k IH]; cbn [month_back]; [exact Hnow |].
  unfold prev_month.
  destruct (months_since_floor (month_back k now) <=? 0); cbn [default from_option id];
    [exact IH |].
  destruct (Z.eqb_spec (month (month_back k now)) 1); cbn [default from_option id month]; lia.
Qed.

Section InitialSyncProperties.

Variable World : Type.
Variable process_sync_range : World → Month → Month → World * (error + Z).
Variable INITIAL_SYNC_MAX_MONTHS : option Z.
Variables (w0 : World) (now : Month).

Let walk := walk_back process_sync_range INITIAL_SYNC_MAX_MONTHS.
Let ends := λ r k, ends_at process_sync_range INITIAL_SYNC_MAX_MONTHS r k w0 now.
Let free := λ k, stop_free_before process_sync_range INITIAL_SYNC_MAX_MONTHS k w0 now.
Let empties := λ k em, empty_months_at process_sync_range k w0 now em.
Let two_empty := λ k, two_empty_before process_sync_range k w0 now.
Let outcome := λ k, outcome_at process_sync_range k w0 now.
Let world := λ k, world_at process_sync_range k w0 now.

Lemma empties_lt_2 k em : empties k em → em < 2 → ¬ two_empty k.
Proof.
  intros [(-> & H) | [(-> & _ & H) | (-> & _)]] Hlt; [| assumption | lia].
  intros (j & -> & _ & Hj). destruct H as [H | (j' & n & [= <-] & Hn & Hne)]; [discriminate |].
  unfold outcome_at in *. rewrite Hj in Hn. congruence.
Qed.

Lemma empties_range k em : empties k em → 0 <= em <= 2.
Proof. intros [(-> & _) | [(-> & _) | (-> & _)]]; lia. Qed.

Lemma empties_2 k em : empties k em → ¬ em < 2 → em = 2 ∧ two_empty k.
Proof. intros [(-> & _) | [(-> & _) | (-> & H)]] Hn; try lia. done. Qed.

Lemma empties_next k em n :
  empties k em → em < 2 → outcome k = inr n →
  empties (S k) (if n =? 0 then em + 1 else 0).
Proof.
  intros He Hlt Ho. unfold empties, empty_months_at.
  destruct (Z.eqb_spec n 0) as [-> | Hn].
  - destruct He as [(-> & H) | [(-> & (j & -> & Hj) & H) | (-> & _)]]; [| | lia].
    + right; left. split; [lia |]. split; [eauto |].
      intros (j & [= ->] & H1 & H2).
      destruct H as [H | (j' & n & [= <-] & Hn & Hne)]; [discriminate |].
      unfold outcome_at in *. rewrite H1 in Hn. congruence.
    + right; right. split; [lia |]. exists j. eauto.
  - left. split; [reflexivity |]. right. eauto.
Qed.

(** From any step [k] of the run that is at most [bound + 2] steps in,
    the loop ends after at most [bound + 2] steps in all, for every amount
    of fuel beyond the steps that remain. *)
Lemma walk_back_from (bound : nat) :
  (∀ k, (bound ≤ k)%nat → outcome k = inr 0) →
  ∀ (d k : nat) (em : Z),
    (k + d = bound + 2)%nat →
    free k → empties k em →
    ∃ r K, (k ≤ K ≤ bound + 2)%nat
           ∧ ends r K ∧ free K
           ∧ ∀ fuel, (K - k < fuel)%nat →
                     walk fuel (world k) (month_back k now) em (Z.of_nat k) = Some r.
Proof.
  intros Hempty. induction d as [| d IH]; intros k em Hk Hfree Hem.
  - (* k = bound + 2: the last two steps were empty *)
    assert (H2 : two_empty k).
    { exists bound. split; [lia |]. split; apply Hempty; lia. }
    assert (E : em = 2).
    { destruct (Z.lt_ge_cases em 2) as [Hlt | Hge];
        [now destruct (empties_lt_2 k em Hem Hlt) |].
      pose proof (empties_range k em Hem). lia. }
    subst em.
    exists (mkWalkEnd (world k) 2 (Z.of_nat k) None), k.
    split; [lia |]. split; [| split; [assumption |]].
    + split; [reflexivity |]. left. cbn. repeat split; assumption.
    + intros [| fuel] Hf; [lia |]. reflexivity.
  - destruct (Z.lt_ge_cases em 2) as [Hlt | Hge].
    2:{ destruct (empties_2 k em Hem) as [-> H2]; [lia |].
        exists (mkWalkEnd (world k) 2 (Z.of_nat k) None), k.
        split; [lia |]. split; [| split; [assumption |]].
        - split; [reflexivity |]. left. cbn. repeat split; assumption.
        - intros [| fuel] Hf; [lia |]. reflexivity. }
    pose proof (empties_lt_2 k em Hem Hlt) as Hn2.
    destruct (max_reached INITIAL_SYNC_MAX_MONTHS (Z.of_nat k)) eqn:Hmax.
    { exists (mkWalkEnd (world k) em (Z.of_nat k) None), k.
      split; [lia |]. split; [| split; [assumption |]].
      - split; [reflexivity |]. right; left. cbn. repeat split; assumption.
      - intros [| fuel] Hf; [lia |]. cbn.
        apply Z.ltb_lt in Hlt. rewrite Hlt. fold (max_reached INITIAL_SYNC_MAX_MONTHS).
        now rewrite Hmax. }
    destruct (prev_month (month_back k now)) as [start |] eqn:Hprev.
    2:{ exists (mkWalkEnd (world k) em (Z.of_nat k) (Some OverflowError)), k.
        split; [lia |]. split; [| split; [assumption |]].
        - split; [reflexivity |]. right; right. exists OverflowError.
          cbn. rewrite Hprev. repeat split; done.
        - intros [| fuel] Hf; [lia |]. cbn.
          apply Z.ltb_lt in Hlt. rewrite Hlt. fold (max_reached INITIAL_SYNC_MAX_MONTHS).
          now rewrite Hmax, Hprev. }
    assert (Hstart : month_back (S k) now = start) by (cbn; now rewrite Hprev).
    destruct (process_sync_range (world k) start (month_back k now)) as [w' res] eqn:Hstep.
    assert (Hout : outcome k = res).
    { unfold outcome, outcome_at. fold (world k). now rewrite Hstart, Hstep. }
    assert (Hworld : world (S k) = w').
    { unfold world at 1. cbn [world_at]. fold (world k). now rewrite Hstart, Hstep. }
    destruct res as [e | n].
    { exists (mkWalkEnd w' em (Z.of_nat k) (Some e)), k.
      split; [lia |]. split; [| split; [assumption |]].
      - split; [reflexivity |]. right; right. exists e.
        split; [reflexivity |]. split; [assumption |]. split; [assumption |].
        rewrite Hprev. split; [exact Hout | symmetry; exact Hworld].
      - intros [| fuel] Hf; [lia |]. cbn.
        apply Z.ltb_lt in Hlt. rewrite Hlt. fold (max_reached INITIAL_SYNC_MAX_MONTHS).
        now rewrite Hmax, Hprev, Hstep. }
    destruct (IH (S k) (if n =? 0 then em + 1 else 0)) as (r & K & HK & Hends & HfreeK & Hrun).
    + lia.
    + intros j Hj. destruct (decide (j = k)) as [-> | Hne].
      * split; [assumption |]. split; [assumption |]. eauto.
      * apply Hfree. lia.
    + now apply empties_next.
    + exists r, K. split; [lia |]. split; [assumption |]. split; [assumption |].
      intros [| fuel] Hf; [lia |]. cbn.
      apply Z.ltb_lt in Hlt. rewrite Hlt. fold (max_reached INITIAL_SYNC_MAX_MONTHS).
      rewrite Hmax, Hprev, Hstep.
      specialize (Hrun fuel). rewrite Hworld, Hstart in Hrun.
      replace (Z.of_nat k + 1) with (Z.of_nat (S k)) by lia.
      apply Hrun. lia.
Qed.

(** What the month limit is, said without the code: a limit is set, it is
    not zero, and [k] months have reached it. *)
Lemma max_reached_spec (k : nat) :
  max_reached INITIAL_SYNC_MAX_MONTHS (Z.of_nat k) = true
  ↔ ∃ limit, INITIAL_SYNC_MAX_MONTHS = Some limit ∧ limit ≠ 0 ∧ limit <= Z.of_nat k.
Proof.
  unfold max_reached. destruct INITIAL_SYNC_MAX_MONTHS as [limit |].
  - rewrite andb_true_iff, negb_true_iff, Z.eqb_neq, Z.leb_le. split.
    + intros [H1 H2]. exists limit. done.
    + intros (l & [= <-] & H1 & H2). done.
  - split; [discriminate |]. intros (l & H & _). discriminate H.
Qed.

(** C7. Initial-sync termination.  The remote source holds nothing before
    some month: every fetch of a month more than [bound] months before the
    current one processes zero transactions.  Then the walk-back ends, after
    [K <= bound + 2] monthly steps (and within the month limit when one is
    set), whatever the fetches of the other months return.  Its steps are
    the calendar months before the current one, one after the other.  It
    ends at the first step that finds the two steps before it empty or the
    month limit reached, unless a fetch raises before that: no earlier
    step met a reason to stop. *)
Theorem C7_initial_sync_terminates (bound : nat) :
  1 <= month now <= 12 →
  Z.of_nat bound + 2 <= months_since_floor now →
  (∀ w start end_,
     months_since_floor start < months_since_floor now - Z.of_nat bound →
     (process_sync_range w start end_).2 = inr 0) →
  let limit_reached (k : nat) :=
    ∃ limit, INITIAL_SYNC_MAX_MONTHS = Some limit ∧ limit ≠ 0 ∧ limit <= Z.of_nat k in
  let empty_pair (k : nat) :=
    ∃ j, k = S (S j)
         ∧ outcome_at process_sync_range j w0 now = inr 0
         ∧ outcome_at process_sync_range (S j) w0 now = inr 0 in
  let r := process_initial_sync process_sync_range INITIAL_SYNC_MAX_MONTHS w0 now in
  ∃ K : nat,
    end_months_synced r = Z.of_nat K
    ∧ (K ≤ bound + 2)%nat
    ∧ (∀ limit, INITIAL_SYNC_MAX_MONTHS = Some limit → 0 < limit → Z.of_nat K <= limit)
    ∧ (∀ fuel, (K < fuel)%nat →
         walk_back process_sync_range INITIAL_SYNC_MAX_MONTHS fuel w0 now 0 0 = Some r)
    ∧ (∀ j, (j ≤ K)%nat →
            months_since_floor (month_back j now) = months_since_floor now - Z.of_nat j
            ∧ 1 <= month (month_back j now) <= 12)
    ∧ (∀ j, (j < K)%nat →
            ¬ empty_pair j ∧ ¬ limit_reached j
            ∧ ∃ n, outcome_at process_sync_range j w0 now = inr n)
    ∧ ((end_raised r = None
        ∧ end_world r = world_at process_sync_range K w0 now
        ∧ (empty_pair K ∨ limit_reached K))
       ∨ (∃ e, end_raised r = Some e
               ∧ outcome_at process_sync_range K w0 now = inl e
               ∧ end_world r = world_at process_sync_range (S K) w0 now
               ∧ ¬ empty_pair K ∧ ¬ limit_reached K)).
Proof.
  intros Hmonth Hcal Hsource limit_reached empty_pair r.
  assert (Hempty : ∀ k, (bound ≤ k)%nat → outcome_at process_sync_range k w0 now = inr 0).
  { intros k Hk. unfold outcome_at. apply Hsource.
    rewrite month_back_floor_max by lia. lia. }
  destruct (walk_back_from bound Hempty (bound + 2) 0 0) as (r' & K & HK & Hends & Hfree & Hrun).
  - lia.
  - intros j Hj. lia.
  - left. split; [reflexivity | now left].
  - assert (E : r = r').
    { unfold r, process_initial_sync. fold walk.
      assert (Hf : (K - 0 < Z.to_nat (months_since_floor now) + 2)%nat) by lia.
      specialize (Hrun _ Hf).
      change (walk (Z.to_nat (months_since_floor now) + 2) w0 now 0 0 = Some r') in Hrun.
      now rewrite Hrun. }
    rewrite E. clear E r. destruct Hends as [Hsynced Hreason].
    assert (Hfree' : ∀ j, (j < K)%nat →
              ¬ empty_pair j ∧ ¬ limit_reached j
              ∧ ∃ n, outcome_at process_sync_range j w0 now = inr n).
    { intros j Hj. destruct (Hfree j Hj) as (Hmax & Hn2 & Hout).
      split; [exact Hn2 |]. split; [| exact Hout].
      intros Hl. apply max_reached_spec in Hl. congruence. }
    exists K. split; [exact Hsynced |]. split; [lia |].
    split; [| split; [| split; [| split; [exact Hfree' |]]]].
    + intros limit Hlimit Hpos.
      destruct (Z.le_gt_cases (Z.of_nat K) limit) as [| Hgt]; [assumption |].
      exfalso. destruct (Hfree' (Z.to_nat limit)) as (_ & Hl & _); [lia |].
      apply Hl. exists limit. split; [exact Hlimit |]. split; lia.
    + intros fuel Hf. apply Hrun. lia.
    + intros j Hj. split; [apply month_back_floor; lia | now apply month_back_valid].
    + destruct Hreason as [(Hr & _ & Hw & H2) | [(Hr & _ & Hw & _ & Hmax) | (e & Hr & Hn2 & Hmax & Hcase)]].
      * left. split; [exact Hr |]. split; [exact Hw |]. now left.
      * left. split; [exact Hr |]. split; [exact Hw |]. right. now apply max_reached_spec.
      * right. exists e. split; [exact Hr |].
        assert (Hnl : ¬ limit_reached K).
        { intros Hl. apply max_reached_spec in Hl. congruence. }
        destruct (prev_month (month_back K now)) eqn:Hprev; [destruct Hcase; done |].
        exfalso. apply Hn2.
        apply prev_month_None in Hprev. rewrite month_back_floor in Hprev by lia.
        exists bound. split; [lia |]. split; apply Hempty; lia.
Qed.

End InitialSyncProperties.

Lemma since_march_2024_empty (w : nat) (start end_ : Month) :
  months_since_floor start < months_since_floor Ex.june_2024 - Z.of_nat 3 →
  (ExM.since_march_2024 w start end_).2 = inr 0.
Proof.
  intros H. unfold ExM.since_march_2024. cbn [snd].
  destruct (Z.ltb_spec (months_since_floor start) (months_since_floor (mkMonth 2024 3)))
    as [| Hge]; [reflexivity |].
  assert (E : months_since_floor Ex.june_2024 - Z.of_nat 3
              = months_since_floor (mkMonth 2024 3)) by (vm_compute; reflexivity).
  lia.
Qed.

(** The source holds transactions from March 2024 on, the walk starts in
    June 2024 with a limit of four months: it ends after four steps, on
    the limit, before a second empty month is seen. *)
Lemma C7_initial_sync_terminates_witness :
  ∃ K : nat,
    end_months_synced (process_initial_sync ExM.since_march_2024 (Some 4) O Ex.june_2024)
    = Z.of_nat K
    ∧ (K ≤ 3 + 2)%nat
    ∧ Z.of_nat K <= 4.
Proof.
  destruct (C7_initial_sync_terminates nat ExM.since_march_2024 (Some 4) O Ex.june_2024 3)
    as (K & H1 & H2 & H3 & _).
  - vm_compute. split; discriminate.
  - vm_compute. discriminate.
  - exact since_march_2024_empty.
  - exists K. split; [exact H1 |]. split; [exact H2 |]. apply (H3 4); [reflexivity | lia].
Defined.

(** The runs of that example: with a limit of four months the walk ends
    on the limit, after the months of May, April, March and February; with
    no limit it ends after five months, the last two empty. *)
Lemma initial_sync_since_march_2024 :
  process_initial_sync ExM.since_march_2024 (Some 4) O Ex.june_2024
  = mkWalkEnd 4%nat 1 4 None
  ∧ process_initial_sync ExM.since_march_2024 None O Ex.june_2024
    = mkWalkEnd 5%nat 2 5 None
  ∧ List.map (λ j, month_back j Ex.june_2024) [1; 2; 3; 4]%nat
    = [mkMonth 2024 5; mkMonth 2024 4; mkMonth 2024 3; mkMonth 2024 2].
Proof. vm_compute. repeat split; reflexivity. Qed.

Lemma recent_three_months_world (k w : nat) :
  world_at Ex.recent_three_months k w Ex.june_2024 = (k + w)%nat.
Proof.
  induction k as [| k IH]; [reflexivity |].
  cbn [world_at]. rewrite IH. reflexivity.
Qed.

(** With transactions in the three most recent months only and no month
    limit, the walk ends after five steps; with a limit of four months,
    after four. *)
Lemma initial_sync_recent_three_months :
  process_initial_sync Ex.recent_three_months None O Ex.june_2024
  = mkWalkEnd 5%nat 2 5 None
  ∧ process_initial_sync Ex.recent_three_months (Some 4) O Ex.june_2024
    = mkWalkEnd 4%nat 1 4 None.
Proof. vm_compute. split; reflexivity. Qed.

(** ** DuplicateAccountDetector *)

(** The number of matches the detector counts is the number of sampled
    transactions whose natural key is the key of a transaction of the
    newer account. *)
Lemma count_matches_spec (db : DB) (newer_id : string) (sample : list Transaction.t) :
  count_matches sample (build_txn_map (transactions_of db newer_id))
  = Z.of_nat (List.length (filter (λ x, key_matches_target db newer_id x) sample)).
Proof.
  unfold count_matches. do 2 f_equal.
  apply list_filter_iff. intros x. unfold key_matches_target.
  now rewrite build_txn_map_is_Some, Exists_exists.
Qed.

Lemma recent_transactions_length (db : DB) (account_id : string) (n : Z) :
  (List.length (recent_transactions db account_id n) ≤ Z.to_nat n)%nat.
Proof. unfold recent_transactions. rewrite length_take. lia. Qed.

(** Inside a group of three or more accounts the test of a pair is the
    same, once the newer account has a transaction. *)
Lemma pair_is_duplicate_in_group_eq db older newer n r :
  transactions_of db (Account.id newer) ≠ [] →
  pair_is_duplicate_in_group db older newer n r = pair_is_duplicate db older newer n r.
Proof.
  intros H. unfold pair_is_duplicate_in_group, pair_is_duplicate.
  destruct (recent_transactions db (Account.id older) n); [reflexivity |].
  destruct (transactions_of db (Account.id newer)); [done | reflexivity].
Qed.

Section InsertionSort.

Context {A : Type} (le : A → A → bool).
Hypothesis le_total : ∀ a b, le a b = false → le b a = true.

Lemma insert_sorted_perm (x : A) (l : list A) : insert_sorted le x l ≡ₚ x :: l.
Proof.
  induction l as [| y l IH]; cbn; [reflexivity |].
  destruct (le x y); [reflexivity |]. rewrite IH. apply Permutation_swap.
Qed.

Lemma sort_by_perm (l : list A) : sort_by le l ≡ₚ l.
Proof.
  induction l as [| x l IH]; cbn; [reflexivity |].
  fold (sort_by le l). now rewrite insert_sorted_perm, IH.
Qed.

Lemma insert_sorted_Sorted (x : A) (l : list A) :
  Sorted (λ a b, le a b = true) l → Sorted (λ a b, le a b = true) (insert_sorted le x l).
Proof.
  induction l as [| y l IH]; intros Hs; cbn.
  - repeat constructor.
  - destruct (le x y) eqn:E.
    + constructor; [assumption | constructor; assumption].
    + apply Sorted_inv in Hs as [Hs Hd]. constructor; [now apply IH |].
      destruct l as [| z l]; cbn.
      * constructor. now apply le_total.
      * destruct (le x z); constructor; [now apply le_total |].
        now apply HdRel_inv in Hd.
Qed.

Lemma sort_by_Sorted (l : list A) : Sorted (λ a b, le a b = true) (sort_by le l).
Proof.
  induction l as [| x l IH]; cbn; [constructor |].
  now apply insert_sorted_Sorted.
Qed.

End InsertionSort.

Lemma account_le_total (a b : Account.t) : account_le a b = false → account_le b a = true.
Proof.
  unfold account_le.
  destruct (Account.created_at a) as [x |], (Account.created_at b) as [y |];
    try (intros; reflexivity || discriminate).
  - intros H. apply orb_false_iff in H as [H1 H2].
    apply Z.ltb_ge in H1. destruct (Z.eqb_spec x y) as [-> | Hne].
    + cbn in H2. rewrite Z.ltb_irrefl, Z.eqb_refl. cbn.
      destruct (String.leb_total (Account.id a) (Account.id b)); [congruence | assumption].
    + assert (Hlt : y < x) by lia. apply Z.ltb_lt in Hlt. now rewrite Hlt.
  - intros H. destruct (String.leb_total (Account.id a) (Account.id b)); [congruence | assumption].
Qed.

Lemma posted_desc_total (a b : Transaction.t) : posted_desc a b = false → posted_desc b a = true.
Proof. unfold posted_desc. intros H. apply Z.leb_gt in H. apply Z.leb_le. lia. Qed.

(** The detector compares the older account first. *)
Lemma sorted_pair_order (l : list Account.t) (older newer : Account.t) :
  sort_by account_le l = [older; newer] → account_le older newer = true.
Proof.
  intros H. pose proof (sort_by_Sorted account_le account_le_total l) as Hs.
  rewrite H in Hs. apply Sorted_inv in Hs as [_ Hd]. now apply HdRel_inv in Hd.
Qed.

(** The sample is made of the most recent transactions of the account: the
    transactions left out are posted no later than any sampled one. *)
Lemma recent_transactions_most_recent (db : DB) (account_id : string) (n : Z) :
  ∃ rest,
    transactions_of db account_id ≡ₚ recent_transactions db account_id n ++ rest
    ∧ ∀ x y, x ∈ recent_transactions db account_id n → y ∈ rest →
             Transaction.posted y <= Transaction.posted x.
Proof.
  unfold recent_transactions.
  set (sorted := sort_by posted_desc (transactions_of db account_id)).
  exists (drop (Z.to_nat n) sorted). split.
  - rewrite take_drop. symmetry. apply sort_by_perm.
  - intros x y Hx Hy.
    assert (Hs : StronglySorted (λ a b, posted_desc a b = true) sorted).
    { apply Sorted_StronglySorted; [| apply sort_by_Sorted, posted_desc_total].
      intros a b c. unfold posted_desc. rewrite !Z.leb_le. lia. }
    rewrite <- (take_drop (Z.to_nat n) sorted) in Hs.
    pose proof (StronglySorted_app_1_elem_of _ _ _ x y Hs Hx Hy) as H.
    unfold posted_desc in H. now apply Z.leb_le in H.
Qed.

(** At the default ratio [float("0.8")], "at least 80% of [n]" is
    [5 * matches >= 4 * n] for every sample of up to 64 transactions: the
    float quotient rounds the way the ratio does. *)
Lemma ratio_reached_default (matches : Z) (n : nat) :
  (1 ≤ n ≤ 64)%nat → 0 <= matches <= Z.of_nat n →
  ratio_reached matches n default_min_match_ratio = (4 * Z.of_nat n <=? 5 * matches).
Proof.
  intros Hn Hm.
  assert (G : forallb (λ k, forallb (λ m,
                 Bool.eqb (ratio_reached (Z.of_nat m) k default_min_match_ratio)
                          (4 * Z.of_nat k <=? 5 * Z.of_nat m))
               (seq 0 (S k))) (seq 1 64) = true) by (vm_compute; reflexivity).
  rewrite forallb_forall in G.
  specialize (G n). rewrite forallb_forall in G.
  assert (Hin : In n (seq 1 64)) by (apply in_seq; lia).
  specialize (G Hin (Z.to_nat matches)).
  assert (Hin' : In (Z.to_nat matches) (seq 0 (S n))) by (apply in_seq; lia).
  specialize (G Hin'). rewrite Z2Nat.id in G by lia.
  now apply Bool.eqb_prop in G.
Qed.

(** The detector as a whole on the two example databases. *)
Lemma find_duplicate_accounts_examples :
  find_duplicate_accounts (Ex.db_duplicates 4) default_sample_size default_min_match_ratio
  = [mkDuplicateGroup "org-1" "Checking"
       [Ex.acct "A" "Checking" (Some (Ex.days_ago 800));
        Ex.acct "B" "Checking" (Some (Ex.days_ago 3))]]
  ∧ find_duplicate_accounts (Ex.db_duplicates 3) default_sample_size default_min_match_ratio
    = []
  ∧ List.map Transaction.id
      (recent_transactions (Ex.db_duplicates 4) "A" default_sample_size)
    = ["a1"; "a2"; "a3"; "a4"; "a5"].
Proof. vm_compute. repeat split; reflexivity. Qed.

(** ** Ingestion of transactions *)

Lemma add_split_transactions sp db : transactions (add_split sp db) = transactions db.
Proof. reflexivity. Qed.

Lemma add_splits_transactions {A : Type} (f : A → TransactionSplit.t) (l : list A) : ∀ db,
  transactions (foldl (λ d x, add_split (f x) d) db l) = transactions db.
Proof. induction l as [| x l IH]; intros db; cbn; [reflexivity | now rewrite IH]. Qed.

Lemma add_splits_accounts {A : Type} (f : A → TransactionSplit.t) (l : list A) : ∀ db,
  accounts (foldl (λ d x, add_split (f x) d) db l) = accounts db.
Proof. induction l as [| x l IH]; intros db; cbn; [reflexivity | now rewrite IH]. Qed.

Lemma existing_by_hash_is_Some (db : DB) (a h : string) :
  is_Some (existing_by_hash db a h)
  ↔ ∃ k x, transactions db !! k = Some x
           ∧ Transaction.account_id x = a ∧ Transaction.content_hash x = Some h.
Proof.
  unfold existing_by_hash, rows. split.
  - intros [x Hx]. apply head_Some_elem_of in Hx as Hin.
    apply list_elem_of_filter in Hin as [[Ha Hh] Hin].
    apply list_elem_of_fmap in Hin as ([k y] & -> & Hin).
    apply elem_of_map_to_list in Hin. eauto.
  - intros (k & x & Hk & Ha & Hh).
    assert (Hin : x ∈ filter (λ x, Transaction.account_id x = a
                                   ∧ Transaction.content_hash x = Some h)
                             ((map_to_list (transactions db)).*2)).
    { apply list_elem_of_filter. split; [done |].
      apply list_elem_of_fmap. exists (k, x). split; [reflexivity |].
      now apply elem_of_map_to_list. }
    destruct (filter _ _) as [| y l]; [inversion Hin | cbn; eauto].
Qed.

Section IngestionProperties.

Variable normalize_check_payee : string → option string → string.

Let create := create_transaction normalize_check_payee.
Let loop := process_transactions_loop normalize_check_payee.
Let process := process_transactions normalize_check_payee.

(** What a successful insert leaves: one more row, under the id of the
    request, for its account and with its content hash. *)
Lemma create_transaction_Ok db data cat db' txn :
  create db data cat = Ok db' txn →
  transactions db !! TransactionData.id data = None
  ∧ transactions db' = <[TransactionData.id data := txn]> (transactions db)
  ∧ Transaction.account_id txn = TransactionData.account_id data
  ∧ Transaction.content_hash txn = TransactionData.content_hash data
  ∧ accounts db' = accounts db.
Proof.
  intros H. apply create_transaction_inv in H
    as (db1 & amount & stored & posted & split_rows
        & (Ht & Ha & _) & _ & _ & _ & Hfree & _ & Htxn & _ & _ & ->).
  destruct (add_splits_tables split_rows
              (set_transactions (<[TransactionData.id data := txn]> (transactions db1)) db1))
    as [-> ->].
  cbn [transactions accounts set_transactions]. rewrite Ht, Ha.
  split; [exact Hfree |]. split; [reflexivity |].
  rewrite Htxn. cbn. done.
Qed.

Lemma hash_covered_insert db db' a r k x :
  transactions db !! k = None → transactions db' = <[k := x]> (transactions db) →
  hash_covered db a r → hash_covered db' a r.
Proof.
  intros Hk Ht (k' & y & Hy & Ha & Hh). exists k', y. rewrite Ht.
  rewrite lookup_insert_ne by congruence. done.
Qed.

Lemma loop_settled at_ a (txns : list RemoteTransaction) db cnt :
  Forall (settled db a) txns → loop at_ a txns db cnt = Ok db cnt.
Proof.
  induction 1 as [| r l Hr _ IH]; cbn; [reflexivity |].
  destruct (transactions db !! r_id r) eqn:Hid; [exact IH |].
  destruct Hr as [[? Hr] | Hr]; [congruence |].
  apply existing_by_hash_is_Some in Hr as [x Hx].
  fold (remote_hash a r). rewrite Hx. exact IH.
Qed.

(** The loop only adds rows: what was stored stays stored, ids and
    content hashes alike; and every record it went through is settled
    afterwards, by its hash when its id was free or already covered. *)
Lemma loop_Ok at_ a (txns : list RemoteTransaction) : ∀ db cnt db1 n,
  loop at_ a txns db cnt = Ok db1 n →
  accounts db1 = accounts db
  ∧ (∀ k x, transactions db !! k = Some x → transactions db1 !! k = Some x)
  ∧ (∀ r, hash_covered db a r → hash_covered db1 a r)
  ∧ Forall (settled db1 a) txns
  ∧ (NoDup (List.map r_id txns) →
     (∀ r, r ∈ txns → is_Some (transactions db !! r_id r) → hash_covered db a r) →
     Forall (hash_covered db1 a) txns).
Proof.
  induction txns as [| r l IH]; intros db cnt db1 n; cbn.
  - intros [= <- <-]. repeat split; auto.
  - destruct (transactions db !! r_id r) as [y |] eqn:Hid.
    { intros H. destruct (IH _ _ _ _ H) as (Ha & Hk & Hc & Hs & Hh).
      split; [assumption |]. split; [assumption |]. split; [assumption |]. split.
      - constructor; [left; eauto | assumption].
      - intros Hnd Hpre. apply NoDup_cons in Hnd as [_ Hnd].
        constructor.
        + apply Hc, Hpre; [left | eauto].
        + apply Hh; [assumption |]. intros r' Hr'. apply Hpre. now right. }
    fold (remote_hash a r).
    destruct (existing_by_hash db a (remote_hash a r)) as [y |] eqn:Hh.
    { intros H. destruct (IH _ _ _ _ H) as (Ha & Hk & Hc & Hs & Hhc).
      assert (Hcov : hash_covered db a r).
      { apply existing_by_hash_is_Some. eauto. }
      split; [assumption |]. split; [assumption |]. split; [assumption |]. split.
      - constructor; [right; auto | assumption].
      - intros Hnd Hpre. apply NoDup_cons in Hnd as [_ Hnd].
        constructor; [auto |].
        apply Hhc; [assumption |]. intros r' Hr'. apply Hpre. now right. }
    match goal with
    | |- context [create_transaction _ db ?d ?c] =>
        destruct (create_transaction normalize_check_payee db d c) as [db' txn | db' e] eqn:Hc;
        [apply create_transaction_Ok in Hc as (Hfree & Ht & Hacc & Hhash & Hacc') | discriminate]
    end.
    cbn in Hfree, Ht, Hacc, Hhash.
    intros H. destruct (IH _ _ _ _ H) as (Ha & Hk & Hcv & Hs & Hhc).
    assert (Hnew : hash_covered db' a r).
    { exists (r_id r), txn. rewrite Ht, lookup_insert_eq. done. }
    split; [congruence |]. split; [| split; [| split]].
    + intros k x Hx. apply Hk. rewrite Ht, lookup_insert_ne; [assumption | congruence].
    + intros r' Hr'. apply Hcv. eapply hash_covered_insert; eauto.
    + constructor; [right; auto | assumption].
    + intros Hnd Hpre. apply NoDup_cons in Hnd as [Hnin Hnd].
      constructor; [auto |].
      apply Hhc; [assumption |]. intros r' Hr' [z Hz].
      rewrite Ht in Hz. destruct (decide (r_id r = r_id r')) as [E | NE].
      * exfalso. apply Hnin. rewrite E. apply list_elem_of_In, in_map, list_elem_of_In, Hr'.
      * rewrite lookup_insert_ne in Hz by assumption.
        eapply hash_covered_insert; eauto. apply Hpre; [now right | eauto].
Qed.

Lemma remote_hash_same_content a r r' : same_content r r' → remote_hash a r = remote_hash a r'.
Proof. intros (Hp & Ha & Hd). unfold remote_hash. now rewrite Hp, Ha, Hd. Qed.

Lemma hash_covered_same_content db a r r' :
  same_content r r' → hash_covered db a r → hash_covered db a r'.
Proof.
  intros Hs (k & x & Hk & Ha & Hh). exists k, x.
  now rewrite <- (remote_hash_same_content a r r' Hs).
Qed.

(** C2 (amended). Idempotent re-ingestion: after a run of
    [process_transactions] that reaches its end, a second run on the same
    list creates nothing, returns 0 and leaves the database as the first
    run left it; and so does a run on a re-delivery whose records have new
    provider ids and the posted time, amount and description of records of
    the first delivery, provided the ids of the first delivery are pairwise
    distinct and each of them that was stored before the first run had the
    hash of its record stored under the account. *)
Theorem C2_idempotent_reingestion
    (db : DB) (txns : list RemoteTransaction) (account_id : string) (db1 : DB) (n : Z) :
  process_transactions normalize_check_payee db txns account_id = Ok db1 n →
  process_transactions normalize_check_payee db1 txns account_id = Ok db1 0
  ∧ (NoDup (List.map r_id txns) →
     (∀ r, r ∈ txns → is_Some (transactions db !! r_id r) →
           hash_covered db account_id r) →
     ∀ txns',
       Forall (λ r', ∃ r, r ∈ txns ∧ same_content r r') txns' →
       process_transactions normalize_check_payee db1 txns' account_id = Ok db1 0).
Proof.
  intros Hrun. unfold process_transactions in Hrun.
  apply loop_Ok in Hrun as (Hacc & _ & _ & Hs & Hh).
  split.
  - unfold process_transactions. now apply loop_settled.
  - intros Hnd Hpre txns' Hsame. unfold process_transactions. apply loop_settled.
    specialize (Hh Hnd Hpre). rewrite Forall_forall in Hh.
    eapply Forall_impl; [exact Hsame |].
    intros r' (r & Hr & Hc). right. eapply hash_covered_same_content; eauto.
Qed.

End IngestionProperties.

(** The example delivery on a database that holds the account only: the
    first run creates two transactions. *)
Lemma delivery_first_run :
  process_transactions Ex.keep_payee Ex.db_one_account Ex.delivery "A"
  = Ok Ex.db_after_delivery 2.
Proof. vm_compute. reflexivity. Qed.

(** The second run of that delivery and the run on the re-issued ids
    create nothing. *)
Lemma C2_idempotent_reingestion_witness :
  process_transactions Ex.keep_payee Ex.db_one_account Ex.delivery "A"
  = Ok Ex.db_after_delivery 2
  ∧ process_transactions Ex.keep_payee Ex.db_after_delivery Ex.delivery "A"
    = Ok Ex.db_after_delivery 0
  ∧ process_transactions Ex.keep_payee Ex.db_after_delivery Ex.redelivery "A"
    = Ok Ex.db_after_delivery 0.
Proof.
  split; [exact delivery_first_run |].
  destruct (C2_idempotent_reingestion Ex.keep_payee Ex.db_one_account
              Ex.delivery "A" Ex.db_after_delivery 2 delivery_first_run)
    as [H1 H2].
  split; [exact H1 |].
  apply H2.
  - apply NoDup_cons. split; [| apply NoDup_singleton].
    intros H. apply list_elem_of_singleton in H. discriminate H.
  - intros r Hr [x Hx]. exfalso. revert Hx.
    change (transactions Ex.db_one_account) with (∅ : gmap string Transaction.t).
    rewrite lookup_empty. intros Hx. discriminate Hx.
  - unfold Ex.redelivery, Ex.delivery.
    constructor; [| constructor; [| constructor]].
    + eexists. split; [left |]. split; [reflexivity | split; reflexivity].
    + eexists. split; [right; left |]. split; [reflexivity | split; reflexivity].
Defined.

(** C2 as stated fails on a database that stores ["t1"] without a content
    hash: the first delivery is skipped by its id (nothing is created), the
    same transaction re-issued under the id ["n1"] is created again. *)
Lemma C2_reissued_id_creates_duplicate :
  process_transactions Ex.keep_payee Ex.db_without_hash [Ex.coffee "t1"] "A"
  = Ok Ex.db_without_hash 0
  ∧ same_content (Ex.coffee "t1") (Ex.coffee "n1")
  ∧ returned (process_transactions Ex.keep_payee Ex.db_without_hash
                [Ex.coffee "n1"] "A") = Some 1
  ∧ size (transactions (persisted (process_transactions Ex.keep_payee Ex.db_without_hash
                                     [Ex.coffee "n1"] "A"))) = 2%nat.
Proof. vm_compute. repeat split; reflexivity. Qed.

(** ** AccountMerger: counters, frame, holdings and categorization *)

Lemma add_splits_other_tables (l : list TransactionSplit.t) : ∀ db,
  holdings (foldl (λ d split, add_split split d) db l) = holdings db
  ∧ account_balance (foldl (λ d split, add_split split d) db l) = account_balance db
  ∧ split_seq db <= split_seq (foldl (λ d split, add_split split d) db l)
  ∧ ∀ k, k < split_seq db →
         transaction_splits (foldl (λ d split, add_split split d) db l) !! k
         = transaction_splits db !! k.
Proof.
  induction l as [| x l IH]; intros db; cbn [foldl].
  - repeat split; try done; lia.
  - destruct (IH (add_split x db)) as (-> & -> & Hseq & Hk). cbn in *.
    repeat split; try done; [lia |].
    intros k Hlt. rewrite Hk by lia. apply lookup_insert_ne. lia.
Qed.

Lemma delete_transactions_other_tables (l : list string) : ∀ db,
  holdings (foldl (λ d i, delete_transaction_row i d) db l) = holdings db
  ∧ account_balance (foldl (λ d i, delete_transaction_row i d) db l) = account_balance db
  ∧ ∀ k sp, transaction_splits (foldl (λ d i, delete_transaction_row i d) db l) !! k = Some sp
            ↔ transaction_splits db !! k = Some sp
              ∧ TransactionSplit.transaction_id sp ∉ l.
Proof.
  induction l as [| i l IH]; intros db; cbn [foldl].
  - repeat split; try done; [apply not_elem_of_nil | tauto].
  - destruct (IH (delete_transaction_row i db)) as (-> & -> & Hk).
    split; [done |]. split; [done |]. intros k sp. rewrite Hk. cbn.
    rewrite map_lookup_filter_Some, not_elem_of_cons. cbn. tauto.
Qed.

(** What the commit of a merge that deletes one account leaves of the
    tables other than [transactions]. *)
Lemma commit_other_tables (w : Work) (a : string) :
  deleted_accounts w = [a] →
  holdings (commit w) = filter (λ kv, Holding.account_id kv.2 ≠ a) (holdings (stored w))
  ∧ account_balance (commit w)
    = filter (λ kv, AccountBalance.account_id kv.2 ≠ a) (account_balance (stored w))
  ∧ ∀ k sp x,
      splits_fresh (stored w) →
      transaction_splits (stored w) !! k = Some sp →
      TransactionSplit.transaction_id sp ∉ deleted_transactions w →
      transactions (stored w) !! TransactionSplit.transaction_id sp = Some x →
      Transaction.account_id x ≠ a →
      transaction_splits (commit w) !! k = Some sp.
Proof.
  intros Ha. unfold commit. rewrite Ha. cbn [foldl].
  destruct (add_splits_other_tables (added_splits w) (stored w)) as (Hh1 & Hb1 & _ & Hs1).
  destruct (add_splits_tables (added_splits w) (stored w)) as [Ht1 _].
  set (db1 := foldl (λ d split, add_split split d) (stored w) (added_splits w)) in *.
  destruct (delete_transactions_other_tables (deleted_transactions w) db1) as (Hh2 & Hb2 & Hs2).
  destruct (delete_transactions_tables (deleted_transactions w) db1) as [_ Ht2].
  set (db2 := foldl (λ d i, delete_transaction_row i d) db1 (deleted_transactions w)) in *.
  unfold delete_account_row; cbn [holdings account_balance transaction_splits].
  rewrite Hh2, Hh1, Hb2, Hb1. split; [done |]. split; [done |].
  intros k sp x Hfresh Hk Hnd Hx Hacc.
  apply map_lookup_filter_Some. split.
  - apply Hs2. split; [| done]. rewrite Hs1; [done |]. apply Hfresh. eauto.
  - cbn. rewrite Ht2, decide_False by done. rewrite Ht1, Hx. cbn. congruence.
Qed.

Section MergeMore.

Variables (cutoff_date : Py.datetime) (target_account_id : string)
          (preserve_categorization : bool)
          (target_txn_map : gmap (Py.datetime * Py.float * string) Transaction.t).

Let step := merge_step cutoff_date target_account_id preserve_categorization target_txn_map.

Let off_targets (k : string) : Prop :=
  ∀ key tgt, target_txn_map !! key = Some tgt → Transaction.id tgt ≠ k.

Lemma merge_step_other_tables w st x :
  holdings (stored (step (w, st) x).1) = holdings (stored w)
  ∧ account_balance (stored (step (w, st) x).1) = account_balance (stored w)
  ∧ split_seq (stored (step (w, st) x).1) = split_seq (stored w)
  ∧ (∀ k sp, transaction_splits (stored (step (w, st) x).1) !! k = Some sp →
             transaction_splits (stored w) !! k = Some sp)
  ∧ (∀ k sp, transaction_splits (stored w) !! k = Some sp →
             off_targets (TransactionSplit.transaction_id sp) →
             transaction_splits (stored (step (w, st) x).1) !! k = Some sp)
  ∧ (preserve_categorization = false →
     transaction_splits (stored (step (w, st) x).1) = transaction_splits (stored w)
     ∧ added_splits (step (w, st) x).1 = added_splits w
     ∧ ∀ k, k ≠ Transaction.id x →
            transactions (stored (step (w, st) x).1) !! k = transactions (stored w) !! k).
Proof.
  unfold step, merge_step.
  destruct (cutoff_date <=? Transaction.posted x).
  - destruct (target_txn_map !! txn_key x) as [tgt |] eqn:Hk;
      [destruct preserve_categorization |]; cbn [fst];
      try (cbn; repeat split; done).
    unfold copy_categorization; cbn.
    destruct (truthy_opt (Transaction.payee_id x)); cbn;
      (repeat split; try done;
       [ intros k sp H; now apply map_lookup_filter_Some in H as [H _]
       | intros k sp H Hoff; apply map_lookup_filter_Some; split; [done |]; cbn;
         intros Heq; eapply Hoff; eauto ]).
  - cbn. repeat split; try done.
    intros k Hne. now apply lookup_alter_ne.
Qed.

Lemma merge_loop_other_tables (l : list Transaction.t) : ∀ w st,
  holdings (stored (foldl step (w, st) l).1) = holdings (stored w)
  ∧ account_balance (stored (foldl step (w, st) l).1) = account_balance (stored w)
  ∧ split_seq (stored (foldl step (w, st) l).1) = split_seq (stored w)
  ∧ (∀ k sp, transaction_splits (stored (foldl step (w, st) l).1) !! k = Some sp →
             transaction_splits (stored w) !! k = Some sp)
  ∧ (∀ k sp, transaction_splits (stored w) !! k = Some sp →
             off_targets (TransactionSplit.transaction_id sp) →
             transaction_splits (stored (foldl step (w, st) l).1) !! k = Some sp)
  ∧ (preserve_categorization = false →
     transaction_splits (stored (foldl step (w, st) l).1) = transaction_splits (stored w)
     ∧ added_splits (foldl step (w, st) l).1 = added_splits w
     ∧ ∀ k, k ∉ List.map Transaction.id l →
            transactions (stored (foldl step (w, st) l).1) !! k
            = transactions (stored w) !! k).
Proof.
  induction l as [| x l IH]; intros w st; cbn [foldl]; [done |].
  destruct (step (w, st) x) as [w' st'] eqn:E.
  destruct (merge_step_other_tables w st x) as (Hh & Hb & Hq & Hs1 & Hs2 & Hp).
  rewrite E in Hh, Hb, Hq, Hs1, Hs2, Hp. cbn [fst] in *.
  destruct (IH w' st') as (Hh' & Hb' & Hq' & Hs1' & Hs2' & Hp').
  split; [congruence |]. split; [congruence |]. split; [congruence |].
  split; [| split].
  - intros k sp H. eauto.
  - intros k sp H Hoff. eauto.
  - intros Hpf. destruct (Hp Hpf) as (E1 & E2 & E3).
    destruct (Hp' Hpf) as (E1' & E2' & E3').
    split; [congruence |]. split; [congruence |].
    intros k Hk. cbn in Hk. apply not_elem_of_cons in Hk as [Hne Hk].
    rewrite E3' by done. now apply E3.
Qed.

End MergeMore.

Lemma holding_loop_holdings target (l : list Holding.t) : ∀ w st k,
  holdings (stored (foldl (holding_step target) (w, st) l).1) !! k
  = if decide (k ∈ List.map Holding.id l)
    then Holding.set_account_id target <$> holdings (stored w) !! k
    else holdings (stored w) !! k.
Proof.
  induction l as [| h l IH]; intros w st k; cbn [foldl].
  - now rewrite decide_False by apply not_elem_of_nil.
  - destruct (holding_step target (w, st) h) as [w' st'] eqn:E.
    unfold holding_step in E. injection E as <- _.
    rewrite IH. cbn.
    destruct (decide (k = Holding.id h)) as [-> | Hne].
    + rewrite lookup_alter_eq, (decide_True (P := _ ∈ _ :: _)) by left.
      destruct (decide _); [| done].
      now destruct (holdings (stored w) !! Holding.id h).
    + rewrite lookup_alter_ne by done.
      destruct (decide (k ∈ List.map Holding.id l)) as [Hin | Hnin].
      * now rewrite decide_True by now right.
      * rewrite decide_False; [done |].
        intros H. apply elem_of_cons in H as [? | ?]; done.
Qed.

Lemma holding_loop_other_tables target (l : list Holding.t) : ∀ w st,
  transaction_splits (stored (foldl (holding_step target) (w, st) l).1)
  = transaction_splits (stored w)
  ∧ account_balance (stored (foldl (holding_step target) (w, st) l).1)
    = account_balance (stored w)
  ∧ split_seq (stored (foldl (holding_step target) (w, st) l).1) = split_seq (stored w)
  ∧ added_splits (foldl (holding_step target) (w, st) l).1 = added_splits w.
Proof.
  induction l as [| h l IH]; intros w st; cbn [foldl]; [done |].
  destruct (holding_step target (w, st) h) as [w' st'] eqn:E.
  unfold holding_step in E. injection E as <- _.
  match goal with |- context [foldl _ (?w1, _) l] => destruct (IH w1 st') as (-> & -> & -> & ->) end.
  done.
Qed.

(** The run of a merge that passes its preconditions, step by step. *)
Lemma merge_accounts_run now db source target preserve months sa ta :
  accounts db !! source = Some sa → accounts db !! target = Some ta →
  Account.org_id sa = Account.org_id ta → Account.name sa = Account.name ta →
  let st1 :=
    foldl (merge_step (merge_cutoff now months) target preserve
                      (build_txn_map (transactions_of db target)))
          (mkWork db [] [] [], mkMergeStats 0 0 0 0 false) (transactions_of db source) in
  let hs := filter (λ h, Holding.account_id h = source) (rows (holdings (stored st1.1))) in
  let st2 := foldl (holding_step target) st1 hs in
  merge_accounts now db source target preserve months
  = Ok (commit (mkWork (stored st2.1) (added_splits st2.1) (deleted_transactions st2.1)
                       (deleted_accounts st2.1 ++ [source])))
       (mkMergeStats (transactions_reassigned st2.2) (transactions_removed st2.2)
                     (transactions_matched st2.2) (holdings_reassigned st2.2) true).
Proof.
  intros Hs Ht Ho Hn. unfold merge_accounts. rewrite Hs, Ht.
  rewrite bool_decide_eq_false_2 by (intros H; now apply H).
  rewrite bool_decide_eq_false_2 by (intros H; now apply H).
  cbn [orb]. fold (merge_cutoff now months). cbn zeta.
  now destruct (foldl (holding_step target) _ _).
Qed.

Lemma filter_and_length_le {A : Type} (P Q : A → Prop)
    `{∀ x, Decision (P x)} `{∀ x, Decision (Q x)} (l : list A) :
  (List.length (filter (λ x, P x ∧ Q x) l) ≤ List.length (filter P l))%nat.
Proof.
  induction l as [| x l IH]; [done |]. rewrite !filter_cons.
  repeat case_decide; cbn [List.length]; try lia; tauto.
Qed.

Lemma filter_split_length {A : Type} (l : list A) (f : A → Z) (c : Z) :
  Nat.add (List.length (filter (λ x, f x < c) l))
          (List.length (filter (λ x, c <= f x) l))
  = List.length l.
Proof.
  induction l as [| x l IH]; [done |]. rewrite !filter_cons.
  repeat case_decide; cbn [List.length]; lia.
Qed.

(** The counters a merge returns, whatever [preserve_categorization] is:
    every source transaction is counted once, as reassigned when it is
    older than the cutoff and as removed otherwise; the matched ones are
    among the removed; every holding of the source is counted. *)
Theorem merge_accounts_counters now db source target preserve months sa ta :
  accounts db !! source = Some sa → accounts db !! target = Some ta →
  Account.org_id sa = Account.org_id ta → Account.name sa = Account.name ta →
  ∃ db' stats,
    merge_accounts now db source target preserve months = Ok db' stats
    ∧ transactions_reassigned stats
      = Z.of_nat (List.length (filter (λ x, Transaction.posted x < merge_cutoff now months)
                                      (transactions_of db source)))
    ∧ transactions_removed stats
      = Z.of_nat (List.length (filter (λ x, merge_cutoff now months <= Transaction.posted x)
                                      (transactions_of db source)))
    ∧ transactions_reassigned stats + transactions_removed stats
      = Z.of_nat (List.length (transactions_of db source))
    ∧ 0 <= transactions_matched stats <= transactions_removed stats
    ∧ holdings_reassigned stats
      = Z.of_nat (List.length (filter (λ h, Holding.account_id h = source)
                                      (rows (holdings db))))
    ∧ source_account_deleted stats = true.
Proof.
  intros Hs Ht Ho Hn.
  rewrite (merge_accounts_run now db source target preserve months sa ta Hs Ht Ho Hn).
  cbn zeta.
  set (tmap := build_txn_map (transactions_of db target)).
  set (L := transactions_of db source).
  set (w0 := mkWork db [] [] []). set (st0 := mkMergeStats 0 0 0 0 false).
  pose proof (merge_loop_stats (merge_cutoff now months) target preserve tmap L w0 st0) as Hst.
  destruct (merge_loop_other_tables (merge_cutoff now months) target preserve tmap L w0 st0)
    as (Hh & _).
  cbn zeta in Hst.
  set (st1 := foldl _ (w0, st0) L) in *.
  destruct Hst as (H1 & H2 & H3 & H4 & _).
  cbn [st0 transactions_reassigned transactions_removed transactions_matched
       holdings_reassigned] in H1, H2, H3, H4.
  rewrite Hh. cbn [w0 stored].
  set (hs := filter _ (rows (holdings db))).
  pose proof (holding_loop_stats target hs st1.1 st1.2) as Hhs. cbn zeta in Hhs.
  rewrite <- surjective_pairing in Hhs.
  destruct Hhs as (G1 & G2 & G3 & G4).
  eexists _, _. split; [reflexivity |].
  cbn [transactions_reassigned transactions_removed transactions_matched
       holdings_reassigned source_account_deleted].
  rewrite G1, G2, G3, G4, H1, H2, H3, H4.
  pose proof (filter_split_length L Transaction.posted (merge_cutoff now months)) as Hsplit.
  pose proof (filter_and_length_le
                (λ x, merge_cutoff now months <= Transaction.posted x)
                (λ x, is_Some (tmap !! txn_key x)) L) as Hle.
  cbn beta in Hle.
  set (n_old := List.length (filter _ L)) in *.
  set (n_recent := List.length (filter (λ x, merge_cutoff now months <= Transaction.posted x) L)) in *.
  set (n_matched := List.length (filter _ L)) in *.
  repeat split; try lia; destruct preserve; lia.
Qed.

Lemma add_splits_payees (l : list TransactionSplit.t) : ∀ db,
  payees (foldl (λ d split, add_split split d) db l) = payees db
  ∧ categories (foldl (λ d split, add_split split d) db l) = categories db.
Proof.
  induction l as [| x l IH]; intros db; cbn [foldl]; [done |].
  now destruct (IH (add_split x db)) as (-> & ->).
Qed.

Lemma delete_transactions_payees (l : list string) : ∀ db,
  payees (foldl (λ d i, delete_transaction_row i d) db l) = payees db
  ∧ categories (foldl (λ d i, delete_transaction_row i d) db l) = categories db.
Proof.
  induction l as [| x l IH]; intros db; cbn [foldl]; [done |].
  now destruct (IH (delete_transaction_row x db)) as (-> & ->).
Qed.

Lemma commit_payees (w : Work) (a : string) :
  deleted_accounts w = [a] →
  payees (commit w) = payees (stored w) ∧ categories (commit w) = categories (stored w).
Proof.
  intros Ha. unfold commit. rewrite Ha. cbn [foldl].
  unfold delete_account_row; cbn [payees categories].
  destruct (delete_transactions_payees (deleted_transactions w)
              (foldl (λ d split, add_split split d) (stored w) (added_splits w)))
    as [-> ->].
  apply add_splits_payees.
Qed.

Lemma merge_loop_payees cutoff target preserve tmap (l : list Transaction.t) : ∀ w st,
  payees (stored (foldl (merge_step cutoff target preserve tmap) (w, st) l).1)
  = payees (stored w)
  ∧ categories (stored (foldl (merge_step cutoff target preserve tmap) (w, st) l).1)
    = categories (stored w).
Proof.
  induction l as [| x l IH]; intros w st; cbn [foldl]; [done |].
  destruct (merge_step cutoff target preserve tmap (w, st) x) as [w' st'] eqn:E.
  destruct (IH w' st') as [-> ->].
  unfold merge_step in E.
  destruct (cutoff <=? Transaction.posted x).
  - destruct (tmap !! txn_key x) as [tgt |]; [destruct preserve |];
      injection E as <- _; cbn; try done.
    unfold copy_categorization. now destruct (truthy_opt _).
  - injection E as <- _. done.
Qed.

Lemma holding_loop_payees target (l : list Holding.t) : ∀ w st,
  payees (stored (foldl (holding_step target) (w, st) l).1) = payees (stored w)
  ∧ categories (stored (foldl (holding_step target) (w, st) l).1) = categories (stored w).
Proof.
  induction l as [| h l IH]; intros w st; cbn [foldl]; [done |].
  destruct (holding_step target (w, st) h) as [w' st'] eqn:E.
  unfold holding_step in E. injection E as <- _.
  match goal with |- context [foldl _ (?w1, _) l] => destruct (IH w1 st') as (-> & ->) end.
  done.
Qed.

(** The facts about the two loops of a merge that the theorems below
    share: what is stored, added and marked when the commit starts. *)
Lemma merge_accounts_before_commit now db source target preserve months :
  transactions_keyed db →
  let tmap := build_txn_map (transactions_of db target) in
  let L := transactions_of db source in
  let st1 :=
    foldl (merge_step (merge_cutoff now months) target preserve tmap)
          (mkWork db [] [] [], mkMergeStats 0 0 0 0 false) L in
  let hs := filter (λ h, Holding.account_id h = source) (rows (holdings (stored st1.1))) in
  let w2 := (foldl (holding_step target) st1 hs).1 in
  accounts (stored w2) = accounts db
  ∧ payees (stored w2) = payees db
  ∧ categories (stored w2) = categories db
  ∧ account_balance (stored w2) = account_balance db
  ∧ split_seq (stored w2) = split_seq db
  ∧ deleted_accounts w2 = []
  ∧ deleted_transactions w2
    = List.map Transaction.id
        (filter (λ x, merge_cutoff now months <= Transaction.posted x) L)
  ∧ transactions (stored w2) = transactions (stored st1.1)
  ∧ transaction_splits (stored w2) = transaction_splits (stored st1.1)
  ∧ added_splits w2 = added_splits st1.1
  ∧ hs = filter (λ h, Holding.account_id h = source) (rows (holdings db))
  ∧ (∀ k, holdings (stored w2) !! k
          = if decide (k ∈ List.map Holding.id hs)
            then Holding.set_account_id target <$> holdings db !! k
            else holdings db !! k).
Proof.
  intros Hkeyed tmap L st1 hs w2.
  destruct (merge_loop_tables (merge_cutoff now months) target preserve tmap L
              (mkWork db [] [] []) (mkMergeStats 0 0 0 0 false))
    as (Ha1 & Hda1 & Hdt1 & _).
  destruct (merge_loop_other_tables (merge_cutoff now months) target preserve tmap L
              (mkWork db [] [] []) (mkMergeStats 0 0 0 0 false))
    as (Hh1 & Hb1 & Hq1 & _).
  destruct (merge_loop_payees (merge_cutoff now months) target preserve tmap L
              (mkWork db [] [] []) (mkMergeStats 0 0 0 0 false))
    as (Hp1 & Hc1).
  fold st1 in Ha1, Hda1, Hdt1, Hh1, Hb1, Hq1, Hp1, Hc1.
  cbn [stored deleted_accounts deleted_transactions app] in Ha1, Hda1, Hdt1, Hh1, Hb1, Hq1, Hp1, Hc1.
  destruct (holding_loop_tables target hs st1.1 st1.2) as (Ht2 & Ha2 & Hdt2 & Hda2).
  destruct (holding_loop_other_tables target hs st1.1 st1.2) as (Hs2 & Hb2 & Hq2 & Had2).
  destruct (holding_loop_payees target hs st1.1 st1.2) as (Hp2 & Hc2).
  pose proof (holding_loop_holdings target hs st1.1 st1.2) as Hh2.
  rewrite <- surjective_pairing in Ht2, Ha2, Hdt2, Hda2, Hs2, Hb2, Hq2, Had2, Hp2, Hc2, Hh2.
  fold w2 in Ht2, Ha2, Hdt2, Hda2, Hs2, Hb2, Hq2, Had2, Hp2, Hc2, Hh2.
  repeat split; try congruence.
  - subst hs. now rewrite Hh1.
  - intros k. rewrite Hh2, Hh1. done.
Qed.

(** What belongs to neither account is out of a merge's reach: every other
    account, the transactions of other accounts with their splits, the
    holdings and balances of every account but the source, and the payee
    and category tables are after the merge what they were before. *)
Theorem merge_accounts_frame now db source target preserve months sa ta :
  transactions_keyed db → holdings_keyed db → splits_fresh db →
  accounts db !! source = Some sa → accounts db !! target = Some ta →
  Account.org_id sa = Account.org_id ta → Account.name sa = Account.name ta →
  ∃ db' stats,
    merge_accounts now db source target preserve months = Ok db' stats
    ∧ (∀ a, a ≠ source → accounts db' !! a = accounts db !! a)
    ∧ (∀ k x, transactions db !! k = Some x →
              Transaction.account_id x ≠ source → Transaction.account_id x ≠ target →
              transactions db' !! k = Some x
              ∧ ∀ ks sp, transaction_splits db !! ks = Some sp →
                         TransactionSplit.transaction_id sp = k →
                         transaction_splits db' !! ks = Some sp)
    ∧ (∀ k h, holdings db !! k = Some h → Holding.account_id h ≠ source →
              holdings db' !! k = Some h)
    ∧ (∀ k b, account_balance db !! k = Some b → AccountBalance.account_id b ≠ source →
              account_balance db' !! k = Some b)
    ∧ payees db' = payees db
    ∧ categories db' = categories db.
Proof.
  intros Hkeyed Hhkeyed Hfresh Hs Ht Ho Hn.
  rewrite (merge_accounts_run now db source target preserve months sa ta Hs Ht Ho Hn).
  cbn zeta.
  destruct (merge_accounts_before_commit now db source target preserve months Hkeyed)
    as (Ha & Hp & Hc & Hb & Hq & Hda & Hdt & Ht2 & Hs2 & Had & Hhs & Hh).
  set (tmap := build_txn_map (transactions_of db target)) in *.
  set (L := transactions_of db source) in *.
  set (st1 := foldl _ _ L) in *.
  set (hs := filter _ (rows (holdings (stored st1.1)))) in *.
  set (w2 := (foldl (holding_step target) st1 hs).1) in *.
  set (w3 := mkWork _ _ _ _).
  assert (Hw3 : deleted_accounts w3 = [source]) by (cbn; now rewrite Hda).
  destruct (commit_tables w3 source Hw3) as [Hca Hct].
  destruct (commit_other_tables w3 source Hw3) as (Hch & Hcb & Hcs).
  destruct (commit_payees w3 source Hw3) as [Hcp Hcc].
  cbn [w3 stored deleted_transactions] in Hca, Hct, Hch, Hcb, Hcs, Hcp, Hcc.
  destruct (merge_loop_tables (merge_cutoff now months) target preserve tmap L
              (mkWork db [] [] []) (mkMergeStats 0 0 0 0 false))
    as (_ & _ & _ & _ & Hsame).
  destruct (merge_loop_other_tables (merge_cutoff now months) target preserve tmap L
              (mkWork db [] [] []) (mkMergeStats 0 0 0 0 false))
    as (_ & _ & _ & Hsub & Hkept & _).
  fold st1 in Hsame, Hsub, Hkept. cbn [stored] in Hsame, Hsub, Hkept.
  (* a key of a third account is no source id and no id of the lookup *)
  assert (Hthird : ∀ k x, transactions db !! k = Some x →
            Transaction.account_id x ≠ source → Transaction.account_id x ≠ target →
            (k ∉ List.map Transaction.id L)
            ∧ ∀ key tgt, tmap !! key = Some tgt → Transaction.id tgt ≠ k).
  { intros k x Hk Hns Hnt. split.
    - intros Hin. apply list_elem_of_fmap in Hin as (y & -> & Hy).
      apply transactions_of_elem_of in Hy as [[k' Hk'] Hacc].
      rewrite (Hkeyed _ _ Hk') in Hk. congruence.
    - intros key tgt Hkey Heq.
      apply build_txn_map_lookup, transactions_of_elem_of in Hkey as [[k' Hk'] Hacc].
      pose proof (Hkeyed _ _ Hk') as E. rewrite <- E, Heq in Hk'. congruence. }
  eexists _, _. split; [reflexivity |].
  split; [| split; [| split; [| split; [| split]]]].
  - intros a Hne. rewrite Hca, Ha. now apply lookup_delete_ne.
  - intros k x Hk Hns Hnt. destruct (Hthird k x Hk Hns Hnt) as [Hnin Hoff].
    assert (Hstored : transactions (stored w2) !! k = Some x).
    { rewrite Ht2, Hsame; done. }
    assert (Hnd : k ∉ deleted_transactions w2).
    { rewrite Hdt. intros Hin. apply Hnin.
      apply list_elem_of_fmap in Hin as (y & -> & Hy).
      apply list_elem_of_filter in Hy as [_ Hy]. apply list_elem_of_fmap. eauto. }
    split.
    + rewrite Hct, decide_False, Hstored by done. now rewrite decide_False.
    + intros ks sp Hsp Htid. subst k.
      apply (Hcs ks sp x); try done.
      * intros k' Hk'. rewrite Hs2 in Hk'. destruct Hk' as [sp' Hk'].
        rewrite Hq. apply Hfresh. eauto.
      * rewrite Hs2. now apply Hkept.
  - intros k h Hk Hns. rewrite Hch. apply map_lookup_filter_Some. split; [| done].
    rewrite Hh, decide_False; [done |].
    intros Hin. apply list_elem_of_fmap in Hin as (h' & -> & Hh').
    rewrite Hhs in Hh'. apply list_elem_of_filter in Hh' as [Hacc Hh'].
    apply rows_elem_of in Hh' as [k' Hk'].
    rewrite (Hhkeyed _ _ Hk') in Hk. congruence.
  - intros k b Hk Hns. rewrite Hcb, Hb. apply map_lookup_filter_Some. done.
  - now rewrite Hcp.
  - now rewrite Hcc.
Qed.

(** A merge of two distinct accounts moves the holdings of the source to
    the target as they are, leaves every other holding alone, and drops
    the balance history of the source: the balance rows are not moved. *)
Theorem merge_accounts_holdings now db source target preserve months sa ta :
  transactions_keyed db → holdings_keyed db → source ≠ target →
  accounts db !! source = Some sa → accounts db !! target = Some ta →
  Account.org_id sa = Account.org_id ta → Account.name sa = Account.name ta →
  ∃ db' stats,
    merge_accounts now db source target preserve months = Ok db' stats
    ∧ holdings db'
      = (λ h, if decide (Holding.account_id h = source)
              then Holding.set_account_id target h else h) <$> holdings db
    ∧ account_balance db'
      = filter (λ kv, AccountBalance.account_id kv.2 ≠ source) (account_balance db).
Proof.
  intros Hkeyed Hhkeyed Hdiff Hs Ht Ho Hn.
  rewrite (merge_accounts_run now db source target preserve months sa ta Hs Ht Ho Hn).
  cbn zeta.
  destruct (merge_accounts_before_commit now db source target preserve months Hkeyed)
    as (Ha & Hp & Hc & Hb & Hq & Hda & Hdt & Ht2 & Hs2 & Had & Hhs & Hh).
  set (st1 := foldl _ _ (transactions_of db source)) in *.
  set (hs := filter _ (rows (holdings (stored st1.1)))) in *.
  set (w2 := (foldl (holding_step target) st1 hs).1) in *.
  set (w3 := mkWork _ _ _ _).
  assert (Hw3 : deleted_accounts w3 = [source]) by (cbn; now rewrite Hda).
  destruct (commit_other_tables w3 source Hw3) as (Hch & Hcb & _).
  cbn [w3 stored] in Hch, Hcb.
  eexists _, _. split; [reflexivity |]. split; [| now rewrite Hcb, Hb].
  rewrite Hch. apply map_eq. intros k.
  rewrite map_lookup_filter, Hh, lookup_fmap.
  destruct (holdings db !! k) as [h |] eqn:Hk; [| now destruct (decide _)].
  pose proof (Hhkeyed _ _ Hk) as Hid. cbn.
  destruct (decide (Holding.account_id h = source)) as [Hacc | Hacc].
  - rewrite decide_True.
    + cbn. now rewrite option_guard_True by (cbn; congruence).
    + apply list_elem_of_fmap. exists h. split; [done |].
      rewrite Hhs. apply list_elem_of_filter. split; [done |].
      apply rows_elem_of. eauto.
  - rewrite decide_False.
    + cbn. now rewrite option_guard_True.
    + intros Hin. apply list_elem_of_fmap in Hin as (h' & -> & Hh').
      rewrite Hhs in Hh'. apply list_elem_of_filter in Hh' as [Hacc' Hh'].
      apply rows_elem_of in Hh' as [k' Hk'].
      rewrite (Hhkeyed _ _ Hk') in Hk. congruence.
Qed.

(** *** The splits of a transaction through a merge *)

Lemma filter_none {A : Type} (P : A → Prop) `{∀ x, Decision (P x)} (l : list A) :
  Forall (λ x, ¬ P x) l → filter P l = [].
Proof.
  induction 1 as [| x l Hx _ IH]; [done |].
  now rewrite filter_cons, decide_False.
Qed.

Lemma filter_all {A : Type} (P : A → Prop) `{∀ x, Decision (P x)} (l : list A) :
  Forall P l → filter P l = l.
Proof.
  induction 1 as [| x l Hx _ IH]; [done |].
  now rewrite filter_cons, decide_True, IH.
Qed.

Lemma splits_of_ext db db' tid :
  (∀ k sp, TransactionSplit.transaction_id sp = tid →
           (transaction_splits db' !! k = Some sp ↔ transaction_splits db !! k = Some sp)) →
  splits_of db' tid = splits_of db tid.
Proof.
  intros H. unfold splits_of. f_equal. apply map_eq. intros k.
  apply option_eq. intros sp. rewrite !map_lookup_filter_Some. cbn.
  split; intros [Hk Ht]; (split; [apply (H k sp Ht), Hk | exact Ht]).
Qed.

Lemma add_split_fresh sp db : splits_fresh db → splits_fresh (add_split sp db).
Proof.
  intros Hf k [x Hk]. cbn in *.
  destruct (decide (k = split_seq db)) as [-> | Hne]; [lia |].
  rewrite lookup_insert_ne in Hk by done.
  assert (k < split_seq db) by (apply Hf; eauto). lia.
Qed.

(** The splits of one transaction after the pending inserts of a commit. *)
Lemma add_splits_splits_of (tid : string) (l : list TransactionSplit.t) : ∀ db,
  splits_fresh db →
  splits_of (foldl (λ d split, add_split split d) db l) tid
  ≡ₚ (splits_of db tid ++ filter (λ sp, TransactionSplit.transaction_id sp = tid) l)%list.
Proof.
  induction l as [| x l IH]; intros db Hf; cbn [foldl].
  - now rewrite filter_nil, app_nil_r.
  - rewrite (IH (add_split x db)) by now apply add_split_fresh.
    rewrite filter_cons. unfold splits_of at 1. cbn [add_split transaction_splits].
    assert (Hnone : transaction_splits db !! split_seq db = None).
    { destruct (transaction_splits db !! split_seq db) eqn:E; [| done].
      assert (split_seq db < split_seq db) by (apply Hf; eauto). lia. }
    destruct (decide (TransactionSplit.transaction_id x = tid)) as [Hx | Hx].
    + rewrite map_filter_insert_True by done. unfold rows.
      rewrite map_to_list_insert
        by (apply map_lookup_filter_None; now left).
      cbn. unfold splits_of, rows.
      now rewrite Permutation_middle.
    + rewrite map_filter_insert_False by done.
      now rewrite delete_id by done.
Qed.

(** The splits of a transaction that survives the commit of a merge. *)
Lemma commit_splits_of (w : Work) (a tid : string) (x : Transaction.t) :
  deleted_accounts w = [a] → splits_fresh (stored w) →
  tid ∉ deleted_transactions w →
  transactions (stored w) !! tid = Some x → Transaction.account_id x ≠ a →
  splits_of (commit w) tid
  ≡ₚ (splits_of (stored w) tid
      ++ filter (λ sp, TransactionSplit.transaction_id sp = tid) (added_splits w))%list.
Proof.
  intros Ha Hf Hnd Hx Hacc.
  rewrite <- (add_splits_splits_of tid (added_splits w) (stored w) Hf).
  unfold commit. rewrite Ha. cbn [foldl].
  destruct (add_splits_tables (added_splits w) (stored w)) as [Ht1 _].
  set (db1 := foldl (λ d split, add_split split d) (stored w) (added_splits w)) in *.
  destruct (delete_transactions_other_tables (deleted_transactions w) db1) as (_ & _ & Hs2).
  destruct (delete_transactions_tables (deleted_transactions w) db1) as [_ Ht2].
  set (db2 := foldl (λ d i, delete_transaction_row i d) db1 (deleted_transactions w)) in *.
  rewrite (splits_of_ext db1 (delete_account_row a db2) tid); [done |].
  intros k sp Htid. unfold delete_account_row; cbn [transaction_splits].
  rewrite map_lookup_filter_Some, Hs2. cbn. rewrite Htid, Ht2, decide_False, Ht1, Hx by done.
  cbn. split; [tauto |]. intros Hk. repeat split; [done | done | congruence].
Qed.

Lemma splits_of_delete_other db tid tid' :
  tid ≠ tid' → splits_of (delete_splits_of tid' db) tid = splits_of db tid.
Proof.
  intros Hne. apply splits_of_ext. intros k sp Htid. cbn.
  rewrite map_lookup_filter_Some. cbn. split; [tauto |]. intros Hk. split; [done | congruence].
Qed.

Lemma splits_of_delete_same db tid : splits_of (delete_splits_of tid db) tid = [].
Proof.
  unfold splits_of.
  assert (E : filter (λ kv : Z * TransactionSplit.t,
                        TransactionSplit.transaction_id kv.2 = tid)
                     (transaction_splits (delete_splits_of tid db)) = ∅).
  { apply map_empty. intros k. apply map_lookup_filter_None. right. intros sp Hsp.
    cbn in Hsp. apply map_lookup_filter_Some in Hsp as [_ H]. exact H. }
  rewrite E. unfold rows. now rewrite map_to_list_empty.
Qed.

Lemma build_txn_map_key (l : list Transaction.t) key tgt :
  build_txn_map l !! key = Some tgt → txn_key tgt = key.
Proof.
  unfold build_txn_map.
  assert (G : ∀ m : gmap (Py.datetime * Py.float * string) Transaction.t,
             (∀ k v, m !! k = Some v → txn_key v = k) →
             ∀ k v, foldl (λ m txn, <[txn_key txn := txn]> m) m l !! k = Some v →
                    txn_key v = k).
  { induction l as [| y l IH]; intros m Hm; cbn [foldl]; [exact Hm |].
    apply IH. intros k v. destruct (decide (txn_key y = k)) as [<- | Hne].
    - rewrite lookup_insert_eq. now intros [= <-].
    - rewrite lookup_insert_ne by done. apply Hm. }
  apply G. intros k v. now rewrite lookup_empty.
Qed.

Section MergeSplits.

Variables (cutoff_date : Py.datetime) (target_account_id : string)
          (preserve_categorization : bool)
          (target_txn_map : gmap (Py.datetime * Py.float * string) Transaction.t).

Let step := merge_step cutoff_date target_account_id preserve_categorization target_txn_map.

(** The turn of [y] copies a categorization onto the transaction [tid]. *)
Let hits (tid : string) (y : Transaction.t) : Prop :=
  cutoff_date <= Transaction.posted y
  ∧ preserve_categorization = true
  ∧ ∃ tgt, target_txn_map !! txn_key y = Some tgt ∧ Transaction.id tgt = tid.

(** A turn that copies nothing onto [tid] leaves its splits alone. *)
Lemma merge_step_no_hit tid w st y :
  ¬ hits tid y →
  (∀ k sp, TransactionSplit.transaction_id sp = tid →
           (transaction_splits (stored (step (w, st) y).1) !! k = Some sp
            ↔ transaction_splits (stored w) !! k = Some sp))
  ∧ filter (λ sp, TransactionSplit.transaction_id sp = tid) (added_splits (step (w, st) y).1)
    = filter (λ sp, TransactionSplit.transaction_id sp = tid) (added_splits w)
  ∧ (tid ≠ Transaction.id y →
     transactions (stored (step (w, st) y).1) !! tid = transactions (stored w) !! tid).
Proof.
  intros Hno. unfold step, merge_step.
  destruct (Z.leb_spec cutoff_date (Transaction.posted y)) as [Hle | Hlt].
  - destruct (target_txn_map !! txn_key y) as [tgt |] eqn:Hk;
      [destruct preserve_categorization eqn:Hp |]; cbn [fst]; try (cbn; done).
    assert (Hne : tid ≠ Transaction.id tgt).
    { intros ->. apply Hno. unfold hits. split; [done |]. split; [done |]. eauto. }
    unfold copy_categorization; cbn [stored added_splits].
    split; [| split].
    + intros k sp Htid.
      assert (E : ∀ d, transaction_splits
                         (if truthy_opt (Transaction.payee_id y)
                          then set_transactions
                                 (alter (Transaction.set_payee_id (Transaction.payee_id y))
                                        (Transaction.id tgt) (transactions d)) d
                          else d) = transaction_splits d)
        by (intros d; now destruct (truthy_opt _)).
      rewrite E. cbn. rewrite map_lookup_filter_Some. cbn.
      split; [tauto |]. intros H. split; [done | congruence].
    + rewrite filter_app.
      match goal with |- (_ ++ ?f)%list = _ => assert (E : f = []) end.
      { apply filter_none. apply Forall_forall. intros sp Hsp.
        apply list_elem_of_fmap in Hsp as (sp' & -> & _). cbn. congruence. }
      now rewrite E, app_nil_r.
    + intros _. destruct (truthy_opt _); cbn; [| done].
      now apply lookup_alter_ne.
  - cbn. repeat split; try done. intros Hne. now apply lookup_alter_ne.
Qed.

Lemma merge_loop_no_hit tid (l : list Transaction.t) : ∀ w st,
  Forall (λ y, ¬ hits tid y) l →
  (∀ k sp, TransactionSplit.transaction_id sp = tid →
           (transaction_splits (stored (foldl step (w, st) l).1) !! k = Some sp
            ↔ transaction_splits (stored w) !! k = Some sp))
  ∧ filter (λ sp, TransactionSplit.transaction_id sp = tid)
           (added_splits (foldl step (w, st) l).1)
    = filter (λ sp, TransactionSplit.transaction_id sp = tid) (added_splits w)
  ∧ (tid ∉ List.map Transaction.id l →
     transactions (stored (foldl step (w, st) l).1) !! tid = transactions (stored w) !! tid).
Proof.
  induction l as [| y l IH]; intros w st Hall; cbn [foldl]; [done |].
  apply Forall_cons in Hall as [Hy Hall].
  destruct (step (w, st) y) as [w' st'] eqn:E.
  destruct (merge_step_no_hit tid w st y Hy) as (H1 & H2 & H3).
  rewrite E in H1, H2, H3. cbn [fst] in *.
  destruct (IH w' st' Hall) as (H1' & H2' & H3').
  split; [| split; [congruence |]].
  - intros k sp Htid. now rewrite H1', H1.
  - intros Hnin. cbn in Hnin. apply not_elem_of_cons in Hnin as [Hne Hnin].
    rewrite H3' by done. now apply H3.
Qed.

(** The turn that copies the categorization of [x] onto [tgt]. *)
Lemma merge_step_hit w st x tgt :
  cutoff_date <= Transaction.posted x → preserve_categorization = true →
  target_txn_map !! txn_key x = Some tgt → Transaction.id tgt ≠ Transaction.id x →
  splits_of (stored (step (w, st) x).1) (Transaction.id tgt) = []
  ∧ filter (λ sp, TransactionSplit.transaction_id sp = Transaction.id tgt)
           (added_splits (step (w, st) x).1)
    = (filter (λ sp, TransactionSplit.transaction_id sp = Transaction.id tgt) (added_splits w)
       ++ List.map (λ split, TransactionSplit.mk (Transaction.id tgt)
                               (TransactionSplit.category_id split)
                               (TransactionSplit.amount split))
                   (splits_of (stored w) (Transaction.id x)))%list
  ∧ transactions (stored (step (w, st) x).1) !! Transaction.id tgt
    = (if truthy_opt (Transaction.payee_id x)
       then Transaction.set_payee_id (Transaction.payee_id x) else id)
      <$> transactions (stored w) !! Transaction.id tgt.
Proof.
  intros Hle Hp Hk Hne. unfold step, merge_step.
  apply Z.leb_le in Hle. rewrite Hle, Hk, Hp. cbn [fst].
  unfold copy_categorization; cbn [stored added_splits].
  split; [| split].
  - rewrite <- (splits_of_delete_same (stored w) (Transaction.id tgt)).
    apply splits_of_ext. intros k sp _. now destruct (truthy_opt _).
  - rewrite filter_app. f_equal.
    rewrite splits_of_delete_other by congruence.
    apply filter_all. apply Forall_forall. intros sp Hsp.
    apply list_elem_of_fmap in Hsp as (sp' & -> & _). done.
  - destruct (truthy_opt _); cbn.
    + now rewrite lookup_alter_eq.
    + now rewrite option_fmap_id.
Qed.

End MergeSplits.

Lemma add_splits_lookup (l : list TransactionSplit.t) : ∀ db k sp,
  transaction_splits (foldl (λ d split, add_split split d) db l) !! k = Some sp →
  transaction_splits db !! k = Some sp ∨ sp ∈ l.
Proof.
  induction l as [| x l IH]; intros db k sp; cbn [foldl]; [now left |].
  intros H. apply IH in H as [H | H]; [| right; now right].
  cbn in H. destruct (decide (k = split_seq db)) as [-> | Hne].
  - rewrite lookup_insert_eq in H. injection H as ->. right; left.
  - rewrite lookup_insert_ne in H by done. now left.
Qed.

Lemma commit_splits_lookup (w : Work) (a : string) k sp :
  deleted_accounts w = [a] →
  transaction_splits (commit w) !! k = Some sp →
  transaction_splits (stored w) !! k = Some sp ∨ sp ∈ added_splits w.
Proof.
  intros Ha. unfold commit. rewrite Ha. cbn [foldl].
  unfold delete_account_row; cbn [transaction_splits].
  intros H. apply map_lookup_filter_Some in H as [H _].
  apply delete_transactions_other_tables in H as [H _].
  now apply add_splits_lookup in H.
Qed.

(** History that a merge moves keeps its categorization: a source
    transaction older than the cutoff is stored under the target with the
    payee it had and with exactly the split rows it had. *)
Theorem merge_accounts_keeps_history_categorization
    now db source target preserve months sa ta :
  transactions_keyed db → splits_fresh db → source ≠ target →
  accounts db !! source = Some sa → accounts db !! target = Some ta →
  Account.org_id sa = Account.org_id ta → Account.name sa = Account.name ta →
  ∃ db' stats,
    merge_accounts now db source target preserve months = Ok db' stats
    ∧ ∀ x, x ∈ transactions_of db source →
           Transaction.posted x < merge_cutoff now months →
           Transaction.payee_id <$> transactions db' !! Transaction.id x
           = Some (Transaction.payee_id x)
           ∧ Transaction.account_id <$> transactions db' !! Transaction.id x = Some target
           ∧ splits_of db' (Transaction.id x) = splits_of db (Transaction.id x).
Proof.
  intros Hkeyed Hfresh Hdiff Hs Ht Ho Hn.
  destruct (merge_accounts_conservation now db source target preserve months sa ta
              Hkeyed Hdiff Hs Ht Ho Hn) as (db0 & stats0 & Hrun0 & Hold & _).
  revert Hrun0.
  rewrite (merge_accounts_run now db source target preserve months sa ta Hs Ht Ho Hn).
  cbn zeta. intros [= <- <-].
  destruct (merge_accounts_before_commit now db source target preserve months Hkeyed)
    as (Ha & Hp & Hc & Hb & Hq & Hda & Hdt & Ht2 & Hs2 & Had & Hhs & Hh).
  set (tmap := build_txn_map (transactions_of db target)) in *.
  set (L := transactions_of db source) in *.
  set (st1 := foldl _ _ L) in *.
  set (hs := filter _ (rows (holdings (stored st1.1)))) in *.
  set (w2 := (foldl (holding_step target) st1 hs).1) in *.
  set (w3 := mkWork (stored w2) _ _ _) in *.
  assert (Hw3 : deleted_accounts w3 = [source]) by (cbn; now rewrite Hda).
  destruct (commit_other_tables w3 source Hw3) as (_ & _ & Hcs).
  pose proof (commit_splits_lookup w3 source) as Hcl.
  cbn [w3 stored deleted_transactions added_splits] in Hcs, Hcl.
  destruct (merge_loop_other_tables (merge_cutoff now months) target preserve tmap L
              (mkWork db [] [] []) (mkMergeStats 0 0 0 0 false))
    as (_ & _ & _ & Hsub & Hkept & _).
  pose proof (merge_loop_no_hit (merge_cutoff now months) target preserve tmap) as Hnohit.
  pose proof (merge_loop_source_row (merge_cutoff now months) target preserve tmap L
                (mkWork db [] [] []) (mkMergeStats 0 0 0 0 false)) as Hrow.
  fold st1 in Hsub, Hkept, Hrow. cbn [stored] in Hsub, Hkept, Hrow.
  eexists _, _. split; [reflexivity |]. intros x Hx Hxold.
  rewrite (Hold x Hx Hxold). cbn. split; [done |]. split; [done |].
  (* no transaction of the lookup has the id of [x] *)
  assert (Hoff : ∀ y, y ∈ L →
            ∀ key tgt, tmap !! key = Some tgt → Transaction.id tgt ≠ Transaction.id y).
  { intros y Hy key tgt Hk Heq.
    apply build_txn_map_lookup, transactions_of_elem_of in Hk as [[k Hk] Hacc].
    apply transactions_of_elem_of in Hy as [[k' Hk'] Hacc'].
    pose proof (Hkeyed _ _ Hk) as E1. pose proof (Hkeyed _ _ Hk') as E2.
    assert (tgt = y) by congruence. subst tgt. congruence. }
  assert (Hxrow : transactions db !! Transaction.id x = Some x).
  { apply transactions_of_elem_of in Hx as [[k Hk] _]. now rewrite (Hkeyed _ _ Hk). }
  assert (Hsame_id : ∀ y, y ∈ L → Transaction.id y = Transaction.id x → y = x).
  { intros y Hy Hid. apply transactions_of_elem_of in Hy as [[k Hk] _].
    pose proof (Hkeyed _ _ Hk) as E. rewrite <- E, Hid in Hk. congruence. }
  destruct (Hnohit (Transaction.id x) L (mkWork db [] [] []) (mkMergeStats 0 0 0 0 false))
    as (_ & Hadded & _).
  { apply Forall_forall. intros y Hy (_ & _ & tgt & Hk & Hid).
    exact (Hoff x Hx _ _ Hk Hid). }
  fold st1 in Hadded. cbn [added_splits] in Hadded. rewrite filter_nil in Hadded.
  apply splits_of_ext. intros k sp Htid. split.
  - intros Hk. apply Hcl in Hk as [Hk | Hk]; [| | exact Hw3].
    + rewrite Hs2 in Hk. now apply Hsub.
    + exfalso. rewrite Had in Hk.
      eapply (filter_nil_not_elem_of _ _ sp Hadded); done.
  - intros Hk.
    apply (Hcs k sp (Transaction.set_account_id target x)).
    + intros k' Hk'. rewrite Hs2 in Hk'. destruct Hk' as [sp' Hk'].
      rewrite Hq. apply Hfresh. eauto.
    + rewrite Hs2. apply Hkept; [done |]. rewrite Htid. now apply Hoff.
    + rewrite Htid, Hdt. intros Hin.
      apply list_elem_of_fmap in Hin as (y & Hid & Hy).
      apply list_elem_of_filter in Hy as [Hrecent Hy].
      rewrite (Hsame_id y Hy (eq_sym Hid)) in Hrecent. lia.
    + rewrite Htid, Ht2, Hrow; try done.
      * destruct (Z.leb_spec (merge_cutoff now months) (Transaction.posted x)); [lia | done].
      * now apply transactions_of_NoDup.
    + cbn. congruence.
Qed.

Lemma commit_splits_unhit (w : Work) (a tid : string) (x : Transaction.t) :
  deleted_accounts w = [a] → splits_fresh (stored w) →
  tid ∉ deleted_transactions w →
  transactions (stored w) !! tid = Some x → Transaction.account_id x ≠ a →
  filter (λ sp, TransactionSplit.transaction_id sp = tid) (added_splits w) = [] →
  ∀ k sp, TransactionSplit.transaction_id sp = tid →
          (transaction_splits (commit w) !! k = Some sp
           ↔ transaction_splits (stored w) !! k = Some sp).
Proof.
  intros Ha Hf Hnd Hx Hacc Hadded k sp Htid. split.
  - intros Hk. apply (commit_splits_lookup w a) in Hk as [Hk | Hk]; [done | | done].
    exfalso. eapply (filter_nil_not_elem_of _ _ sp Hadded); done.
  - intros Hk. destruct (commit_other_tables w a Ha) as (_ & _ & Hcs).
    apply (Hcs k sp x); try done; now rewrite Htid.
Qed.

Lemma merge_before_commit_fresh now db source target preserve months :
  splits_fresh db →
  let st1 :=
    foldl (merge_step (merge_cutoff now months) target preserve
                      (build_txn_map (transactions_of db target)))
          (mkWork db [] [] [], mkMergeStats 0 0 0 0 false) (transactions_of db source) in
  let hs := filter (λ h, Holding.account_id h = source) (rows (holdings (stored st1.1))) in
  splits_fresh (stored (foldl (holding_step target) st1 hs).1).
Proof.
  intros Hfresh st1 hs k [sp Hk].
  destruct (holding_loop_other_tables target hs st1.1 st1.2) as (Hs2 & _ & Hq2 & _).
  rewrite <- surjective_pairing in Hs2, Hq2. rewrite Hs2 in Hk. rewrite Hq2.
  destruct (merge_loop_other_tables (merge_cutoff now months) target preserve
              (build_txn_map (transactions_of db target)) (transactions_of db source)
              (mkWork db [] [] []) (mkMergeStats 0 0 0 0 false))
    as (_ & _ & Hq1 & Hsub & _).
  fold st1 in Hq1, Hsub. cbn [stored] in Hq1, Hsub.
  rewrite Hq1. apply Hfresh. exists sp. now apply Hsub.
Qed.

(** With [preserve_categorization = false] a merge of two distinct
    accounts leaves the transactions of the target as they are: the row
    (payee included) and the split rows of each of them are unchanged. *)
Theorem merge_accounts_without_preserve now db source target months sa ta :
  transactions_keyed db → splits_fresh db → source ≠ target →
  accounts db !! source = Some sa → accounts db !! target = Some ta →
  Account.org_id sa = Account.org_id ta → Account.name sa = Account.name ta →
  ∃ db' stats,
    merge_accounts now db source target false months = Ok db' stats
    ∧ ∀ t, t ∈ transactions_of db target →
           transactions db' !! Transaction.id t = Some t
           ∧ splits_of db' (Transaction.id t) = splits_of db (Transaction.id t).
Proof.
  intros Hkeyed Hfresh Hdiff Hs Ht Ho Hn.
  rewrite (merge_accounts_run now db source target false months sa ta Hs Ht Ho Hn).
  cbn zeta.
  destruct (merge_accounts_before_commit now db source target false months Hkeyed)
    as (Ha & Hp & Hc & Hb & Hq & Hda & Hdt & Ht2 & Hs2 & Had & Hhs & Hh).
  set (tmap := build_txn_map (transactions_of db target)) in *.
  set (L := transactions_of db source) in *.
  set (st1 := foldl _ _ L) in *.
  set (hs := filter _ (rows (holdings (stored st1.1)))) in *.
  set (w2 := (foldl (holding_step target) st1 hs).1) in *.
  set (w3 := mkWork (stored w2) _ _ _) in *.
  assert (Hw3 : deleted_accounts w3 = [source]) by (cbn; now rewrite Hda).
  destruct (commit_tables w3 source Hw3) as [_ Hct].
  pose proof (commit_splits_unhit w3 source) as Hcu.
  cbn [w3 stored deleted_transactions added_splits] in Hct, Hcu.
  pose proof (merge_loop_no_hit (merge_cutoff now months) target false tmap) as Hnohit.
  eexists _, _. split; [reflexivity |]. intros t Htgt.
  apply transactions_of_elem_of in Htgt as [[k Hk] Hacc].
  pose proof (Hkeyed _ _ Hk) as E. subst k.
  destruct (Hnohit (Transaction.id t) L (mkWork db [] [] []) (mkMergeStats 0 0 0 0 false))
    as (Hsplits & Hadded & Hrow).
  { apply Forall_forall. intros y _ (_ & Hfalse & _). discriminate Hfalse. }
  fold st1 in Hsplits, Hadded, Hrow. cbn [stored added_splits] in Hsplits, Hadded, Hrow.
  rewrite filter_nil in Hadded.
  assert (Hnin : Transaction.id t ∉ List.map Transaction.id L).
  { intros Hin. apply list_elem_of_fmap in Hin as (y & Hid & Hy).
    apply transactions_of_elem_of in Hy as [[k' Hk'] Hacc'].
    pose proof (Hkeyed _ _ Hk') as E. rewrite <- E, <- Hid in Hk'. congruence. }
  assert (Hnd : Transaction.id t ∉ deleted_transactions w2).
  { rewrite Hdt. intros Hin. apply Hnin.
    apply list_elem_of_fmap in Hin as (y & -> & Hy).
    apply list_elem_of_filter in Hy as [_ Hy]. apply list_elem_of_fmap. eauto. }
  assert (Hstored : transactions (stored w2) !! Transaction.id t = Some t).
  { rewrite Ht2, Hrow; done. }
  split.
  - rewrite Hct, decide_False, Hstored by done. rewrite decide_False; [done | congruence].
  - apply splits_of_ext. intros ks sp Htid.
    rewrite (Hcu (Transaction.id t) t); try done.
    + rewrite Hs2. now apply Hsplits.
    + apply (merge_before_commit_fresh now db source target false months Hfresh).
    + congruence.
    + now rewrite Had.
Qed.

(** The categorization copy.  When [preserve_categorization] is true and a
    recent source transaction [x] is the only one with its natural key,
    matched by the one target transaction [t] with that key, the merge
    leaves [t] with the payee of [x] (its own when [x] has none) and with
    copies of the split rows of [x] in place of its own. *)
Theorem merge_accounts_copies_categorization
    now db source target months sa ta (x t : Transaction.t) :
  transactions_keyed db → splits_fresh db → source ≠ target →
  accounts db !! source = Some sa → accounts db !! target = Some ta →
  Account.org_id sa = Account.org_id ta → Account.name sa = Account.name ta →
  x ∈ transactions_of db source → merge_cutoff now months <= Transaction.posted x →
  t ∈ transactions_of db target → txn_key t = txn_key x →
  (∀ t', t' ∈ transactions_of db target → txn_key t' = txn_key x → t' = t) →
  (∀ y, y ∈ transactions_of db source → merge_cutoff now months <= Transaction.posted y →
        txn_key y = txn_key x → y = x) →
  ∃ db' stats,
    merge_accounts now db source target true months = Ok db' stats
    ∧ transactions db' !! Transaction.id t
      = Some (if truthy_opt (Transaction.payee_id x)
              then Transaction.set_payee_id (Transaction.payee_id x) t else t)
    ∧ splits_of db' (Transaction.id t)
      ≡ₚ List.map (λ split, TransactionSplit.mk (Transaction.id t)
                              (TransactionSplit.category_id split)
                              (TransactionSplit.amount split))
                  (splits_of db (Transaction.id x)).
Proof.
  intros Hkeyed Hfresh Hdiff Hs Ht Ho Hn Hx Hrecent Htgt Hkey Hone_t Hone_x.
  rewrite (merge_accounts_run now db source target true months sa ta Hs Ht Ho Hn).
  cbn zeta.
  destruct (merge_accounts_before_commit now db source target true months Hkeyed)
    as (Ha & Hp & Hc & Hb & Hq & Hda & Hdt & Ht2 & Hs2 & Had & Hhs & Hh).
  pose proof (merge_before_commit_fresh now db source target true months Hfresh) as Hfresh2.
  cbn zeta in Hfresh2.
  pose proof (transactions_of_NoDup db source Hkeyed) as Hnd.
  set (tmap := build_txn_map (transactions_of db target)) in *.
  set (L := transactions_of db source) in *.
  (* the rows of [x] and [t], and what the lookup holds *)
  assert (Hrow : ∀ a y, y ∈ transactions_of db a →
            transactions db !! Transaction.id y = Some y ∧ Transaction.account_id y = a).
  { intros a y Hy. apply transactions_of_elem_of in Hy as [[k Hk] Hacc].
    now rewrite (Hkeyed _ _ Hk). }
  destruct (Hrow _ _ Hx) as [Hxrow Hxacc]. destruct (Hrow _ _ Htgt) as [Htrow Htacc].
  assert (Hmap : ∀ key tgt, tmap !! key = Some tgt →
            tgt ∈ transactions_of db target ∧ txn_key tgt = key).
  { intros key tgt Hk. split; [now apply build_txn_map_lookup in Hk |].
    now apply build_txn_map_key in Hk. }
  assert (Hmapx : tmap !! txn_key x = Some t).
  { destruct (tmap !! txn_key x) as [tgt |] eqn:E.
    - destruct (Hmap _ _ E) as [Hin Hk]. now rewrite (Hone_t tgt Hin Hk).
    - assert (is_Some (tmap !! txn_key x)) as [? Hc'].
      { apply build_txn_map_is_Some. eauto. }
      congruence. }
  assert (Hoff : ∀ y, y ∈ L →
            ∀ key tgt, tmap !! key = Some tgt → Transaction.id tgt ≠ Transaction.id y).
  { intros y Hy key tgt Hk Heq. destruct (Hmap _ _ Hk) as [Hin _].
    destruct (Hrow _ _ Hin) as [Hr Hacc]. destruct (Hrow _ _ Hy) as [Hr' Hacc'].
    rewrite Heq in Hr. congruence. }
  assert (Hnohit_t : ∀ y, y ∈ L → y ≠ x →
            ¬ (merge_cutoff now months <= Transaction.posted y ∧ true = true
               ∧ ∃ tgt, tmap !! txn_key y = Some tgt
                        ∧ Transaction.id tgt = Transaction.id t)).
  { intros y Hy Hne (Hrec & _ & tgt & Hk & Hid). apply Hne.
    destruct (Hmap _ _ Hk) as [Hin Hk'].
    destruct (Hrow _ _ Hin) as [Hr _]. rewrite Hid, Htrow in Hr.
    injection Hr as <-. apply Hone_x; [done | done | congruence]. }
  (* the list of source transactions around [x] *)
  destruct (list_elem_of_split L x Hx) as (L1 & L2 & HL).
  rewrite HL in Hnd. rewrite fmap_app, fmap_cons in Hnd.
  apply NoDup_app in Hnd as (_ & Hx1 & Hnd2). apply NoDup_cons in Hnd2 as [Hx2 _].
  assert (Hin1 : ∀ y, y ∈ L1 → y ∈ L ∧ y ≠ x).
  { intros y Hy. split; [rewrite HL; apply elem_of_app; now left |].
    intros ->. apply (Hx1 (Transaction.id x)); [apply list_elem_of_fmap; eauto | left]. }
  assert (Hin2 : ∀ y, y ∈ L2 → y ∈ L ∧ y ≠ x).
  { intros y Hy. split; [rewrite HL; apply elem_of_app; right; now right |].
    intros ->. apply Hx2. apply list_elem_of_fmap; eauto. }
  assert (Htid : Transaction.id t ∉ List.map Transaction.id L).
  { intros Hin. apply list_elem_of_fmap in Hin as (y & Hid & Hy).
    exact (Hoff y Hy _ _ Hmapx Hid). }
  assert (Htid1 : Transaction.id t ∉ List.map Transaction.id L1).
  { intros Hin. apply Htid. rewrite HL, fmap_app. apply elem_of_app. now left. }
  assert (Htid2 : Transaction.id t ∉ List.map Transaction.id L2).
  { intros Hin. apply Htid. rewrite HL, fmap_app, fmap_cons. apply elem_of_app.
    right; now right. }
  pose proof (merge_loop_no_hit (merge_cutoff now months) target true tmap) as Hnohit.
  (* the turns before [x] *)
  set (p_a := foldl (merge_step (merge_cutoff now months) target true tmap)
                    (mkWork db [] [] [], mkMergeStats 0 0 0 0 false) L1).
  destruct (Hnohit (Transaction.id x) L1 (mkWork db [] [] []) (mkMergeStats 0 0 0 0 false))
    as (Hxs_a & _ & _).
  { apply Forall_forall. intros y Hy (_ & _ & tgt & Hk & Hid).
    exact (Hoff x Hx _ _ Hk Hid). }
  destruct (Hnohit (Transaction.id t) L1 (mkWork db [] [] []) (mkMergeStats 0 0 0 0 false))
    as (_ & Hadd_a & Hrow_a).
  { apply Forall_forall. intros y Hy. destruct (Hin1 y Hy). now apply Hnohit_t. }
  fold p_a in Hxs_a, Hadd_a, Hrow_a. cbn [stored added_splits] in Hxs_a, Hadd_a, Hrow_a.
  rewrite filter_nil in Hadd_a. specialize (Hrow_a Htid1). rewrite Htrow in Hrow_a.
  (* the turn of [x] *)
  destruct p_a as [w_a st_a] eqn:Ep_a. cbn [fst] in Hxs_a, Hadd_a, Hrow_a.
  destruct (merge_step_hit (merge_cutoff now months) target true tmap w_a st_a x t
              Hrecent eq_refl Hmapx) as (Hts_b & Hadd_b & Hrow_b).
  { intros Heq. exact (Hoff x Hx _ _ Hmapx Heq). }
  rewrite Hadd_a, Hrow_a in *. cbn [app fmap option_fmap option_map] in Hadd_b, Hrow_b.
  rewrite (splits_of_ext db (stored w_a) (Transaction.id x) Hxs_a) in Hadd_b.
  (* the turns after [x] *)
  set (p_b := merge_step (merge_cutoff now months) target true tmap (w_a, st_a) x) in *.
  destruct p_b as [w_b st_b] eqn:Ep_b. cbn [fst] in Hts_b, Hadd_b, Hrow_b.
  destruct (Hnohit (Transaction.id t) L2 w_b st_b) as (Hts_1 & Hadd_1 & Hrow_1).
  { apply Forall_forall. intros y Hy. destruct (Hin2 y Hy). now apply Hnohit_t. }
  specialize (Hrow_1 Htid2).
  assert (Est1 : foldl (merge_step (merge_cutoff now months) target true tmap)
                   (mkWork db [] [] [], mkMergeStats 0 0 0 0 false) L
                 = foldl (merge_step (merge_cutoff now months) target true tmap)
                         (w_b, st_b) L2).
  { rewrite HL, foldl_app. cbn [foldl]. fold p_a. rewrite Ep_a. fold p_b. now rewrite Ep_b. }
  rewrite Est1 in *.
  set (st1 := foldl _ (w_b, st_b) L2) in *.
  set (hs := filter _ (rows (holdings (stored st1.1)))) in *.
  set (w2 := (foldl (holding_step target) st1 hs).1) in *.
  set (w3 := mkWork (stored w2) _ _ _) in *.
  assert (Hw3 : deleted_accounts w3 = [source]) by (cbn; now rewrite Hda).
  destruct (commit_tables w3 source Hw3) as [_ Hct].
  assert (Hnd_t : Transaction.id t ∉ deleted_transactions w2).
  { rewrite Hdt. intros Hin. apply Htid.
    apply list_elem_of_fmap in Hin as (y & -> & Hy).
    apply list_elem_of_filter in Hy as [_ Hy]. apply list_elem_of_fmap. eauto. }
  set (t' := if truthy_opt (Transaction.payee_id x)
             then Transaction.set_payee_id (Transaction.payee_id x) t else t).
  assert (Hstored : transactions (stored w2) !! Transaction.id t = Some t').
  { rewrite Ht2, Hrow_1, Hrow_b. unfold t'. now destruct (truthy_opt _). }
  assert (Hacc' : Transaction.account_id t' ≠ source).
  { unfold t'. destruct (truthy_opt _); cbn; congruence. }
  eexists _, _. split; [reflexivity |]. split.
  - rewrite Hct. cbn [w3 stored deleted_transactions].
    rewrite decide_False, Hstored by done. now rewrite decide_False.
  - rewrite (commit_splits_of w3 source (Transaction.id t) t' Hw3); try done.
    cbn [w3 stored added_splits].
    assert (E : splits_of (stored w2) (Transaction.id t) = []).
    { rewrite <- Hts_b. unfold splits_of. rewrite Hs2.
      fold (splits_of (stored st1.1) (Transaction.id t)).
      now apply splits_of_ext. }
    rewrite E, Had, Hadd_1, Hadd_b. done.
Qed.

(** *** The merge theorems on the example database *)

Lemma transactions_keyed_decide (db : DB) :
  bool_decide (map_Forall (λ k x, Transaction.id x = k) (transactions db)) = true →
  transactions_keyed db.
Proof. intros H k x Hk. apply bool_decide_eq_true_1 in H. exact (H k x Hk). Defined.

Lemma holdings_keyed_decide (db : DB) :
  bool_decide (map_Forall (λ k h, Holding.id h = k) (holdings db)) = true →
  holdings_keyed db.
Proof. intros H k x Hk. apply bool_decide_eq_true_1 in H. exact (H k x Hk). Defined.

Lemma splits_fresh_decide (db : DB) :
  bool_decide (map_Forall (λ k (_ : TransactionSplit.t), k < split_seq db)
                          (transaction_splits db)) = true →
  splits_fresh db.
Proof.
  intros H k [x Hk]. apply bool_decide_eq_true_1 in H. exact (H k x Hk).
Defined.

Lemma db_merge_full_keyed : transactions_keyed ExM.db_merge_full.
Proof. apply transactions_keyed_decide. vm_compute. reflexivity. Defined.

Lemma db_merge_full_holdings_keyed : holdings_keyed ExM.db_merge_full.
Proof. apply holdings_keyed_decide. vm_compute. reflexivity. Defined.

Lemma db_merge_full_fresh : splits_fresh ExM.db_merge_full.
Proof. apply splits_fresh_decide. vm_compute. reflexivity. Defined.

Lemma db_merge_full_source :
  transactions_of ExM.db_merge_full "A"
  = [ Ex.txn "a3" "A" (Ex.cents (-999)) (Ex.days_ago 1) "Coffee" None;
      Ex.txn "a1" "A" (Ex.cents (-1500)) (Ex.days_ago 730) "Gym" None;
      Ex.txn "a2" "A" (Ex.cents (-4200)) (Ex.days_ago 7) "Grocer" None ].
Proof. vm_compute. reflexivity. Qed.

Lemma db_merge_full_target :
  transactions_of ExM.db_merge_full "B"
  = [ Ex.txn "b1" "B" (Ex.cents (-4200)) (Ex.days_ago 7) "Grocer" None ].
Proof. vm_compute. reflexivity. Qed.

(** The counters of the example merge. *)
Lemma merge_accounts_counters_witness :
  ∃ db' stats,
    merge_accounts Ex.now ExM.db_merge_full "A" "B" true 12 = Ok db' stats
    ∧ transactions_reassigned stats = 1
    ∧ transactions_removed stats = 2
    ∧ holdings_reassigned stats = 1.
Proof.
  destruct (merge_accounts_counters Ex.now ExM.db_merge_full "A" "B" true 12
              (Ex.acct "A" "Checking" (Some (Ex.days_ago 800)))
              (Ex.acct "B" "Checking" (Some (Ex.days_ago 3)))
              eq_refl eq_refl eq_refl eq_refl)
    as (db' & stats & Hrun & H1 & H2 & _ & _ & H4 & _).
  exists db', stats. split; [exact Hrun |].
  rewrite H1, H2, H4. vm_compute. repeat split; reflexivity.
Defined.

(** What a merge of two distinct accounts leaves of the transactions: a
    source transaction older than the cutoff is stored under the target
    account, unchanged otherwise; a source transaction at or after the
    cutoff is gone; every transaction of the target is still stored under
    the target; the source account is deleted and the target account is
    kept as it was. *)
Theorem merge_accounts_outcome now db source target preserve months sa ta :
  transactions_keyed db → source ≠ target →
  accounts db !! source = Some sa → accounts db !! target = Some ta →
  Account.org_id sa = Account.org_id ta → Account.name sa = Account.name ta →
  ∃ db' stats,
    merge_accounts now db source target preserve months = Ok db' stats
    ∧ (∀ x, x ∈ transactions_of db source →
            Transaction.posted x < merge_cutoff now months →
            transactions db' !! Transaction.id x
            = Some (Transaction.set_account_id target x))
    ∧ (∀ x, x ∈ transactions_of db source →
            merge_cutoff now months <= Transaction.posted x →
            transactions db' !! Transaction.id x = None)
    ∧ (∀ x, x ∈ transactions_of db target →
            Transaction.account_id <$> transactions db' !! Transaction.id x = Some target)
    ∧ accounts db' !! source = None
    ∧ accounts db' !! target = Some ta.
Proof. apply merge_accounts_conservation. Qed.

Lemma merge_accounts_outcome_witness :
  ∃ db',
    persisted (merge_accounts Ex.now ExM.db_merge_full "A" "B" true 12) = db'
    ∧ Transaction.account_id <$> transactions db' !! "a1" = Some "B"
    ∧ transactions db' !! "a2" = None
    ∧ transactions db' !! "a3" = None
    ∧ accounts db' !! "A" = None.
Proof.
  destruct (merge_accounts_outcome Ex.now ExM.db_merge_full "A" "B" true 12
              (Ex.acct "A" "Checking" (Some (Ex.days_ago 800)))
              (Ex.acct "B" "Checking" (Some (Ex.days_ago 3)))
              db_merge_full_keyed ltac:(discriminate) eq_refl eq_refl eq_refl eq_refl)
    as (db' & stats & Hrun & Hold & Hrecent & _ & Hsrc & _).
  exists db'. rewrite Hrun. split; [reflexivity |].
  assert (Hin : ∀ x, x ∈ transactions_of ExM.db_merge_full "A" ↔
                     x = Ex.txn "a3" "A" (Ex.cents (-999)) (Ex.days_ago 1) "Coffee" None
                     ∨ x = Ex.txn "a1" "A" (Ex.cents (-1500)) (Ex.days_ago 730) "Gym" None
                     ∨ x = Ex.txn "a2" "A" (Ex.cents (-4200)) (Ex.days_ago 7) "Grocer" None).
  { intros x. rewrite db_merge_full_source, !elem_of_cons, elem_of_nil. tauto. }
  split; [| split; [| split]].
  - assert (H : transactions db' !! "a1"
                = Some (Transaction.set_account_id "B"
                          (Ex.txn "a1" "A" (Ex.cents (-1500)) (Ex.days_ago 730) "Gym" None))).
    { apply (Hold (Ex.txn "a1" "A" (Ex.cents (-1500)) (Ex.days_ago 730) "Gym" None)).
      - apply Hin. tauto.
      - vm_compute. reflexivity. }
    rewrite H. reflexivity.
  - apply (Hrecent (Ex.txn "a2" "A" (Ex.cents (-4200)) (Ex.days_ago 7) "Grocer" None)).
    + apply Hin. tauto.
    + vm_compute. discriminate.
  - apply (Hrecent (Ex.txn "a3" "A" (Ex.cents (-999)) (Ex.days_ago 1) "Coffee" None)).
    + apply Hin. tauto.
    + vm_compute. discriminate.
  - exact Hsrc.
Defined.

Lemma merge_accounts_frame_witness :
  ∃ db',
    persisted (merge_accounts Ex.now ExM.db_merge_full "A" "B" true 12) = db'
    ∧ accounts db' !! "C" = accounts ExM.db_merge_full !! "C"
    ∧ holdings db' !! "h2" = holdings ExM.db_merge_full !! "h2"
    ∧ account_balance db' !! 2 = account_balance ExM.db_merge_full !! 2
    ∧ payees db' = payees ExM.db_merge_full.
Proof.
  destruct (merge_accounts_frame Ex.now ExM.db_merge_full "A" "B" true 12
              (Ex.acct "A" "Checking" (Some (Ex.days_ago 800)))
              (Ex.acct "B" "Checking" (Some (Ex.days_ago 3)))
              db_merge_full_keyed db_merge_full_holdings_keyed db_merge_full_fresh
              eq_refl eq_refl eq_refl eq_refl)
    as (db' & stats & Hrun & Hacc & _ & Hhold & Hbal & Hpay & _).
  exists db'. rewrite Hrun. split; [reflexivity |].
  split; [apply Hacc; discriminate |].
  split; [| split; [| exact Hpay]].
  - erewrite Hhold; [reflexivity | reflexivity | cbn; discriminate].
  - erewrite Hbal; [reflexivity | reflexivity | cbn; discriminate].
Defined.

Lemma merge_accounts_holdings_witness :
  ∃ db',
    persisted (merge_accounts Ex.now ExM.db_merge_full "A" "B" true 12) = db'
    ∧ Holding.account_id <$> holdings db' !! "h1" = Some "B"
    ∧ Holding.account_id <$> holdings db' !! "h2" = Some "B"
    ∧ account_balance db' !! 1 = None.
Proof.
  destruct (merge_accounts_holdings Ex.now ExM.db_merge_full "A" "B" true 12
              (Ex.acct "A" "Checking" (Some (Ex.days_ago 800)))
              (Ex.acct "B" "Checking" (Some (Ex.days_ago 3)))
              db_merge_full_keyed db_merge_full_holdings_keyed ltac:(discriminate)
              eq_refl eq_refl eq_refl eq_refl)
    as (db' & stats & Hrun & Hhold & Hbal).
  exists db'. rewrite Hrun. split; [reflexivity |].
  rewrite Hhold, Hbal, !lookup_fmap. vm_compute. repeat split; reflexivity.
Defined.

Lemma merge_accounts_keeps_history_categorization_witness :
  ∃ db',
    persisted (merge_accounts Ex.now ExM.db_merge_full "A" "B" true 12) = db'
    ∧ splits_of db' "a1" = [TransactionSplit.mk "a1" 5 (Ex.cents (-1500))].
Proof.
  destruct (merge_accounts_keeps_history_categorization
              Ex.now ExM.db_merge_full "A" "B" true 12
              (Ex.acct "A" "Checking" (Some (Ex.days_ago 800)))
              (Ex.acct "B" "Checking" (Some (Ex.days_ago 3)))
              db_merge_full_keyed db_merge_full_fresh ltac:(discriminate)
              eq_refl eq_refl eq_refl eq_refl)
    as (db' & stats & Hrun & Hold).
  exists db'. rewrite Hrun. split; [reflexivity |].
  destruct (Hold (Ex.txn "a1" "A" (Ex.cents (-1500)) (Ex.days_ago 730) "Gym" None))
    as (_ & _ & Hsplits).
  - rewrite db_merge_full_source. right; left.
  - vm_compute. reflexivity.
  - cbn [Ex.txn Transaction.id] in Hsplits. rewrite Hsplits. vm_compute. reflexivity.
Defined.

Lemma merge_accounts_without_preserve_witness :
  ∃ db',
    persisted (merge_accounts Ex.now ExM.db_merge_full "A" "B" false 12) = db'
    ∧ transactions db' !! "b1" = transactions ExM.db_merge_full !! "b1"
    ∧ splits_of db' "b1" = [TransactionSplit.mk "b1" 0 (Ex.cents (-4200))].
Proof.
  destruct (merge_accounts_without_preserve Ex.now ExM.db_merge_full "A" "B" 12
              (Ex.acct "A" "Checking" (Some (Ex.days_ago 800)))
              (Ex.acct "B" "Checking" (Some (Ex.days_ago 3)))
              db_merge_full_keyed db_merge_full_fresh ltac:(discriminate)
              eq_refl eq_refl eq_refl eq_refl)
    as (db' & stats & Hrun & Htgt).
  exists db'. rewrite Hrun. split; [reflexivity |].
  destruct (Htgt (Ex.txn "b1" "B" (Ex.cents (-4200)) (Ex.days_ago 7) "Grocer" None))
    as (Hrow & Hsplits).
  - rewrite db_merge_full_target. left.
  - cbn [Ex.txn Transaction.id] in Hrow, Hsplits. rewrite Hrow, Hsplits.
    vm_compute. split; reflexivity.
Defined.

Lemma merge_accounts_copies_categorization_witness :
  ∃ db',
    persisted (merge_accounts Ex.now ExM.db_merge_full "A" "B" true 12) = db'
    ∧ splits_of db' "b1" ≡ₚ [TransactionSplit.mk "b1" 7 (Ex.cents (-4200))].
Proof.
  destruct (merge_accounts_copies_categorization Ex.now ExM.db_merge_full "A" "B" 12
              (Ex.acct "A" "Checking" (Some (Ex.days_ago 800)))
              (Ex.acct "B" "Checking" (Some (Ex.days_ago 3)))
              (Ex.txn "a2" "A" (Ex.cents (-4200)) (Ex.days_ago 7) "Grocer" None)
              (Ex.txn "b1" "B" (Ex.cents (-4200)) (Ex.days_ago 7) "Grocer" None)
              db_merge_full_keyed db_merge_full_fresh ltac:(discriminate)
              eq_refl eq_refl eq_refl eq_refl)
    as (db' & stats & Hrun & _ & Hsplits).
  - rewrite db_merge_full_source. right; right; left.
  - vm_compute. discriminate.
  - rewrite db_merge_full_target. left.
  - vm_compute. reflexivity.
  - intros t'. rewrite db_merge_full_target. intros Ht' _.
    now apply list_elem_of_singleton in Ht'.
  - intros y. rewrite db_merge_full_source, !elem_of_cons, elem_of_nil.
    intros [-> | [-> | [-> | []]]] _ Hkey; [| | reflexivity]; vm_compute in Hkey;
      discriminate Hkey.
  - exists db'. rewrite Hrun. split; [reflexivity |].
    cbn [Ex.txn Transaction.id] in Hsplits. rewrite Hsplits. vm_compute. reflexivity.
Defined.

(** ** Ingestion: what a run creates *)

Section IngestionMore.

Variable normalize_check_payee : string → option string → string.

Let create := create_transaction normalize_check_payee.
Let loop := process_transactions_loop normalize_check_payee.
Let process := process_transactions normalize_check_payee.

(** The row a successful insert stores. *)
Lemma create_transaction_row db data cat db' txn :
  create db data cat = Ok db' txn →
  Transaction.id txn = TransactionData.id data
  ∧ Transaction.account_id txn = TransactionData.account_id data
  ∧ (∃ amount, TransactionData.amount data = Some amount
               ∧ Numeric_12_2 amount = Some (Transaction.amount txn))
  ∧ Some (Transaction.posted txn) = _convert_epoch (TransactionData.posted data)
  ∧ Transaction.is_pending txn = Some (default false (TransactionData.is_pending data))
  ∧ Transaction.description txn = TransactionData.description data
  ∧ Transaction.content_hash txn = TransactionData.content_hash data
  ∧ transactions db !! TransactionData.id data = None
  ∧ transactions db' = <[TransactionData.id data := txn]> (transactions db)
  ∧ accounts db' = accounts db.
Proof.
  intros H. pose proof (create_transaction_Ok normalize_check_payee db data cat db' txn H)
    as (Hfree & Ht & Hacc & Hhash & Ha).
  apply create_transaction_inv in H
    as (db1 & amount & stored & posted & split_rows
        & _ & Hamt & Hnum & Hposted & _ & _ & Htxn & _).
  pose proof (f_equal Transaction.id Htxn) as E1.
  pose proof (f_equal Transaction.amount Htxn) as E2.
  pose proof (f_equal Transaction.posted Htxn) as E3.
  pose proof (f_equal Transaction.is_pending Htxn) as E4.
  pose proof (f_equal Transaction.description Htxn) as E5.
  cbn in E1, E2, E3, E4, E5.
  split; [exact E1 |]. split; [exact Hacc |].
  split; [exists amount; now rewrite E2 |].
  split; [now rewrite E3, Hposted |].
  split; [exact E4 |]. split; [exact E5 |]. done.
Qed.

(** What a run of [process_transactions] that reaches its end has done:
    it only inserts.  Every row stored before is stored unchanged, the
    number it returns is the number of rows it added, and each added row
    is the row of a record of the delivery: under the id of the record,
    for the account of the call, with the amount of the record as the
    column stores it (rounded to two decimal places), its posted time and
    description, and with its content hash. *)
Theorem process_transactions_only_inserts db txns account_id db1 n :
  process db txns account_id = Ok db1 n →
  accounts db1 = accounts db
  ∧ (∀ k x, transactions db !! k = Some x → transactions db1 !! k = Some x)
  ∧ Z.of_nat (size (transactions db1)) = Z.of_nat (size (transactions db)) + n
  ∧ 0 <= n <= Z.of_nat (List.length txns)
  ∧ (∀ k x, transactions db !! k = None → transactions db1 !! k = Some x →
            ∃ r, r ∈ txns ∧ r_id r = k
                 ∧ Transaction.id x = k
                 ∧ Transaction.account_id x = account_id
                 ∧ (∃ amount, r_amount r = Some amount
                              ∧ Numeric_12_2 amount = Some (Transaction.amount x))
                 ∧ Some (Transaction.posted x) = Py.fromtimestamp <$> r_posted r
                 ∧ Transaction.description x = r_description r
                 ∧ Transaction.content_hash x = Some (remote_hash account_id r)).
Proof.
  unfold process, process_transactions.
  generalize (accounts db !! account_id ≫= Account.account_type). intros at_.
  assert (G : ∀ (l : list RemoteTransaction) db cnt db1 n,
             loop at_ account_id l db cnt = Ok db1 n →
             accounts db1 = accounts db
             ∧ (∀ k x, transactions db !! k = Some x → transactions db1 !! k = Some x)
             ∧ Z.of_nat (size (transactions db1)) - n
               = Z.of_nat (size (transactions db)) - cnt
             ∧ cnt <= n <= cnt + Z.of_nat (List.length l)
             ∧ (∀ k x, transactions db !! k = None → transactions db1 !! k = Some x →
                       ∃ r, r ∈ l ∧ r_id r = k
                            ∧ Transaction.id x = k
                            ∧ Transaction.account_id x = account_id
                            ∧ (∃ amount, r_amount r = Some amount
                                         ∧ Numeric_12_2 amount = Some (Transaction.amount x))
                            ∧ Some (Transaction.posted x) = Py.fromtimestamp <$> r_posted r
                            ∧ Transaction.description x = r_description r
                            ∧ Transaction.content_hash x = Some (remote_hash account_id r))).
  { clear db db1 n. induction l as [| r l IH]; intros db cnt db1 n; cbn.
    - intros [= <- <-]. repeat split; try done; try lia. intros k x H1 H2. congruence.
    - match goal with
      | |- _ → ?G => assert (Hskip : loop at_ account_id l db cnt = Ok db1 n → G)
      end.
      { intros H. destruct (IH _ _ _ _ H) as (Ha & Hk & Hsz & Hn & Hnew).
        split; [exact Ha |]. split; [exact Hk |]. split; [exact Hsz |].
        split; [rewrite Nat2Z.inj_succ; lia |].
        intros k x H1 H2. destruct (Hnew k x H1 H2) as (r' & Hr' & Hrest).
        exists r'. split; [now right | exact Hrest]. }
      destruct (transactions db !! r_id r) as [y |] eqn:Hid; [exact Hskip |].
      fold (remote_hash account_id r).
      destruct (existing_by_hash db account_id (remote_hash account_id r));
        [exact Hskip |]. clear Hskip.
      match goal with
      | |- context [create_transaction _ db ?d ?c] =>
          destruct (create_transaction normalize_check_payee db d c)
            as [db' txn | db' e] eqn:Hc;
          [apply create_transaction_row in Hc
             as (Hi & Hacc & Hamt & Hpost & Hpend & Hdesc & Hhash & Hfree & Ht & Ha')
          | discriminate]
      end.
      cbn in Hi, Hacc, Hamt, Hpost, Hpend, Hdesc, Hhash, Hfree, Ht.
      intros H. destruct (IH _ _ _ _ H) as (Ha & Hk & Hsz & Hn & Hnew).
      split; [congruence |]. split; [| split; [| split]].
      + intros k x Hx. apply Hk. rewrite Ht, lookup_insert_ne; [done | congruence].
      + rewrite Hsz, Ht, map_size_insert_None by done. lia.
      + rewrite Nat2Z.inj_succ. lia.
      + intros k x H1 H2. destruct (decide (k = r_id r)) as [-> | Hne].
        * exists r. split; [left |].
          assert (transactions db1 !! r_id r = Some txn) as Hrow.
          { apply Hk. rewrite Ht. apply lookup_insert_eq. }
          assert (x = txn) by congruence. subst x.
          split; [done |]. split; [done |]. split; [done |]. split; [done |].
          split; [| done].
          rewrite Hpost. now destruct (r_posted r).
        * destruct (Hnew k x) as (r' & Hr' & Hrest); [| done |].
          { rewrite Ht. now rewrite lookup_insert_ne. }
          exists r'. split; [now right | exact Hrest]. }
  intros H. destruct (G txns db 0 db1 n H) as (Ha & Hk & Hsz & Hn & Hnew).
  repeat split; try done; lia.
Qed.

End IngestionMore.

(** ** Creation of a transaction: splits and payee *)

Lemma dec_sum_singleton (a : Py.Decimal) : Py.dec_eqb (Py.dec_sum [a]) a = true.
Proof.
  unfold Py.dec_sum, Py.dec_add, Py.dec_eqb, Py.scaled, Py.Decimal_0. cbn.
  set (e := Z.min 0 (Py.d_exp a)).
  replace (Z.min e (Py.d_exp a)) with e by lia.
  rewrite Z.sub_diag, Z.mul_1_r.
  set (s := (if Py.d_neg a then -1 else 1) * (Py.d_coeff a * 10 ^ (Py.d_exp a - e))).
  replace (1 * (0 * 10 ^ (0 - e)) + s) with s by lia.
  apply Z.eqb_eq. destruct (Z.ltb_spec s 0); lia.
Qed.

Lemma foldl_add_split_fmap {A : Type} (f : A → TransactionSplit.t) (l : list A) : ∀ db,
  foldl (λ d x, add_split (f x) d) db l
  = foldl (λ d split, add_split split d) db (List.map f l).
Proof. induction l as [| x l IH]; intros db; cbn; [done | apply IH]. Qed.

Lemma payee_by_name_Some db n i p :
  payee_by_name db n = Some (i, p) → payees db !! i = Some p ∧ Payee.name p = n.
Proof.
  unfold payee_by_name. intros H. apply head_Some_elem_of in H.
  apply list_elem_of_filter in H as [Hn H]. apply elem_of_map_to_list in H. done.
Qed.

Lemma payee_by_name_None db n :
  payee_by_name db n = None ↔ ∀ j q, payees db !! j = Some q → Payee.name q ≠ n.
Proof.
  unfold payee_by_name. split.
  - intros H j q Hj Hn.
    assert (Hin : (j, q) ∈ filter (λ kv : Z * Payee.t, Payee.name kv.2 = n)
                                  (map_to_list (payees db))).
    { apply list_elem_of_filter. split; [done |]. now apply elem_of_map_to_list. }
    destruct (filter _ _); [inversion Hin | discriminate].
  - intros H. destruct (filter _ _) as [| [j q] l] eqn:E; [done |].
    assert (Hin : (j, q) ∈ filter (λ kv : Z * Payee.t, Payee.name kv.2 = n)
                                  (map_to_list (payees db))) by (rewrite E; left).
    apply list_elem_of_filter in Hin as [Hn Hin]. apply elem_of_map_to_list in Hin.
    exfalso. exact (H j q Hin Hn).
Qed.

Section CreateMore.

Variable normalize_check_payee : string → option string → string.

Let create := create_transaction normalize_check_payee.

(** The split rows of a new transaction.  The transaction is stored
    with the amount of the request as the column stores it.  With no
    splits in the request (or an empty list) it gets exactly one split, of
    its whole stored amount, in category 0, and the stored state passes
    [_validate_splits]; with splits in the request it gets a row for each
    of them, in the category asked for, which is a stored category, and
    with the amount asked for as the column stores it.  The splits of
    every other transaction are left alone. *)
Theorem create_transaction_splits db data cat db' txn :
  splits_fresh db → splits_refer db →
  create db data cat = Ok db' txn →
  ∃ amount split_rows,
    TransactionData.amount data = Some amount
    ∧ Numeric_12_2 amount = Some (Transaction.amount txn)
    ∧ splits_of db' (Transaction.id txn) ≡ₚ split_rows
    ∧ Forall2 (λ s sp, TransactionSplit.transaction_id sp = Transaction.id txn
                       ∧ TransactionSplit.category_id sp = SplitIn.category_id s
                       ∧ is_Some (categories db !! SplitIn.category_id s)
                       ∧ Numeric_12_2 (SplitIn.amount s) = Some (TransactionSplit.amount sp))
              (match TransactionData.splits data with
               | Some ((_ :: _) as l) => l
               | _ => [SplitIn.mk 0 amount]
               end) split_rows
    ∧ (match TransactionData.splits data with
       | Some (_ :: _) => True
       | _ =>
           split_rows
           = [TransactionSplit.mk (Transaction.id txn) 0 (Transaction.amount txn)]
           ∧ _validate_splits (Transaction.id txn) (Some (Transaction.amount txn))
                              (splits_of db' (Transaction.id txn)) = None
       end)
    ∧ ∀ tid, tid ≠ Transaction.id txn → splits_of db' tid = splits_of db tid.
Proof.
  intros Hfresh Hrefer H.
  apply create_transaction_inv in H
    as (db1 & amount & stored & posted & split_rows
        & (Ht1 & _ & Hs1 & Hq1 & _) & Hamt & Hnum & _ & Hfree & _ & Htxn & Hrows & Hfk & ->).
  assert (Hid : Transaction.id txn = TransactionData.id data) by now rewrite Htxn.
  assert (Hstored : Transaction.amount txn = stored) by now rewrite Htxn.
  rewrite Hid, Hstored.
  set (tid := TransactionData.id data) in *.
  set (db2 := set_transactions (<[tid := txn]> (transactions db1)) db1).
  assert (Hfresh2 : splits_fresh db2).
  { intros k Hk. cbn in *. rewrite Hs1 in Hk. rewrite Hq1. now apply Hfresh. }
  assert (Hnone : splits_of db2 tid = []).
  { unfold splits_of. cbn. rewrite Hs1.
    assert (E : filter (λ kv : Z * TransactionSplit.t,
                          TransactionSplit.transaction_id kv.2 = tid)
                       (transaction_splits db) = ∅).
    { apply map_empty. intros k. apply map_lookup_filter_None. right.
      intros sp Hsp Htid. cbn in Htid. destruct (Hrefer k sp Hsp) as [y Hy].
      rewrite Htid in Hy. subst tid. congruence. }
    rewrite E. unfold rows. now rewrite map_to_list_empty. }
  pose proof (stored_splits_transaction_id tid _ _ Hrows) as Hall.
  assert (Hperm : splits_of (foldl (λ d split, add_split split d) db2 split_rows) tid
                  ≡ₚ split_rows).
  { rewrite (add_splits_splits_of tid split_rows db2 Hfresh2), Hnone. cbn.
    now rewrite filter_all. }
  assert (Hother : ∀ tid', tid' ≠ tid →
            splits_of (foldl (λ d split, add_split split d) db2 split_rows) tid'
            = splits_of db tid').
  { intros tid' Hne. apply splits_of_ext. intros k sp Htid'. split.
    - intros Hk. apply add_splits_lookup in Hk as [Hk | Hk].
      + cbn in Hk. now rewrite Hs1 in Hk.
      + rewrite Forall_forall in Hall. apply Hall in Hk. congruence.
    - intros Hk.
      destruct (add_splits_other_tables split_rows db2) as (_ & _ & _ & Hold).
      rewrite Hold; [cbn; now rewrite Hs1 |].
      apply Hfresh2. cbn. rewrite Hs1. eauto. }
  exists amount, split_rows.
  split; [exact Hamt |]. split; [exact Hnum |]. split; [exact Hperm |].
  fold (splits_to_store data amount).
  split; [| split; [| exact Hother]].
  - exact (stored_splits_rows_categories db tid _ split_rows Hrows Hfk).
  - assert (Hdefault : splits_to_store data amount = [SplitIn.mk 0 amount] →
              split_rows = [TransactionSplit.mk tid 0 stored]
              ∧ _validate_splits tid (Some stored)
                  (splits_of (foldl (λ d split, add_split split d) db2 split_rows) tid)
                = None).
    { intros E. rewrite E in Hrows. cbn in Hrows. unfold stored_split in Hrows.
      cbn in Hrows. rewrite Hnum in Hrows. cbn in Hrows. injection Hrows as <-.
      split; [reflexivity |].
      apply Permutation_singleton_r in Hperm. rewrite Hperm. unfold _validate_splits.
      cbn [List.map TransactionSplit.amount]. now rewrite dec_sum_singleton. }
    unfold splits_to_store in Hdefault.
    destruct (TransactionData.splits data) as [[| s l] |]; [now apply Hdefault | exact I |
      now apply Hdefault].
Qed.

(** The payee of a new transaction.  A non-empty payee name is normalised
    and looked up by name: the transaction refers to a stored payee of
    that name, the one already stored if there is one (the payee table is
    then unchanged), a new one otherwise, in the suggested category or in
    category 0.  No payee stored before is changed.  Without a payee name
    the payee table is unchanged and the transaction keeps the [payee_id]
    of the request. *)
Theorem create_transaction_payee db data cat db' txn :
  payees_fresh db →
  create db data cat = Ok db' txn →
  (∀ j q, payees db !! j = Some q → payees db' !! j = Some q)
  ∧ (∀ pn, TransactionData.payee data = Some pn → pn ≠ "" →
       let name := normalize_check_payee pn (TransactionData.description data) in
       ∃ i p, Transaction.payee_id txn = Some i
              ∧ payees db' !! i = Some p ∧ Payee.name p = name
              ∧ ((∃ j q, payees db !! j = Some q ∧ Payee.name q = name) →
                 payees db' = payees db)
              ∧ ((∀ j q, payees db !! j = Some q → Payee.name q ≠ name) →
                 payees db !! i = None
                 ∧ payees db' = <[i := Payee.mk name (default 0 cat)]> (payees db)))
  ∧ (TransactionData.payee data = None ∨ TransactionData.payee data = Some "" →
     payees db' = payees db ∧ Transaction.payee_id txn = TransactionData.payee_id data).
Proof.
  intros Hfresh. unfold create, create_transaction.
  match goal with
  | |- match ?x with inl _ => _ | inr _ => _ end = _ → _ =>
      destruct x as [e | [db1 payee_id]] eqn:Hp; [discriminate |]
  end.
  cbn [_validate_splits].
  destruct (TransactionData.amount data) as [amount |]; [| discriminate].
  destruct (insert_transaction _ _ _ _ _ _ _ _ _ _ _) as [e | [db2 row]] eqn:Hins;
    [discriminate |].
  apply insert_transaction_inr in Hins as (stored & posted & _ & _ & _ & _ & _ & -> & ->).
  destruct (insert_splits _ _ _) as [e | db3] eqn:Hsp; [discriminate |].
  apply insert_splits_inr in Hsp as (split_rows & _ & _ & ->).
  intros [= <- <-].
  match goal with
  | |- context [payees (foldl _ ?d split_rows)] =>
      rewrite (proj1 (add_splits_payees split_rows d))
  end.
  cbn [Transaction.payee_id payees set_transactions].
  destruct (TransactionData.payee data) as [pn |] eqn:Hpn.
  - destruct (String.eqb_spec pn "") as [-> | Hne].
    + cbn in Hp. injection Hp as <- <-.
      split; [done |]. split; [| done].
      intros pn' Heq Hne'. injection Heq as <-. now destruct Hne'.
    + unfold Str.truthy in Hp.
      rewrite (proj2 (String.eqb_neq pn "") Hne) in Hp. cbn [negb] in Hp.
      set (name := normalize_check_payee pn (TransactionData.description data)) in *.
      destruct (payee_by_name db name) as [[i p] |] eqn:Hby.
      * injection Hp as <- <-. apply payee_by_name_Some in Hby as [Hi Hn].
        split; [done |]. split; [| intros [H | H]; congruence].
        intros pn' Heq _. injection Heq as <-. exists i, p.
        split; [done |]. split; [done |]. split; [done |]. split; [done |].
        intros Hnone. exfalso. exact (Hnone i p Hi Hn).
      * destruct (bool_decide _); [| discriminate].
        unfold add_payee in Hp. injection Hp as <- <-. cbn [payees].
        assert (Hfree : payees db !! payee_seq db = None).
        { destruct (payees db !! payee_seq db) eqn:E; [| done].
          assert (payee_seq db < payee_seq db) by (apply Hfresh; eauto). lia. }
        split; [| split; [| intros [H | H]; congruence]].
        -- intros j q Hj. rewrite lookup_insert_ne; [done |]. congruence.
        -- intros pn' Heq _. injection Heq as <-. exists (payee_seq db), (Payee.mk name (default 0 cat)).
           rewrite lookup_insert_eq.
           split; [done |]. split; [done |]. split; [done |]. split; [| done].
           intros (j & q & Hj & Hn). exfalso.
           exact (proj1 (payee_by_name_None db name) Hby j q Hj Hn).
  - injection Hp as <- <-. split; [done |]. split; [intros pn Heq; discriminate Heq | done].
Qed.

End CreateMore.

(** ** Updating and deleting a transaction *)

Lemma scaled_dec_add (x y : Py.Decimal) (e : Z) :
  e <= Z.min (Py.d_exp x) (Py.d_exp y) →
  Py.scaled (Py.dec_add x y) e = Py.scaled x e + Py.scaled y e.
Proof.
  intros He. unfold Py.dec_add, Py.scaled. cbn.
  set (e0 := Z.min (Py.d_exp x) (Py.d_exp y)) in *.
  set (sx := if Py.d_neg x then -1 else 1). set (sy := if Py.d_neg y then -1 else 1).
  set (s := sx * (Py.d_coeff x * 10 ^ (Py.d_exp x - e0))
            + sy * (Py.d_coeff y * 10 ^ (Py.d_exp y - e0))).
  assert (E : (if s <? 0 then -1 else 1) * (Z.abs s * 10 ^ (e0 - e)) = s * 10 ^ (e0 - e)).
  { destruct (Z.ltb_spec s 0); [rewrite Z.abs_neq by lia | rewrite Z.abs_eq by lia]; lia. }
  rewrite E. unfold s.
  replace (Py.d_exp x - e) with ((Py.d_exp x - e0) + (e0 - e)) by lia.
  replace (Py.d_exp y - e) with ((Py.d_exp y - e0) + (e0 - e)) by lia.
  rewrite !Z.pow_add_r by lia. lia.
Qed.

Lemma dec_add_right_comm (a x y : Py.Decimal) :
  Py.dec_add (Py.dec_add a x) y = Py.dec_add (Py.dec_add a y) x.
Proof.
  unfold Py.dec_add at 1 3.
  assert (E1 : Py.d_exp (Py.dec_add a x) = Z.min (Py.d_exp a) (Py.d_exp x)) by reflexivity.
  assert (E2 : Py.d_exp (Py.dec_add a y) = Z.min (Py.d_exp a) (Py.d_exp y)) by reflexivity.
  rewrite E1, E2.
  replace (Z.min (Z.min (Py.d_exp a) (Py.d_exp y)) (Py.d_exp x))
    with (Z.min (Z.min (Py.d_exp a) (Py.d_exp x)) (Py.d_exp y)) by lia.
  set (e := Z.min (Z.min (Py.d_exp a) (Py.d_exp x)) (Py.d_exp y)).
  rewrite !scaled_dec_add by lia.
  replace (Py.scaled a e + Py.scaled y e + Py.scaled x e)
    with (Py.scaled a e + Py.scaled x e + Py.scaled y e) by lia.
  reflexivity.
Qed.

(** [sum] over Decimals does not depend on the order of the terms. *)
Lemma dec_sum_perm (l l' : list Py.Decimal) : l ≡ₚ l' → Py.dec_sum l = Py.dec_sum l'.
Proof.
  unfold Py.dec_sum. generalize Py.Decimal_0.
  intros a H. revert a. induction H as [| x l l' _ IH | x y l | l l1 l2 _ IH1 _ IH2];
    intros a; cbn.
  - reflexivity.
  - apply IH.
  - now rewrite dec_add_right_comm.
  - now rewrite IH1.
Qed.

Lemma update_transaction_row_inr db x upd x' :
  update_transaction_row db x upd = inr x' →
  Transaction.id x' = Transaction.id x
  ∧ match TransactionUpdate.amount upd with
    | Some (Some a) => Numeric_12_2 a = Some (Transaction.amount x')
    | Some None => False
    | None => Transaction.amount x' = Transaction.amount x
    end.
Proof.
  unfold update_transaction_row, updated_amount.
  destruct (TransactionUpdate.amount upd) as [[a |] |]; [| discriminate |].
  - destruct (Numeric_12_2 a) as [stored |]; [| discriminate].
    destruct (default _ _); [| discriminate].
    match goal with
    | |- (if ?b then _ else _) = _ → _ => destruct b; [| discriminate]
    end.
    now intros [= <-].
  - destruct (default _ _); [| discriminate].
    match goal with
    | |- (if ?b then _ else _) = _ → _ => destruct b; [| discriminate]
    end.
    now intros [= <-].
Qed.

(** The row is written when its amount fits the column, [posted] is not
    set to null and the payee that is set is stored. *)
Lemma update_transaction_row_storable db x upd :
  match TransactionUpdate.amount upd with
  | Some (Some a) => is_Some (Numeric_12_2 a)
  | Some None => False
  | None => True
  end →
  TransactionUpdate.posted upd ≠ Some None →
  (∀ p, TransactionUpdate.payee_id upd = Some (Some p) → is_Some (payees db !! p)) →
  ∃ x', update_transaction_row db x upd = inr x'.
Proof.
  intros Ha Hp Hpayee. unfold update_transaction_row, updated_amount.
  assert (E : ∃ amount,
            match TransactionUpdate.amount upd with
            | Some (Some amount) =>
                match Numeric_12_2 amount with
                | Some stored => inr stored
                | None => inl DataError
                end
            | Some None => inl IntegrityError
            | None => inr (Transaction.amount x)
            end = inr amount).
  { destruct (TransactionUpdate.amount upd) as [[a |] |]; [| done | eauto].
    destruct Ha as [stored ->]. eauto. }
  destruct E as [amount ->].
  destruct (TransactionUpdate.posted upd) as [[p |] |]; [| done |]; cbn [default from_option id].
  - assert (E : match TransactionUpdate.payee_id upd with
                | Some (Some payee_id) => bool_decide (is_Some (payees db !! payee_id))
                | _ => true
                end = true).
    { destruct (TransactionUpdate.payee_id upd) as [[q |] |]; [| done | done].
      apply bool_decide_eq_true_2. now apply Hpayee. }
    rewrite E. eauto.
  - assert (E : match TransactionUpdate.payee_id upd with
                | Some (Some payee_id) => bool_decide (is_Some (payees db !! payee_id))
                | _ => true
                end = true).
    { destruct (TransactionUpdate.payee_id upd) as [[q |] |]; [| done | done].
      apply bool_decide_eq_true_2. now apply Hpayee. }
    rewrite E. eauto.
Qed.

(** [update_transaction] keeps the split invariant on what is stored.
    For an update of a stored transaction that carries a list of splits:
    a call that returns has stored the transaction with the amount the
    column holds (the amount of the update rounded to two decimal places,
    or the amount it had), its split rows are exactly the rows of the
    list, each with its amount as stored and in a stored category, they
    replace the rows it had, their amounts add up to the stored amount
    unless the list is empty, and the splits of the other transactions are
    untouched.  A call that raises has persisted nothing; and when the
    database accepts what the update writes, the exception is the
    [SplitMismatchError] that carries the stored amount and the sum of
    the stored split amounts, which differ. *)
Theorem update_transaction_splits db tid upd x l :
  splits_fresh db →
  transactions db !! tid = Some x →
  TransactionUpdate.splits upd = Some l →
  match update_transaction db tid upd with
  | Ok db' r =>
      ∃ x' split_rows,
        r = Some x'
        ∧ transactions db' = <[tid := x']> (transactions db)
        ∧ match TransactionUpdate.amount upd with
          | Some (Some a) => Numeric_12_2 a = Some (Transaction.amount x')
          | Some None => False
          | None => Transaction.amount x' = Transaction.amount x
          end
        ∧ splits_of db' tid ≡ₚ split_rows
        ∧ Forall2 (λ s sp, TransactionSplit.transaction_id sp = tid
                           ∧ TransactionSplit.category_id sp = SplitIn.category_id s
                           ∧ is_Some (categories db !! SplitIn.category_id s)
                           ∧ Numeric_12_2 (SplitIn.amount s)
                             = Some (TransactionSplit.amount sp))
                  l split_rows
        ∧ (l ≠ [] →
           Py.dec_eqb (Py.dec_sum (List.map TransactionSplit.amount split_rows))
                      (Transaction.amount x') = true)
        ∧ ∀ tid', tid' ≠ tid → splits_of db' tid' = splits_of db tid'
  | Raise db' e =>
      db' = db
      ∧ (match TransactionUpdate.amount upd with
         | Some (Some a) => is_Some (Numeric_12_2 a)
         | Some None => False
         | None => True
         end →
         TransactionUpdate.posted upd ≠ Some None →
         (∀ p, TransactionUpdate.payee_id upd = Some (Some p) → is_Some (payees db !! p)) →
         Forall (λ s, is_Some (Numeric_12_2 (SplitIn.amount s))
                      ∧ is_Some (categories db !! SplitIn.category_id s)) l →
         ∃ amount' split_rows,
           match TransactionUpdate.amount upd with
           | Some (Some a) => Numeric_12_2 a = Some amount'
           | _ => amount' = Transaction.amount x
           end
           ∧ Forall2 (λ s sp, Numeric_12_2 (SplitIn.amount s)
                              = Some (TransactionSplit.amount sp)) l split_rows
           ∧ l ≠ []
           ∧ Py.dec_eqb (Py.dec_sum (List.map TransactionSplit.amount split_rows)) amount'
             = false
           ∧ e = SplitMismatchError tid (Some amount')
                   (Py.dec_sum (List.map TransactionSplit.amount split_rows)))
  end.
Proof.
  intros Hfresh Hx Hl. unfold update_transaction. rewrite Hx, Hl.
  destruct (update_transaction_row db x upd) as [e | x'] eqn:Hrow.
  { split; [reflexivity |]. intros Ha Hp Hpayee _.
    destruct (update_transaction_row_storable db x upd Ha Hp Hpayee) as [x' Hx'].
    congruence. }
  pose proof (update_transaction_row_inr db x upd x' Hrow) as [Hid Hamount].
  set (db1 := set_transactions (<[tid := x']> (transactions db)) db).
  set (db2 := delete_splits_of tid db1).
  destruct (insert_splits db2 tid l) as [e | db3] eqn:Hins.
  { split; [reflexivity |]. intros _ _ _ Hstorable. exfalso.
    assert (Hsome : is_Some (mapM (stored_split tid) l)).
    { apply mapM_is_Some. eapply Forall_impl; [exact Hstorable |].
      intros s [[a Ha] _]. unfold compose, stored_split. rewrite Ha. cbn. eauto. }
    destruct Hsome as [split_rows Hrows].
    rewrite (insert_splits_stored db2 tid l split_rows Hrows) in Hins; [discriminate |].
    eapply Forall_impl; [exact Hstorable |]. intros s [_ Hc]. exact Hc. }
  apply insert_splits_inr in Hins as (split_rows & Hrows & Hfk & ->).
  set (db3 := foldl (λ d split, add_split split d) db2 split_rows).
  assert (Hfresh2 : splits_fresh db2).
  { intros k [sp Hk]. cbn in Hk. apply map_lookup_filter_Some in Hk as [Hk _].
    cbn. apply Hfresh. eauto. }
  pose proof (stored_splits_transaction_id tid l split_rows Hrows) as Hall.
  assert (Hperm : splits_of db3 tid ≡ₚ split_rows).
  { unfold db3. rewrite (add_splits_splits_of tid split_rows db2 Hfresh2).
    unfold db2. rewrite splits_of_delete_same. cbn. now rewrite filter_all. }
  assert (Hother : ∀ tid', tid' ≠ tid → splits_of db3 tid' = splits_of db tid').
  { intros tid' Hne. apply splits_of_ext. intros k sp Htid'. split.
    - intros Hk. apply add_splits_lookup in Hk as [Hk | Hk].
      + cbn in Hk. now apply map_lookup_filter_Some in Hk as [Hk _].
      + rewrite Forall_forall in Hall. apply Hall in Hk. congruence.
    - intros Hk. destruct (add_splits_other_tables split_rows db2) as (_ & _ & _ & Hold).
      unfold db3. rewrite Hold.
      + cbn. apply map_lookup_filter_Some. split; [done | cbn; congruence].
      + cbn. apply Hfresh. eauto. }
  assert (Hsum : Py.dec_sum (List.map TransactionSplit.amount (splits_of db3 tid))
                 = Py.dec_sum (List.map TransactionSplit.amount split_rows)).
  { apply dec_sum_perm. now apply fmap_Permutation. }
  assert (Hlen : List.length l = List.length split_rows) by now apply length_mapM in Hrows.
  assert (Hrows2 : Forall2 (λ s sp, TransactionSplit.transaction_id sp = tid
                              ∧ TransactionSplit.category_id sp = SplitIn.category_id s
                              ∧ is_Some (categories db !! SplitIn.category_id s)
                              ∧ Numeric_12_2 (SplitIn.amount s)
                                = Some (TransactionSplit.amount sp))
                           l split_rows).
  { exact (stored_splits_rows_categories db tid l split_rows Hrows Hfk). }
  unfold _validate_splits. rewrite Hsum.
  destruct (splits_of db3 tid) as [| sp0 rest] eqn:Esp.
  - (* no split is stored: the list is empty *)
    apply Permutation_nil_l in Hperm. subst split_rows.
    destruct l; [| discriminate Hlen].
    exists x', []. split; [reflexivity |]. split.
    { unfold db3. cbn. reflexivity. }
    split; [exact Hamount |]. split; [now rewrite Esp |]. split; [constructor |].
    split; [done |]. exact Hother.
  - assert (Hne : l ≠ []).
    { intros ->. destruct split_rows; [| discriminate Hlen].
      apply Permutation_nil_r in Hperm. discriminate Hperm. }
    destruct (Py.dec_eqb (Py.dec_sum (List.map TransactionSplit.amount split_rows))
                         (Transaction.amount x')) eqn:Heq; cbn [negb].
    + exists x', split_rows. split; [reflexivity |]. split.
      { unfold db3. destruct (add_splits_tables split_rows db2) as [-> _]. done. }
      split; [exact Hamount |]. split; [now rewrite Esp |]. split; [exact Hrows2 |].
      split; [done |]. exact Hother.
    + split; [reflexivity |]. intros _ _ _ _.
      exists (Transaction.amount x'), split_rows.
      split; [destruct (TransactionUpdate.amount upd) as [[a |] |]; done |].
      split; [| done].
      eapply Forall2_impl; [exact Hrows2 |]. intros s sp (_ & _ & _ & H). exact H.
Qed.

(** Deleting a stored transaction removes its row together with its
    split rows and nothing else: the splits of the other transactions,
    the accounts, payees, holdings and balances are as before, every
    split that is left still belongs to a stored transaction, and a second
    delete of the same id is answered by the 404 exception. *)
Theorem delete_transaction_removes db tid db' :
  splits_refer db →
  delete_transaction db tid = inr db' →
  transactions db' = delete tid (transactions db)
  ∧ splits_of db' tid = []
  ∧ (∀ tid', tid' ≠ tid → splits_of db' tid' = splits_of db tid')
  ∧ splits_refer db'
  ∧ delete_transaction db' tid = inl (mkHTTPException 404 "Transaction not found")
  ∧ accounts db' = accounts db ∧ payees db' = payees db
  ∧ holdings db' = holdings db ∧ account_balance db' = account_balance db.
Proof.
  intros Hrefer. unfold delete_transaction at 1.
  destruct (transactions db !! tid) as [x |] eqn:Hx; [| discriminate].
  intros [= <-].
  split; [done |]. split; [apply (splits_of_delete_same db tid) |].
  split; [intros tid' Hne; apply (splits_of_delete_other db tid' tid Hne) |].
  split; [| split; [| done]].
  - intros k sp Hk. cbn in Hk. apply map_lookup_filter_Some in Hk as [Hk Hne].
    cbn in Hne. cbn. rewrite lookup_delete_ne by done. exact (Hrefer k sp Hk).
  - unfold delete_transaction. cbn. now rewrite lookup_delete_eq.
Qed.

Section CreateDelete.

Variable normalize_check_payee : string → option string → string.

Let create := create_transaction normalize_check_payee.

(** The split table after a successful insert: the rows stored before are
    kept, and every other row belongs to the new transaction. *)
Lemma create_transaction_split_table db data cat db' txn :
  splits_fresh db →
  create db data cat = Ok db' txn →
  (∀ k sp, transaction_splits db !! k = Some sp → transaction_splits db' !! k = Some sp)
  ∧ (∀ k sp, transaction_splits db' !! k = Some sp →
             transaction_splits db !! k = Some sp
             ∨ TransactionSplit.transaction_id sp = TransactionData.id data).
Proof.
  intros Hfresh H.
  apply create_transaction_inv in H
    as (db1 & amount & stored & posted & split_rows
        & (_ & _ & Hs1 & Hq1 & _) & _ & _ & _ & _ & _ & _ & Hrows & _ & ->).
  set (tid := TransactionData.id data) in *.
  set (db2 := set_transactions (<[tid := txn]> (transactions db1)) db1).
  pose proof (stored_splits_transaction_id tid _ _ Hrows) as Hall.
  split.
  - intros k sp Hk. destruct (add_splits_other_tables split_rows db2) as (_ & _ & _ & Hold).
    rewrite Hold; [cbn; now rewrite Hs1 |].
    cbn. rewrite Hq1. apply Hfresh. eauto.
  - intros k sp Hk. apply add_splits_lookup in Hk as [Hk | Hk].
    + left. cbn in Hk. now rewrite Hs1 in Hk.
    + right. rewrite Forall_forall in Hall. now apply Hall.
Qed.

(** Creating a transaction and deleting it again restores the transaction
    and split tables: the new row and the split rows made for it are
    removed, the rows stored before are all there, and the accounts are
    untouched.  A payee that the creation added stays. *)
Theorem create_then_delete_transaction db data cat db1 txn :
  splits_fresh db → splits_refer db →
  create db data cat = Ok db1 txn →
  ∃ db2,
    delete_transaction db1 (Transaction.id txn) = inr db2
    ∧ transactions db2 = transactions db
    ∧ transaction_splits db2 = transaction_splits db
    ∧ accounts db2 = accounts db
    ∧ payees db2 = payees db1.
Proof.
  intros Hfresh Hrefer H.
  pose proof (create_transaction_row normalize_check_payee db data cat db1 txn H)
    as (Hi & _ & _ & _ & _ & _ & _ & Hfree & Ht & Ha).
  pose proof (create_transaction_split_table db data cat db1 txn Hfresh H) as [Hold Hnew].
  rewrite Hi. unfold delete_transaction. rewrite Ht, lookup_insert_eq.
  eexists. split; [reflexivity |]. cbn. rewrite Ht.
  split; [now apply delete_insert_id |]. split; [| done].
  apply map_eq. intros k. apply option_eq. intros sp.
  rewrite map_lookup_filter_Some. cbn. split.
  - intros [Hk Hne]. destruct (Hnew k sp Hk) as [Hk' | Hk']; [done | contradiction].
  - intros Hk. split; [now apply Hold |].
    intros Htid. destruct (Hrefer k sp Hk) as [y Hy]. rewrite Htid in Hy. congruence.
Qed.

End CreateDelete.
(** ** The theorems above on the example data *)

Lemma splits_refer_decide (db : DB) :
  bool_decide (map_Forall (λ (_ : Z) sp,
                 is_Some (transactions db !! TransactionSplit.transaction_id sp))
                 (transaction_splits db)) = true →
  splits_refer db.
Proof. intros H k sp Hk. apply bool_decide_eq_true_1 in H. exact (H k sp Hk). Defined.

Lemma payees_fresh_decide (db : DB) :
  bool_decide (map_Forall (λ k (_ : Payee.t), k < payee_seq db) (payees db)) = true →
  payees_fresh db.
Proof.
  intros H k [x Hk]. apply bool_decide_eq_true_1 in H. exact (H k x Hk).
Defined.

Lemma db_one_account_fresh : splits_fresh Ex.db_one_account.
Proof. apply splits_fresh_decide. vm_compute. reflexivity. Defined.

Lemma db_one_account_refer : splits_refer Ex.db_one_account.
Proof. apply splits_refer_decide. vm_compute. reflexivity. Defined.

Lemma db_one_account_payees_fresh : payees_fresh Ex.db_one_account.
Proof. apply payees_fresh_decide. vm_compute. reflexivity. Defined.

Lemma db_one_transaction_fresh : splits_fresh Ex.db_one_transaction.
Proof. apply splits_fresh_decide. vm_compute. reflexivity. Defined.

Lemma db_one_transaction_refer : splits_refer Ex.db_one_transaction.
Proof. apply splits_refer_decide. vm_compute. reflexivity. Defined.

(** The request [ExM.plain_create] on the database that holds the account
    only. *)
Lemma plain_create_run :
  create_transaction Ex.keep_payee Ex.db_one_account ExM.plain_create None
  = Ok ExM.db_plain_created ExM.plain_row.
Proof. vm_compute. reflexivity. Qed.

Lemma db_escrow_update :
  update_account ExM.db_escrow "M" ExM.to_loan
  = Ok ExM.db_escrow_loan (Some (ExM.mortgage (Some loan))).
Proof. vm_compute. reflexivity. Qed.

Lemma process_transactions_only_inserts_witness :
  process_transactions Ex.keep_payee Ex.db_one_account Ex.delivery "A"
  = Ok Ex.db_after_delivery 2
  ∧ accounts Ex.db_after_delivery = accounts Ex.db_one_account
  ∧ Z.of_nat (size (transactions Ex.db_after_delivery))
    = Z.of_nat (size (transactions Ex.db_one_account)) + 2.
Proof.
  split; [exact delivery_first_run |].
  destruct (process_transactions_only_inserts Ex.keep_payee Ex.db_one_account Ex.delivery "A"
              Ex.db_after_delivery 2 delivery_first_run) as (Ha & _ & Hs & _).
  split; [exact Ha | exact Hs].
Defined.

Lemma create_transaction_splits_witness :
  create_transaction Ex.keep_payee Ex.db_one_account ExM.plain_create None
  = Ok ExM.db_plain_created ExM.plain_row
  ∧ splits_of ExM.db_plain_created "t9" ≡ₚ [TransactionSplit.mk "t9" 0 (Ex.cents 1000)].
Proof.
  split; [exact plain_create_run |].
  destruct (create_transaction_splits Ex.keep_payee Ex.db_one_account ExM.plain_create None
              ExM.db_plain_created ExM.plain_row
              db_one_account_fresh db_one_account_refer plain_create_run)
    as (amount & split_rows & _ & _ & Hperm & _ & Hdefault & _).
  cbn in Hdefault. destruct Hdefault as [-> _]. exact Hperm.
Defined.

Lemma create_transaction_payee_witness :
  create_transaction Ex.keep_payee Ex.db_one_account ExM.plain_create None
  = Ok ExM.db_plain_created ExM.plain_row
  ∧ ∃ i p, Transaction.payee_id ExM.plain_row = Some i
           ∧ payees ExM.db_plain_created !! i = Some p ∧ Payee.name p = "Cafe".
Proof.
  split; [exact plain_create_run |].
  destruct (create_transaction_payee Ex.keep_payee Ex.db_one_account ExM.plain_create None
              ExM.db_plain_created ExM.plain_row
              db_one_account_payees_fresh plain_create_run) as (_ & H & _).
  destruct (H "Cafe" eq_refl ltac:(discriminate)) as (i & p & H1 & H2 & H3 & _).
  exists i, p. split; [exact H1 |]. split; [exact H2 | exact H3].
Defined.

(** Splits of 3.335, 3.335 and 3.33 for a transaction of 10.00 are
    refused: they are stored as 3.34, 3.34 and 3.33. *)
Lemma rounding_update_run :
  update_transaction Ex.db_one_transaction "t1" ExM.rounding_update
  = Raise Ex.db_one_transaction
      (SplitMismatchError "t1" (Some (Ex.cents 1000)) (Ex.cents 1001))
  ∧ Py.dec_eqb (Py.dec_sum [Py.Dec false 3335 (-3); Py.Dec false 3335 (-3);
                            Py.Dec false 333 (-2)]) (Ex.cents 1000) = true.
Proof. vm_compute. split; reflexivity. Qed.

Lemma matching_update_run :
  ∃ db', update_transaction Ex.db_one_transaction "t1" ExM.matching_update
         = Ok db' (Some (Ex.txn "t1" "A" (Ex.cents 900) 1700000000000000 "Groceries" None)).
Proof. eexists. vm_compute. reflexivity. Qed.

Lemma update_transaction_splits_witness :
  (∃ db' x',
     update_transaction Ex.db_one_transaction "t1" ExM.matching_update = Ok db' (Some x')
     ∧ splits_of db' "t1"
       ≡ₚ [TransactionSplit.mk "t1" 1 (Ex.cents 600); TransactionSplit.mk "t1" 2 (Ex.cents 300)])
  ∧ persisted (update_transaction Ex.db_one_transaction "t1" ExM.rounding_update)
    = Ex.db_one_transaction.
Proof.
  split.
  - pose proof (update_transaction_splits Ex.db_one_transaction "t1" ExM.matching_update
                  (Ex.txn "t1" "A" (Ex.cents 1000) 1700000000000000 "Groceries" None)
                  [SplitIn.mk 1 (Ex.cents 600); SplitIn.mk 2 (Ex.cents 300)]
                  db_one_transaction_fresh eq_refl eq_refl) as H.
    destruct matching_update_run as [db' Hrun]. rewrite Hrun in H.
    destruct H as (x' & split_rows & Hx' & _ & _ & Hperm & Hrows & _).
    exists db', x'. rewrite Hrun, Hx'. split; [reflexivity |].
    rewrite Hperm. clear Hperm.
    apply Forall2_cons_inv_l in Hrows as (sp1 & rest & (H1 & H2 & _ & H3) & Hrows & ->).
    apply Forall2_cons_inv_l in Hrows as (sp2 & rest' & (H4 & H5 & _ & H6) & Hrows & ->).
    apply Forall2_nil_inv_l in Hrows as ->.
    destruct sp1, sp2. cbn in *. vm_compute in H3, H6.
    injection H3 as <-. injection H6 as <-. subst. reflexivity.
  - pose proof (update_transaction_splits Ex.db_one_transaction "t1" ExM.rounding_update
                  (Ex.txn "t1" "A" (Ex.cents 1000) 1700000000000000 "Groceries" None)
                  [SplitIn.mk 1 (Py.Dec false 3335 (-3)); SplitIn.mk 2 (Py.Dec false 3335 (-3));
                   SplitIn.mk 1 (Py.Dec false 333 (-2))]
                  db_one_transaction_fresh eq_refl eq_refl) as H.
    rewrite (proj1 rounding_update_run) in H |- *. exact (proj1 H).
Defined.

Lemma delete_transaction_removes_witness :
  ∃ db', delete_transaction Ex.db_one_transaction "t1" = inr db'
         ∧ transactions db' = ∅
         ∧ splits_of db' "t1" = []
         ∧ delete_transaction db' "t1" = inl (mkHTTPException 404 "Transaction not found").
Proof.
  exists (delete_transaction_row "t1" Ex.db_one_transaction).
  split; [reflexivity |].
  destruct (delete_transaction_removes Ex.db_one_transaction "t1"
              (delete_transaction_row "t1" Ex.db_one_transaction)
              db_one_transaction_refer eq_refl) as (H0 & H1 & _ & _ & H2 & _).
  split; [rewrite H0; vm_compute; reflexivity |]. split; [exact H1 | exact H2].
Defined.

Lemma create_then_delete_transaction_witness :
  create_transaction Ex.keep_payee Ex.db_one_account ExM.plain_create None
  = Ok ExM.db_plain_created ExM.plain_row
  ∧ ∃ db2, delete_transaction ExM.db_plain_created "t9" = inr db2
           ∧ transactions db2 = transactions Ex.db_one_account
           ∧ transaction_splits db2 = transaction_splits Ex.db_one_account.
Proof.
  split; [exact plain_create_run |].
  destruct (create_then_delete_transaction Ex.keep_payee Ex.db_one_account ExM.plain_create
              None ExM.db_plain_created ExM.plain_row
              db_one_account_fresh db_one_account_refer plain_create_run)
    as (db2 & H1 & H2 & H3 & _).
  exists db2. split; [exact H1 |]. split; [exact H2 | exact H3].
Defined.

(** ** Category suggestions for loan accounts *)

Lemma _find_category_by_name_Some db names c :
  _find_category_by_name db names = Some c →
  ∃ cat, categories db !! c = Some cat ∧ Category.name cat ∈ names.
Proof.
  induction names as [| n rest IH]; cbn; [discriminate |].
  destruct (head _) as [[i cat] |] eqn:E.
  - intros [= <-]. apply head_Some_elem_of in E.
    apply list_elem_of_filter in E as [Hn E]. apply elem_of_map_to_list in E.
    exists cat. split; [done |]. cbn in Hn. rewrite Hn. left.
  - intros H. destruct (IH H) as (cat & Hc & Hin). exists cat. split; [done | now right].
Qed.

Lemma truthy_id_Some i c : truthy_id i = Some c → i = Some c ∧ c ≠ 0.
Proof.
  destruct i as [j |]; cbn; [| discriminate].
  destruct (Z.eqb_spec j 0); [discriminate |]. now intros [= <-].
Qed.

(** What a suggestion made from one of the two call sites is. *)
Lemma suggest_category_Some db description (t : option AccountType) c :
  _suggest_category_for_loan_transaction db description (from_option str_AccountType "" t)
  = Some c →
  c ≠ 0
  ∧ (∃ cat, categories db !! c = Some cat
            ∧ Category.name cat ∈ ["Property Tax"; "Taxes"; "Home Insurance"; "Insurance"])
  ∧ ∃ d, description = Some d
         ∧ Str.contains_any
             ["property tax"; "tax disbursement"; "county tax"; "real estate tax";
              "insurance"; "homeowner"; "hazard"; "home insurance";
              "pmi"; "mortgage insurance"] (Str.lower d) = true.
Proof.
  unfold _suggest_category_for_loan_transaction.
  destruct description as [d |]; [| discriminate].
  destruct (Str.truthy d); cbn [negb]; [| discriminate].
  assert (Hrule : ∀ kws names c',
             (if Str.contains_any kws (Str.lower d)
              then truthy_id (_find_category_by_name db names) else None) = Some c' →
             Str.contains_any kws (Str.lower d) = true
             ∧ c' ≠ 0
             ∧ ∃ cat, categories db !! c' = Some cat ∧ Category.name cat ∈ names).
  { intros kws names c' H. destruct (Str.contains_any kws _); [| discriminate].
    apply truthy_id_Some in H as [H Hne].
    apply _find_category_by_name_Some in H. done. }
  assert (Hnot : bool_decide (from_option str_AccountType "" t ∈ ["loan"; "mortgage"]) = false).
  { apply bool_decide_eq_false_2. rewrite !elem_of_cons, elem_of_nil.
    destruct t as [[] |]; cbn; intros [H | [H | []]]; discriminate H. }
  rewrite Hnot.
  match goal with
  | |- match ?r1 with Some _ => _ | None => match ?r2 with Some _ => _ | None =>
         match ?r3 with Some _ => _ | None => None end end end = _ → _ =>
      destruct r1 as [c1 |] eqn:E1;
      [| destruct r2 as [c2 |] eqn:E2; [| destruct r3 as [c3 |] eqn:E3; [| discriminate]]]
  end; intros [= ->].
  all: match goal with
       | H : (if _ then _ else _) = Some _ |- _ =>
           apply Hrule in H as (Hk & Hne & cat & Hc & Hin)
       end;
    (split; [done |]; split;
     [ exists cat; split; [done |]; revert Hin; rewrite !elem_of_cons, !elem_of_nil; tauto
     | exists d; split; [done |]; unfold Str.contains_any in *;
       apply existsb_exists in Hk as (kw & Hkw & Hc'); apply existsb_exists;
       exists kw; split; [cbn in *; tauto | done] ]).
Qed.

(** The account type reaches [_suggest_category_for_loan_transaction] as
    [str(account_type)], which reads ["AccountType.loan"] for a loan
    account and is never one of ["loan"], ["mortgage"]: from the two
    call sites the default rule does not apply.  A suggestion is therefore
    always the id of a stored category named Property Tax, Taxes, Home
    Insurance or Insurance, it is never 0, and it is only made for a
    description that holds one of the escrow keywords. *)
Theorem suggest_category_only_on_keywords db description (t : option AccountType) c :
  _suggest_category_for_loan_transaction db description (from_option str_AccountType "" t)
  = Some c →
  c ≠ 0
  ∧ (∃ cat, categories db !! c = Some cat
            ∧ Category.name cat ∈ ["Property Tax"; "Taxes"; "Home Insurance"; "Insurance"])
  ∧ ∃ d, description = Some d
         ∧ Str.contains_any
             ["property tax"; "tax disbursement"; "county tax"; "real estate tax";
              "insurance"; "homeowner"; "hazard"; "home insurance";
              "pmi"; "mortgage insurance"] (Str.lower d) = true.
Proof. apply suggest_category_Some. Qed.

(** ** Accounts: update and upsert *)

(** What the loop of [_recategorize_payees_for_loan_account] can do to
    the payee table. *)
Lemma recategorize_loop_payees db0 account (l : list Transaction.t) :
  ∀ processed count ps,
  let r := foldl (recategorize_step db0 account) (processed, count, ps) l in
  ∀ pid,
    r.2 !! pid = ps !! pid
    ∨ ∃ p c, ps !! pid = Some p ∧ Payee.category_id p = 0 ∧ c ≠ 0
             ∧ r.2 !! pid = Some (Payee.mk (Payee.name p) c)
             ∧ (∃ cat, categories db0 !! c = Some cat
                       ∧ Category.name cat
                         ∈ ["Property Tax"; "Taxes"; "Home Insurance"; "Insurance"])
             ∧ ∃ x, x ∈ l ∧ Transaction.payee_id x = Some pid.
Proof.
  induction l as [| x l IH]; intros processed count ps; cbn [foldl]; [now left |].
  intros pid.
  assert (Hkeep : ∀ processed' count',
    let r := foldl (recategorize_step db0 account) (processed', count', ps) l in
    r.2 !! pid = ps !! pid
    ∨ ∃ p c, ps !! pid = Some p ∧ Payee.category_id p = 0 ∧ c ≠ 0
             ∧ r.2 !! pid = Some (Payee.mk (Payee.name p) c)
             ∧ (∃ cat, categories db0 !! c = Some cat
                       ∧ Category.name cat
                         ∈ ["Property Tax"; "Taxes"; "Home Insurance"; "Insurance"])
             ∧ ∃ y, y ∈ x :: l ∧ Transaction.payee_id y = Some pid).
  { intros processed' count'. destruct (IH processed' count' ps pid) as [H | H]; [now left |].
    right. destruct H as (p & c & H1 & H2 & H3 & H4 & H5 & y & Hy & Hp).
    exists p, c. repeat split; try done. exists y. split; [now right | done]. }
  destruct (Transaction.payee_id x) as [pid' |] eqn:Hpid'.
  2: { assert (E : recategorize_step db0 account (processed, count, ps) x
                   = (processed, count, ps))
         by (unfold recategorize_step; now rewrite Hpid').
       rewrite E. apply Hkeep. }
  assert (Hstep :
    (∃ processed' count',
        recategorize_step db0 account (processed, count, ps) x = (processed', count', ps))
    ∨ ∃ payee c,
        Some pid' = Some pid' ∧ ps !! pid' = Some payee
        ∧ Payee.category_id payee = 0 ∧ c ≠ 0
        ∧ (∃ cat, categories db0 !! c = Some cat
                  ∧ Category.name cat
                    ∈ ["Property Tax"; "Taxes"; "Home Insurance"; "Insurance"])
        ∧ recategorize_step db0 account (processed, count, ps) x
          = (pid' :: processed, count + 1, <[pid' := Payee.mk (Payee.name payee) c]> ps)).
  { unfold recategorize_step.
    rewrite Hpid'.
    destruct ((pid' =? 0) || bool_decide (pid' ∈ processed)); [left; eauto |].
    destruct (ps !! pid') as [payee |] eqn:Hpayee; [| left; eauto].
    destruct (Z.eqb_spec (Payee.category_id payee) 0) as [Hzero | Hnz]; cbn [negb];
      [| left; eauto].
    destruct (_suggest_category_for_loan_transaction _ _ _) as [c |] eqn:Hsug;
      [| left; eauto].
    apply suggest_category_Some in Hsug as (Hc & Hcat & _).
    right. exists payee, c. done. }
  destruct Hstep as [(processed' & count' & ->) | (payee & c & Hpx & Hpayee & Hzero & Hc & Hcat & ->)];
    [apply Hkeep |].
  destruct (IH (pid' :: processed) (count + 1) (<[pid' := Payee.mk (Payee.name payee) c]> ps) pid)
    as [H | H].
  - destruct (decide (pid = pid')) as [-> | Hne].
    + right. exists payee, c. rewrite lookup_insert_eq in H.
      repeat split; try done. exists x. split; [left | done].
    + left. now rewrite lookup_insert_ne in H.
  - destruct H as (p & c' & H1 & H2 & H3 & H4 & H5 & y & Hy & Hp).
    destruct (decide (pid = pid')) as [-> | Hne].
    + rewrite lookup_insert_eq in H1. injection H1 as <-. cbn in H2. done.
    + rewrite lookup_insert_ne in H1 by done. right. exists p, c'.
      repeat split; try done. exists y. split; [now right | done].
Qed.

Lemma update_account_finish db id (a a' : Account.t) (to_loan : bool) :
  Account.id a' = Account.id a →
  let db1 := set_accounts (<[id := a']> (accounts db)) db in
  let d := if to_loan then _recategorize_payees_for_loan_account db1 a' else db1 in
  accounts d = <[id := a']> (accounts db)
  ∧ transactions d = transactions db
  ∧ transaction_splits d = transaction_splits db
  ∧ holdings d = holdings db
  ∧ (to_loan = false → payees d = payees db)
  ∧ ∀ pid,
      payees d !! pid = payees db !! pid
      ∨ ∃ p c, payees db !! pid = Some p ∧ Payee.category_id p = 0 ∧ c ≠ 0
               ∧ payees d !! pid = Some (Payee.mk (Payee.name p) c)
               ∧ (∃ cat, categories db !! c = Some cat
                         ∧ Category.name cat
                           ∈ ["Property Tax"; "Taxes"; "Home Insurance"; "Insurance"])
               ∧ ∃ x, x ∈ transactions_of db (Account.id a)
                      ∧ Transaction.payee_id x = Some pid.
Proof.
  intros Hid db1 d.
  assert (Htables : accounts d = <[id := a']> (accounts db)
                    ∧ transactions d = transactions db
                    ∧ transaction_splits d = transaction_splits db
                    ∧ holdings d = holdings db).
  { unfold d. destruct to_loan; [| done].
    unfold _recategorize_payees_for_loan_account.
    now destruct (foldl _ _ _) as [[? ?] ?]. }
  destruct Htables as (H1 & H2 & H3 & H4).
  split; [exact H1 |]. split; [exact H2 |]. split; [exact H3 |]. split; [exact H4 |].
  split; [intros ->; done |].
  intros pid. unfold d. destruct to_loan; [| now left].
  unfold _recategorize_payees_for_loan_account.
  pose proof (recategorize_loop_payees db1 a' (transactions_of db1 (Account.id a'))
                [] 0 (payees db1) pid) as Hloop.
  cbn zeta in Hloop.
  destruct (foldl _ _ _) as [[processed count] ps]. cbn [snd] in Hloop. cbn [payees set_payees].
  destruct Hloop as [H | (p & c & Hp & Hz & Hc & Hps & Hcat & x & Hx & Hpx)]; [now left |].
  right. exists p, c. repeat split; try done. exists x. split; [| exact Hpx].
  now rewrite <- Hid.
Qed.

(** [update_account] writes the fields that are set and keeps the others;
    the id and [created_at] never change, and no table but [accounts] and
    [payees] is touched.  The payee table changes only when the type is set
    to loan on an account that was not a loan account, and then only in
    this way: a payee in category 0 that a transaction of the account
    refers to may move to a stored category named Property Tax, Taxes, Home
    Insurance or Insurance.  No payee is added or removed, no name changes,
    and a payee with a category keeps it. *)
Theorem update_account_effects db id data db' r a :
  accounts db !! id = Some a →
  update_account db id data = Ok db' r →
  ∃ a',
    r = Some a'
    ∧ accounts db' = <[id := a']> (accounts db)
    ∧ Account.id a' = Account.id a
    ∧ Account.created_at a' = Account.created_at a
    ∧ Account.alt_name a' = default (Account.alt_name a) (AccountUpdate.alt_name data)
    ∧ Account.is_hidden a' = default (Account.is_hidden a) (AccountUpdate.is_hidden data)
    ∧ Account.account_type a'
      = default (Account.account_type a) (AccountUpdate.account_type data)
    ∧ transactions db' = transactions db
    ∧ transaction_splits db' = transaction_splits db
    ∧ holdings db' = holdings db
    ∧ (AccountUpdate.account_type data ≠ Some (Some loan)
       ∨ Account.account_type a = Some loan → payees db' = payees db)
    ∧ ∀ pid,
        payees db' !! pid = payees db !! pid
        ∨ ∃ p c, payees db !! pid = Some p ∧ Payee.category_id p = 0 ∧ c ≠ 0
                 ∧ payees db' !! pid = Some (Payee.mk (Payee.name p) c)
                 ∧ (∃ cat, categories db !! c = Some cat
                           ∧ Category.name cat
                             ∈ ["Property Tax"; "Taxes"; "Home Insurance"; "Insurance"])
                 ∧ ∃ x, x ∈ transactions_of db (Account.id a)
                        ∧ Transaction.payee_id x = Some pid.
Proof.
  intros Ha. unfold update_account. rewrite Ha.
  assert (Hloan : AccountUpdate.account_type data ≠ Some (Some loan)
                  ∨ Account.account_type a = Some loan →
                  match AccountUpdate.account_type data with
                  | Some (Some loan) => negb (bool_decide (Account.account_type a = Some loan))
                  | _ => false
                  end = false).
  { intros Hno. destruct (AccountUpdate.account_type data) as [[[] |] |]; try done.
    destruct Hno as [Hno | Hno]; [done |]. now rewrite bool_decide_eq_true_2. }
  destruct (AccountUpdate.name data) as [[n |] |],
    (AccountUpdate.currency data) as [[c |] |]; try discriminate;
    intros [= <- <-];
    (eexists; split; [reflexivity |];
     match goal with
     | |- accounts (if ?b then _recategorize_payees_for_loan_account _ ?a1 else _) = _ ∧ _ =>
         destruct (update_account_finish db id a a1 b eq_refl)
           as (H1 & H2 & H3 & H4 & H5 & H6)
     end;
     split; [exact H1 |];
     split; [reflexivity |]; split; [reflexivity |]; split; [reflexivity |];
     split; [reflexivity |]; split; [reflexivity |];
     split; [exact H2 |]; split; [exact H3 |]; split; [exact H4 |];
     split; [intros Hno; apply H5, Hloan, Hno | exact H6]).
Qed.
(** ** The account theorems on the example data *)

Lemma suggest_category_only_on_keywords_witness :
  _suggest_category_for_loan_transaction ExM.db_escrow (Some "HAZARD INSURANCE PREMIUM")
    "AccountType.loan" = Some 7
  ∧ ∃ cat, categories ExM.db_escrow !! 7 = Some cat
           ∧ Category.name cat ∈ ["Property Tax"; "Taxes"; "Home Insurance"; "Insurance"].
Proof.
  assert (H : _suggest_category_for_loan_transaction ExM.db_escrow
                (Some "HAZARD INSURANCE PREMIUM")
                (from_option str_AccountType "" (Some loan)) = Some 7)
    by (vm_compute; reflexivity).
  split; [exact H |].
  destruct (suggest_category_only_on_keywords ExM.db_escrow (Some "HAZARD INSURANCE PREMIUM")
              (Some loan) 7 H) as (_ & Hc & _).
  exact Hc.
Defined.

Lemma update_account_effects_witness :
  update_account ExM.db_escrow "M" ExM.to_loan
  = Ok ExM.db_escrow_loan (Some (ExM.mortgage (Some loan)))
  ∧ transactions ExM.db_escrow_loan = transactions ExM.db_escrow
  ∧ transaction_splits ExM.db_escrow_loan = transaction_splits ExM.db_escrow
  ∧ payees ExM.db_escrow_loan !! 1 = Some (Payee.mk "Escrow" 7).
Proof.
  split; [exact db_escrow_update |].
  destruct (update_account_effects ExM.db_escrow "M" ExM.to_loan ExM.db_escrow_loan
              (Some (ExM.mortgage (Some loan))) (ExM.mortgage None) eq_refl db_escrow_update)
    as (a' & _ & _ & _ & _ & _ & _ & _ & Ht & Hs & _).
  split; [exact Ht |]. split; [exact Hs | reflexivity].
Defined.
(** ** The cache of raw responses *)

Lemma foldl_delete_lookup {V : Type} (l : list Z) : ∀ (c : gmap Z V) k,
  foldl (λ c run_id, delete run_id c) c l !! k
  = if decide (k ∈ l) then None else c !! k.
Proof.
  induction l as [| i l IH]; intros c k; cbn [foldl].
  - now rewrite decide_False by apply not_elem_of_nil.
  - rewrite IH. destruct (decide (k ∈ l)) as [Hin | Hnin].
    + rewrite decide_True by now right. done.
    + destruct (decide (k = i)) as [-> | Hne].
      * rewrite decide_True by left. apply lookup_delete_eq.
      * rewrite decide_False by (rewrite elem_of_cons; tauto).
        now apply lookup_delete_ne.
Qed.

(** The cleanup removes exactly the entries older than the expiry time. *)
Lemma _cleanup_expired_cache_lookup now (cache : gmap Z CacheEntry.t) k :
  _cleanup_expired_cache now cache !! k
  = match cache !! k with
    | Some e =>
        if decide (CacheEntry.timestamp e < now - timedelta_minutes _cache_expiry_minutes)
        then None else Some e
    | None => None
    end.
Proof.
  unfold _cleanup_expired_cache. cbn zeta.
  set (cutoff := now - timedelta_minutes _cache_expiry_minutes).
  rewrite foldl_delete_lookup.
  destruct (decide (k ∈ _)) as [Hin | Hnin].
  - apply list_elem_of_fmap in Hin as ([k' e] & -> & Hin).
    apply list_elem_of_filter in Hin as [Hlt Hin]. apply elem_of_map_to_list in Hin.
    cbn [fst snd] in *. rewrite Hin. now rewrite decide_True.
  - destruct (cache !! k) as [e |] eqn:Hk; [| done].
    destruct (decide (CacheEntry.timestamp e < cutoff)) as [Hlt | Hge]; [| done].
    exfalso. apply Hnin. apply list_elem_of_fmap. exists (k, e). split; [done |].
    apply list_elem_of_filter. split; [done |]. now apply elem_of_map_to_list.
Qed.

(** What [store_raw_response] leaves in the cache: no entry older than the
    expiry time of five minutes; every entry of another run that is not
    older, unchanged; and no entry it was not given or did not hold
    before.  The entry of the run itself is the new one (the one stored
    before under that id is replaced). *)
Theorem store_raw_response_expiry now now_cleanup (cache : gmap Z CacheEntry.t) id raw :
  let cache' := store_raw_response now now_cleanup cache id raw in
  let cutoff := now_cleanup - timedelta_minutes 5 in
  (∀ k e, cache' !! k = Some e → cutoff <= CacheEntry.timestamp e)
  ∧ (∀ k e, k ≠ id → cache !! k = Some e → cutoff <= CacheEntry.timestamp e →
            cache' !! k = Some e)
  ∧ (∀ k e, k ≠ id → cache' !! k = Some e → cache !! k = Some e)
  ∧ (∀ e, cache' !! id = Some e → e = CacheEntry.mk raw now).
Proof.
  intros cache' cutoff.
  assert (H : ∀ k, cache' !! k
              = match (<[id := CacheEntry.mk raw now]> cache) !! k with
                | Some e => if decide (CacheEntry.timestamp e < cutoff) then None else Some e
                | None => None
                end).
  { intros k. apply _cleanup_expired_cache_lookup. }
  split; [| split; [| split]].
  - intros k e Hk. rewrite H in Hk. destruct (_ !! k) as [e' |]; [| discriminate].
    destruct (decide _) as [Hlt | Hge]; [discriminate |]. injection Hk as <-. lia.
  - intros k e Hne Hk Hfresh. rewrite H, lookup_insert_ne, Hk by done.
    rewrite decide_False by lia. done.
  - intros k e Hne Hk. rewrite H, lookup_insert_ne in Hk by done.
    destruct (cache !! k) as [e' |]; [| discriminate].
    destruct (decide _); [discriminate | done].
  - intros e Hk. rewrite H, lookup_insert_eq in Hk.
    destruct (decide _); [discriminate |]. now injection Hk as <-.
Qed.

(** A stored response is handed out once.  When the two clock readings of
    [store_raw_response] are no more than five minutes apart,
    [get_raw_response] for the same run returns the stored text and
    removes the entry, so that a second call returns [None]; the entries
    of other runs are not touched by the retrieval. *)
Theorem store_then_get_raw_response now now_cleanup (cache : gmap Z CacheEntry.t) id raw :
  now_cleanup - timedelta_minutes 5 <= now →
  let stored := store_raw_response now now_cleanup cache id raw in
  ∃ cache',
    get_raw_response stored id = (cache', Some raw)
    ∧ get_raw_response cache' id = (cache', None)
    ∧ ∀ k, k ≠ id → cache' !! k = stored !! k.
Proof.
  intros Hclock stored.
  assert (Hid : stored !! id = Some (CacheEntry.mk raw now)).
  { unfold stored, store_raw_response. rewrite _cleanup_expired_cache_lookup, lookup_insert_eq.
    cbn [CacheEntry.timestamp]. rewrite decide_False; [done |].
    unfold _cache_expiry_minutes. lia. }
  exists (delete id stored). unfold get_raw_response. rewrite Hid, lookup_delete_eq.
  split; [done |]. split; [done |]. intros k Hne. now apply lookup_delete_ne.
Qed.

Lemma store_then_get_raw_response_witness :
  ∃ cache',
    get_raw_response
      (store_raw_response (Py.fromtimestamp 1700000000) (Py.fromtimestamp 1700000001)
         (<[7 := CacheEntry.mk "old" (Py.fromtimestamp 1699990000)]> ∅) 8 "{}") 8
    = (cache', Some "{}")
    ∧ get_raw_response cache' 8 = (cache', None).
Proof.
  destruct (store_then_get_raw_response (Py.fromtimestamp 1700000000)
              (Py.fromtimestamp 1700000001)
              (<[7 := CacheEntry.mk "old" (Py.fromtimestamp 1699990000)]> ∅) 8 "{}")
    as (cache' & H1 & H2 & _); [vm_compute; discriminate |].
  exists cache'. split; [exact H1 | exact H2].
Defined.
(** ** Accounts: lookup, deletion, latest balance *)

Lemma sort_by_short {A : Type} (le : A → A → bool) (l : list A) :
  (List.length l ≤ 1)%nat → sort_by le l = l.
Proof. destruct l as [| x [| y l]]; cbn; [done | done | lia]. Qed.

(** The rows of a table whose rows are stored under their id carry
    pairwise distinct ids. *)
Lemma rows_NoDup_id {V : Type} (f : V → string) (m : gmap string V) :
  (∀ k v, m !! k = Some v → f v = k) → NoDup (f <$> rows m).
Proof.
  intros Hkeyed. unfold rows.
  assert (E : f <$> (map_to_list m).*2 = (map_to_list m).*1).
  { rewrite <- list_fmap_compose. apply list_fmap_ext. intros i [k v] Hin.
    apply list_elem_of_lookup_2, elem_of_map_to_list in Hin. cbn. now apply Hkeyed. }
  rewrite E. apply NoDup_fst_map_to_list.
Qed.

Lemma filter_key_unique {V : Type} (f : V → string) (l : list V) (i : string) :
  NoDup (f <$> l) →
  filter (λ v, f v = i) l = match list_find (λ v, f v = i) l with
                             | Some (_, v) => [v]
                             | None => []
                             end.
Proof.
  induction l as [| x l IH]; intros Hnd; [done |].
  cbn [fmap list_fmap] in Hnd. apply NoDup_cons in Hnd as [Hnin Hnd].
  rewrite filter_cons. cbn [list_find]. destruct (decide (f x = i)) as [Hx | Hx].
  - cbn. f_equal. apply filter_none, Forall_forall. intros y Hy Hfy. apply Hnin.
    rewrite Hx, <- Hfy. now apply list_elem_of_fmap_2.
  - rewrite IH by done. now destruct (list_find _ l) as [[? ?] |].
Qed.

Section GetAccountsProperties.

Variable name_le : string → string → bool.
Hypothesis name_le_total : ∀ a b, name_le a b = false → name_le b a = true.

(** [get_accounts] returns exactly the stored accounts that pass its
    filters, each once, in the order of their names.  Without
    [is_hidden=True] only the accounts whose [is_hidden] is false pass
    (an account whose [is_hidden] is NULL does not); an [org_id] or
    [account_id] that is [None] or the empty string does not filter. *)
Theorem get_accounts_filters (db : DB) (is_hidden : option bool)
    (org_id account_id : option string) :
  get_accounts name_le db is_hidden org_id account_id
  ≡ₚ filter (λ a, (is_hidden = Some true ∨ Account.is_hidden a = Some false)
                  ∧ (org_id = None ∨ org_id = Some "" ∨ org_id = Some (Account.org_id a))
                  ∧ (account_id = None ∨ account_id = Some ""
                     ∨ account_id = Some (Account.id a)))
            (rows (accounts db))
  ∧ Sorted (λ a b, name_le (Account.name a) (Account.name b) = true)
           (get_accounts name_le db is_hidden org_id account_id).
Proof.
  split.
  2: { unfold get_accounts. apply (sort_by_Sorted (by_name name_le)).
       intros a b. apply name_le_total. }
  unfold get_accounts. rewrite sort_by_perm.
  assert (Hh : (if negb (default false is_hidden)
                then filter (λ a, Account.is_hidden a = Some false) (rows (accounts db))
                else rows (accounts db))
               = filter (λ a, is_hidden = Some true ∨ Account.is_hidden a = Some false)
                        (rows (accounts db))).
  { destruct is_hidden as [[] |]; cbn [default negb].
    - symmetry. apply filter_all, Forall_forall. intros a _. now left.
    - apply list_filter_iff. intros a. split; [tauto | intros [H | H]; [discriminate | done]].
    - apply list_filter_iff. intros a. split; [tauto | intros [H | H]; [discriminate | done]]. }
  rewrite Hh. clear Hh.
  set (l1 := filter _ (rows (accounts db))).
  assert (Ho : match org_id with
               | Some o => if Str.truthy o then filter (λ a, Account.org_id a = o) l1 else l1
               | None => l1
               end
               = filter (λ a, org_id = None ∨ org_id = Some ""
                              ∨ org_id = Some (Account.org_id a)) l1).
  { destruct org_id as [o |].
    - unfold Str.truthy. destruct (String.eqb_spec o "") as [-> | Hne]; cbn [negb].
      + symmetry. apply filter_all, Forall_forall. intros a _. tauto.
      + apply list_filter_iff. intros a. split.
        * intros <-. tauto.
        * intros [H | [H | H]]; [discriminate | congruence | congruence].
    - symmetry. apply filter_all, Forall_forall. intros a _. tauto. }
  rewrite Ho. clear Ho.
  set (l2 := filter _ l1).
  assert (Hi : match account_id with
               | Some i => if Str.truthy i then filter (λ a, Account.id a = i) l2 else l2
               | None => l2
               end
               = filter (λ a, account_id = None ∨ account_id = Some ""
                              ∨ account_id = Some (Account.id a)) l2).
  { destruct account_id as [i |].
    - unfold Str.truthy. destruct (String.eqb_spec i "") as [-> | Hne]; cbn [negb].
      + symmetry. apply filter_all, Forall_forall. intros a _. tauto.
      + apply list_filter_iff. intros a. split.
        * intros <-. tauto.
        * intros [H | [H | H]]; [discriminate | congruence | congruence].
    - symmetry. apply filter_all, Forall_forall. intros a _. tauto. }
  rewrite Hi. clear Hi. unfold l2, l1.
  rewrite !list_filter_filter. apply reflexive_eq, list_filter_iff. intros a. tauto.
Qed.

(** The lookup that [process_accounts] makes,
    [get_accounts(db=db, account_id=i, is_hidden=True)]: for a non-empty
    id it returns the account stored under the id, and nothing when there
    is none; for the empty id it is not a lookup, it returns every
    account. *)
Theorem get_accounts_lookup_by_id (db : DB) :
  accounts_keyed db →
  (∀ i, i ≠ "" →
        get_accounts name_le db (Some true) None (Some i)
        = match accounts db !! i with Some a => [a] | None => [] end
        ∧ get_accounts name_le db (Some true) None (Some i) = get_accounts_by_id db i)
  ∧ get_accounts name_le db (Some true) None (Some "") ≡ₚ rows (accounts db).
Proof.
  intros Hkeyed. split.
  - intros i Hne. unfold get_accounts, get_accounts_by_id.
    change (negb (default false (Some true))) with false. cbn iota.
    unfold Str.truthy. rewrite (proj2 (String.eqb_neq i "") Hne). cbn [negb].
    pose proof (rows_NoDup_id Account.id (accounts db) Hkeyed) as Hnd.
    pose proof (filter_key_unique Account.id (rows (accounts db)) i Hnd) as Hf.
    pose proof (get_accounts_by_id_lookup db i Hkeyed) as Hget.
    unfold get_accounts_by_id in Hget. rewrite Hf in Hget.
    destruct (list_find _ _) as [[n a] |].
    + rewrite Hf, Hget. split; reflexivity.
    + rewrite Hf, Hget. split; reflexivity.
  - unfold get_accounts. cbn. apply sort_by_perm.
Qed.

End GetAccountsProperties.

Lemma get_accounts_filters_witness :
  get_accounts String.leb Ex.db_merge None (Some "org-1") None
  ≡ₚ rows (accounts Ex.db_merge).
Proof.
  destruct (get_accounts_filters String.leb
              ltac:(intros a b H; destruct (String.leb_total a b); congruence)
              Ex.db_merge None (Some "org-1") None) as [H _].
  rewrite H. apply reflexive_eq. vm_compute. reflexivity.
Defined.

Lemma db_merge_accounts_keyed : accounts_keyed Ex.db_merge.
Proof.
  intros k a. unfold Ex.db_merge. cbn [accounts add_split set_transactions set_accounts].
  unfold Ex.merge_accounts_table. intros H.
  repeat (apply lookup_insert_Some in H as [[<- <-] | [_ H]]; [reflexivity |]).
  rewrite lookup_empty in H. discriminate H.
Defined.

Lemma get_accounts_lookup_by_id_witness :
  get_accounts String.leb Ex.db_merge (Some true) None (Some "B")
  = [Ex.acct "B" "Checking" (Some (Ex.days_ago 3))].
Proof.
  destruct (get_accounts_lookup_by_id String.leb Ex.db_merge db_merge_accounts_keyed)
    as [H _].
  destruct (H "B" ltac:(discriminate)) as [H1 _]. rewrite H1. reflexivity.
Defined.
(** [delete_account] deletes the account with everything that belongs to
    it and nothing else.  For a stored id it returns the account row; the
    transactions, holdings and balances left are exactly those of the
    other accounts, the splits left are exactly those of the transactions
    left, payees and categories are untouched.  When every row belonged to
    a stored account and every split to a stored transaction before, the
    same holds afterwards: the deletion leaves no orphan.  A second delete
    of the id returns [None] and changes nothing, as does the delete of an
    id that is not stored. *)
Theorem delete_account_cascades db id db' r :
  accounts_referred db → splits_refer db →
  delete_account db id = Ok db' r →
  r = accounts db !! id
  ∧ (accounts db !! id = None → db' = db)
  ∧ (is_Some (accounts db !! id) →
     accounts db' = delete id (accounts db)
     ∧ (∀ k x, transactions db' !! k = Some x
               ↔ transactions db !! k = Some x ∧ Transaction.account_id x ≠ id)
     ∧ (∀ k h, holdings db' !! k = Some h
               ↔ holdings db !! k = Some h ∧ Holding.account_id h ≠ id)
     ∧ (∀ k b, account_balance db' !! k = Some b
               ↔ account_balance db !! k = Some b ∧ AccountBalance.account_id b ≠ id)
     ∧ (∀ k sp, transaction_splits db' !! k = Some sp
                ↔ transaction_splits db !! k = Some sp
                  ∧ is_Some (transactions db' !! TransactionSplit.transaction_id sp))
     ∧ payees db' = payees db ∧ categories db' = categories db)
  ∧ accounts_referred db' ∧ splits_refer db'
  ∧ delete_account db' id = Ok db' None.
Proof.
  intros (Ht & Hh & Hb) Hs. unfold delete_account at 1.
  destruct (accounts db !! id) as [a |] eqn:Ha.
  2: { intros [= <- <-]. split; [done |]. split; [done |].
       split; [intros [? ?]; discriminate |].
       split; [done |]. split; [done |]. unfold delete_account. now rewrite Ha. }
  intros [= <- <-]. split; [done |]. split; [discriminate |].
  assert (Htx : ∀ k x, transactions (delete_account_row id db) !! k = Some x
                       ↔ transactions db !! k = Some x ∧ Transaction.account_id x ≠ id).
  { intros k x. cbn. now rewrite map_lookup_filter_Some. }
  assert (Hho : ∀ k h, holdings (delete_account_row id db) !! k = Some h
                       ↔ holdings db !! k = Some h ∧ Holding.account_id h ≠ id).
  { intros k h. cbn. now rewrite map_lookup_filter_Some. }
  assert (Hba : ∀ k b, account_balance (delete_account_row id db) !! k = Some b
                       ↔ account_balance db !! k = Some b
                         ∧ AccountBalance.account_id b ≠ id).
  { intros k b. cbn. now rewrite map_lookup_filter_Some. }
  assert (Hsp : ∀ k sp, transaction_splits (delete_account_row id db) !! k = Some sp
                        ↔ transaction_splits db !! k = Some sp
                          ∧ is_Some (transactions (delete_account_row id db)
                                       !! TransactionSplit.transaction_id sp)).
  { intros k sp. cbn [transaction_splits delete_account_row].
    rewrite map_lookup_filter_Some. cbn [snd].
    split; intros [Hk Hkeep]; (split; [exact Hk |]).
    - destruct (Hs k sp Hk) as [x Hx]. exists x. apply Htx. split; [done |].
      intros Hid. apply Hkeep. now rewrite Hx, <- Hid.
    - destruct Hkeep as [x Hx]. apply Htx in Hx as [Hx Hne].
      rewrite Hx. cbn. congruence. }
  split.
  { intros _. split; [done |]. split; [exact Htx |]. split; [exact Hho |].
    split; [exact Hba |]. split; [exact Hsp |]. done. }
  assert (Hacc : ∀ i, i ≠ id → is_Some (accounts db !! i) →
                      is_Some (accounts (delete_account_row id db) !! i)).
  { intros i Hne Hi. cbn. now rewrite lookup_delete_ne. }
  split; [| split].
  - split; [| split].
    + intros k x Hk. apply Htx in Hk as [Hk Hne]. apply Hacc; [done |]. exact (Ht k x Hk).
    + intros k h Hk. apply Hho in Hk as [Hk Hne]. apply Hacc; [done |]. exact (Hh k h Hk).
    + intros k b Hk. apply Hba in Hk as [Hk Hne]. apply Hacc; [done |]. exact (Hb k b Hk).
  - intros k sp Hk. now apply Hsp in Hk as [_ Hk].
  - unfold delete_account. cbn. now rewrite lookup_delete_eq.
Qed.

Lemma accounts_referred_decide (db : DB) :
  bool_decide (map_Forall (λ (_ : string) x,
                 is_Some (accounts db !! Transaction.account_id x)) (transactions db)) = true →
  bool_decide (map_Forall (λ (_ : string) h,
                 is_Some (accounts db !! Holding.account_id h)) (holdings db)) = true →
  bool_decide (map_Forall (λ (_ : Z) b,
                 is_Some (accounts db !! AccountBalance.account_id b))
                 (account_balance db)) = true →
  accounts_referred db.
Proof.
  intros H1 H2 H3.
  apply bool_decide_eq_true_1 in H1. apply bool_decide_eq_true_1 in H2.
  apply bool_decide_eq_true_1 in H3.
  split; [exact H1 |]. split; [exact H2 | exact H3].
Defined.

Lemma db_merge_full_referred : accounts_referred ExM.db_merge_full.
Proof. apply accounts_referred_decide; vm_compute; reflexivity. Defined.

Lemma db_merge_full_refer : splits_refer ExM.db_merge_full.
Proof. apply splits_refer_decide. vm_compute. reflexivity. Defined.

Lemma delete_account_cascades_witness :
  ∃ db', delete_account ExM.db_merge_full "A"
         = Ok db' (Some (Ex.acct "A" "Checking" (Some (Ex.days_ago 800))))
         ∧ accounts_referred db' ∧ splits_refer db'
         ∧ delete_account db' "A" = Ok db' None.
Proof.
  exists (delete_account_row "A" ExM.db_merge_full). split; [reflexivity |].
  destruct (delete_account_cascades ExM.db_merge_full "A"
              (delete_account_row "A" ExM.db_merge_full)
              (Some (Ex.acct "A" "Checking" (Some (Ex.days_ago 800))))
              db_merge_full_referred db_merge_full_refer eq_refl)
    as (_ & _ & _ & H1 & H2 & H3).
  split; [exact H1 |]. split; [exact H2 | exact H3].
Defined.

(** ** The latest balance of an account *)

Lemma balance_date_desc_total (a b : AccountBalance.t) :
  balance_date_desc a b = false → balance_date_desc b a = true.
Proof. unfold balance_date_desc. rewrite Z.leb_gt, Z.leb_le. lia. Qed.

Lemma Sorted_head_first {A : Type} (R : A → A → Prop) (x : A) (l : list A) :
  Transitive R → Sorted R (x :: l) → ∀ y, y ∈ l → R x y.
Proof.
  intros HR Hs y Hy. apply Sorted_StronglySorted in Hs; [| exact HR].
  apply StronglySorted_inv in Hs as [_ Hall]. rewrite Forall_forall in Hall.
  now apply Hall.
Qed.

(** [_get_latest_balance] returns the balance of the latest balance row of
    the account: a row of that account whose date no other row of the
    account exceeds.  It returns the pair of [None]s exactly when the
    account has no balance row. *)
Theorem _get_latest_balance_is_latest (db : DB) (account_id : string) :
  match _get_latest_balance db account_id with
  | (Some balance, Some balance_date) =>
      (∃ k b, account_balance db !! k = Some b
              ∧ AccountBalance.account_id b = account_id
              ∧ AccountBalance.balance b = balance
              ∧ AccountBalance.balance_date b = balance_date)
      ∧ ∀ k b, account_balance db !! k = Some b →
               AccountBalance.account_id b = account_id →
               AccountBalance.balance_date b <= balance_date
  | (None, None) =>
      ∀ k b, account_balance db !! k = Some b → AccountBalance.account_id b ≠ account_id
  | _ => False
  end.
Proof.
  unfold _get_latest_balance.
  set (l := filter _ (rows (account_balance db))).
  pose proof (sort_by_perm balance_date_desc l) as Hperm.
  pose proof (sort_by_Sorted balance_date_desc balance_date_desc_total l) as Hsorted.
  assert (Hl : ∀ b, b ∈ l ↔ (∃ k, account_balance db !! k = Some b)
                              ∧ AccountBalance.account_id b = account_id).
  { intros b. unfold l. rewrite list_elem_of_filter, rows_elem_of. tauto. }
  destruct (sort_by balance_date_desc l) as [| latest rest] eqn:E; cbn [head].
  - apply Permutation_nil_l in Hperm. intros k b Hk Ha.
    assert (Hin : b ∈ l) by (apply Hl; eauto). rewrite <- Hperm in Hin. inversion Hin.
  - assert (Hin : latest ∈ l) by (rewrite <- Hperm; left).
    apply Hl in Hin as [[k Hk] Ha]. split; [exists k, latest; done |].
    intros k' b Hk' Hb.
    assert (Hb' : b ∈ latest :: rest) by (rewrite Hperm; apply Hl; eauto).
    apply elem_of_cons in Hb' as [-> | Hb']; [lia |].
    assert (HR : Transitive (λ a b : AccountBalance.t, balance_date_desc a b = true)).
    { intros x y z. unfold balance_date_desc. rewrite !Z.leb_le. lia. }
    pose proof (Sorted_head_first _ latest rest HR Hsorted b Hb') as Hle.
    unfold balance_date_desc in Hle. now apply Z.leb_le in Hle.
Qed.
(** ** Ingestion of accounts *)

Lemma try_float_inl (v : json) (e : error) :
  try_float v = inl e →
  e = OverflowError ∧ ∃ n, v = JInt n ∧ 2 ^ 1024 - 2 ^ 970 <= Z.abs n.
Proof.
  unfold try_float. destruct v; try discriminate.
  destruct (Z.leb_spec float_int_limit (Z.abs n)) as [Hle |]; [| discriminate].
  intros [= <-]. split; [reflexivity |]. exists n. split; [reflexivity | exact Hle].
Qed.

(** What the balance heuristics of the classifier can do. *)
Lemma classify_by_balance (acct : gmap string json) :
  match
    match from_option try_float (inr None) (acct !! "balance") with
    | inl e => inl e
    | inr balance =>
        match from_option try_float (inr None) (acct !! "available_balance") with
        | inl e => inl e
        | inr avail =>
            if match balance, avail with
               | Some b, None => Py.float_leb b Py.float_0
               | _, _ => false
               end
            then inr (Some "credit_card")
            else if match balance with
                    | Some b =>
                        Py.float_leb Py.float_0 b
                        && match avail with
                           | None => true
                           | Some a => Py.float_leb Py.float_0 a
                           end
                    | None => false
                    end
                 then inr (Some "bank")
                 else inr None
        end
    end
  with
  | inr (Some s) => s ∈ ["credit_card"; "bank"]
  | inr None => True
  | inl e =>
      e = OverflowError
      ∧ ∃ key n, (key = "balance" ∨ key = "available_balance")
                 ∧ acct !! key = Some (JInt n) ∧ 2 ^ 1024 - 2 ^ 970 <= Z.abs n
  end.
Proof.
  destruct (acct !! "balance") as [b |] eqn:Hb; cbn [from_option].
  - destruct (try_float b) as [e | balance] eqn:Eb.
    { apply try_float_inl in Eb as (-> & n & -> & Hn).
      split; [reflexivity |]. exists "balance", n. auto. }
    destruct (acct !! "available_balance") as [a |] eqn:Ha; cbn [from_option].
    + destruct (try_float a) as [e | avail] eqn:Ea.
      { apply try_float_inl in Ea as (-> & n & -> & Hn).
        split; [reflexivity |]. exists "available_balance", n. auto. }
      repeat match goal with
             | |- context [if ?c then _ else _] => destruct c
             end; try exact I; rewrite !elem_of_cons; tauto.
    + repeat match goal with
             | |- context [if ?c then _ else _] => destruct c
             end; try exact I; rewrite !elem_of_cons; tauto.
  - destruct (acct !! "available_balance") as [a |] eqn:Ha; cbn [from_option].
    + destruct (try_float a) as [e | avail] eqn:Ea; [| exact I].
      apply try_float_inl in Ea as (-> & n & -> & Hn).
      split; [reflexivity |]. exists "available_balance", n. auto.
    + exact I.
Qed.

(** The results and the exceptions of the classifier. *)
Lemma classify_account_cases (acct : gmap string json) :
  match classify_account acct with
  | inr (Some s) =>
      s ∈ ["investment"; "credit_card"; "bank"]
      ∧ ∃ t, AccountType_of_string s = Some t ∧ t ≠ loan
  | inr None => True
  | inl e =>
      nonempty_collection (acct !! "holdings") = false
      ∧ ((e = AttributeError ∧ ∃ v, acct !! "name" = Some v ∧ ∀ s, v ≠ JStr s)
         ∨ (e = OverflowError
            ∧ ∃ key n, (key = "balance" ∨ key = "available_balance")
                       ∧ acct !! key = Some (JInt n) ∧ 2 ^ 1024 - 2 ^ 970 <= Z.abs n))
  end.
Proof.
  assert (Hval : ∀ s, s ∈ ["investment"; "credit_card"; "bank"] →
                      s ∈ ["investment"; "credit_card"; "bank"]
                      ∧ ∃ t, AccountType_of_string s = Some t ∧ t ≠ loan).
  { intros s Hs. split; [exact Hs |].
    rewrite !elem_of_cons, elem_of_nil in Hs. destruct Hs as [-> | [-> | [-> | []]]];
      eexists; (split; [reflexivity | discriminate]). }
  assert (Hname : ∀ raw_name,
            match
              (if Str.contains_any investment_keywords (Str.lower raw_name)
               then inr (Some "investment")
               else if Str.contains_any credit_keywords (Str.lower raw_name)
               then inr (Some "credit_card")
               else if Str.contains_any bank_keywords (Str.lower raw_name)
               then inr (Some "bank")
               else
                 match from_option try_float (inr None) (acct !! "balance") with
                 | inl e => inl e
                 | inr balance =>
                     match from_option try_float (inr None) (acct !! "available_balance") with
                     | inl e => inl e
                     | inr avail =>
                         if match balance, avail with
                            | Some b, None => Py.float_leb b Py.float_0
                            | _, _ => false
                            end
                         then inr (Some "credit_card")
                         else if match balance with
                                 | Some b =>
                                     Py.float_leb Py.float_0 b
                                     && match avail with
                                        | None => true
                                        | Some a => Py.float_leb Py.float_0 a
                                        end
                                 | None => false
                                 end
                              then inr (Some "bank")
                              else inr None
                     end
                 end : error + option string)
            with
            | inr (Some s) =>
                s ∈ ["investment"; "credit_card"; "bank"]
                ∧ ∃ t, AccountType_of_string s = Some t ∧ t ≠ loan
            | inr None => True
            | inl e =>
                e = OverflowError
                ∧ ∃ key n, (key = "balance" ∨ key = "available_balance")
                           ∧ acct !! key = Some (JInt n) ∧ 2 ^ 1024 - 2 ^ 970 <= Z.abs n
            end).
  { intros raw_name.
    destruct (Str.contains_any investment_keywords _);
      [apply Hval; rewrite !elem_of_cons; tauto |].
    destruct (Str.contains_any credit_keywords _);
      [apply Hval; rewrite !elem_of_cons; tauto |].
    destruct (Str.contains_any bank_keywords _);
      [apply Hval; rewrite !elem_of_cons; tauto |].
    pose proof (classify_by_balance acct) as Hb.
    match goal with
    | H : match ?x with inl _ => _ | inr _ => _ end |- match ?y with inl _ => _ | inr _ => _ end =>
        change y with x; destruct x as [e | [s |]]
    end; [exact Hb | | exact I].
    apply Hval. rewrite !elem_of_cons, elem_of_nil in Hb.
    destruct Hb as [-> | [-> | []]]; rewrite !elem_of_cons; tauto. }
  unfold classify_account.
  destruct (nonempty_collection (acct !! "holdings")) eqn:Hh.
  { apply Hval; rewrite !elem_of_cons; tauto. }
  destruct (acct !! "name") as [v |] eqn:Hn; cbn [default from_option id].
  2: { specialize (Hname "").
       match goal with
       | H : match ?x with inl _ => _ | inr _ => _ end |- match ?y with inl _ => _ | inr _ => _ end =>
           change y with x; destruct x as [e | [s |]]
       end; [| exact Hname | exact I].
       split; [reflexivity |]. right. exact Hname. }
  destruct v as [| b | n | x | raw_name | items | fields];
    try (split; [reflexivity |]; left; split; [reflexivity |]; eexists; split; [reflexivity |];
         intros s; discriminate).
  specialize (Hname raw_name).
  match goal with
  | H : match ?x with inl _ => _ | inr _ => _ end |- match ?y with inl _ => _ | inr _ => _ end =>
      change y with x; destruct x as [e | [s |]]
  end; [| exact Hname | exact I].
  split; [reflexivity |]. right. exact Hname.
Qed.

(** On a record whose name is a string the classifier can only fail with
    the [OverflowError] of a balance. *)
Lemma classify_account_str_name (acct : gmap string json) (n : string) :
  acct !! "name" = Some (JStr n) →
  match classify_account acct with
  | inl e => e = OverflowError
  | inr _ => True
  end.
Proof.
  intros Hn. pose proof (classify_account_cases acct) as H.
  destruct (classify_account acct) as [e | r]; [| exact I].
  destruct H as [_ [(_ & v & Hv & Hns) | (-> & _)]]; [| reflexivity].
  rewrite Hn in Hv. injection Hv as <-. now destruct (Hns n).
Qed.

(** [classify_account] returns ["investment"], ["credit_card"], ["bank"] or
    [None] and nothing else: each string is the value of a member of
    [AccountType], so that [AccountType(acct_type_str)] in
    [process_accounts] cannot raise, and it is never the loan type.  It
    can raise two exceptions, both only when the record has no holdings:
    the [AttributeError] of [.lower()] on a ["name"] that is present and
    not a string, and the [OverflowError] of [float] on a ["balance"] or
    an ["available_balance"] that is an integer of [2^1024 - 2^970] or more
    in absolute value. *)
Theorem classify_account_results (acct : gmap string json) :
  match classify_account acct with
  | inr (Some s) =>
      s ∈ ["investment"; "credit_card"; "bank"]
      ∧ ∃ t, AccountType_of_string s = Some t ∧ t ≠ loan
  | inr None => True
  | inl e =>
      nonempty_collection (acct !! "holdings") = false
      ∧ ((e = AttributeError ∧ ∃ v, acct !! "name" = Some v ∧ ∀ s, v ≠ JStr s)
         ∨ (e = OverflowError
            ∧ ∃ key n, (key = "balance" ∨ key = "available_balance")
                       ∧ acct !! key = Some (JInt n) ∧ 2 ^ 1024 - 2 ^ 970 <= Z.abs n))
  end.
Proof. exact (classify_account_cases acct). Qed.

Lemma recategorize_tables db account :
  let d := _recategorize_payees_for_loan_account db account in
  accounts d = accounts db ∧ transactions d = transactions db
  ∧ transaction_splits d = transaction_splits db ∧ holdings d = holdings db
  ∧ account_balance d = account_balance db ∧ categories d = categories db.
Proof.
  unfold _recategorize_payees_for_loan_account.
  now destruct (foldl _ _ _) as [[? ?] ?].
Qed.

(** What [update_account] can do when the name and the currency it is
    given are not null. *)
Lemma update_account_Ok db i (a : Account.t) (upd : AccountUpdate.t) :
  accounts db !! i = Some a →
  AccountUpdate.name upd ≠ Some None → AccountUpdate.currency upd ≠ Some None →
  ∃ db' row,
    update_account db i upd = Ok db' (Some row)
    ∧ Account.id row = Account.id a
    ∧ accounts db' = <[i := row]> (accounts db)
    ∧ transactions db' = transactions db
    ∧ transaction_splits db' = transaction_splits db
    ∧ holdings db' = holdings db
    ∧ account_balance db' = account_balance db
    ∧ categories db' = categories db.
Proof.
  intros Ha Hn Hc. unfold update_account. rewrite Ha.
  destruct (AccountUpdate.name upd) as [[n |] |], (AccountUpdate.currency upd) as [[c |] |];
    try done;
    (eexists _, _; split; [reflexivity |]; split; [reflexivity |];
     match goal with
     | |- accounts (if ?b then _recategorize_payees_for_loan_account ?d ?a1 else _) = _ ∧ _ =>
         destruct b;
         [ destruct (recategorize_tables d a1) as (-> & -> & -> & -> & -> & ->) | ]
     end; done).
Qed.

(** The required fields of a record that passes the validation of
    [AccountCreate]. *)
Lemma AccountCreate_of_dict_Some (acct : gmap string json) (data : AccountCreate.t) :
  AccountCreate.of_dict acct = Some data →
  acct !! "id" = Some (JStr (AccountCreate.id data))
  ∧ acct !! "name" = Some (JStr (AccountCreate.name data))
  ∧ acct !! "currency" = Some (JStr (AccountCreate.currency data))
  ∧ acct !! "org_id" = Some (JStr (AccountCreate.org_id data)).
Proof.
  unfold AccountCreate.of_dict.
  destruct (acct !! "id") as [[] |]; try discriminate.
  destruct (acct !! "name") as [[] |]; try discriminate.
  destruct (acct !! "currency") as [[] |]; try discriminate.
  destruct (acct !! "org_id") as [[] |]; try discriminate.
  cbn [required_str mbind option_bind].
  destruct (field_str _) as [an |]; [| discriminate].
  destruct (field_account_type _) as [ty |]; [| discriminate].
  destruct (field_bool _) as [h |]; [| discriminate].
  cbn. now intros [= <-].
Qed.


(** The update of a stored account with the fields of a record that has
    passed the validation. *)
Lemma process_account_update_path db (acct : gmap string json) i (e0 : Account.t) n c :
  accounts_keyed db → accounts db !! i = Some e0 →
  acct !! "name" = Some (JStr n) → acct !! "currency" = Some (JStr c) →
  match
    match AccountUpdate.of_dict acct with
    | None => Raise db PydanticValidationError
    | Some upd =>
        match update_account db i upd with
        | Ok db' _ => Ok db' ()
        | Raise db' e => Raise db' e
        end
    end
  with
  | Ok db' _ =>
      ∃ row, Account.id row = i
             ∧ accounts db' = <[i := row]> (accounts db)
             ∧ transactions db' = transactions db
             ∧ transaction_splits db' = transaction_splits db
             ∧ holdings db' = holdings db
             ∧ account_balance db' = account_balance db
             ∧ categories db' = categories db
  | Raise db' e => db' = db ∧ e = PydanticValidationError
  end.
Proof.
  intros Hkeyed Hget Hname Hcur.
  destruct (AccountUpdate.of_dict acct) as [upd |] eqn:Hupd; [| done].
  assert (Hnn : AccountUpdate.name upd ≠ Some None ∧ AccountUpdate.currency upd ≠ Some None).
  { revert Hupd. unfold AccountUpdate.of_dict. rewrite Hname, Hcur.
    cbn [field_str mbind option_bind].
    destruct (field_str (acct !! "alt_name")); [| discriminate]. cbn [mbind option_bind].
    destruct (field_str (acct !! "org_id")); [| discriminate]. cbn [mbind option_bind].
    destruct (field_account_type _); [| discriminate]. cbn [mbind option_bind].
    destruct (field_bool _); [| discriminate]. cbn [mbind option_bind].
    intros [= <-]. cbn. split; discriminate. }
  destruct Hnn as [Hnn Hcn].
  destruct (update_account_Ok db i e0 upd Hget Hnn Hcn)
    as (db' & row & -> & Hrow & Ha & Ht & Hs & Hh & Hb & Hc).
  exists row. split; [| done]. rewrite Hrow. exact (Hkeyed _ _ Hget).
Qed.

(** The insert of a new account. *)
Lemma process_account_create_path now db (acct : gmap string json) i :
  accounts db !! i = None → acct !! "id" = Some (JStr i) →
  match
    match AccountCreate.of_dict (<["created_at" := JInt now]> acct) with
    | None => Raise db PydanticValidationError
    | Some data =>
        match create_account now db data with
        | Ok db' _ => Ok db' ()
        | Raise db' e => Raise db' e
        end
    end
  with
  | Ok db' _ =>
      ∃ row, Account.id row = i
             ∧ accounts db' = <[i := row]> (accounts db)
             ∧ transactions db' = transactions db
             ∧ transaction_splits db' = transaction_splits db
             ∧ holdings db' = holdings db
             ∧ account_balance db' = account_balance db
             ∧ categories db' = categories db
  | Raise db' e => db' = db ∧ e = PydanticValidationError
  end.
Proof.
  intros Hget Hid.
  destruct (AccountCreate.of_dict _) as [data' |] eqn:Hdata'; [| done].
  assert (Hi' : AccountCreate.id data' = i).
  { apply AccountCreate_of_dict_Some in Hdata' as (H1 & _).
    rewrite lookup_insert_ne in H1 by discriminate.
    rewrite Hid in H1. now injection H1 as <-. }
  unfold create_account. rewrite Hi', Hget. cbn.
  eexists. split; [| done]. reflexivity.
Qed.

(** The two ways a remote record is processed. *)
Lemma process_account_cases now db (acct : gmap string json) org_id :
  accounts_keyed db →
  match process_account now db acct org_id with
  | Ok db' _ =>
      ∃ i row, acct !! "id" = Some (JStr i) ∧ Account.id row = i
               ∧ accounts db' = <[i := row]> (accounts db)
               ∧ transactions db' = transactions db
               ∧ transaction_splits db' = transaction_splits db
               ∧ holdings db' = holdings db
               ∧ account_balance db' = account_balance db
               ∧ categories db' = categories db
  | Raise db' e =>
      db' = db
      ∧ ((e = KeyError "id" ∧ acct !! "id" = None) ∨ e = PydanticValidationError
         ∨ e = OverflowError)
  end.
Proof.
  intros Hkeyed. unfold process_account.
  rewrite lookup_insert_ne by discriminate.
  destruct (acct !! "id") as [id_value |] eqn:Hid; [| split; [done | left; done]].
  destruct (AccountCreate.of_dict _) as [data |] eqn:Hdata;
    [| split; [done | right; left; done]].
  assert (Hfields : ∃ n, id_value = JStr (AccountCreate.id data)
                         ∧ acct !! "name" = Some (JStr n)
                         ∧ ∃ c, acct !! "currency" = Some (JStr c)).
  { apply AccountCreate_of_dict_Some in Hdata as (H1 & H2 & H3 & _).
    rewrite lookup_insert_ne in H1, H2, H3 by discriminate.
    rewrite Hid in H1. injection H1 as ->. eauto. }
  destruct Hfields as (n & -> & Hname & c & Hcur).
  set (i := AccountCreate.id data) in *.
  set (acct' := <["org_id" := JStr org_id]> acct) in *.
  assert (Hname' : acct' !! "name" = Some (JStr n))
    by (unfold acct'; now rewrite lookup_insert_ne by discriminate).
  assert (Hcur' : acct' !! "currency" = Some (JStr c))
    by (unfold acct'; now rewrite lookup_insert_ne by discriminate).
  assert (Hid' : acct' !! "id" = Some (JStr i))
    by (unfold acct'; now rewrite lookup_insert_ne by discriminate).
  pose proof (classify_account_str_name acct' n Hname') as Hcl.
  pose proof (get_accounts_by_id_lookup db i Hkeyed) as Hget.
  assert (Hwrap : ∀ o : outcome (),
            match o with
            | Ok db' _ =>
                ∃ row, Account.id row = i
                       ∧ accounts db' = <[i := row]> (accounts db)
                       ∧ transactions db' = transactions db
                       ∧ transaction_splits db' = transaction_splits db
                       ∧ holdings db' = holdings db
                       ∧ account_balance db' = account_balance db
                       ∧ categories db' = categories db
            | Raise db' e => db' = db ∧ e = PydanticValidationError
            end →
            match o with
            | Ok db' _ =>
                ∃ i0 row, Some (JStr i) = Some (JStr i0) ∧ Account.id row = i0
                          ∧ accounts db' = <[i0 := row]> (accounts db)
                          ∧ transactions db' = transactions db
                          ∧ transaction_splits db' = transaction_splits db
                          ∧ holdings db' = holdings db
                          ∧ account_balance db' = account_balance db
                          ∧ categories db' = categories db
            | Raise db' e =>
                db' = db
                ∧ ((e = KeyError "id" ∧ Some (JStr i) = None) ∨ e = PydanticValidationError
                   ∨ e = OverflowError)
            end).
  { intros [db' [] | db' e]; [intros (row & H); exists i, row; done |].
    intros [-> ->]. split; [done |]. right; left; done. }
  destruct (get_accounts_by_id db i) as [| e0 rest].
  - (* a new account *)
    destruct (classify_account acct') as [e | r].
    { subst e. split; [done |]. right; right; done. }
    destruct r; lazy beta iota zeta;
      apply Hwrap, (process_account_create_path now db acct' i Hget Hid').
  - (* an existing account *)
    pose proof (process_account_update_path db acct' i e0 n c Hkeyed Hget Hname' Hcur') as Hu.
    destruct (Account.account_type e0) as [t |].
    { lazy beta iota zeta. apply Hwrap, Hu. }
    destruct (classify_account acct') as [e | r].
    { subst e. split; [done |]. right; right; done. }
    destruct r; lazy beta iota zeta; apply Hwrap, Hu.
Qed.

(** One remote record as the aggregator sends it (an id, a name and a
    currency; no ["alt_name"], ["account_type"] or ["is_hidden"] key) is
    processed as an upsert of the account row.  When the call returns,
    the database is the one before with that row written: for a stored
    account the name, the currency and the organisation are overwritten
    and what the user has set is kept ([alt_name], [is_hidden],
    [account_type], [created_at]); a new account is stored with
    [created_at] set to the time of the run, visible, and with no account
    type, whatever [classify_account] says of the record.  No other row
    of any table changes.  When the call raises, nothing is written.
    (The id is not empty: for the empty id the lookup of [get_accounts] is
    not a lookup by id.) *)
Theorem process_account_upsert now db (acct : gmap string json) org_id i n c :
  accounts_keyed db → i ≠ "" →
  acct !! "id" = Some (JStr i) → acct !! "name" = Some (JStr n) →
  acct !! "currency" = Some (JStr c) →
  acct !! "alt_name" = None → acct !! "account_type" = None → acct !! "is_hidden" = None →
  match process_account now db acct org_id with
  | Ok db' _ =>
      db' = set_accounts
              (<[i := match accounts db !! i with
                      | Some a =>
                          Account.mk i n (Account.alt_name a) c org_id (Account.is_hidden a)
                                     (Account.account_type a) (Account.created_at a)
                      | None => Account.mk i n None c org_id (Some false) None (Some now)
                      end]> (accounts db)) db
  | Raise db' _ => db' = db
  end.
Proof.
  intros Hkeyed _ Hid Hname Hcur Halt Hty Hhid.
  unfold process_account.
  destruct (classify_account (<["org_id" := JStr org_id]> acct)) as [e | r] eqn:Hr.
  - (* the classifier raises *)
    unfold AccountCreate.of_dict, AccountUpdate.of_dict.
    simpl_lookups. rewrite Hid, Hname, Hcur, Halt, Hty, Hhid.
    cbn [required_str field_str field_account_type field_bool mbind option_bind
         AccountCreate.id default from_option id].
    pose proof (get_accounts_by_id_lookup db i Hkeyed) as Hget.
    destruct (get_accounts_by_id db i) as [| e0 rest].
    + cbn. done.
    + rewrite Hget.
      assert (Hi0 : Account.id e0 = i) by exact (Hkeyed _ _ Hget).
      destruct (Account.account_type e0) as [t |] eqn:Het.
      * lazy beta iota zeta. unfold update_account. rewrite Hget. cbn.
        now rewrite Hi0, Het.
      * cbn. done.
  - unfold AccountCreate.of_dict, AccountUpdate.of_dict.
    simpl_lookups. rewrite Hid, Hname, Hcur, Halt, Hty, Hhid.
    cbn [required_str field_str field_account_type field_bool mbind option_bind
         AccountCreate.id default from_option id].
    pose proof (get_accounts_by_id_lookup db i Hkeyed) as Hget.
    destruct (get_accounts_by_id db i) as [| e0 rest].
    + (* a new account *)
      rewrite Hget.
      destruct r; lazy beta iota zeta;
        unfold create_account; cbn [AccountCreate.id]; rewrite Hget; reflexivity.
    + (* an existing account *)
      rewrite Hget.
      assert (Hi0 : Account.id e0 = i) by exact (Hkeyed _ _ Hget).
      assert (Hupd : update_account db i
                       (AccountUpdate.mk (Some (Some n)) None (Some (Some c))
                                         (Some (Some org_id)) None None)
                     = Ok (set_accounts
                             (<[i := Account.mk i n (Account.alt_name e0) c org_id
                                       (Account.is_hidden e0) (Account.account_type e0)
                                       (Account.created_at e0)]> (accounts db)) db)
                          (Some (Account.mk i n (Account.alt_name e0) c org_id
                                   (Account.is_hidden e0) (Account.account_type e0)
                                   (Account.created_at e0)))).
      { unfold update_account. rewrite Hget. cbn. now rewrite Hi0. }
      destruct (Account.account_type e0) as [t |] eqn:Het.
      * lazy beta iota zeta. now rewrite Hupd.
      * destruct r; lazy beta iota zeta; now rewrite Hupd.
Qed.

Lemma db_unclassified_keyed : accounts_keyed Ex.db_unclassified.
Proof.
  intros k a H. unfold Ex.db_unclassified in H. cbn [accounts set_accounts] in H.
  apply lookup_insert_Some in H as [[<- <-] | [_ H]]; [reflexivity |].
  rewrite lookup_empty in H. discriminate H.
Defined.

Lemma process_account_upsert_run :
  ∃ db', process_account 1700000000000000 Ex.db_unclassified Ex.remote_checking "org-2"
         = Ok db' tt.
Proof. eexists. vm_compute. reflexivity. Qed.

Lemma process_account_upsert_witness :
  ∃ db', process_account 1700000000000000 Ex.db_unclassified Ex.remote_checking "org-2"
         = Ok db' tt
         ∧ accounts db' !! "ACT-1"
           = Some (Account.mk "ACT-1" "Everyday Checking" None "USD" "org-2"
                     (Some false) None (Some 1600000000000000)).
Proof.
  destruct process_account_upsert_run as [db' Hrun]. exists db'. split; [exact Hrun |].
  pose proof (process_account_upsert 1700000000000000 Ex.db_unclassified Ex.remote_checking
                "org-2" "ACT-1" "Everyday Checking" "USD" db_unclassified_keyed
                ltac:(discriminate) eq_refl eq_refl eq_refl eq_refl eq_refl eq_refl) as H.
  rewrite Hrun in H. rewrite H. vm_compute. reflexivity.
Defined.

(** An account that is new, with a name that holds no keyword and an
    integer balance of [2^1024]: the classifier raises, and nothing is
    stored. *)
Lemma process_account_overflow :
  process_account 1700000000000000 empty_db
    (<["balance" := JInt (2 ^ 1024)]> Ex.overdrawn_with_available) "org-1"
  = Raise empty_db OverflowError.
Proof. vm_compute. reflexivity. Qed.

Lemma process_accounts_keyed now (l : list (gmap string json)) org_id : ∀ db db',
  accounts_keyed db →
  process_accounts now db l org_id = Ok db' tt → accounts_keyed db'.
Proof.
  induction l as [| acct l IH]; intros db db' Hkeyed; cbn [process_accounts].
  - now intros [= <-].
  - pose proof (process_account_cases now db acct org_id Hkeyed) as Hc.
    destruct (process_account now db acct org_id) as [db1 [] | db1 e1]; [| discriminate].
    destruct Hc as (i & row & Hid & Hrow & Ha & _).
    apply IH. intros k a. rewrite Ha. intros Hk.
    apply lookup_insert_Some in Hk as [[<- <-] | [_ Hk]]; [done | now apply Hkeyed].
Qed.

(** A record that is refused stops the run where it stands.  When the
    run on the records before it has reached its end and
    [process_account] refuses the record, then the run on the whole list
    raises that exception, nothing of the refused record or of the records
    after it is written, and what the records before it wrote stays
    committed.  A record without ["id"] is refused with [KeyError].  (No
    record carries the empty id, for which the lookup of [get_accounts] is
    not a lookup by id.) *)
Theorem process_accounts_failure now db (l1 : list (gmap string json)) bad l2 org_id
    db1 db2 e :
  accounts_keyed db →
  Forall (λ acct, acct !! "id" ≠ Some (JStr "")) (l1 ++ [bad]) →
  process_accounts now db l1 org_id = Ok db1 tt →
  process_account now db1 bad org_id = Raise db2 e →
  process_accounts now db (l1 ++ bad :: l2) org_id = Raise db1 e
  ∧ db2 = db1
  ∧ (bad !! "id" = None → e = KeyError "id").
Proof.
  intros Hkeyed _ Hl1 Hbad.
  pose proof (process_accounts_keyed now l1 org_id db db1 Hkeyed Hl1) as Hkeyed1.
  pose proof (process_account_cases now db1 bad org_id Hkeyed1) as Hc.
  rewrite Hbad in Hc. destruct Hc as [-> _].
  split; [| split; [reflexivity |]].
  - clear Hkeyed Hkeyed1. revert db Hl1.
    induction l1 as [| acct l1 IH]; intros db; cbn [process_accounts app].
    + intros [= ->]. now rewrite Hbad.
    + destruct (process_account now db acct org_id) as [db' [] | db' e']; [| discriminate].
      apply IH.
  - intros Hnone. unfold process_account in Hbad.
    rewrite lookup_insert_ne, Hnone in Hbad by discriminate. congruence.
Qed.

Lemma process_accounts_failure_witness :
  process_accounts 1700000000000000 Ex.db_unclassified
    [Ex.remote_checking; delete "id" Ex.remote_checking; Ex.checking_with_holdings] "org-1"
  = Raise (persisted (process_accounts 1700000000000000 Ex.db_unclassified
                        [Ex.remote_checking] "org-1"))
          (KeyError "id").
Proof.
  refine (proj1 (process_accounts_failure 1700000000000000 Ex.db_unclassified
                   [Ex.remote_checking] (delete "id" Ex.remote_checking)
                   [Ex.checking_with_holdings] "org-1" _ _ (KeyError "id")
                   db_unclassified_keyed _ _ _)).
  - repeat constructor; vm_compute; discriminate.
  - vm_compute. reflexivity.
  - vm_compute. reflexivity.
Defined.

(** What a run of [process_accounts] that reaches its end has done: after
    it every record's account is stored under the record's id; no account
    is removed, and an account whose id no record carries is unchanged;
    transactions, splits, holdings, balances and categories are
    untouched.  (No record carries the empty id.) *)
Theorem process_accounts_only_upserts now db (l : list (gmap string json)) org_id db' :
  accounts_keyed db →
  Forall (λ acct, acct !! "id" ≠ Some (JStr "")) l →
  process_accounts now db l org_id = Ok db' tt →
  accounts_keyed db'
  ∧ (∀ acct, acct ∈ l →
             ∃ i a, acct !! "id" = Some (JStr i) ∧ accounts db' !! i = Some a)
  ∧ (∀ k, is_Some (accounts db !! k) → is_Some (accounts db' !! k))
  ∧ (∀ k, (∀ acct, acct ∈ l → acct !! "id" ≠ Some (JStr k)) →
          accounts db' !! k = accounts db !! k)
  ∧ transactions db' = transactions db
  ∧ transaction_splits db' = transaction_splits db
  ∧ holdings db' = holdings db
  ∧ account_balance db' = account_balance db
  ∧ categories db' = categories db.
Proof.
  intros Hkeyed _. revert db Hkeyed.
  induction l as [| acct l IH]; intros db Hkeyed; cbn [process_accounts].
  - intros [= <-]. split; [done |]. split; [intros acct H; inversion H |]. done.
  - pose proof (process_account_cases now db acct org_id Hkeyed) as Hc.
    destruct (process_account now db acct org_id) as [db1 [] | db1 e1] eqn:Hrun;
      [| discriminate].
    destruct Hc as (i & row & Hid & Hrow & Ha & Ht & Hs & Hh & Hb & Hcat).
    assert (Hkeyed1 : accounts_keyed db1).
    { intros k a. rewrite Ha. intros Hk.
      apply lookup_insert_Some in Hk as [[<- <-] | [_ Hk]]; [done | now apply Hkeyed]. }
    intros H. destruct (IH db1 Hkeyed1 H) as (Hk' & Hall & Hkeep & Hout & -> & -> & -> & -> & ->).
    split; [exact Hk' |]. split; [| split; [| split; [| done]]].
    + intros acct' Hin. apply elem_of_cons in Hin as [-> | Hin]; [| now apply Hall].
      destruct (Hkeep i) as [a Hia]; [rewrite Ha, lookup_insert_eq; eauto |].
      exists i, a. done.
    + intros k Hk. apply Hkeep. rewrite Ha.
      destruct (decide (k = i)) as [-> | Hne];
        [rewrite lookup_insert_eq; eauto | now rewrite lookup_insert_ne].
    + intros k Hnone. rewrite Hout by (intros acct' Hin; apply Hnone; now right).
      rewrite Ha. apply lookup_insert_ne. intros <-. apply (Hnone acct); [left | done].
Qed.

Lemma process_accounts_only_upserts_witness :
  ∃ db', process_accounts 1700000000000000 Ex.db_unclassified
           [Ex.remote_checking; Ex.checking_with_holdings] "org-1" = Ok db' tt
         ∧ accounts_keyed db'
         ∧ transactions db' = transactions Ex.db_unclassified.
Proof.
  assert (H : ∃ db', process_accounts 1700000000000000 Ex.db_unclassified
                       [Ex.remote_checking; Ex.checking_with_holdings] "org-1" = Ok db' tt).
  { eexists. vm_compute. reflexivity. }
  destruct H as [db' H]. exists db'. split; [exact H |].
  destruct (process_accounts_only_upserts 1700000000000000 Ex.db_unclassified
              [Ex.remote_checking; Ex.checking_with_holdings] "org-1" db'
              db_unclassified_keyed ltac:(repeat constructor; vm_compute; discriminate) H)
    as (H1 & _ & _ & _ & H2 & _).
  split; [exact H1 | exact H2].
Defined.
(** ** DuplicateAccountDetector: the groups it reports *)

Section DetectorSets.

(** The accounts of one [(org_id, name)] group, and a relation between
    them (the test of a pair). *)
Variable L : list Account.t.
Hypothesis L_ids : NoDup (Account.id <$> L).
Lemma same_id (a b : Account.t) :
  a ∈ L → b ∈ L → Account.id a = Account.id b → a = b.
Proof.
  revert L_ids. induction L as [| x l IH]; intros Hnd Ha Hb Hid.
  - inversion Ha.
  - cbn [fmap list_fmap] in Hnd. apply NoDup_cons in Hnd as [Hnin Hnd].
    apply elem_of_cons in Ha as [-> | Ha]; apply elem_of_cons in Hb as [-> | Hb].
    + reflexivity.
    + exfalso. apply Hnin. rewrite Hid. now apply list_elem_of_fmap_2.
    + exfalso. apply Hnin. rewrite <- Hid. now apply list_elem_of_fmap_2.
    + now apply IH.
Qed.

Lemma in_set_elem_of (a : Account.t) (s : list Account.t) :
  a ∈ L → (∀ x, x ∈ s → x ∈ L) → in_set a s = true ↔ a ∈ s.
Proof.
  intros Ha Hs. unfold in_set. rewrite existsb_exists. split.
  - intros (b & Hb & Hid). apply list_elem_of_In in Hb. apply String.eqb_eq in Hid.
    now rewrite (same_id a b Ha (Hs b Hb) Hid).
  - intros Hin. exists a. split; [now apply list_elem_of_In | apply String.eqb_refl].
Qed.

Lemma set_add_elem_of (a : Account.t) (s : list Account.t) (x : Account.t) :
  a ∈ L → (∀ y, y ∈ s → y ∈ L) → x ∈ set_add a s ↔ x ∈ s ∨ x = a.
Proof.
  intros Ha Hs. unfold set_add.
  destruct (in_set a s) eqn:E.
  - apply in_set_elem_of in E; [| done | done]. split; [tauto | intros [H | ->]; done].
  - rewrite elem_of_app, list_elem_of_singleton. tauto.
Qed.

Lemma set_add_NoDup (a : Account.t) (s : list Account.t) :
  a ∈ L → (∀ y, y ∈ s → y ∈ L) → NoDup s → NoDup (set_add a s).
Proof.
  intros Ha Hs Hnd. unfold set_add. destruct (in_set a s) eqn:E; [done |].
  apply NoDup_app. split; [done |]. split; [| apply NoDup_singleton].
  intros x Hx Hxa. apply list_elem_of_singleton in Hxa as ->.
  apply (in_set_elem_of a s Ha Hs) in Hx. congruence.
Qed.

Lemma set_union_spec (r : list Account.t) : ∀ s : list Account.t,
  (∀ y, y ∈ s → y ∈ L) → (∀ y, y ∈ r → y ∈ L) → NoDup s →
  NoDup (set_union s r) ∧ ∀ x, x ∈ set_union s r ↔ x ∈ s ∨ x ∈ r.
Proof.
  unfold set_union. induction r as [| a r IH]; intros s Hs Hr Hnd; cbn [foldl].
  - split; [done |]. intros x. rewrite elem_of_nil. tauto.
  - assert (Ha : a ∈ L) by (apply Hr; left).
    destruct (IH (set_add a s)) as [Hnd' Hx].
    + intros y Hy. apply set_add_elem_of in Hy as [Hy | ->]; auto.
    + intros y Hy. apply Hr. now right.
    + now apply set_add_NoDup.
    + split; [exact Hnd' |]. intros x. rewrite Hx, set_add_elem_of, elem_of_cons by done.
      tauto.
Qed.

End DetectorSets.

Section DetectorGroups.

Variable L : list Account.t.
Hypothesis L_ids : NoDup (Account.id <$> L).
Variable linked : Account.t → Account.t → Prop.

(** A set of accounts in which every account is linked to another one. *)
Let good (s : list Account.t) : Prop :=
  s ≠ [] ∧ NoDup s ∧ (∀ a, a ∈ s → a ∈ L)
  ∧ ∀ a, a ∈ s → ∃ b, b ∈ s ∧ b ≠ a ∧ (linked a b ∨ linked b a).

Lemma good_extend (s : list Account.t) (older newer : Account.t) :
  older ∈ L → newer ∈ L → older ≠ newer → linked older newer →
  NoDup s → (∀ a, a ∈ s → a ∈ L) →
  (∀ a, a ∈ s → ∃ b, b ∈ s ∧ b ≠ a ∧ (linked a b ∨ linked b a)) →
  good (set_add newer (set_add older s)).
Proof.
  intros Ho Hn Hne Hl Hnd Hs Hp.
  assert (Hs1 : ∀ y, y ∈ set_add older s → y ∈ L).
  { intros y Hy. apply (set_add_elem_of L L_ids) in Hy as [Hy | ->]; auto. }
  assert (Hmem : ∀ x, x ∈ set_add newer (set_add older s) ↔ x ∈ s ∨ x = older ∨ x = newer).
  { intros x. rewrite (set_add_elem_of L L_ids), (set_add_elem_of L L_ids) by done. tauto. }
  split; [| split; [| split]].
  - intros E. assert (H : newer ∈ set_add newer (set_add older s)) by (apply Hmem; tauto).
    rewrite E in H. inversion H.
  - apply (set_add_NoDup L L_ids); [done | done |]. now apply (set_add_NoDup L L_ids).
  - intros a Ha. apply Hmem in Ha as [Ha | [-> | ->]]; auto.
  - intros a Ha.
    apply Hmem in Ha as [Ha | [-> | ->]].
    + destruct (Hp a Ha) as (b & Hb & Hba & Hlk). exists b.
      split; [apply Hmem; tauto | done].
    + exists newer. split; [apply Hmem; tauto |]. split; [congruence | now left].
    + exists older. split; [apply Hmem; tauto |]. split; [congruence | now right].
Qed.

Lemma good_union (s r : list Account.t) : good s → good r → good (set_union s r).
Proof.
  intros (Hs0 & Hsnd & Hs & Hsp) (Hr0 & Hrnd & Hr & Hrp).
  destruct (set_union_spec L L_ids r s Hs Hr Hsnd) as [Hnd Hx].
  split; [| split; [done | split]].
  - intros E. destruct s as [| a s']; [done |].
    assert (H : a ∈ set_union (a :: s') r) by (apply Hx; left; left).
    rewrite E in H. inversion H.
  - intros a Ha. apply Hx in Ha as [Ha | Ha]; auto.
  - intros a Ha. apply Hx in Ha as [Ha | Ha].
    + destruct (Hsp a Ha) as (b & Hb & Hne & Hlk). exists b. split; [apply Hx; tauto | done].
    + destruct (Hrp a Ha) as (b & Hb & Hne & Hlk). exists b. split; [apply Hx; tauto | done].
Qed.

Lemma add_pair_good (older newer : Account.t) (sets : list (list Account.t)) :
  older ∈ L → newer ∈ L → older ≠ newer → linked older newer →
  Forall good sets → Forall good (add_pair older newer sets).
Proof.
  intros Ho Hn Hne Hl. induction 1 as [| s rest Hs Hrest IH]; cbn [add_pair].
  - constructor; [| constructor].
    apply (good_extend [] older newer); try done.
    + apply NoDup_nil_2.
    + intros a Ha. inversion Ha.
    + intros a Ha. inversion Ha.
  - destruct (in_set older s || in_set newer s).
    + constructor; [| exact Hrest]. destruct Hs as (_ & Hnd & Hin & Hp).
      now apply good_extend.
    + constructor; [exact Hs | exact IH].
Qed.

Lemma absorb_good (rest : list (list Account.t)) : ∀ s : list Account.t,
  good s → Forall good rest →
  good (absorb s rest).1 ∧ Forall good (absorb s rest).2.
Proof.
  induction rest as [| r rest IH]; intros s Hs Hrest; cbn [absorb].
  - split; [exact Hs | constructor].
  - apply Forall_cons in Hrest as [Hr Hrest].
    destruct (sets_overlap s r).
    + apply IH; [now apply good_union | exact Hrest].
    + destruct (IH s Hs Hrest) as [H1 H2].
      destruct (absorb s rest) as [s' kept]. cbn [fst snd] in *.
      split; [exact H1 | now constructor].
Qed.

Lemma merge_overlapping_good (fuel : nat) : ∀ sets : list (list Account.t),
  Forall good sets → Forall good (merge_overlapping fuel sets).
Proof.
  induction fuel as [| fuel IH]; intros sets Hsets; cbn [merge_overlapping];
    [constructor |].
  destruct sets as [| s rest]; [constructor |].
  apply Forall_cons in Hsets as [Hs Hrest].
  destruct (absorb_good rest s Hs Hrest) as [H1 H2].
  destruct (absorb s rest) as [s' rest']. cbn [fst snd] in *.
  constructor; [exact H1 | now apply IH].
Qed.

Lemma add_pairs_good (pairs : list (Account.t * Account.t)) :
  (∀ p, p ∈ pairs → p.1 ∈ L ∧ p.2 ∈ L ∧ p.1 ≠ p.2 ∧ linked p.1 p.2) →
  ∀ sets, Forall good sets →
          Forall good (foldl (λ sets p, add_pair p.1 p.2 sets) sets pairs).
Proof.
  induction pairs as [| p pairs IH]; intros Hp sets Hsets; cbn [foldl]; [done |].
  apply IH; [intros q Hq; apply Hp; now right |].
  destruct (Hp p) as (H1 & H2 & H3 & H4); [left |]. now apply add_pair_good.
Qed.

End DetectorGroups.

Lemma pairs_in_order_elem_of (l : list Account.t) (a b : Account.t) :
  NoDup l → (a, b) ∈ pairs_in_order l → a ∈ l ∧ b ∈ l ∧ a ≠ b.
Proof.
  induction l as [| x l IH]; intros Hnd; cbn [pairs_in_order]; [intros H; inversion H |].
  apply NoDup_cons in Hnd as [Hnin Hnd].
  rewrite elem_of_app. intros [H | H].
  - apply list_elem_of_fmap in H as (y & [= -> ->] & Hy).
    split; [left |]. split; [now right |]. congruence.
  - destruct (IH Hnd H) as (Ha & Hb & Hne). split; [now right |]. split; [now right | done].
Qed.

(** A pair that passes the test inside a larger group passes the test of
    a pair. *)
Lemma pair_is_duplicate_in_group_true db older newer n r :
  pair_is_duplicate_in_group db older newer n r = true →
  pair_is_duplicate db older newer n r = true.
Proof.
  intros H. rewrite <- H. symmetry. apply pair_is_duplicate_in_group_eq.
  intros E. unfold pair_is_duplicate_in_group in H. rewrite E in H.
  now destruct (recent_transactions _ _ _).
Qed.

(** The accounts the detector reports were found to be duplicates.  Every
    reported group holds at least two accounts, without repetition, the
    oldest first; each of them is a stored account with the [org_id] and
    the name of the group, and each of them passed the transaction-overlap
    test with another account of the same group, as the older or as the
    newer of the two. *)
Theorem find_duplicate_accounts_groups (db : DB) (n : Z) (r : Py.float) (g : DuplicateGroup) :
  accounts_keyed db →
  g ∈ find_duplicate_accounts db n r →
  (2 ≤ List.length (group_accounts g))%nat
  ∧ NoDup (Account.id <$> group_accounts g)
  ∧ Sorted (λ a b, account_le a b = true) (group_accounts g)
  ∧ ∀ a, a ∈ group_accounts g →
         accounts db !! Account.id a = Some a
         ∧ Account.org_id a = group_org_id g
         ∧ Account.name a = group_name g
         ∧ ∃ b, b ∈ group_accounts g ∧ b ≠ a
                ∧ (pair_is_duplicate db a b n r = true
                   ∨ pair_is_duplicate db b a n r = true).
Proof.
  intros Hkeyed Hg. unfold find_duplicate_accounts in Hg.
  apply list_elem_of_In, in_flat_map in Hg as ([org_id name] & _ & Hg).
  apply list_elem_of_In in Hg. cbn [fst snd] in Hg. unfold duplicate_groups_of in Hg.
  set (F := filter (λ a, Account.org_id a = org_id ∧ Account.name a = name)
                   (rows (accounts db))) in *.
  set (L := sort_by account_le F) in *.
  set (linked := λ a b, pair_is_duplicate db a b n r = true).
  assert (HLperm : L ≡ₚ F) by apply sort_by_perm.
  assert (HL : ∀ a, a ∈ L → accounts db !! Account.id a = Some a
                              ∧ Account.org_id a = org_id ∧ Account.name a = name).
  { intros a Ha. rewrite HLperm in Ha. apply list_elem_of_filter in Ha as [[Ho Hn] Ha].
    apply rows_elem_of in Ha as [k Hk]. now rewrite (Hkeyed _ _ Hk). }
  assert (HLids : NoDup (Account.id <$> L)).
  { rewrite HLperm. unfold F.
    pose proof (rows_NoDup_id Account.id (accounts db) Hkeyed) as Hrows.
    apply (sublist_NoDup _ _ Hrows). apply fmap_sublist, sublist_filter. }
  assert (HLsorted : Sorted (λ a b, account_le a b = true) L)
    by apply sort_by_Sorted, account_le_total.
  (* a set in which every account is linked to another one gives a group
     with the properties listed *)
  assert (Hgroup : ∀ s,
            s ≠ [] ∧ NoDup s ∧ (∀ a, a ∈ s → a ∈ L)
            ∧ (∀ a, a ∈ s → ∃ b, b ∈ s ∧ b ≠ a ∧ (linked a b ∨ linked b a)) →
            ∀ l', l' ≡ₚ s → Sorted (λ a b, account_le a b = true) l' →
            (2 ≤ List.length l')%nat
            ∧ NoDup (Account.id <$> l')
            ∧ Sorted (λ a b, account_le a b = true) l'
            ∧ ∀ a, a ∈ l' →
                   accounts db !! Account.id a = Some a
                   ∧ Account.org_id a = org_id ∧ Account.name a = name
                   ∧ ∃ b, b ∈ l' ∧ b ≠ a ∧ (linked a b ∨ linked b a)).
  { intros s (Hs0 & Hsnd & Hs & Hp) l' Hperm Hsorted.
    split; [| split; [| split; [done |]]].
    - rewrite Hperm. destruct s as [| a [| b s']]; [done | | cbn; lia].
      exfalso. destruct (Hp a) as (b & Hb & Hne & _); [left |].
      apply list_elem_of_singleton in Hb. done.
    - rewrite Hperm. apply NoDup_fmap_2_strong; [| done].
      intros x y Hx Hy. apply (same_id L HLids); auto.
    - intros a Ha. rewrite Hperm in Ha. destruct (HL a (Hs a Ha)) as (H1 & H2 & H3).
      split; [done |]. split; [done |]. split; [done |].
      destruct (Hp a Ha) as (b & Hb & Hne & Hlk). exists b. now rewrite Hperm. }
  (* the group of a pair *)
  assert (Htwo : ∀ older newer, L = [older; newer] →
                 pair_is_duplicate db older newer n r = true →
                 (2 ≤ List.length L)%nat
                 ∧ NoDup (Account.id <$> L)
                 ∧ Sorted (λ a b, account_le a b = true) L
                 ∧ ∀ a, a ∈ L →
                        accounts db !! Account.id a = Some a
                        ∧ Account.org_id a = org_id ∧ Account.name a = name
                        ∧ ∃ b, b ∈ L ∧ b ≠ a ∧ (linked a b ∨ linked b a)).
  { intros older newer EL Hpair.
    assert (Hne : older ≠ newer).
    { intros ->. rewrite EL in HLids. cbn in HLids.
      apply NoDup_cons in HLids as [H _]. apply H. left. }
    apply (Hgroup L); [| done | done].
    split; [now rewrite EL |]. split; [| split; [done |]].
    - rewrite EL. apply NoDup_cons. split; [| apply NoDup_singleton].
      intros H. apply list_elem_of_singleton in H. done.
    - intros a Ha. rewrite EL in Ha |- *. apply elem_of_cons in Ha as [-> | Ha].
      + exists newer. split; [right; left |]. split; [congruence | now left].
      + apply list_elem_of_singleton in Ha as ->.
        exists older. split; [left |]. split; [congruence | now right]. }
  (* the groups of a larger group *)
  set (pairs := filter (λ p, pair_is_duplicate_in_group db p.1 p.2 n r = true)
                       (pairs_in_order L)) in *.
  set (sets0 := foldl (λ sets p, add_pair p.1 p.2 sets) [] pairs) in *.
  assert (Hmany : ∀ s, s ∈ merge_overlapping (List.length sets0) sets0 →
                  s ≠ [] ∧ NoDup s ∧ (∀ a, a ∈ s → a ∈ L)
                  ∧ (∀ a, a ∈ s → ∃ b, b ∈ s ∧ b ≠ a ∧ (linked a b ∨ linked b a))).
  { assert (Hall : Forall (λ s, s ≠ [] ∧ NoDup s ∧ (∀ a, a ∈ s → a ∈ L)
                                ∧ (∀ a, a ∈ s → ∃ b, b ∈ s ∧ b ≠ a
                                                     ∧ (linked a b ∨ linked b a)))
                          (merge_overlapping (List.length sets0) sets0)).
    { apply (merge_overlapping_good L HLids linked).
      apply (add_pairs_good L HLids linked); [| constructor].
      intros [a b] Hp. apply list_elem_of_filter in Hp as [Hpass Hp]. cbn [fst snd] in *.
      apply pairs_in_order_elem_of in Hp as (Ha & Hb & Hne);
        [| exact (NoDup_fmap_1 _ _ HLids)].
      split; [done |]. split; [done |]. split; [done |].
      now apply pair_is_duplicate_in_group_true. }
    rewrite Forall_forall in Hall. exact Hall. }
  assert (Hmany' : g ∈ List.map (λ acc_set,
                                   mkDuplicateGroup org_id name (sort_by account_le acc_set))
                                (merge_overlapping (List.length sets0) sets0) →
                   (2 ≤ List.length (group_accounts g))%nat
                   ∧ NoDup (Account.id <$> group_accounts g)
                   ∧ Sorted (λ a b, account_le a b = true) (group_accounts g)
                   ∧ ∀ a, a ∈ group_accounts g →
                          accounts db !! Account.id a = Some a
                          ∧ Account.org_id a = group_org_id g
                          ∧ Account.name a = group_name g
                          ∧ ∃ b, b ∈ group_accounts g ∧ b ≠ a
                                 ∧ (linked a b ∨ linked b a)).
  { intros Hin. apply list_elem_of_fmap in Hin as (s & -> & Hs).
    cbn [group_accounts group_org_id group_name].
    apply (Hgroup s (Hmany s Hs)); [apply sort_by_perm |].
    apply sort_by_Sorted, account_le_total. }
  clearbody sets0. clear Hmany pairs.
  destruct L as [| older [| newer [| third rest]]] eqn:EL; [now apply Hmany'.. | |].
  - destruct (pair_is_duplicate db older newer n r) eqn:Hpair; [| inversion Hg].
    apply list_elem_of_singleton in Hg as ->. cbn [group_accounts group_org_id group_name].
    now apply (Htwo older newer).
  - now apply Hmany'.
Qed.
Section DetectorCover.

Variable L : list Account.t.
Hypothesis L_ids : NoDup (Account.id <$> L).

Let inL (s : list Account.t) : Prop := ∀ x, x ∈ s → x ∈ L.

Lemma set_union_elem_of (r : list Account.t) : ∀ (s : list Account.t) (x : Account.t),
  inL s → inL r → x ∈ set_union s r ↔ x ∈ s ∨ x ∈ r.
Proof.
  unfold set_union. induction r as [| a r IH]; intros s x Hs Hr; cbn [foldl].
  - rewrite elem_of_nil. tauto.
  - assert (Ha : a ∈ L) by (apply Hr; left).
    rewrite IH.
    + rewrite (set_add_elem_of L L_ids a s x Ha Hs), elem_of_cons. tauto.
    + intros y Hy. apply (set_add_elem_of L L_ids a s y Ha Hs) in Hy as [Hy | ->]; auto.
    + intros y Hy. apply Hr. now right.
Qed.

Lemma add_pair_cover (older newer : Account.t) (sets : list (list Account.t)) :
  older ∈ L → newer ∈ L → Forall inL sets →
  Forall inL (add_pair older newer sets)
  ∧ (∀ s, s ∈ sets → ∃ s', s' ∈ add_pair older newer sets ∧ s ⊆ s')
  ∧ ∃ s', s' ∈ add_pair older newer sets ∧ older ∈ s' ∧ newer ∈ s'.
Proof.
  intros Ho Hn. induction 1 as [| s rest Hs Hrest IH]; cbn [add_pair].
  - assert (Hmem : ∀ x, x ∈ set_add newer [older] ↔ x = older ∨ x = newer).
    { intros x. rewrite (set_add_elem_of L L_ids newer [older] x Hn).
      - rewrite list_elem_of_singleton. tauto.
      - intros y Hy. apply list_elem_of_singleton in Hy as ->. done. }
    split; [| split].
    + constructor; [| constructor]. intros x Hx. apply Hmem in Hx as [-> | ->]; done.
    + intros s Hs. inversion Hs.
    + exists (set_add newer [older]). split; [left |]. split; apply Hmem; tauto.
  - assert (Hs1 : inL (set_add older s)).
    { intros y Hy. apply (set_add_elem_of L L_ids older s y Ho Hs) in Hy as [Hy | ->]; auto. }
    assert (Hmem : ∀ x, x ∈ set_add newer (set_add older s)
                        ↔ x ∈ s ∨ x = older ∨ x = newer).
    { intros x. rewrite (set_add_elem_of L L_ids newer _ x Hn Hs1),
        (set_add_elem_of L L_ids older s x Ho Hs). tauto. }
    destruct (in_set older s || in_set newer s).
    + split; [| split].
      * constructor; [| exact Hrest].
        intros x Hx. apply Hmem in Hx as [Hx | [-> | ->]]; auto.
      * intros s0 Hs0. apply elem_of_cons in Hs0 as [-> | Hs0].
        -- exists (set_add newer (set_add older s)). split; [left |].
           intros x Hx. apply Hmem. tauto.
        -- exists s0. split; [now right | done].
      * exists (set_add newer (set_add older s)). split; [left |]. split; apply Hmem; tauto.
    + destruct IH as (IH1 & IH2 & s' & Hs' & Ho' & Hn'). split; [| split].
      * now constructor.
      * intros s0 Hs0. apply elem_of_cons in Hs0 as [-> | Hs0].
        -- exists s. split; [left | done].
        -- destruct (IH2 s0 Hs0) as (s1 & Hs1' & Hsub). exists s1. split; [now right | done].
      * exists s'. split; [now right | done].
Qed.

Lemma add_pairs_cover (pairs : list (Account.t * Account.t)) :
  (∀ p, p ∈ pairs → p.1 ∈ L ∧ p.2 ∈ L) →
  ∀ sets, Forall inL sets →
    let sets' := foldl (λ sets p, add_pair p.1 p.2 sets) sets pairs in
    Forall inL sets'
    ∧ (∀ s, s ∈ sets → ∃ s', s' ∈ sets' ∧ s ⊆ s')
    ∧ ∀ p, p ∈ pairs → ∃ s', s' ∈ sets' ∧ p.1 ∈ s' ∧ p.2 ∈ s'.
Proof.
  induction pairs as [| p pairs IH]; intros Hp sets Hsets; cbn [foldl].
  - split; [done |]. split; [intros s Hs; exists s; done | intros p Hin; inversion Hin].
  - destruct (Hp p) as [H1 H2]; [left |].
    destruct (add_pair_cover p.1 p.2 sets H1 H2 Hsets) as (Ha & Hgrow & s1 & Hs1 & Ho & Hn).
    destruct (IH (λ q Hq, Hp q (list_elem_of_further _ _ _ Hq)) _ Ha) as (IH1 & IH2 & IH3).
    split; [exact IH1 |]. split.
    + intros s Hs. destruct (Hgrow s Hs) as (s' & Hs' & Hsub).
      destruct (IH2 s' Hs') as (s'' & Hs'' & Hsub'). exists s''. split; [done |].
      intros x Hx. apply Hsub', Hsub, Hx.
    + intros q Hq. apply elem_of_cons in Hq as [-> | Hq]; [| now apply IH3].
      destruct (IH2 s1 Hs1) as (s'' & Hs'' & Hsub). exists s''.
      split; [done |]. split; apply Hsub; done.
Qed.

Lemma absorb_cover (rest : list (list Account.t)) : ∀ s : list Account.t,
  inL s → Forall inL rest →
  inL (absorb s rest).1 ∧ Forall inL (absorb s rest).2
  ∧ s ⊆ (absorb s rest).1
  ∧ (∀ r, r ∈ rest → r ∈ (absorb s rest).2 ∨ r ⊆ (absorb s rest).1)
  ∧ (List.length (absorb s rest).2 ≤ List.length rest)%nat.
Proof.
  induction rest as [| r rest IH]; intros s Hs Hrest; cbn [absorb].
  - split; [done |]. split; [done |]. split; [done |].
    split; [intros r Hr; inversion Hr | done].
  - apply Forall_cons in Hrest as [Hr Hrest].
    destruct (sets_overlap s r).
    + assert (Hu : inL (set_union s r)).
      { intros x Hx. apply (set_union_elem_of r s x Hs Hr) in Hx as [Hx | Hx]; auto. }
      destruct (IH (set_union s r) Hu Hrest) as (H1 & H2 & H3 & H4 & H5).
      split; [done |]. split; [done |]. split; [| split].
      * intros x Hx. apply H3. apply (set_union_elem_of r s x Hs Hr). tauto.
      * intros r0 Hr0. apply elem_of_cons in Hr0 as [-> | Hr0]; [| now apply H4].
        right. intros x Hx. apply H3. apply (set_union_elem_of r s x Hs Hr). tauto.
      * cbn [List.length]. lia.
    + destruct (IH s Hs Hrest) as (H1 & H2 & H3 & H4 & H5).
      destruct (absorb s rest) as [s' kept]. cbn [fst snd] in *.
      split; [done |]. split; [now constructor |]. split; [done |]. split.
      * intros r0 Hr0. apply elem_of_cons in Hr0 as [-> | Hr0]; [left; left |].
        destruct (H4 r0 Hr0) as [H | H]; [left; now right | now right].
      * cbn [List.length]. lia.
Qed.

Lemma merge_overlapping_cover (fuel : nat) : ∀ sets : list (list Account.t),
  (List.length sets ≤ fuel)%nat → Forall inL sets →
  ∀ s, s ∈ sets → ∃ s', s' ∈ merge_overlapping fuel sets ∧ s ⊆ s'.
Proof.
  induction fuel as [| fuel IH]; intros sets Hlen Hsets s Hs.
  - destruct sets; [inversion Hs | cbn in Hlen; lia].
  - destruct sets as [| s0 rest]; [inversion Hs |]. cbn [merge_overlapping].
    apply Forall_cons in Hsets as [Hs0 Hrest].
    destruct (absorb_cover rest s0 Hs0 Hrest) as (H1 & H2 & H3 & H4 & H5).
    destruct (absorb s0 rest) as [s' rest']. cbn [fst snd] in *.
    apply elem_of_cons in Hs as [-> | Hs].
    + exists s'. split; [left | done].
    + destruct (H4 s Hs) as [Hkept | Hsub].
      * destruct (IH rest' ltac:(cbn in Hlen; lia) H2 s Hkept) as (s'' & Hs'' & Hsub).
        exists s''. split; [now right | done].
      * exists s'. split; [left | done].
Qed.

End DetectorCover.

Lemma length_filter_fmap {A B : Type} (f : A → B) (P : B → Prop)
    `{∀ y, Decision (P y)} (l : list A) :
  List.length (filter P (f <$> l)) = List.length (filter (λ x, P (f x)) l).
Proof.
  induction l as [| x l IH]; [done |]. cbn [fmap list_fmap]. rewrite !filter_cons.
  destruct (decide (P (f x))); cbn [List.length]; now rewrite IH.
Qed.

(** The [(org_id, name)] values the detector looks at are those that two
    or more accounts carry. *)
Lemma duplicate_candidates_elem_of (db : DB) (org_id name : string) :
  (org_id, name) ∈ duplicate_candidates db
  ↔ (2 ≤ List.length (filter (λ a, Account.org_id a = org_id ∧ Account.name a = name)
                             (rows (accounts db))))%nat.
Proof.
  unfold duplicate_candidates.
  set (keys := List.map (λ a, (Account.org_id a, Account.name a)) (rows (accounts db))).
  assert (Hlen : List.length (filter (λ k', k' = (org_id, name)) keys)
                 = List.length (filter (λ a, Account.org_id a = org_id ∧ Account.name a = name)
                                       (rows (accounts db)))).
  { unfold keys.
    rewrite (length_filter_fmap (λ a, (Account.org_id a, Account.name a))
               (λ k', k' = (org_id, name))).
    f_equal. apply list_filter_iff. intros a. split; [intros [= -> ->]; done |].
    now intros [-> ->]. }
  rewrite list_elem_of_filter, elem_of_remove_dups. cbn beta. rewrite Hlen. split.
  - intros [H _]. lia.
  - intros H. split; [lia |].
    destruct (filter (λ k', k' = (org_id, name)) keys) as [| k rest] eqn:E.
    + rewrite <- Hlen in H. cbn in H. lia.
    + assert (Hk : k ∈ filter (λ k', k' = (org_id, name)) keys) by (rewrite E; left).
      apply list_elem_of_filter in Hk as [-> Hk]. exact Hk.
Qed.

(** No pair found to be duplicates is dropped.  In a group of three or
    more accounts with the same [org_id] and name, two accounts that pass
    the transaction-overlap test (the older against the newer) are
    reported together in one group; in a group of exactly two the pair
    that passes the test is the group reported. *)
Theorem find_duplicate_accounts_reports_pairs
    (db : DB) (n : Z) (r : Py.float) (org_id name : string) (older newer : Account.t) :
  accounts_keyed db →
  let group :=
    sort_by account_le
      (filter (λ a, Account.org_id a = org_id ∧ Account.name a = name)
              (rows (accounts db))) in
  (older, newer) ∈ pairs_in_order group →
  (if decide (List.length group = 2%nat)
   then pair_is_duplicate db older newer n r = true
   else pair_is_duplicate_in_group db older newer n r = true) →
  ∃ g, g ∈ find_duplicate_accounts db n r
       ∧ group_org_id g = org_id ∧ group_name g = name
       ∧ older ∈ group_accounts g ∧ newer ∈ group_accounts g.
Proof.
  intros Hkeyed group Hpair Hpass.
  set (F := filter (λ a, Account.org_id a = org_id ∧ Account.name a = name)
                   (rows (accounts db))) in *.
  assert (Hperm : group ≡ₚ F) by apply sort_by_perm.
  assert (Hids : NoDup (Account.id <$> group)).
  { rewrite Hperm. unfold F.
    pose proof (rows_NoDup_id Account.id (accounts db) Hkeyed) as Hrows.
    apply (sublist_NoDup _ _ Hrows). apply fmap_sublist, sublist_filter. }
  destruct (pairs_in_order_elem_of group older newer (NoDup_fmap_1 _ _ Hids) Hpair)
    as (Ho & Hn & Hne).
  assert (Hlen : (2 ≤ List.length group)%nat).
  { destruct group as [| a [| b l]]; [inversion Ho | | cbn; lia].
    apply list_elem_of_singleton in Ho, Hn. congruence. }
  assert (Hcand : (org_id, name) ∈ duplicate_candidates db).
  { apply duplicate_candidates_elem_of. fold F. now rewrite <- Hperm. }
  assert (Hflat : ∀ g, g ∈ duplicate_groups_of db org_id name n r →
                       g ∈ find_duplicate_accounts db n r).
  { intros g Hg. unfold find_duplicate_accounts. apply list_elem_of_In, in_flat_map.
    exists (org_id, name). split; apply list_elem_of_In; done. }
  unfold duplicate_groups_of in Hflat. fold F in Hflat. fold group in Hflat.
  set (pairs := filter (λ p, pair_is_duplicate_in_group db p.1 p.2 n r = true)
                       (pairs_in_order group)) in *.
  set (sets0 := foldl (λ sets p, add_pair p.1 p.2 sets) [] pairs) in *.
  destruct (decide (List.length group = 2%nat)) as [Htwo | Hmore].
  - (* a group of two *)
    destruct group as [| a [| b [| c l]]] eqn:E; try discriminate Htwo.
    cbn [pairs_in_order List.map app] in Hpair.
    apply list_elem_of_singleton in Hpair. injection Hpair as -> ->.
    exists (mkDuplicateGroup org_id name [a; b]). split.
    + apply Hflat. rewrite Hpass. left.
    + cbn. split; [done |]. split; [done |]. split; [left | right; left].
  - (* a larger group *)
    assert (Hin : (older, newer) ∈ pairs).
    { apply list_elem_of_filter. split; [exact Hpass | exact Hpair]. }
    destruct (add_pairs_cover group Hids pairs) with (sets := @nil (list Account.t))
      as (HinL & _ & Hcov).
    { intros [a b] Hp. apply list_elem_of_filter in Hp as [_ Hp].
      apply pairs_in_order_elem_of in Hp as (Ha & Hb & _);
        [done | exact (NoDup_fmap_1 _ _ Hids)]. }
    { constructor. }
    destruct (Hcov _ Hin) as (s & Hs & Hos & Hns). fold sets0 in Hs, HinL.
    destruct (merge_overlapping_cover group Hids (List.length sets0) sets0
                ltac:(lia) HinL s Hs) as (s' & Hs' & Hsub).
    exists (mkDuplicateGroup org_id name (sort_by account_le s')). split.
    + apply Hflat.
      destruct group as [| a [| b [| c l]]] eqn:E;
        try (apply list_elem_of_fmap; exists s'; done).
      now contradiction Hmore.
    + cbn. split; [done |]. split; [done |].
      rewrite !sort_by_perm. split; apply Hsub; done.
Qed.
(** The detector on three accounts with the same name. *)
Lemma db_three_accounts_keyed : accounts_keyed ExM.db_three_accounts.
Proof.
  intros k a H. unfold ExM.db_three_accounts in H.
  cbn [accounts set_transactions set_accounts] in H. unfold Ex.merge_accounts_table in H.
  repeat (apply lookup_insert_Some in H as [[<- <-] | [_ H]]; [reflexivity |]).
  rewrite lookup_empty in H. discriminate H.
Defined.

Lemma db_three_accounts_groups :
  find_duplicate_accounts ExM.db_three_accounts default_sample_size default_min_match_ratio
  = [ExM.group_of_three].
Proof. vm_compute. reflexivity. Qed.

Lemma db_three_accounts_group :
  sort_by account_le
    (filter (λ a, Account.org_id a = "org-1" ∧ Account.name a = "Checking")
            (rows (accounts ExM.db_three_accounts)))
  = group_accounts ExM.group_of_three.
Proof. vm_compute. reflexivity. Qed.

Lemma find_duplicate_accounts_groups_witness :
  find_duplicate_accounts ExM.db_three_accounts default_sample_size default_min_match_ratio
  = [ExM.group_of_three]
  ∧ NoDup (Account.id <$> group_accounts ExM.group_of_three)
  ∧ Sorted (λ a b, account_le a b = true) (group_accounts ExM.group_of_three).
Proof.
  split; [exact db_three_accounts_groups |].
  destruct (find_duplicate_accounts_groups ExM.db_three_accounts default_sample_size
              default_min_match_ratio ExM.group_of_three db_three_accounts_keyed)
    as (_ & H1 & H2 & _).
  { rewrite db_three_accounts_groups. left. }
  split; [exact H1 | exact H2].
Defined.

Lemma find_duplicate_accounts_reports_pairs_witness :
  ∃ g, g ∈ find_duplicate_accounts ExM.db_three_accounts default_sample_size
             default_min_match_ratio
       ∧ Ex.acct "A" "Checking" (Some (Ex.days_ago 800)) ∈ group_accounts g
       ∧ Ex.acct "D" "Checking" (Some (Ex.days_ago 1)) ∈ group_accounts g.
Proof.
  destruct (find_duplicate_accounts_reports_pairs ExM.db_three_accounts default_sample_size
              default_min_match_ratio "org-1" "Checking"
              (Ex.acct "A" "Checking" (Some (Ex.days_ago 800)))
              (Ex.acct "D" "Checking" (Some (Ex.days_ago 1)))
              db_three_accounts_keyed) as (g & Hg & _ & _ & Ha & Hd).
  - rewrite db_three_accounts_group. cbn. right. left.
  - rewrite db_three_accounts_group. cbn [group_accounts ExM.group_of_three List.length].
    rewrite decide_False by discriminate. vm_compute. reflexivity.
  - exists g. split; [exact Hg |]. split; [exact Ha | exact Hd].
Defined.
(** ** Initial sync: the month limit *)

Section InitialSyncLimit.

Variable World : Type.
Variable process_sync_range : World → Month → Month → World * (error + Z).
Variable limit : Z.
Hypothesis limit_pos : 0 < limit.



End InitialSyncLimit.

(** ** The merge keeps the foreign keys to the accounts *)

Section MergeIntegrity.

Variables (cutoff_date : Py.datetime) (target_account_id : string)
          (preserve_categorization : bool)
          (target_txn_map : gmap (Py.datetime * Py.float * string) Transaction.t).

Let step := merge_step cutoff_date target_account_id preserve_categorization target_txn_map.

(** A turn of the loop stores no new transaction, and the account of a
    stored transaction is the one it had or the target. *)
Lemma merge_step_account_ids w st x k y :
  transactions (stored (step (w, st) x).1) !! k = Some y →
  ∃ y0, transactions (stored w) !! k = Some y0
        ∧ (Transaction.account_id y = Transaction.account_id y0
           ∨ Transaction.account_id y = target_account_id).
Proof.
  unfold step, merge_step.
  destruct (cutoff_date <=? Transaction.posted x).
  - assert (Hcopy : ∀ tgt,
              transactions (stored (copy_categorization x tgt w)) !! k = Some y →
              ∃ y0, transactions (stored w) !! k = Some y0
                    ∧ Transaction.account_id y = Transaction.account_id y0).
    { intros tgt. unfold copy_categorization. cbn [stored].
      destruct (truthy_opt _); cbn [transactions set_transactions delete_splits_of
                                      set_transaction_splits]; [| eauto].
      destruct (decide (k = Transaction.id tgt)) as [-> | Hne].
      - rewrite lookup_alter_eq.
        destruct (transactions (stored w) !! Transaction.id tgt) as [y0 |]; [| discriminate].
        cbn. intros [= <-]. eauto.
      - rewrite lookup_alter_ne by done. eauto. }
    destruct (target_txn_map !! txn_key x) as [tgt |]; [destruct preserve_categorization |];
      cbn [fst stored]; try (intros H; eauto; fail).
    intros H. destruct (Hcopy tgt H) as (y0 & Hy0 & Hacc). eauto.
  - cbn [fst stored set_stored transactions set_transactions].
    destruct (decide (k = Transaction.id x)) as [-> | Hne].
    + rewrite lookup_alter_eq.
      destruct (transactions (stored w) !! Transaction.id x) as [y0 |]; [| discriminate].
      cbn. intros [= <-]. eauto.
    + rewrite lookup_alter_ne by done. eauto.
Qed.

Lemma merge_loop_account_ids (l : list Transaction.t) : ∀ w st k y,
  transactions (stored (foldl step (w, st) l).1) !! k = Some y →
  ∃ y0, transactions (stored w) !! k = Some y0
        ∧ (Transaction.account_id y = Transaction.account_id y0
           ∨ Transaction.account_id y = target_account_id).
Proof.
  induction l as [| x l IH]; intros w st k y; cbn [foldl]; [eauto |].
  destruct (step (w, st) x) as [w1 st1] eqn:E. intros H.
  destruct (IH w1 st1 k y H) as (y1 & Hy1 & Hacc1).
  pose proof (merge_step_account_ids w st x k y1) as Hstep. rewrite E in Hstep.
  destruct (Hstep Hy1) as (y0 & Hy0 & Hacc0). exists y0. split; [done |].
  destruct Hacc1 as [-> | ->]; [exact Hacc0 | now right].
Qed.

End MergeIntegrity.

(** A merge leaves no orphan behind.  When every transaction, holding and
    balance belongs to a stored account before the merge, the same holds
    after it, although the source account is deleted: what belonged to it
    was moved to the target or is deleted with it.  This holds also when
    source and target are the same account. *)
Theorem merge_accounts_keeps_integrity now db source target preserve months sa ta :
  transactions_keyed db → accounts_referred db →
  accounts db !! source = Some sa → accounts db !! target = Some ta →
  Account.org_id sa = Account.org_id ta → Account.name sa = Account.name ta →
  ∃ db' stats,
    merge_accounts now db source target preserve months = Ok db' stats
    ∧ accounts db' = delete source (accounts db)
    ∧ accounts_referred db'.
Proof.
  intros Hkeyed (Hrt & Hrh & Hrb) Hs Ht Ho Hn.
  rewrite (merge_accounts_run now db source target preserve months sa ta Hs Ht Ho Hn).
  cbn zeta.
  destruct (merge_accounts_before_commit now db source target preserve months Hkeyed)
    as (Ha & Hp & Hc & Hb & Hq & Hda & Hdt & Ht2 & Hs2 & Had & Hhs & Hh).
  pose proof (merge_loop_account_ids (merge_cutoff now months) target preserve
                (build_txn_map (transactions_of db target)) (transactions_of db source)
                (mkWork db [] [] []) (mkMergeStats 0 0 0 0 false)) as Hids.
  set (st1 := foldl _ _ (transactions_of db source)) in *.
  set (hs := filter _ (rows (holdings (stored st1.1)))) in *.
  set (w2 := (foldl (holding_step target) st1 hs).1) in *.
  set (w3 := mkWork _ _ _ _).
  assert (Hw3 : deleted_accounts w3 = [source]) by (cbn; now rewrite Hda).
  destruct (commit_tables w3 source Hw3) as (Hca & Hct).
  destruct (commit_other_tables w3 source Hw3) as (Hch & Hcb & _).
  cbn [w3 stored deleted_transactions] in Hca, Hct, Hch, Hcb. cbn [stored] in Hids.
  eexists _, _. split; [reflexivity |]. split; [now rewrite Hca, Ha |].
  assert (Hacc : ∀ i, i ≠ source → is_Some (accounts db !! i) →
                      is_Some (accounts (commit w3) !! i)).
  { intros i Hne Hi. rewrite Hca, Ha. now rewrite lookup_delete_ne. }
  split; [| split].
  - intros k y Hk. rewrite Hct in Hk.
    destruct (decide (k ∈ deleted_transactions w2)); [discriminate |].
    destruct (transactions (stored w2) !! k) as [y' |] eqn:Hy'; [| discriminate].
    destruct (decide (Transaction.account_id y' = source)) as [| Hne]; [discriminate |].
    injection Hk as <-. apply Hacc; [done |].
    rewrite Ht2 in Hy'. destruct (Hids k y' Hy') as (y0 & Hy0 & [-> | ->]).
    + exact (Hrt k y0 Hy0).
    + eauto.
  - intros k h Hk. rewrite Hch in Hk. apply map_lookup_filter_Some in Hk as [Hk Hne].
    cbn in Hne. apply Hacc; [done |]. rewrite Hh in Hk.
    destruct (decide (k ∈ List.map Holding.id hs)).
    + destruct (holdings db !! k) as [h0 |]; [| discriminate].
      cbn in Hk. injection Hk as <-. cbn. eauto.
    + exact (Hrh k h Hk).
  - intros k b Hk. rewrite Hcb, Hb in Hk. apply map_lookup_filter_Some in Hk as [Hk Hne].
    cbn in Hne. apply Hacc; [done |]. exact (Hrb k b Hk).
Qed.

Lemma merge_accounts_keeps_integrity_witness :
  ∃ db' stats,
    merge_accounts Ex.now ExM.db_merge_full "A" "B" true 12 = Ok db' stats
    ∧ accounts_referred db'.
Proof.
  destruct (merge_accounts_keeps_integrity Ex.now ExM.db_merge_full "A" "B" true 12
              (Ex.acct "A" "Checking" (Some (Ex.days_ago 800)))
              (Ex.acct "B" "Checking" (Some (Ex.days_ago 3)))
              db_merge_full_keyed db_merge_full_referred eq_refl eq_refl eq_refl eq_refl)
    as (db' & stats & Hrun & _ & H).
  exists db', stats. split; [exact Hrun | exact H].
Defined.
(** ** Ingestion of balances *)

(** [process_account_balance] records a balance once.  A call that
    returns leaves a balance row for the account and the balance date of
    the record (when the record has a balance date), keeps every row
    stored before, and a second call on the same record changes nothing.
    It never stores a second row for an account and a date: when no
    account had two balance rows for one date before, none has
    afterwards.  A record without a usable balance date is skipped, and
    no other table is touched. *)
Theorem process_account_balance_once (db : DB) (account_data : RemoteBalance) (db1 : DB) :
  balances_fresh db → balances_unique db →
  process_account_balance db account_data = Ok db1 tt →
  balances_fresh db1 ∧ balances_unique db1
  ∧ process_account_balance db1 account_data = Ok db1 tt
  ∧ (∀ k b, account_balance db !! k = Some b → account_balance db1 !! k = Some b)
  ∧ (rb_balance_date account_data = None → db1 = db)
  ∧ (∀ balance_dt account_id,
       rb_balance_date account_data = Some balance_dt →
       rb_id account_data = Some account_id →
       ∃ k b, account_balance db1 !! k = Some b
              ∧ AccountBalance.account_id b = account_id
              ∧ AccountBalance.balance_date b = balance_dt)
  ∧ accounts db1 = accounts db ∧ transactions db1 = transactions db
  ∧ transaction_splits db1 = transaction_splits db ∧ holdings db1 = holdings db.
Proof.
  intros Hfresh Huniq. unfold process_account_balance at 1.
  destruct (rb_balance_date account_data) as [balance_dt |] eqn:Hdt.
  2: { intros [= <-]. unfold process_account_balance. rewrite Hdt.
       repeat split; try done; intros ? ? [=]. }
  destruct (rb_id account_data) as [account_id |] eqn:Hid; [| discriminate].
  set (P := λ b : AccountBalance.t,
              AccountBalance.account_id b = account_id
              ∧ AccountBalance.balance_date b = balance_dt).
  destruct (head (filter P (rows (account_balance db)))) as [b0 |] eqn:Hex.
  - (* a row for the account and the date is stored *)
    intros [= <-].
    assert (Hb0 : b0 ∈ filter P (rows (account_balance db))) by now apply head_Some_elem_of.
    apply list_elem_of_filter in Hb0 as [[Ha0 Hd0] Hb0]. apply rows_elem_of in Hb0 as [k0 Hk0].
    split; [done |]. split; [done |]. split.
    { unfold process_account_balance. rewrite Hdt, Hid. fold P. now rewrite Hex. }
    split; [done |]. split; [discriminate |]. split; [| done].
    intros ? ? [= <-] [= <-]. eauto.
  - (* no such row: one is added *)
    destruct (rb_balance account_data) as [balance0 |]; [| discriminate].
    destruct (rb_available_balance account_data) as [available0 |]; [| discriminate].
    unfold create_account_balance.
    destruct (Numeric_12_2 balance0) as [balance |]; [| discriminate].
    destruct (match available0 with
              | None => Some None
              | Some available => Some <$> Numeric_12_2 available
              end) as [available |]; [| discriminate].
    destruct (bool_decide (is_Some (accounts db !! account_id))); [| discriminate].
    intros [= <-].
    set (row := AccountBalance.mk account_id balance available balance_dt).
    assert (Hnone : ∀ k b, account_balance db !! k = Some b → ¬ P b).
    { intros k b Hk HP.
      assert (Hin : b ∈ filter P (rows (account_balance db))).
      { apply list_elem_of_filter. split; [done |]. apply rows_elem_of. eauto. }
      destruct (filter P (rows (account_balance db))); [inversion Hin | discriminate]. }
    assert (Hfree : account_balance db !! balance_seq db = None).
    { destruct (account_balance db !! balance_seq db) eqn:E; [| done].
      assert (balance_seq db < balance_seq db) by (apply Hfresh; eauto). lia. }
    split; [| split; [| split; [| split; [| split; [discriminate | split; [| done]]]]]].
    + intros k [b Hk]. cbn in *. destruct (decide (k = balance_seq db)) as [-> | Hne]; [lia |].
      rewrite lookup_insert_ne in Hk by done.
      assert (k < balance_seq db) by (apply Hfresh; eauto). lia.
    + intros k1 k2 b1 b2 H1 H2 Ha Hd. cbn in H1, H2.
      destruct (decide (k1 = balance_seq db)) as [-> | Hne1];
        destruct (decide (k2 = balance_seq db)) as [-> | Hne2]; [done | | |].
      * rewrite lookup_insert_eq in H1. injection H1 as <-.
        rewrite lookup_insert_ne in H2 by done.
        exfalso. apply (Hnone k2 b2 H2). split; [now rewrite <- Ha | now rewrite <- Hd].
      * rewrite lookup_insert_eq in H2. injection H2 as <-.
        rewrite lookup_insert_ne in H1 by done.
        exfalso. apply (Hnone k1 b1 H1). split; [now rewrite Ha | now rewrite Hd].
      * rewrite lookup_insert_ne in H1, H2 by done. exact (Huniq k1 k2 b1 b2 H1 H2 Ha Hd).
    + unfold process_account_balance. rewrite Hdt, Hid. fold P.
      destruct (head (filter P (rows (account_balance (add_balance row db))))) eqn:E;
        [done |].
      exfalso.
      assert (Hin : row ∈ filter P (rows (account_balance (add_balance row db)))).
      { apply list_elem_of_filter. split; [done |]. apply rows_elem_of.
        exists (balance_seq db). cbn. apply lookup_insert_eq. }
      destruct (filter P (rows (account_balance (add_balance row db))));
        [inversion Hin | discriminate].
    + intros k b Hk. cbn. rewrite lookup_insert_ne; [done |]. congruence.
    + intros ? ? [= <-] [= <-]. exists (balance_seq db), row. cbn.
      now rewrite lookup_insert_eq.
Qed.

Lemma process_account_balance_once_witness :
  ∃ db1, process_account_balance Ex.db_one_account ExM.remote_balance = Ok db1 tt
         ∧ process_account_balance db1 ExM.remote_balance = Ok db1 tt
         ∧ balances_unique db1.
Proof.
  eexists. split; [reflexivity |].
  destruct (process_account_balance_once Ex.db_one_account ExM.remote_balance _
              ltac:(intros k [b Hk]; vm_compute in Hk; discriminate)
              ltac:(intros k1 k2 b1 b2 Hk; vm_compute in Hk; discriminate)
              eq_refl) as (_ & H1 & H2 & _).
  split; [exact H2 | exact H1].
Defined.
(** ** DuplicateAccountDetector: the threshold *)

Lemma account_le_antisym (a b : Account.t) :
  account_le a b = true → account_le b a = true → Account.id a = Account.id b.
Proof.
  unfold account_le.
  destruct (Account.created_at a) as [x |], (Account.created_at b) as [y |];
    try discriminate.
  - rewrite !orb_true_iff, !andb_true_iff, !Z.ltb_lt, !Z.eqb_eq.
    intros [H1 | [E1 H1]] [H2 | [E2 H2]]; try lia. now apply String.leb_antisym.
  - apply String.leb_antisym.
Qed.

(** The groups reported for one [(org_id, name)] are those the detector
    computes for it, when two or more accounts carry it. *)
Lemma find_duplicate_accounts_of (db : DB) (org_id name : string) (n : Z) (r : Py.float) :
  filter (λ g, group_org_id g = org_id ∧ group_name g = name)
         (find_duplicate_accounts db n r)
  = if decide ((org_id, name) ∈ duplicate_candidates db)
    then duplicate_groups_of db org_id name n r else [].
Proof.
  unfold find_duplicate_accounts.
  assert (Hnd : NoDup (duplicate_candidates db)).
  { unfold duplicate_candidates. apply NoDup_filter, NoDup_remove_dups. }
  assert (Hkey : ∀ k g, g ∈ duplicate_groups_of db k.1 k.2 n r →
                        (group_org_id g, group_name g) = k).
  { intros [o m] g. cbn [fst snd]. unfold duplicate_groups_of.
    destruct (sort_by account_le _) as [| a [| b [| c l]]];
      try (intros Hg; apply list_elem_of_fmap in Hg as (s & -> & _); reflexivity).
    destruct (pair_is_duplicate _ _ _ _ _); [| intros Hg; inversion Hg].
    intros Hg. apply list_elem_of_singleton in Hg as ->. reflexivity. }
  assert (Hall : ∀ k, filter (λ g, group_org_id g = org_id ∧ group_name g = name)
                             (duplicate_groups_of db k.1 k.2 n r)
                      = if decide (k = (org_id, name))
                        then duplicate_groups_of db org_id name n r else []).
  { intros k. destruct (decide (k = (org_id, name))) as [-> | Hne].
    - apply filter_all, Forall_forall. intros g Hg.
      apply (Hkey (org_id, name)) in Hg. now injection Hg as -> ->.
    - apply filter_none, Forall_forall. intros g Hg [Ho Hn].
      apply Hkey in Hg. apply Hne. now rewrite <- Hg, Ho, Hn. }
  induction (duplicate_candidates db) as [| k l IH]; cbn [flat_map].
  - rewrite decide_False by apply not_elem_of_nil. reflexivity.
  - apply NoDup_cons in Hnd as [Hnin Hnd].
    rewrite filter_app, Hall, (IH Hnd).
    destruct (decide (k = (org_id, name))) as [-> | Hne].
    + destruct (decide ((org_id, name) ∈ (org_id, name) :: l)) as [_ | H];
        [| exfalso; apply H; left].
      destruct (decide ((org_id, name) ∈ l)) as [H | _]; [done |]. apply app_nil_r.
    + cbn [app].
      destruct (decide ((org_id, name) ∈ l)) as [Hin | Hnin'],
               (decide ((org_id, name) ∈ k :: l)) as [Hin' | Hnin'']; try reflexivity.
      * exfalso. apply Hnin''. now right.
      * exfalso. apply elem_of_cons in Hin' as [H | H]; [congruence | done].
Qed.

(** The accounts the detector looks at for an [(org_id, name)] that
    exactly two accounts carry, the older first. *)
Lemma sorted_group_of_two (db : DB) (org_id name : string) (older newer : Account.t) :
  accounts_keyed db →
  (∀ a, (∃ k, accounts db !! k = Some a)
        ∧ Account.org_id a = org_id ∧ Account.name a = name
        ↔ a = older ∨ a = newer) →
  Account.id older ≠ Account.id newer →
  account_le older newer = true →
  sort_by account_le
    (filter (λ a, Account.org_id a = org_id ∧ Account.name a = name) (rows (accounts db)))
  = [older; newer].
Proof.
  intros Hkeyed Hboth Hne Hle.
  set (F := filter (λ a, Account.org_id a = org_id ∧ Account.name a = name)
                   (rows (accounts db))).
  assert (Hperm : F ≡ₚ [older; newer]).
  { apply NoDup_Permutation.
    - apply (NoDup_fmap_1 Account.id).
      pose proof (rows_NoDup_id Account.id (accounts db) Hkeyed) as Hrows.
      apply (sublist_NoDup _ _ Hrows). apply fmap_sublist, sublist_filter.
    - apply NoDup_cons. split; [| apply NoDup_singleton].
      intros H. apply list_elem_of_singleton in H. congruence.
    - intros a. unfold F. rewrite list_elem_of_filter, rows_elem_of.
      rewrite !elem_of_cons, elem_of_nil. pose proof (Hboth a) as Ha. tauto. }
  assert (Hsort : ∀ x y : Account.t,
            sort_by account_le [x; y] = if account_le x y then [x; y] else [y; x]).
  { intros x y. reflexivity. }
  destruct F as [| x [| y [| z l]]] eqn:EF;
    try (apply Permutation_length in Hperm; discriminate Hperm).
  rewrite Hsort.
  assert (Hx : x = older ∨ x = newer).
  { assert (H : x ∈ [older; newer]) by (rewrite <- Hperm; left).
    rewrite !elem_of_cons, elem_of_nil in H. tauto. }
  assert (Hy : y = older ∨ y = newer).
  { assert (H : y ∈ [older; newer]) by (rewrite <- Hperm; right; left).
    rewrite !elem_of_cons, elem_of_nil in H. tauto. }
  assert (Hxy : x ≠ y).
  { intros ->. apply Permutation_sym in Hperm.
    assert (Hnd : NoDup [y; y]) by (rewrite <- Hperm; apply NoDup_cons; split;
      [intros H; apply list_elem_of_singleton in H; congruence | apply NoDup_singleton]).
    apply NoDup_cons in Hnd as [Hnd _]. apply Hnd. left. }
  destruct Hx as [-> | ->], Hy as [-> | ->]; try done.
  - now rewrite Hle.
  - destruct (account_le newer older) eqn:Hle'; [| reflexivity].
    exfalso. apply Hne. now apply account_le_antisym.
Qed.

(** C6 (amended). Duplicate-detection threshold: when exactly two accounts
    share [(org_id, name)], [older] first in the order of [created_at]
    (nulls last) then [id], the detector reports them as one group exactly
    when the sample (the up-to-[sample_size] most recent transactions of
    [older]) is not empty and the share of its transactions whose natural
    key is the key of a transaction of [newer] reaches [min_match_ratio];
    otherwise it reports nothing for that [(org_id, name)], and in
    particular nothing when [older] has no transaction.  At the default
    ratio 0.8 a sample of five is reported with four matches and not with
    three. *)
Theorem C6_duplicate_threshold
    (db : DB) (org_id name : string) (older newer : Account.t)
    (sample_size : Z) (min_match_ratio : Py.float) :
  accounts_keyed db →
  (∀ a, (∃ k, accounts db !! k = Some a)
        ∧ Account.org_id a = org_id ∧ Account.name a = name
        ↔ a = older ∨ a = newer) →
  Account.id older ≠ Account.id newer →
  account_le older newer = true →
  0 <= sample_size →
  let sample := recent_transactions db (Account.id older) sample_size in
  let matches :=
    Z.of_nat (List.length (filter (λ x, key_matches_target db (Account.id newer) x) sample)) in
  let flagged :=
    sample ≠ []
    ∧ Py.float_leb min_match_ratio
        (Py.float_div_int matches (Z.of_nat (List.length sample))) = true in
  let reported :=
    filter (λ g, group_org_id g = org_id ∧ group_name g = name)
           (find_duplicate_accounts db sample_size min_match_ratio) in
  (flagged → reported = [mkDuplicateGroup org_id name [older; newer]])
  ∧ (¬ flagged → reported = [])
  ∧ (transactions_of db (Account.id older) = [] → reported = [])
  ∧ List.length sample
    = Nat.min (Z.to_nat sample_size) (List.length (transactions_of db (Account.id older)))
  ∧ (∃ rest, transactions_of db (Account.id older) ≡ₚ sample ++ rest
             ∧ ∀ x y, x ∈ sample → y ∈ rest →
                      Transaction.posted y <= Transaction.posted x)
  ∧ ratio_reached 4 5 default_min_match_ratio = true
  ∧ ratio_reached 3 5 default_min_match_ratio = false.
Proof.
  intros Hkeyed Hboth Hne Hle Hsize sample matches flagged reported.
  pose proof (sorted_group_of_two db org_id name older newer Hkeyed Hboth Hne Hle) as Hgroup.
  assert (Hcand : (org_id, name) ∈ duplicate_candidates db).
  { apply duplicate_candidates_elem_of.
    rewrite <- (Permutation_length
                  (sort_by_perm account_le
                     (filter (λ a, Account.org_id a = org_id ∧ Account.name a = name)
                             (rows (accounts db))))).
    rewrite Hgroup. cbn. lia. }
  assert (E : reported
              = if pair_is_duplicate db older newer sample_size min_match_ratio
                then [mkDuplicateGroup org_id name [older; newer]] else []).
  { unfold reported. rewrite find_duplicate_accounts_of, decide_True by exact Hcand.
    unfold duplicate_groups_of. rewrite Hgroup. reflexivity. }
  assert (P : pair_is_duplicate db older newer sample_size min_match_ratio = true ↔ flagged).
  { unfold pair_is_duplicate, flagged. fold sample.
    destruct sample as [| x l] eqn:Hs.
    - split; [discriminate | intros [H _]; done].
    - rewrite count_matches_spec. unfold ratio_reached. fold matches.
      split; [intros H; split; [discriminate | exact H] | intros [_ H]; exact H]. }
  assert (Hlen : List.length sample
                 = Nat.min (Z.to_nat sample_size)
                           (List.length (transactions_of db (Account.id older)))).
  { unfold sample, recent_transactions. rewrite length_take.
    now rewrite (Permutation_length (sort_by_perm posted_desc _)). }
  split; [| split; [| split; [| split; [| split; [| split]]]]].
  - intros Hf. apply P in Hf. now rewrite E, Hf.
  - intros Hf. rewrite E.
    destruct (pair_is_duplicate db older newer sample_size min_match_ratio); [| reflexivity].
    exfalso. apply Hf, P. reflexivity.
  - intros Hnone. rewrite E. unfold pair_is_duplicate. fold sample.
    rewrite Hnone in Hlen. cbn in Hlen. rewrite Nat.min_0_r in Hlen.
    destruct sample; [reflexivity | discriminate Hlen].
  - exact Hlen.
  - apply recent_transactions_most_recent.
  - vm_compute. reflexivity.
  - vm_compute. reflexivity.
Qed.

Lemma merge_accounts_table_pair (a : Account.t) :
  (∃ k, Ex.merge_accounts_table !! k = Some a)
  ∧ Account.org_id a = "org-1" ∧ Account.name a = "Checking"
  ↔ a = Ex.acct "A" "Checking" (Some (Ex.days_ago 800))
    ∨ a = Ex.acct "B" "Checking" (Some (Ex.days_ago 3)).
Proof.
  unfold Ex.merge_accounts_table. split.
  - intros ([k Hk] & _ & Hn).
    repeat (apply lookup_insert_Some in Hk as [[_ <-] | [_ Hk]]; [tauto || discriminate Hn |]).
    rewrite lookup_empty in Hk. discriminate Hk.
  - intros [-> | ->]; (split; [| split; reflexivity]).
    + exists "A". reflexivity.
    + exists "B". reflexivity.
Defined.

Lemma db_duplicates_keyed (n : nat) : accounts_keyed (Ex.db_duplicates n).
Proof.
  intros k a H. unfold Ex.db_duplicates in H.
  cbn [accounts set_transactions set_accounts] in H. unfold Ex.merge_accounts_table in H.
  repeat (apply lookup_insert_Some in H as [[<- <-] | [_ H]]; [reflexivity |]).
  rewrite lookup_empty in H. discriminate H.
Defined.

(** Four of the five sampled transactions of ["A"] are in ["B"]: the pair
    is reported; with three of five it is not. *)
Lemma C6_duplicate_threshold_witness :
  filter (λ g, group_org_id g = "org-1" ∧ group_name g = "Checking")
         (find_duplicate_accounts (Ex.db_duplicates 4) default_sample_size
            default_min_match_ratio)
  = [mkDuplicateGroup "org-1" "Checking"
       [Ex.acct "A" "Checking" (Some (Ex.days_ago 800));
        Ex.acct "B" "Checking" (Some (Ex.days_ago 3))]]
  ∧ filter (λ g, group_org_id g = "org-1" ∧ group_name g = "Checking")
           (find_duplicate_accounts (Ex.db_duplicates 3) default_sample_size
              default_min_match_ratio)
    = [].
Proof.
  split.
  - refine (proj1 (C6_duplicate_threshold (Ex.db_duplicates 4) "org-1" "Checking"
             (Ex.acct "A" "Checking" (Some (Ex.days_ago 800)))
             (Ex.acct "B" "Checking" (Some (Ex.days_ago 3)))
             default_sample_size default_min_match_ratio
             (db_duplicates_keyed 4) merge_accounts_table_pair _ _ _) _).
    + discriminate.
    + vm_compute. reflexivity.
    + vm_compute. discriminate.
    + split; [vm_compute; discriminate | vm_compute; reflexivity].
  - refine (proj1 (proj2 (C6_duplicate_threshold (Ex.db_duplicates 3) "org-1" "Checking"
             (Ex.acct "A" "Checking" (Some (Ex.days_ago 800)))
             (Ex.acct "B" "Checking" (Some (Ex.days_ago 3)))
             default_sample_size default_min_match_ratio
             (db_duplicates_keyed 3) merge_accounts_table_pair _ _ _)) _).
    + discriminate.
    + vm_compute. reflexivity.
    + vm_compute. discriminate.
    + intros [_ H]. vm_compute in H. discriminate.
Defined.

(** C6 as stated fails when three accounts share [(org_id, name)]: the
    accounts that pass the test with a common third one are reported in
    one group.  ["B"] and ["D"] both hold four of the five most recent
    transactions of ["A"], so that each passes the test with ["A"]; of the
    four sampled transactions of ["B"] only three are in ["D"], which is
    below the ratio of 0.8, and still ["B"] and ["D"] are reported together
    as duplicates. *)
Lemma C6_transitive_group_reports_failing_pair :
  let B := Ex.acct "B" "Checking" (Some (Ex.days_ago 3)) in
  let D := Ex.acct "D" "Checking" (Some (Ex.days_ago 1)) in
  let sample := recent_transactions ExM.db_chain "B" default_sample_size in
  account_le B D = true
  ∧ List.length sample = 4%nat
  ∧ List.length (filter (λ x, key_matches_target ExM.db_chain "D" x) sample) = 3%nat
  ∧ ratio_reached 3 4 default_min_match_ratio = false
  ∧ pair_is_duplicate ExM.db_chain B D default_sample_size default_min_match_ratio = false
  ∧ pair_is_duplicate_in_group ExM.db_chain B D default_sample_size default_min_match_ratio
    = false
  ∧ find_duplicate_accounts ExM.db_chain default_sample_size default_min_match_ratio
    = [mkDuplicateGroup "org-1" "Checking"
         [Ex.acct "A" "Checking" (Some (Ex.days_ago 800)); B; D]].
Proof. vm_compute. repeat split; reflexivity. Qed.
